(* ===== verification/_CoqProject ===== *)
-Q . S2P
Prelude.v
Filepath.v
FileSystem.v
Env.v
Concrete.v
LocalFile.v
Artifacts.v
Machine.v
TwoRuns.v
Crash.v
Interleave.v
Reload.v
Algorithm.v
Strings.v
Strconv.v
Regexp.v
Float64.v
Atof.v
Decimal.v
Minus.v
Validation.v
Amounts.v
EnsName.v
