(* ===== verification/Prelude.v ===== *)
(** * Verification of the smartnode rewards-artifact pipeline

    ** The program

    The sources are three Go files of the Rocket Pool smartnode.

    - src/shared/services/rewards/files.go saves the two files of a
      rewards interval: the minipool performance file and the rewards
      file.  A [LocalFile] binds a serializable file to a path; its
      methods serialize, write, and write a zstd copy while computing the
      content identifier of that copy.  [saveJSONArtifacts] runs a loop
      over the two wrappers, performance file first: write, identify,
      record; on a trusted node also compress, identify and record the
      copy, and, between the two files, store the identifier of the
      compressed performance file in the rewards file, which is then
      serialized with it.  Two readers load the files back.
    - src/shared/utils/cli/validation.go holds nineteen validators of
      command-line values.
    - src/rocketpool-cli/wallet/ens-name.go holds two commands that send
      one transaction each through the daemon.

    ** The files

    - Prelude.v (this file): Go values shared by every component (byte
      slices, [error] values with the wrapping of [fmt.Errorf], the three
      outcomes of a call: a value, a returned error, a panic), the monad
      [prog] of state and outcome in which stateful Go code is written
      (the state is kept on every outcome, so nothing is undone by an
      error), the indexed loop [range], the relation [stable] for
      arguments of the kind "the state only grows", the relation [agree]
      for arguments of the kind "the outcome does not depend on that
      part of the state", and the automation the other files share: the
      scope [go_scope], the hint databases [go] and [go_rw], the tactics
      [prog_unfold], [prog_simpl], [case_prog] and [evaluated].
    - Filepath.v: [filepath.Base], module [filepath].
    - FileSystem.v: the disk of [os.ReadFile] and [os.WriteFile], module
      [FS]: the files, the log of the writes, the paths that cannot be
      written; the order [FS.le] of disks; a file torn by a crash
      ([FS.torn]) and a sequence of writes that was interrupted
      ([FS.interrupted]).
    - Env.v: what files.go takes from other packages, as the class [Env]
      (identifiers and [singleFileDirIPFSCid], zstd, the serializers of
      the two files) with its laws [EnvLaws]; the rewards file with the
      two header fields the code touches; the heap in which the files
      live and the pointers [IRewardsFile] and [IMinipoolPerformanceFile]
      through which the code shares them; the world (heap and disk).
    - Concrete.v: an instance of [Env] with its laws proved, on which the
      theorems are applied to inputs that evaluate.
    - LocalFile.v: [ISerializable], [LocalFile], [ILocalFile],
      [NewLocalFile], [Impl], [Serialize], [Write], [Path], [FileName],
      [CreateCompressedFileAndCid], [ReadLocalRewardsFile],
      [ReadLocalMinipoolPerformanceFile] (files.go, lines 13 to 141).
    - Artifacts.v: [saveJSONArtifacts] (files.go, lines 143 to 205): the
      slice of the two wrappers [artifactFiles], the body of the loop
      [saveOne], the variables [primaryCid] and [out] as [loopState].
    - Machine.v: the same function as a transition system: a [point] for
      every statement of lines 148 to 205 with the local variables live
      there, a [config] of a point, the variables [primaryCid] and [out]
      and the world, the relation [step] with a rule for every statement
      and branch, its function [next] and the bounded iteration [run].
    - TwoRuns.v: two runs of [saveJSONArtifacts] compared: the relation
      [twin] between the worlds of two runs that started on two disks.
    - Crash.v: the process dies at a statement of the machine: the disks
      a crash can leave ([crashDisk], listed by [crashDisks]), with the
      file being written torn, and the world in which the function is
      called again ([restart]).
    - Interleave.v: two runs in one process, the heap and the disk
      shared, their statements interleaved in any order ([istep],
      [schedule]).
    - Reload.v: the reader of the rewards file on the disk of the run
      that came after a crash.
    - Algorithm.v: the eight steps of section 4.4 of the specification
      as one sequence [orchestrate], the reference the code is compared
      with.
    - Strings.v, Strconv.v, Regexp.v: the functions of the Go libraries
      the validators call: [strings.ToLower], [strings.TrimSpace],
      [strings.Repeat]; [strconv.ParseUint] as its loop on 64 bits,
      [SetString] and [String] of [big.Int]; regular expressions matched
      by derivatives, with the two patterns of the validators.
    - Float64.v: the comparisons of [float64] (module [float64]), from
      the specification of the primitive floats: what a range test that
      passed says of the number, and that rounding gives no NaN.
    - Atof.v: [strconv.ParseFloat] (module [atof]) after the functions of
      the library's atof.go: [special] for the infinities and the NaN,
      [readFloat] for the scanner of decimal and hexadecimal numbers
      ([readSign], [readBase], [readMantissa], [readTail],
      [readExponent]), [underscoreOK], [atof64], [ParseFloat]; the
      value is the exact quotient rounded to the nearest float
      ([nearest], [valueOf]).  Decimal texts ([decimalText], [render],
      [meaning]) state what the scanner reads.
    - Decimal.v: the converse (module [decimal]): the texts the scanner
      reads to their end are the decimal texts, for the texts without an
      underscore and a base prefix ([usual]).
    - Minus.v: a text with the minus sign before it (module [minus]).
    - Validation.v: the validators of validation.go, one definition
      each, and the address predicates of go-ethereum (module [common]).
      The reader of floats and the check of mnemonics are the class
      [Libraries].
    - Amounts.v: the instance [goLibraries] of the class with the reader
      of Atof.v, and the validators of amounts on it.
    - EnsName.v: [setEnsName] and [setEnsAvatar] of ens-name.go (module
      [wallet]) as programs on the trace of their calls: an [event] per
      call of the daemon, prompt or print, the results of the calls in
      the record [answers], [defer rp.Close()] as [defer]; the protocol
      of a transaction as a labelled step relation [protocol] between
      the phases of a command, with its function [delta].

    ** How the model follows the code

    A method that returns [(T, error)] is a [prog World T]; an early
    [return ..., err] is the outcome [Err], and [fmt.Errorf("...%w", err)]
    is [wrap_err], written [orwrap].  A method that returns three values,
    the error last, returns them all ([CreateCompressedFileAndCid]); the
    caller's test [if err != nil] is [checked].  A dereference of a nil
    pointer is the outcome [Panic]: the final [return *primaryCid] of
    [saveJSONArtifacts] is a match on an option.  The rewards file is
    passed by pointer: the wrapper built before the loop and the call of
    [SetMinipoolPerformanceFileCID] inside it act on one object of the
    heap, and [Serialize] reads the heap when it is called.  Strings are
    sequences of bytes, as in Go.  A [uint64] is an [N] whose products
    and sums are taken modulo 2^64 ([strconv.wrap64]); a [big.Int] is a
    [Z]; a [float64] is a primitive float.

    ** What the theorems show

    - Artifacts.v.  A run on a trusted node returns a result exactly when
      each step of the specified sequence succeeds on the world the
      previous steps left, and then returns the identifier of the
      compressed rewards file with the map of the four identifiers
      ([saveJSONArtifacts_trusted_spec], from [trustedRun_sound] and
      [trustedRun_complete]).  From it: the rewards file on the disk
      carries the identifier of the compressed performance file, the four
      writes are in order, the compressed copy decodes to the plain file,
      the two files are read back as they are in memory
      ([reload_after_save], [reload_performance_after_save]), the map
      agrees with the disk, a second run changes nothing, two runs on
      one file agree.
      For every outcome: the writes are a prefix of the specified order
      ([writes_follow_the_order]) and no file is removed
      ([saveJSONArtifacts_no_rollback]).  On a node that is not trusted
      the function never returns a result: it panics on the nil
      [primaryCid] after writing the two files with the sentinel
      ([untrusted_run_never_returns],
      [untrusted_rewards_file_carries_sentinel]).  Error paths:
      [performance_write_error], [rewards_write_error_keeps_performance].
    - Machine.v.  The machine and the program agree: the run from the
      entry ends with the outcome and in the world of
      [saveJSONArtifacts] ([run_saveJSONArtifacts], from the lemmas
      [lands_bind], [lands_saveOne] and [lands_range] that follow the
      program call by call).  By induction on the steps
      ([reachable_ind]): every configuration of a run is well formed
      ([reachable_well_formed]); the world changes by writes of files and
      by the field MinipoolPerformanceFileCID only
      ([run_changes_files_and_cid_only], with the equivalence
      [sameButCid] of worlds); in the round of the rewards file the
      field has its final value, the sentinel or the identifier of the
      compressed performance file, and keeps it
      ([rewards_serialized_after_cid], the invariant of section 4.4 of
      the specification).  The map [out] holds base names of the four
      paths only, so four keys at most ([out_holds_four_names]).  That
      the machine stops is kept as lemmas for these proofs and is no
      theorem of its own, the loop being a range over a slice literal
      of two files: every step lowers [measure] ([step_decreases]), and
      from every configuration of a run the machine goes on to the exit
      of that run ([reachable_exit]).
    - TwoRuns.v.  A run reads the rewards file and never the disk: two
      runs on one rewards file, from two disks that refuse the same
      paths, have the same outcome, whatever it is, and make the same
      writes ([disk_content_is_irrelevant]).  Every call of the function
      agrees on twins, and [agree] composes along the monad.
    - Crash.v.  Wherever the process dies, the disk holds the first
      writes of the run, whole and in order, and at most the next file
      torn ([crash_leaves_a_prefix]); the function called again on that
      disk has the outcome of the run that did not crash and leaves its
      files ([recompute_after_crash]): the recomputation from scratch
      that section 7 of the specification asks for needs no cleaning.
    - Interleave.v.  Two runs in one process on two rewards files return
      what they return alone, in any order of their statements, and
      leave alone the files they do not share
      ([interleaved_runs_return_alone]); every interleaving ends
      ([istep_sn]).  On the same paths the disk can end with the
      performance file of one run and the rewards file of the other
      ([same_paths_mix_the_files]): what section 5 of the specification
      forbids.
    - Reload.v.  After a crash anywhere in a run and the run that
      follows it, [ReadLocalRewardsFile] gives the rewards file the run
      that did not crash has in memory ([reload_after_crash]).
    - Algorithm.v.  On every input the code leaves the world the eight
      steps leave and fails as they fail; where they return, the code
      returns the identifier of the compressed rewards file instead of
      the plain one on a trusted node, and panics on a node that is not
      trusted ([saveJSONArtifacts_vs_algorithm]).
    - LocalFile.v.  Each method on every branch; [Write] is all or
      nothing; the identifier [CreateCompressedFileAndCid] returns is the
      one of the bytes it wrote; a file written is read back equal; an
      error of [ReadLocalMinipoolPerformanceFile] leaves the world as it
      was and wraps its cause under the message of
      [ReadLocalRewardsFile], which names the rewards file
      ([performance_read_error_names_rewards_file]).
    - Strconv.v and Validation.v.  The loop of [ParseUint] computes the
      decimal value exactly when it is below 2^64 ([ParseUint_spec],
      [ValidateUint_spec]); what each validator accepts, stated on the
      text: words compared in lower case, integers by value, the two
      patterns by the shape of the text ([matches_lang] shows that the
      matcher decides the language of an expression).  A NaN passes the
      range checks on floats ([ValidateFraction_accepts_NaN]); apart from
      NaNs, the checks let through the numbers of the range and nothing
      else, an infinity being a positive amount
      ([float_validators_bounds]).
    - Atof.v, Decimal.v, Minus.v and Amounts.v.  [ParseFloat] returns a special
      value on the seven words of [specials], in any case of their
      letters, and a finite number on every other text it accepts
      ([ParseFloat_special], [ParseFloat_finite]: the rounding gives no
      NaN, and an infinity is the error [ErrRange]).  The bytes of a
      well-formed decimal text are read as the sign, the digits and the
      exponent they spell ([readFloat_decimal]), so the text is the
      number it spells, rounded ([ParseFloat_decimal],
      [ValidateEthAmount_decimal]).  Conversely, what the scanner reads to
      the end of a text without an underscore and a base prefix is a
      well-formed decimal text ([decimal.readFloat_shape]), so of these
      texts [ParseFloat] accepts the seven words and the decimal texts
      within the range and nothing else ([decimal.ParseFloat_usual],
      [ValidateEthAmount_spec]); [ValidateDepositEthAmount] accepts the
      decimal texts that round to 0, 16 or 32
      ([ValidateDepositEthAmount_spec]).  On this reader the validators return
      the NaN exactly on the text [nan]
      ([NaN_passes_the_range_checks]) and an infinity exactly on [inf]
      and [infinity] without a minus sign
      ([infinity_is_a_positive_amount]); every other amount returned is
      finite and in the range ([amounts_in_range]).  The float has the
      sign of the text ([ParseFloat_sign]), and the text with the minus
      sign before it is read as the opposite float
      ([minus.ParseFloat_opp]), so a text with a minus sign
      is no positive amount, and a fraction only as the zero with that
      sign ([amounts_with_a_minus_sign]).  The bounds are
      compared after rounding: [AmountsDemo.range_ends] and
      [AmountsDemo.deposit_amounts] give texts beyond a bound that are
      accepted.  [AtofDemo] runs the reader on the table of the library's
      tests for underscores and on the hard cases of rounding (halfway
      texts, the largest and the smallest numbers).
    - EnsName.v.  For every daemon and every user: the client is closed
      exactly when it was opened ([client_closed_when_opened]); one
      transaction at most is sent, after the estimate, the fees and an
      answer yes ([transaction_needs_confirmation]); an answer no is not
      an error ([cancel_is_not_an_error]); the flag --yes changes the
      call that settles the fees and nothing else, the prompt stays
      ([yes_flag_reaches_fees_only]); the events of a successful run, in
      order ([setEnsName_success]).  Every run of the two commands is a
      trace of the protocol of a transaction
      ([command_follows_protocol]); the protocol promises, by induction
      on its traces, that what is sent is what the estimate was asked
      for ([protocol_safe]), so the commands do
      ([transaction_is_the_one_estimated]); [delta] computes the
      protocol ([deltas_accepts]).

    ** Bounds and fuel

    The loop of [saveJSONArtifacts] is [range] over a list of two
    wrappers: structural, no fuel.  The machine's [run] takes a number of
    steps; [maxSteps] is 22, the measure of the entry: two steps before
    the loop, nine for each of the two rounds, two after it.  It is
    enough by [run_final]; [MachineDemo.machine_returns] runs them on
    a trusted node.  Two interleaved
    runs take 44 steps at most ([measure2]); [schedule] takes the order
    of the statements as a list and skips the turns of a run that has
    returned.  A torn file holds the first [k] bytes of the data for any
    [k] up to its length, so [crashDisks] lists one disk more than the
    file has bytes, beside the disk before the write.  The protocol of
    a transaction has eleven events at most ([command_length]).
    [strings.stripFront] takes a number
    of rounds; [strings.TrimSpace] gives it the length of the text, which
    is enough since a round removes a byte or more
    ([strings.stripFront_clean]).  The matcher and the loop of
    [ParseUint] are structural on the text, and so are the loops of
    [readFloat].  The exponent of a float is an [int] of Go: the loop
    stops adding digits at 10000 as the library does
    ([atof.readExponent], [atof.clamp_value]), so no overflow arises;
    an exponent below 100000 is read as it is spelled
    ([atof.exponentOf_small]), and [atof.exponentOf] is the exponent
    with this cut, so the theorems on decimal texts hold for every
    exponent.  The
    mantissa is a [Z] with all its digits; the library keeps nineteen
    and a flag and falls back on exact arithmetic when they do not
    decide the rounding, which gives the same float.

    ** What is not modelled

    The content of the two files beyond the two header fields, the JSON
    encoding, the zstd format and the encoding behind the content
    identifier: they are operations of [Env], and the theorems hold for
    every instance.  File permissions and directories: a write of the
    model succeeds whole or fails whole, unless the process dies in it.
    A crash is the death of the process: the files written before it
    are on the disk, and what a loss of power does to the buffers of the
    operating system is not modelled.  A statement of the machine is
    atomic in an interleaving: data races inside a statement are not
    modelled.
    [bip39.IsMnemonicValid]: an operation of the class [Libraries]; the
    word list and the checksum of BIP-39 are not in the sources.  Of
    [strconv.ParseFloat], the three ways the library rounds (exact
    floats, Eisel-Lemire, the decimal shifts) and the [*NumError] around
    its errors: the model rounds the exact quotient, and the validators
    test [err != nil] only.  The scanner is modelled on every text, but
    the theorems that say which texts are accepted leave out the texts
    with an underscore and the hexadecimal numbers ([AtofDemo] runs the
    scanner on such texts).  [strings.ToLower] outside ASCII (Strings.v says
    why the validators do not depend on it).  What the daemon, the gas
    settings and the prompt do when the commands of ens-name.go call
    them: a call is an event and its result a field of [answers], so the
    theorems hold for every daemon; a panic inside a call and the time a
    call takes are outside the model.  The token of an avatar is a [Z]:
    a nil pointer to a big integer is no value of the model.  The index
    of a rewards file is an [N] where the header has a [uint64]
    (files.go, line 149): the orchestrator only formats it into paths,
    and no theorem depends on its width.  [wallet.command] is the
    sequence of calls the two commands of ens-name.go share, written
    once; the lines it is mapped to are those of [setEnsAvatar]. *)

From Stdlib.Strings Require Import Byte.
From Stdlib Require Import Ascii.
From stdpp Require Import gmap strings list.

Declare Scope go_scope.
Delimit Scope go_scope with go.
Create HintDb go discriminated.
Create Rewrite HintDb go_rw.

(** A Go [[]byte]. *)
Abbreviation bytes := (list byte).

#[global] Instance byte_eq_decision : EqDecision byte := byte_eq_dec.

(** ** Go [error] values.
    [ErrorNew] is an error made by a library ([errors.New], [os.PathError],
    ...) identified by its message; [Errorf p c] is
    [fmt.Errorf(p + "%w", c)]: an error whose message is [p] followed by
    the message of [c] and which unwraps to [c]. *)
Inductive error : Type :=
| ErrorNew (msg : string)
| Errorf (prefix : string) (cause : error).

#[global] Instance error_eq_decision : EqDecision error.
Proof. solve_decision. Defined.

#[global] Instance error_inhabited : Inhabited error := populate (ErrorNew "").

(** [err.Error()]. *)
Fixpoint Error (e : error) : string :=
  match e with
  | ErrorNew msg => msg
  | Errorf prefix cause => prefix +:+ Error cause
  end.

(** [errors.Unwrap(err)]. *)
Definition Unwrap (e : error) : option error :=
  match e with
  | ErrorNew _ => None
  | Errorf _ cause => Some cause
  end.

(** The innermost error of a chain of wrappings. *)
Fixpoint root_cause (e : error) : error :=
  match e with
  | ErrorNew _ => e
  | Errorf _ cause => root_cause cause
  end.

(** The number of [fmt.Errorf] wrappings around the root cause. *)
Fixpoint wrap_depth (e : error) : nat :=
  match e with
  | ErrorNew _ => 0
  | Errorf _ cause => S (wrap_depth cause)
  end.

(** ** The outcome of a call: a value, a returned error, or a panic. *)
Inductive result (A : Type) : Type :=
| Ok (a : A)
| Err (e : error)
| Panic (msg : string).
Arguments Ok {A} a.
Arguments Err {A} e.
Arguments Panic {A} msg.

#[global] Instance result_eq_decision `{EqDecision A} : EqDecision (result A).
Proof. solve_decision. Defined.

Definition is_Ok {A} (r : result A) : bool :=
  match r with Ok _ => true | _ => false end.

Definition is_Err {A} (r : result A) : bool :=
  match r with Err _ => true | _ => false end.

(** The value of a result, or [d] when there is none. *)
Definition from_Ok {A} (d : A) (r : result A) : A :=
  match r with Ok a => a | _ => d end.

Definition result_map {A B} (f : A -> B) (r : result A) : result B :=
  match r with
  | Ok a => Ok (f a)
  | Err e => Err e
  | Panic m => Panic m
  end.

Definition result_bind {A B} (r : result A) (k : A -> result B) : result B :=
  match r with
  | Ok a => k a
  | Err e => Err e
  | Panic m => Panic m
  end.

(** [if err != nil { return fmt.Errorf(prefix + "%w", err) }] on a result. *)
Definition result_wrap {A} (prefix : string) (r : result A) : result A :=
  match r with
  | Ok a => Ok a
  | Err e => Err (Errorf prefix e)
  | Panic m => Panic m
  end.

(** ** Stateful Go code: a state transformer that yields an outcome.
    The state reached is kept on every outcome: Go has no rollback. *)
Definition prog (W A : Type) : Type := W -> result A * W.

Section Prog.
Context {W : Type}.

Definition ret {A} (a : A) : prog W A := fun s => (Ok a, s).

Definition throw {A} (e : error) : prog W A := fun s => (Err e, s).

Definition panic {A} (msg : string) : prog W A := fun s => (Panic msg, s).

Definition lift {A} (r : result A) : prog W A := fun s => (r, s).

Definition bind {A B} (c : prog W A) (k : A -> prog W B) : prog W B :=
  fun s =>
    match c s with
    | (Ok a, s') => k a s'
    | (Err e, s') => (Err e, s')
    | (Panic m, s') => (Panic m, s')
    end.

Definition get : prog W W := fun s => (Ok s, s).

Definition gets {A} (f : W -> A) : prog W A := fun s => (Ok (f s), s).

Definition put (s : W) : prog W unit := fun _ => (Ok tt, s).

Definition modify (f : W -> W) : prog W unit := fun s => (Ok tt, f s).

(** [x, err := c; if err != nil { return fmt.Errorf(prefix + "%w", err) }]. *)
Definition wrap_err {A} (prefix : string) (c : prog W A) : prog W A :=
  fun s => let '(r, s') := c s in (result_wrap prefix r, s').

End Prog.

(** A program on a part [V] of the state [W], run on the whole state:
    [proj] reads the part and [upd] writes it back. *)
Definition zoom {W V A} (proj : W -> V) (upd : V -> W -> W) (c : prog V A) : prog W A :=
  fun w => let '(r, v) := c (proj w) in (r, upd v w).

(** A function of the state that yields an outcome and changes nothing. *)
Definition reads {W A} (f : W -> result A) : prog W A := fun w => (f w, w).

(** A Go call that returns a value beside its error: [(a, err)] with
    [err = nil] or not.  Inside such a function,
    [or_return c onerr k] is
    [x, err := c; if err != nil { return onerr(err) }; k(x)]: the
    values returned beside the error are kept.  [checked] is the caller's
    [if err != nil { return fmt.Errorf(prefix + "%w", err) }]. *)
Definition or_return {W A B} (c : prog W A) (onerr : error -> B)
    (k : A -> prog W B) : prog W B :=
  fun w =>
    match c w with
    | (Ok a, w') => k a w'
    | (Err e, w') => (Ok (onerr e), w')
    | (Panic m, w') => (Panic m, w')
    end.

Definition checked {W A} (prefix : string) (c : prog W (A * option error)) : prog W A :=
  bind c (fun r =>
    match r.2 with
    | None => ret r.1
    | Some e => throw (Errorf prefix e)
    end).

Notation "x <- c ;; k" := (bind c (fun x => k))
  (at level 20, c at level 99, k at level 200, only parsing) : go_scope.
Notation "' pat <- c ;; k" := (bind c (fun x => match x with pat => k end))
  (at level 20, pat pattern, c at level 99, k at level 200, only parsing) : go_scope.
Notation "c ;; k" := (bind c (fun _ => k))
  (at level 100, k at level 200, only parsing, right associativity) : go_scope.
Notation "c 'orwrap' p" := (wrap_err p c)
  (at level 65, no associativity) : go_scope.

Open Scope go_scope.

(** [for i, x := range l { st = body(i, x, st) }], the index starting at
    [i]; an error or a panic of the body leaves the loop with it. *)
Fixpoint range_from {W A St} (body : nat -> A -> St -> prog W St)
    (i : nat) (l : list A) (st : St) : prog W St :=
  match l with
  | [] => ret st
  | x :: l' => st' <- body i x st ;; range_from body (S i) l' st'
  end.

Definition range {W A St} (body : nat -> A -> St -> prog W St)
    (l : list A) (st : St) : prog W St :=
  range_from body 0 l st.

(** ** Strings as lists of characters, and prefix scans of lists *)

(** The bytes of a Go string. *)
Definition chars (s : string) : list ascii := String.list_ascii_of_string s.

Definition of_chars (l : list ascii) : string := String.string_of_list_ascii l.

(** The longest prefix whose elements satisfy [p], and what follows it. *)
Fixpoint take_while {A} (p : A -> bool) (l : list A) : list A :=
  match l with
  | [] => []
  | x :: l' => if p x then x :: take_while p l' else []
  end.

Fixpoint drop_while {A} (p : A -> bool) (l : list A) : list A :=
  match l with
  | [] => []
  | x :: l' => if p x then drop_while p l' else l
  end.

(** Two programs are equivalent when they agree on every state. *)
Definition prog_equiv {W A} (c1 c2 : prog W A) : Prop := forall s, c1 s = c2 s.

(** [stable R c]: running [c] moves the state along [R], whatever the
    outcome. With [R] a preorder this is "the state only grows". *)
Definition stable {W A} (R : relation W) (c : prog W A) : Prop :=
  forall s, R s (c s).2.

(** [agree R c]: run from two states that [R] relates, [c] has the same
    outcome and leaves two states that [R] relates.  With [R] "equal but
    for a part of the state" this is "[c] does not depend on that
    part". *)
Definition agree {W A} (R : relation W) (c : prog W A) : Prop :=
  forall s1 s2, R s1 s2 -> (c s1).1 = (c s2).1 /\ R (c s1).2 (c s2).2.

(** ** Tactics *)

(** Unfolds the monad's operations in the goal (and in [H]). *)
Ltac prog_unfold :=
  unfold bind, ret, throw, panic, lift, get, gets, put, modify, wrap_err,
    result_wrap, range in *.

(** Splits on the outcome of the next call in a hypothesis about a
    sequence of calls. *)
Ltac case_prog H :=
  match type of H with
  | context [match ?c ?s with _ => _ end] =>
      let r := fresh "r" in let s' := fresh "s" in let E := fresh "E" in
      destruct (c s) as [r s'] eqn:E; destruct r; simpl in H
  end.

Ltac prog_simpl := prog_unfold; simpl in *; simplify_eq/=.

(** Closes a goal on concrete data by evaluating it. *)
Ltac evaluated := vm_compute; first [reflexivity | done].

(** ** Lemmas on errors *)

Lemma Error_Errorf p e : Error (Errorf p e) = p +:+ Error e.
Proof. reflexivity. Qed.

Lemma root_cause_Errorf p e : root_cause (Errorf p e) = root_cause e.
Proof. reflexivity. Qed.

Lemma root_cause_idemp e : root_cause (root_cause e) = root_cause e.
Proof. induction e; auto. Qed.

Lemma root_cause_leaf e : wrap_depth (root_cause e) = 0.
Proof. induction e; auto. Qed.

Lemma string_app_assoc (a b c : string) : (a +:+ b) +:+ c = a +:+ (b +:+ c).
Proof. induction a; simpl; [done|]. unfold String.app in *. simpl. by f_equal. Qed.

Lemma string_app_nil_r (a : string) : a +:+ "" = a.
Proof. induction a; [done|]. unfold String.app in *. simpl. by f_equal. Qed.

Lemma string_app_length (a b : string) :
  String.length (a +:+ b) = String.length a + String.length b.
Proof. induction a; [done|]. unfold String.app in *. simpl. by f_equal. Qed.

(** ** Lemmas on results *)

Lemma result_wrap_Ok {A} p (r : result A) a : result_wrap p r = Ok a <-> r = Ok a.
Proof. destruct r; simpl; split; congruence. Qed.

Lemma result_wrap_Err {A} p (r : result A) e :
  result_wrap p r = Err e <-> exists e0, r = Err e0 /\ e = Errorf p e0.
Proof.
  destruct r; simpl; split; try congruence; try (intros (? & ? & ?); congruence).
  intros [= <-]; eauto.
Qed.

Lemma result_wrap_Panic {A} p (r : result A) m :
  result_wrap p r = Panic m <-> r = Panic m.
Proof. destruct r; simpl; split; congruence. Qed.

Lemma result_map_Ok {A B} (f : A -> B) r b :
  result_map f r = Ok b <-> exists a, r = Ok a /\ b = f a.
Proof.
  destruct r; simpl; split; try congruence; try (intros (? & ? & ?); congruence).
  intros [= <-]; eauto.
Qed.

(** ** Lemmas on programs *)

Section ProgLemmas.
Context {W : Type}.
Implicit Types s : W.

Lemma bind_Ok {A B} (c : prog W A) (k : A -> prog W B) s a s' :
  c s = (Ok a, s') -> bind c k s = k a s'.
Proof. unfold bind. by intros ->. Qed.

Lemma bind_Err {A B} (c : prog W A) (k : A -> prog W B) s e s' :
  c s = (Err e, s') -> bind c k s = (Err e, s').
Proof. unfold bind. by intros ->. Qed.

Lemma bind_Panic {A B} (c : prog W A) (k : A -> prog W B) s m s' :
  c s = (Panic m, s') -> bind c k s = (Panic m, s').
Proof. unfold bind. by intros ->. Qed.

Lemma bind_inv_Ok {A B} (c : prog W A) (k : A -> prog W B) s b s2 :
  bind c k s = (Ok b, s2) ->
  exists a s1, c s = (Ok a, s1) /\ k a s1 = (Ok b, s2).
Proof. unfold bind. destruct (c s) as [[a|e|m] s1]; naive_solver. Qed.

Lemma bind_inv_Err {A B} (c : prog W A) (k : A -> prog W B) s e s2 :
  bind c k s = (Err e, s2) ->
  c s = (Err e, s2) \/ exists a s1, c s = (Ok a, s1) /\ k a s1 = (Err e, s2).
Proof. unfold bind. destruct (c s) as [[a|e'|m] s1]; naive_solver. Qed.

Lemma bind_inv_Panic {A B} (c : prog W A) (k : A -> prog W B) s m s2 :
  bind c k s = (Panic m, s2) ->
  c s = (Panic m, s2) \/ exists a s1, c s = (Ok a, s1) /\ k a s1 = (Panic m, s2).
Proof. unfold bind. destruct (c s) as [[a|e'|m'] s1]; naive_solver. Qed.

Lemma wrap_err_Ok {A} p (c : prog W A) s a s' :
  c s = (Ok a, s') -> wrap_err p c s = (Ok a, s').
Proof. unfold wrap_err. by intros ->. Qed.

Lemma wrap_err_Err {A} p (c : prog W A) s e s' :
  c s = (Err e, s') -> wrap_err p c s = (Err (Errorf p e), s').
Proof. unfold wrap_err. by intros ->. Qed.

Lemma wrap_err_inv_Ok {A} p (c : prog W A) s a s' :
  wrap_err p c s = (Ok a, s') -> c s = (Ok a, s').
Proof. unfold wrap_err. destruct (c s) as [[]]; naive_solver. Qed.

Lemma wrap_err_inv_Err {A} p (c : prog W A) s e s' :
  wrap_err p c s = (Err e, s') ->
  exists e0, c s = (Err e0, s') /\ e = Errorf p e0.
Proof. unfold wrap_err. destruct (c s) as [[]]; naive_solver. Qed.

Lemma wrap_err_state {A} p (c : prog W A) s : (wrap_err p c s).2 = (c s).2.
Proof. unfold wrap_err. by destruct (c s). Qed.

Lemma range_from_nil {A St} (body : nat -> A -> St -> prog W St) i st s :
  range_from body i [] st s = (Ok st, s).
Proof. reflexivity. Qed.

Lemma range_from_cons {A St} (body : nat -> A -> St -> prog W St) i x l st :
  range_from body i (x :: l) st
  = (st' <- body i x st ;; range_from body (S i) l st').
Proof. reflexivity. Qed.

Lemma range_from_app {A St} (body : nat -> A -> St -> prog W St) l1 l2 i st s :
  range_from body i (l1 ++ l2) st s
  = (st' <- range_from body i l1 st ;; range_from body (i + length l1) l2 st') s.
Proof.
  revert i st s. induction l1 as [|x l1 IH]; intros i st s; simpl.
  - unfold bind, ret. by rewrite Nat.add_0_r.
  - unfold bind. destruct (body i x st s) as [[st'|e|m] s']; try done.
    rewrite IH. unfold bind. by rewrite Nat.add_succ_r.
Qed.

End ProgLemmas.

(** [prog_equiv] is an equivalence, and the monad's operations respect it. *)

#[global] Instance prog_equiv_equivalence {W A} : Equivalence (@prog_equiv W A).
Proof.
  split; [by intros c s | by intros c1 c2 H s | ].
  intros c1 c2 c3 H1 H2 s. by rewrite H1.
Qed.

#[global] Instance bind_proper {W A B} :
  Proper (prog_equiv ==> pointwise_relation A prog_equiv ==> prog_equiv) (@bind W A B).
Proof.
  intros c1 c2 Hc k1 k2 Hk s. unfold bind. rewrite Hc.
  destruct (c2 s) as [[a|e|m] s']; [apply Hk | done | done].
Qed.

#[global] Instance wrap_err_proper {W A} p :
  Proper (prog_equiv ==> prog_equiv) (@wrap_err W A p).
Proof. intros c1 c2 Hc s. unfold wrap_err. by rewrite Hc. Qed.

Section MonadLaws.
Context {W : Type}.

Lemma bind_ret_l {A B} (a : A) (k : A -> prog W B) : prog_equiv (bind (ret a) k) (k a).
Proof. by intros s. Qed.

Lemma bind_ret_r {A} (c : prog W A) : prog_equiv (bind c ret) c.
Proof. intros s. unfold bind, ret. by destruct (c s) as [[]]. Qed.

Lemma bind_assoc {A B C} (c : prog W A) (k : A -> prog W B) (h : B -> prog W C) :
  prog_equiv (bind (bind c k) h) (bind c (fun a => bind (k a) h)).
Proof. intros s. unfold bind. by destruct (c s) as [[]]. Qed.

Lemma wrap_err_ret {A} p (a : A) : prog_equiv (wrap_err p (ret a)) (@ret W A a).
Proof. by intros s. Qed.

End MonadLaws.

(** Stability under a preorder composes along the monad. *)

Section Stable.
Context {W : Type} (R : relation W) `{!PreOrder R}.

Lemma stable_ret {A} (a : A) : stable R (ret a).
Proof. intros s. simpl. reflexivity. Qed.

Lemma stable_throw {A} e : stable R (@throw W A e).
Proof. intros s. simpl. reflexivity. Qed.

Lemma stable_panic {A} m : stable R (@panic W A m).
Proof. intros s. simpl. reflexivity. Qed.

Lemma stable_lift {A} (r : result A) : stable R (lift r).
Proof. intros s. simpl. reflexivity. Qed.

Lemma stable_gets {A} (f : W -> A) : stable R (gets f).
Proof. intros s. simpl. reflexivity. Qed.

Lemma stable_modify (f : W -> W) : (forall s, R s (f s)) -> stable R (modify f).
Proof. intros H s. apply H. Qed.

Lemma stable_bind {A B} (c : prog W A) (k : A -> prog W B) :
  stable R c -> (forall a, stable R (k a)) -> stable R (bind c k).
Proof.
  intros Hc Hk s. unfold bind. specialize (Hc s).
  destruct (c s) as [[a|e|m] s']; simpl in *; [|done..].
  etrans; [exact Hc | apply Hk].
Qed.

Lemma stable_wrap_err {A} p (c : prog W A) : stable R c -> stable R (wrap_err p c).
Proof. intros Hc s. rewrite wrap_err_state. apply Hc. Qed.

Lemma stable_range_from {A St} (body : nat -> A -> St -> prog W St) l :
  (forall i x st, stable R (body i x st)) ->
  forall i st, stable R (range_from body i l st).
Proof.
  intros Hb. induction l as [|x l IH]; intros i st; simpl.
  - apply stable_ret.
  - apply stable_bind; auto.
Qed.

End Stable.

(** [zoom], [reads] and [checked]. *)

Section Zoom.
Context {W V : Type} (proj : W -> V) (upd : V -> W -> W).

Lemma zoom_run {A} (c : prog V A) w r v :
  c (proj w) = (r, v) -> zoom proj upd c w = (r, upd v w).
Proof. unfold zoom. by intros ->. Qed.

Lemma zoom_inv {A} (c : prog V A) w r w' :
  zoom proj upd c w = (r, w') -> exists v, c (proj w) = (r, v) /\ w' = upd v w.
Proof. unfold zoom. destruct (c (proj w)) as [r0 v]. intros [= <- <-]. eauto. Qed.

(** A program stable on the part is stable on the whole, for any relation
    on the whole that the write-back respects. *)
Lemma stable_zoom {A} (R : relation V) (Q : relation W) (c : prog V A) :
  (forall w v, R (proj w) v -> Q w (upd v w)) ->
  stable R c -> stable Q (zoom proj upd c).
Proof.
  intros HQ Hc w. unfold zoom. specialize (Hc (proj w)).
  destruct (c (proj w)) as [r v]. simpl in *. by apply HQ.
Qed.

End Zoom.

Lemma reads_run {W A} (f : W -> result A) w : reads f w = (f w, w).
Proof. reflexivity. Qed.

Lemma stable_reads {W A} (R : relation W) `{!Reflexive R} (f : W -> result A) :
  stable R (reads f).
Proof. intros w. simpl. reflexivity. Qed.

Lemma checked_Ok {W A} p (c : prog W (A * option error)) w a w' :
  c w = (Ok (a, None), w') -> checked p c w = (Ok a, w').
Proof. unfold checked, bind. by intros ->. Qed.

Lemma checked_Err {W A} p (c : prog W (A * option error)) w a e w' :
  c w = (Ok (a, Some e), w') -> checked p c w = (Err (Errorf p e), w').
Proof. unfold checked, bind. by intros ->. Qed.

Lemma checked_state {W A} p (c : prog W (A * option error)) w :
  (checked p c w).2 = (c w).2.
Proof. unfold checked, bind. by destruct (c w) as [[[a [e|]]|e|m] w']. Qed.

Lemma stable_checked {W A} (R : relation W) p (c : prog W (A * option error)) :
  stable R c -> stable R (checked p c).
Proof. intros Hc w. rewrite checked_state. apply Hc. Qed.

Lemma or_return_Ok {W A B} (c : prog W A) (h : error -> B) k w a w' :
  c w = (Ok a, w') -> or_return c h k w = k a w'.
Proof. unfold or_return. by intros ->. Qed.

Lemma or_return_Err {W A B} (c : prog W A) (h : error -> B) k w e w' :
  c w = (Err e, w') -> or_return c h k w = (Ok (h e), w').
Proof. unfold or_return. by intros ->. Qed.

Lemma or_return_Panic {W A B} (c : prog W A) (h : error -> B) k w m w' :
  c w = (Panic m, w') -> or_return c h k w = (Panic m, w').
Proof. unfold or_return. by intros ->. Qed.

Lemma stable_or_return {W A B} (R : relation W) `{!PreOrder R}
    (c : prog W A) (h : error -> B) k :
  stable R c -> (forall a, stable R (k a)) -> stable R (or_return c h k).
Proof.
  intros Hc Hk w. unfold or_return. specialize (Hc w).
  destruct (c w) as [[a|e|m] w']; simpl in *; [|done..].
  etrans; [exact Hc | apply Hk].
Qed.

#[export] Hint Resolve stable_ret stable_throw stable_panic stable_lift
  stable_gets stable_bind stable_wrap_err stable_range_from
  stable_reads stable_checked stable_or_return : go.

(** Agreement of two runs composes along the monad, for any relation. *)

Section Agree.
Context {W : Type} (R : relation W).

Lemma agree_ret {A} (a : A) : agree R (ret a).
Proof. by intros s1 s2. Qed.

Lemma agree_throw {A} e : agree R (@throw W A e).
Proof. by intros s1 s2. Qed.

Lemma agree_panic {A} m : agree R (@panic W A m).
Proof. by intros s1 s2. Qed.

Lemma agree_lift {A} (r : result A) : agree R (lift r).
Proof. by intros s1 s2. Qed.

Lemma agree_reads {A} (f : W -> result A) :
  (forall s1 s2, R s1 s2 -> f s1 = f s2) -> agree R (reads f).
Proof. intros Hf s1 s2 HR. split; [by apply Hf|done]. Qed.

(** The continuation has to agree on the values the first call returns,
    and on no others. *)
Lemma agree_bind_post {A B} (P : A -> Prop) (c : prog W A) (k : A -> prog W B) :
  agree R c -> (forall s a, (c s).1 = Ok a -> P a) ->
  (forall a, P a -> agree R (k a)) -> agree R (bind c k).
Proof.
  intros Hc HP Hk s1 s2 HR. unfold bind.
  destruct (Hc s1 s2 HR) as [Hr Hs]. pose proof (HP s1) as HP1.
  destruct (c s1) as [r1 s1'], (c s2) as [r2 s2']; simpl in *; subst r2.
  destruct r1; [by apply Hk; auto|done..].
Qed.

Lemma agree_bind {A B} (c : prog W A) (k : A -> prog W B) :
  agree R c -> (forall a, agree R (k a)) -> agree R (bind c k).
Proof. intros Hc Hk. by apply (agree_bind_post (fun _ => True)). Qed.

Lemma agree_wrap_err {A} p (c : prog W A) : agree R c -> agree R (wrap_err p c).
Proof.
  intros Hc s1 s2 HR. unfold wrap_err. destruct (Hc s1 s2 HR) as [Hr Hs].
  destruct (c s1), (c s2); simpl in *. by subst.
Qed.

Lemma agree_checked {A} p (c : prog W (A * option error)) :
  agree R c -> agree R (checked p c).
Proof.
  intros Hc. apply agree_bind; [done|].
  intros [a [e|]]; [apply agree_throw|apply agree_ret].
Qed.

Lemma agree_or_return {A B} (c : prog W A) (h : error -> B) k :
  agree R c -> (forall a, agree R (k a)) -> agree R (or_return c h k).
Proof.
  intros Hc Hk s1 s2 HR. unfold or_return. destruct (Hc s1 s2 HR) as [Hr Hs].
  destruct (c s1) as [r1 s1'], (c s2) as [r2 s2']; simpl in *; subst r2.
  destruct r1; [by apply Hk|done..].
Qed.

Lemma agree_range_from {A St} (body : nat -> A -> St -> prog W St) l :
  (forall i x st, x ∈ l -> agree R (body i x st)) ->
  forall i st, agree R (range_from body i l st).
Proof.
  induction l as [|x l IH]; intros Hb i st; simpl; [apply agree_ret|].
  apply agree_bind; [apply Hb; set_solver|]. intros st'. apply IH.
  intros ????. apply Hb. set_solver.
Qed.

End Agree.

#[export] Hint Resolve agree_ret agree_throw agree_panic agree_lift agree_bind
  agree_wrap_err agree_checked agree_or_return : go.
#[export] Hint Extern 0 (PreOrder _) => typeclasses eauto : go.
#[export] Hint Extern 0 (Reflexive _) => typeclasses eauto : go.
#[export] Hint Rewrite @result_wrap_Ok @result_wrap_Panic : go_rw.

(** ** Lemmas on strings and prefix scans *)

Lemma of_chars_chars s : of_chars (chars s) = s.
Proof. apply String.string_of_list_ascii_of_string. Qed.

Lemma chars_of_chars l : chars (of_chars l) = l.
Proof. apply String.list_ascii_of_string_of_list_ascii. Qed.

Lemma chars_inj s1 s2 : chars s1 = chars s2 -> s1 = s2.
Proof. intros H. by rewrite <-(of_chars_chars s1), H, of_chars_chars. Qed.

Lemma chars_app s1 s2 : chars (s1 +:+ s2) = chars s1 ++ chars s2.
Proof. induction s1; [done|]. unfold String.app in *. simpl. by f_equal. Qed.

Lemma of_chars_app l1 l2 : of_chars (l1 ++ l2) = of_chars l1 +:+ of_chars l2.
Proof. apply chars_inj. by rewrite chars_app, !chars_of_chars. Qed.

Lemma chars_nil s : chars s = [] <-> s = "".
Proof. destruct s; simpl; split; congruence. Qed.

Lemma chars_length s : length (chars s) = String.length s.
Proof. induction s; simpl; congruence. Qed.

Section Scans.
Context {A : Type} (p : A -> bool).
Implicit Types l : list A.

Lemma take_drop_while l : take_while p l ++ drop_while p l = l.
Proof. induction l as [|x l IH]; simpl; [done|]. destruct (p x); simpl; congruence. Qed.

Lemma take_while_Forall l : Forall (fun x => p x = true) (take_while p l).
Proof.
  induction l as [|x l IH]; simpl; [constructor|].
  destruct (p x) eqn:E; by constructor.
Qed.

Lemma take_while_all l : Forall (fun x => p x = true) l -> take_while p l = l.
Proof. induction 1 as [|x l Hx _ IH]; simpl; [done|]. by rewrite Hx, IH. Qed.

Lemma drop_while_all l : Forall (fun x => p x = true) l -> drop_while p l = [].
Proof. induction 1 as [|x l Hx _ IH]; simpl; [done|]. by rewrite Hx. Qed.

Lemma take_while_app_all l1 l2 :
  Forall (fun x => p x = true) l1 ->
  take_while p (l1 ++ l2) = l1 ++ take_while p l2.
Proof. induction 1 as [|x l Hx _ IH]; simpl; [done|]. by rewrite Hx, IH. Qed.

Lemma drop_while_app_all l1 l2 :
  Forall (fun x => p x = true) l1 ->
  drop_while p (l1 ++ l2) = drop_while p l2.
Proof. induction 1 as [|x l Hx _ IH]; simpl; [done|]. by rewrite Hx. Qed.

Lemma take_while_head_false x l : p x = false -> take_while p (x :: l) = [].
Proof. simpl. by intros ->. Qed.

Lemma drop_while_head_false x l : p x = false -> drop_while p (x :: l) = x :: l.
Proof. simpl. by intros ->. Qed.

Lemma drop_while_idemp l : drop_while p (drop_while p l) = drop_while p l.
Proof.
  induction l as [|x l IH]; simpl; [done|].
  destruct (p x) eqn:E; [done|]. simpl. by rewrite E.
Qed.

Lemma take_while_idemp l : take_while p (take_while p l) = take_while p l.
Proof. apply take_while_all, take_while_Forall. Qed.

End Scans.

(** Four values without a repetition. *)
(** A set made from a list has no more elements than the list. *)
Lemma size_list_to_set_le `{Countable A} (l : list A) :
  size (list_to_set (C := gset A) l) <= length l.
Proof.
  induction l as [|x l IH]; [by rewrite list_to_set_nil, size_empty|].
  rewrite list_to_set_cons, size_union_alt, size_singleton. simpl.
  assert (size (list_to_set (C := gset A) l ∖ {[x]}) <= size (list_to_set (C := gset A) l))
    by (apply subseteq_size; set_solver).
  lia.
Qed.

Lemma NoDup_four {A} (a b c d : A) :
  NoDup [a; b; c; d] <->
  a <> b /\ a <> c /\ a <> d /\ b <> c /\ b <> d /\ c <> d.
Proof.
  rewrite !NoDup_cons, !not_elem_of_cons, !elem_of_nil.
  pose proof (@NoDup_nil_2 A). naive_solver.
Qed.

#[export] Hint Rewrite chars_app chars_of_chars of_chars_chars of_chars_app : go_rw.
