(* ===== verification/Filepath.v ===== *)
(** * Filepath: Go's [path/filepath.Base] on slash-separated paths

    [LocalFile.FileName] and [CreateCompressedFileAndCid]
    (src/shared/services/rewards/files.go) name a file by
    [filepath.Base] of its path.  This file models [Base] as the Go
    library defines it on Unix (strip the trailing separators, keep what
    follows the last separator, "." for the empty path and "/" for a path
    of separators only) and proves what the artifact pipeline relies on:
    the name is never empty, it holds no separator unless it is "/", and
    appending an extension to a path appends it to the name, except for
    the empty path and for a path that ends in a separator. *)

From Stdlib Require Import Ascii.
From stdpp Require Import gmap strings list.
From S2P Require Import Prelude.

Module filepath.

(** [os.PathSeparator] and [os.IsPathSeparator]. *)
Definition Separator : ascii := "/"%char.

Definition IsPathSeparator (c : ascii) : bool := bool_decide (c = Separator).

Definition notSeparator (c : ascii) : bool := negb (IsPathSeparator c).

(** The first loop of [Base]: [path] without its trailing separators,
    scanned from the end. *)
Definition stripTrailing (path : list ascii) : list ascii :=
  reverse (drop_while IsPathSeparator (reverse path)).

(** The second loop of [Base]: what follows the last separator. *)
Definition lastElement (path : list ascii) : list ascii :=
  reverse (take_while notSeparator (reverse path)).

(** [filepath.Base(path)]. *)
Definition Base (path : string) : string :=
  if decide (path = "") then "."
  else
    let elem := lastElement (stripTrailing (chars path)) in
    if decide (elem = []) then of_chars [Separator] else of_chars elem.

(** A string that holds no separator. *)
Definition noSeparator (s : string) : Prop :=
  Forall (fun c => notSeparator c = true) (chars s).

(** The path does not end in a separator ([true] on the empty path). *)
Definition endsPlain (path : string) : bool :=
  match last (chars path) with
  | Some c => notSeparator c
  | None => true
  end.

#[global] Instance noSeparator_dec s : Decision (noSeparator s).
Proof. unfold noSeparator. apply _. Defined.

(** ** The two scans *)

Lemma stripTrailing_plain l c :
  notSeparator c = true -> stripTrailing (l ++ [c]) = l ++ [c].
Proof.
  intros Hc. unfold stripTrailing. rewrite reverse_snoc.
  rewrite drop_while_head_false, <-reverse_snoc, reverse_involutive; [done|].
  unfold notSeparator in Hc. by destruct (IsPathSeparator c).
Qed.

Lemma stripTrailing_nil : stripTrailing [] = [].
Proof. reflexivity. Qed.

Lemma stripTrailing_sep l c :
  IsPathSeparator c = true -> stripTrailing (l ++ [c]) = stripTrailing l.
Proof. intros Hc. unfold stripTrailing. rewrite reverse_snoc. simpl. by rewrite Hc. Qed.

Lemma stripTrailing_idemp l : stripTrailing (stripTrailing l) = stripTrailing l.
Proof.
  unfold stripTrailing. by rewrite reverse_involutive, drop_while_idemp.
Qed.

Lemma lastElement_Forall l :
  Forall (fun c => notSeparator c = true) (lastElement l).
Proof. unfold lastElement. apply Forall_reverse, take_while_Forall. Qed.

Lemma lastElement_plain l :
  Forall (fun c => notSeparator c = true) l -> lastElement l = l.
Proof.
  intros H. unfold lastElement.
  rewrite take_while_all by by apply Forall_reverse.
  apply reverse_involutive.
Qed.

Lemma lastElement_app l ext :
  Forall (fun c => notSeparator c = true) ext ->
  lastElement (l ++ ext) = lastElement l ++ ext.
Proof.
  intros H. unfold lastElement. rewrite reverse_app.
  rewrite take_while_app_all by by apply Forall_reverse.
  by rewrite reverse_app, reverse_involutive.
Qed.

Lemma lastElement_after_sep l c name :
  IsPathSeparator c = true ->
  Forall (fun c => notSeparator c = true) name ->
  lastElement (l ++ c :: name) = name.
Proof.
  intros Hc H. unfold lastElement.
  rewrite reverse_app, reverse_cons, <-(assoc_L (++)).
  rewrite take_while_app_all by by apply Forall_reverse.
  simpl. unfold notSeparator at 1. rewrite Hc. simpl.
  by rewrite (right_id_L [] (++)), reverse_involutive.
Qed.

Lemma lastElement_snoc_nonempty l c :
  notSeparator c = true -> lastElement (l ++ [c]) <> [].
Proof.
  intros Hc. rewrite lastElement_app by (by repeat constructor).
  by destruct (lastElement l).
Qed.

Lemma stripTrailing_Forall_plain l :
  Forall (fun c => notSeparator c = true) l -> stripTrailing l = l.
Proof.
  destruct l as [|c l _] using rev_ind; [done|].
  intros [_ Hc]%Forall_app. apply stripTrailing_plain. by inversion Hc.
Qed.

(** A non-empty path that does not end in a separator is [l ++ [c]] with
    [c] no separator. *)
Lemma endsPlain_snoc path :
  path <> "" -> endsPlain path = true ->
  exists l c, chars path = l ++ [c] /\ notSeparator c = true.
Proof.
  unfold endsPlain. intros Hne H.
  destruct (last (chars path)) as [c|] eqn:E.
  - apply last_Some in E as [l ->]. eauto.
  - apply last_None, chars_nil in E. done.
Qed.

(** ** [Base] *)

Lemma Base_empty : Base "" = ".".
Proof. reflexivity. Qed.

Lemma Base_nonempty path : Base path <> "".
Proof.
  unfold Base. repeat case_decide; try done.
  intros Hc%(f_equal chars). by rewrite chars_of_chars in Hc.
Qed.

(** The name holds no separator, unless the path held nothing else. *)
Lemma Base_noSeparator path :
  Base path = of_chars [Separator] \/ noSeparator (Base path).
Proof.
  unfold Base. repeat case_decide; auto.
  - right. unfold noSeparator. simpl. by repeat constructor.
  - right. unfold noSeparator. rewrite chars_of_chars. apply lastElement_Forall.
Qed.

(** A path that ends in a name: the name is what follows the last
    separator of the path. *)
Lemma Base_unfold_plain path :
  path <> "" -> endsPlain path = true ->
  Base path = of_chars (lastElement (chars path)).
Proof.
  intros Hne Hend. destruct (endsPlain_snoc path Hne Hend) as (l & c & E & Hc).
  unfold Base. rewrite decide_False by done. simpl. rewrite E.
  rewrite stripTrailing_plain by done.
  rewrite decide_False; [done|]. by apply lastElement_snoc_nonempty.
Qed.

(** A name with no separator is its own base name. *)
Lemma Base_plain name : name <> "" -> noSeparator name -> Base name = name.
Proof.
  intros Hne H. unfold Base. rewrite decide_False by done. simpl.
  rewrite stripTrailing_Forall_plain, lastElement_plain by done.
  rewrite decide_False by by rewrite chars_nil. apply of_chars_chars.
Qed.

Lemma noSeparator_endsPlain name : noSeparator name -> endsPlain name = true.
Proof.
  unfold noSeparator, endsPlain. intros H.
  destruct (last (chars name)) as [c|] eqn:E; [|done].
  apply last_Some in E as [l E]. rewrite E in H.
  apply Forall_app in H as [_ H]. by inversion H.
Qed.

Lemma endsPlain_app path ext :
  ext <> "" -> endsPlain ext = true -> endsPlain (path +:+ ext) = true.
Proof.
  intros Hne H. destruct (endsPlain_snoc ext Hne H) as (l & c & E & Hc).
  unfold endsPlain. by rewrite chars_app, E, (assoc_L (++)), last_snoc.
Qed.

Lemma string_app_nonempty_r (a b : string) : b <> "" -> a +:+ b <> "".
Proof.
  intros Hb H%(f_equal chars). rewrite chars_app in H.
  apply app_eq_nil in H as [_ H]. by apply chars_nil in H.
Qed.

Lemma string_app_nonempty_l (a b : string) : a <> "" -> a +:+ b <> "".
Proof.
  intros Ha H%(f_equal chars). rewrite chars_app in H.
  apply app_eq_nil in H as [H _]. by apply chars_nil in H.
Qed.

(** [Base] of a directory, a separator and a name is the name. *)
Lemma Base_join dir name :
  name <> "" -> noSeparator name ->
  Base (dir +:+ String Separator name) = name.
Proof.
  intros Hne H.
  rewrite Base_unfold_plain.
  - rewrite chars_app. simpl. rewrite lastElement_after_sep by done.
    apply of_chars_chars.
  - by apply string_app_nonempty_r.
  - apply (endsPlain_app dir (String Separator name)); [done|].
    destruct (endsPlain_snoc name Hne) as (l & c & E & Hc).
    { by apply noSeparator_endsPlain. }
    unfold endsPlain. change (chars (String Separator name)) with (Separator :: chars name).
    by rewrite E, app_comm_cons, last_snoc.
Qed.

(** Appending an extension to a path that ends in a name appends it to
    the base name. *)
Lemma Base_app_ext path ext :
  path <> "" -> endsPlain path = true -> noSeparator ext ->
  Base (path +:+ ext) = Base path +:+ ext.
Proof.
  intros Hne Hend Hext.
  destruct (decide (ext = "")) as [->|Hx]; [by rewrite !string_app_nil_r|].
  rewrite (Base_unfold_plain path), (Base_unfold_plain (path +:+ ext)); try done.
  - by rewrite chars_app, lastElement_app, of_chars_app, of_chars_chars.
  - by apply string_app_nonempty_l.
  - apply endsPlain_app; [done|]. by apply noSeparator_endsPlain.
Qed.

Lemma Base_idemp path : Base (Base path) = Base path.
Proof.
  destruct (Base_noSeparator path) as [->|H]; [done|].
  apply Base_plain; [apply Base_nonempty | done].
Qed.

(** Appending a non-empty extension changes the base name. *)
Lemma Base_app_ext_ne path ext :
  path <> "" -> endsPlain path = true -> noSeparator ext -> ext <> "" ->
  Base (path +:+ ext) <> Base path.
Proof.
  intros Hne Hend Hext Hx. rewrite Base_app_ext by done.
  intros H%(f_equal String.length). rewrite string_app_length in H.
  destruct ext; [done|]. simpl in H. lia.
Qed.

End filepath.
