(* ===== verification/FileSystem.v ===== *)
(** * FileSystem: the files that [os.WriteFile] and [os.ReadFile] see

    The artifact pipeline (src/shared/services/rewards/files.go) touches
    the disk only through [os.ReadFile] and [os.WriteFile].  The model
    keeps the content of every file, the set of paths that cannot be
    written (the way a write fails in the model), and the log of the
    successful writes in the order they happened.  A failed write
    changes nothing; a successful one replaces the file's content.

    The order [FS.le] ("the second state is the first one after some
    more successful writes") is a preorder, and both operations are
    stable for it: this is what "no rollback" means for the pipeline.

    For a process that dies while it writes, [FS.torn] is the disk on
    which a file holds a prefix only of the bytes of its write, and
    [FS.interrupted] the disks a sequence of writes can leave behind:
    some of the writes done in order, the next one torn or not begun.
    [FS.replay_interrupted] says that doing all the writes again from
    such a disk gives the disk of the run that was not interrupted. *)

From stdpp Require Import gmap strings list.
From S2P Require Import Prelude.

Module FS.

(** One successful [os.WriteFile(name, data, perm)]. *)
Record write := Write_ { w_name : string; w_data : bytes }.

Record t := mk {
  files : gmap string bytes;
  denied : gset string;
  log : list write;
}.

#[global] Instance write_eq_dec : EqDecision write.
Proof. solve_decision. Defined.

#[global] Instance t_eq_dec : EqDecision t.
Proof. solve_decision. Defined.

(** A disk with the given files, where every path can be written. *)
Definition init (m : gmap string bytes) : t :=
  {| files := m; denied := ∅; log := [] |}.

Definition empty : t := init ∅.

(** The error of a failed [open]: [*fs.PathError]. *)
Definition PathError (op path msg : string) : error :=
  ErrorNew (op +:+ " " +:+ path +:+ ": " +:+ msg).

(** [os.WriteFile(name, data, 0644)]: creates the file or replaces its
    content. *)
Definition WriteFile (name : string) (data : bytes) : prog t unit :=
  fun fs =>
    if decide (name ∈ denied fs)
    then (Err (PathError "open" name "permission denied"), fs)
    else (Ok tt, {| files := <[name := data]> (files fs);
                    denied := denied fs;
                    log := log fs ++ [Write_ name data] |}).

(** [os.ReadFile(name)]. *)
Definition ReadFile (name : string) : prog t bytes :=
  fun fs =>
    match files fs !! name with
    | Some data => (Ok data, fs)
    | None => (Err (PathError "open" name "no such file or directory"), fs)
    end.

(** The files after the writes of [l], in order, over [m]. *)
Definition replay (l : list write) (m : gmap string bytes) : gmap string bytes :=
  foldl (fun m w => <[w_name w := w_data w]> m) m l.

(** [le fs fs']: [fs'] is [fs] after the successful writes [ws]. *)
Definition after (ws : list write) (fs fs' : t) : Prop :=
  denied fs' = denied fs /\
  log fs' = log fs ++ ws /\
  files fs' = replay ws (files fs).

Definition le (fs fs' : t) : Prop := exists ws, after ws fs fs'.

(** The names written, in order. *)
Definition names (ws : list write) : list string := w_name <$> ws.

(** The last data written to [name] by [ws], if any. *)
Definition last_write (name : string) (ws : list write) : option bytes :=
  w_data <$> last (filter (fun w => w_name w = name) ws).

(** [os.WriteFile(name, data, perm)] opens the file with [O_TRUNC] and
    then writes the bytes.  When the process dies after [k] bytes the
    file holds the first [k] bytes of [data], and the other files are as
    they were: a file torn at 0 is empty, a file torn at the length of
    [data] is whole. *)
Definition torn (name : string) (data : bytes) (k : nat) (m : gmap string bytes) :
    gmap string bytes :=
  <[name := take k data]> m.

(** The writes a disk gained since its log was [l]. *)
Definition since (l : list write) (fs : t) : list write := drop (length l) (log fs).

(** [interrupted m ws m']: the files [m'] are the files [m] after the
    first writes of [ws], up to some point of the sequence, the write
    that comes next being torn or not begun. *)
Inductive interrupted (m : gmap string bytes) : list write -> gmap string bytes -> Prop :=
  | interrupted_between ws1 ws2 : interrupted m (ws1 ++ ws2) (replay ws1 m)
  | interrupted_within ws1 w ws2 k :
      k <= length (w_data w) ->
      interrupted m (ws1 ++ w :: ws2) (torn (w_name w) (w_data w) k (replay ws1 m)).

(** ** [replay] *)

Lemma replay_nil m : replay [] m = m.
Proof. reflexivity. Qed.

Lemma replay_app l1 l2 m : replay (l1 ++ l2) m = replay l2 (replay l1 m).
Proof. unfold replay. apply foldl_app. Qed.

Lemma replay_snoc l w m : replay (l ++ [w]) m = <[w_name w := w_data w]> (replay l m).
Proof. by rewrite replay_app. Qed.

Lemma last_write_nil name : last_write name [] = None.
Proof. reflexivity. Qed.

Lemma last_write_snoc name ws w :
  last_write name (ws ++ [w]) =
  if decide (w_name w = name) then Some (w_data w) else last_write name ws.
Proof.
  unfold last_write. rewrite filter_app, filter_cons, filter_nil.
  case_decide; [by rewrite last_snoc | by rewrite (right_id_L [] (++))].
Qed.

(** What a file holds after a replay: the last write to it, or what it
    held before. *)
Lemma replay_lookup ws m name :
  replay ws m !! name = from_option Some (m !! name) (last_write name ws).
Proof.
  induction ws as [|w ws IH] using rev_ind; [done|].
  rewrite replay_snoc, last_write_snoc, lookup_insert.
  case_decide; [done|]. by rewrite IH.
Qed.

Lemma replay_lookup_not_written ws m name :
  name ∉ names ws -> replay ws m !! name = m !! name.
Proof.
  induction ws as [|w ws IH] using rev_ind; [done|].
  unfold names. rewrite fmap_app, not_elem_of_app. intros [H1 H2].
  rewrite replay_snoc, lookup_insert_ne; [by apply IH|]. set_solver.
Qed.

Lemma replay_dom ws m : dom (replay ws m) = dom m ∪ list_to_set (names ws).
Proof.
  induction ws as [|w ws IH] using rev_ind; [set_solver|].
  rewrite replay_snoc, dom_insert_L, IH. unfold names.
  rewrite fmap_app, list_to_set_app_L. set_solver.
Qed.

(** Writing the same files again changes no file. *)
Lemma replay_idemp ws m : replay ws (replay ws m) = replay ws m.
Proof.
  apply map_eq. intros name. rewrite !replay_lookup.
  by destruct (last_write name ws).
Qed.

Lemma last_write_None name ws : last_write name ws = None <-> name ∉ names ws.
Proof.
  induction ws as [|w ws IH] using rev_ind; [set_solver|].
  unfold names. rewrite last_write_snoc, fmap_app, not_elem_of_app.
  case_decide; set_solver.
Qed.

(** The files after a replay depend on the files before only at the
    names that are not written. *)
Lemma replay_agree ws m1 m2 :
  (forall name, name ∉ names ws -> m1 !! name = m2 !! name) -> replay ws m1 = replay ws m2.
Proof.
  intros Hm. apply map_eq. intros name. rewrite !replay_lookup.
  destruct (last_write name ws) eqn:E; [done|]. by apply Hm, last_write_None.
Qed.

(** ** Torn files *)

Lemma torn_whole name data m : torn name data (length data) m = <[name := data]> m.
Proof. unfold torn. by rewrite firstn_all. Qed.

Lemma torn_lookup name data k m : torn name data k m !! name = Some (take k data).
Proof. apply lookup_insert_eq. Qed.

Lemma torn_lookup_ne name data k m other :
  other <> name -> torn name data k m !! other = m !! other.
Proof. intros Hne. by apply lookup_insert_ne. Qed.

(** A torn file is repaired by any sequence of writes that writes it
    again. *)
Lemma replay_torn ws name data k m :
  name ∈ names ws -> replay ws (torn name data k m) = replay ws m.
Proof.
  intros Hn. apply replay_agree. intros other Ho. apply torn_lookup_ne. set_solver.
Qed.

(** Writes that were interrupted and are made again from the first one
    leave the files they leave when they are not interrupted. *)
Lemma replay_interrupted m ws m' : interrupted m ws m' -> replay ws m' = replay ws m.
Proof.
  destruct 1 as [ws1 ws2|ws1 w ws2 k Hk].
  - by rewrite !replay_app, replay_idemp.
  - rewrite replay_torn by (unfold names; rewrite fmap_app; set_solver).
    by rewrite !replay_app, replay_idemp.
Qed.

(** ** The order on disks *)

Lemma after_nil fs : after [] fs fs.
Proof. unfold after. by rewrite (right_id_L [] (++)). Qed.

Lemma after_app ws1 ws2 fs1 fs2 fs3 :
  after ws1 fs1 fs2 -> after ws2 fs2 fs3 -> after (ws1 ++ ws2) fs1 fs3.
Proof.
  intros (Hd1 & Hl1 & Hf1) (Hd2 & Hl2 & Hf2). split_and!.
  - congruence.
  - by rewrite Hl2, Hl1, (assoc_L (++)).
  - by rewrite Hf2, Hf1, replay_app.
Qed.

Lemma after_inj ws1 ws2 fs fs' : after ws1 fs fs' -> after ws2 fs fs' -> ws1 = ws2.
Proof. intros (_ & H1 & _) (_ & H2 & _). rewrite H1 in H2. by simplify_list_eq. Qed.

Lemma after_since ws fs fs' : after ws fs fs' -> since (log fs) fs' = ws.
Proof. intros (_ & Hl & _). unfold since. by rewrite Hl, drop_app_length. Qed.

(** The writes between two disks split at any disk in between. *)
Lemma after_split ws ws1 fs1 fs2 fs3 :
  after ws fs1 fs3 -> after ws1 fs1 fs2 -> le fs2 fs3 ->
  exists ws2, ws = ws1 ++ ws2 /\ after ws2 fs2 fs3.
Proof.
  intros H13 H12 [ws2 H23]. exists ws2. split; [|done].
  eapply after_inj; [done|]. by eapply after_app.
Qed.

#[global] Instance le_preorder : PreOrder le.
Proof.
  split.
  - intros fs. exists []. apply after_nil.
  - intros fs1 fs2 fs3 [ws1 H1] [ws2 H2]. exists (ws1 ++ ws2). by eapply after_app.
Qed.

Lemma le_denied fs fs' : le fs fs' -> denied fs' = denied fs.
Proof. by intros (ws & ? & _). Qed.

Lemma le_log_prefix fs fs' : le fs fs' -> log fs `prefix_of` log fs'.
Proof. intros (ws & _ & -> & _). by exists ws. Qed.

(** A file exists after more writes if it existed before. *)
Lemma le_dom fs fs' : le fs fs' -> dom (files fs) ⊆ dom (files fs').
Proof. intros (ws & _ & _ & ->). rewrite replay_dom. set_solver. Qed.

(** ** [WriteFile] and [ReadFile] *)

Lemma WriteFile_ok name data fs :
  name ∉ denied fs ->
  exists fs', WriteFile name data fs = (Ok tt, fs') /\ after [Write_ name data] fs fs'.
Proof.
  intros Hn. unfold WriteFile. rewrite decide_False by done.
  eexists; split; [done|]. split_and!; done.
Qed.

Lemma WriteFile_denied name data fs :
  name ∈ denied fs ->
  WriteFile name data fs = (Err (PathError "open" name "permission denied"), fs).
Proof. intros Hn. unfold WriteFile. by rewrite decide_True. Qed.

Lemma WriteFile_inv_Ok name data fs u fs' :
  WriteFile name data fs = (Ok u, fs') ->
  (name ∉ denied fs) /\ after [Write_ name data] fs fs'.
Proof.
  unfold WriteFile. case_decide; [done|]. intros [= _ <-]. split_and!; done.
Qed.

Lemma WriteFile_inv_Err name data fs e fs' :
  WriteFile name data fs = (Err e, fs') ->
  name ∈ denied fs /\ fs' = fs /\ e = PathError "open" name "permission denied".
Proof. unfold WriteFile. case_decide; naive_solver. Qed.

Lemma WriteFile_no_Panic name data fs m fs' :
  WriteFile name data fs <> (Panic m, fs').
Proof. unfold WriteFile. by case_decide. Qed.

Lemma WriteFile_stable name data : stable le (WriteFile name data).
Proof.
  intros fs. unfold WriteFile. case_decide; simpl; [reflexivity|].
  exists [Write_ name data]. split_and!; done.
Qed.

Lemma ReadFile_state name fs : (ReadFile name fs).2 = fs.
Proof. unfold ReadFile. by destruct (files fs !! name). Qed.

Lemma ReadFile_stable name : stable le (ReadFile name).
Proof. intros fs. rewrite ReadFile_state. reflexivity. Qed.

Lemma ReadFile_Some name data fs :
  files fs !! name = Some data -> ReadFile name fs = (Ok data, fs).
Proof. unfold ReadFile. by intros ->. Qed.

Lemma ReadFile_None name fs :
  files fs !! name = None ->
  ReadFile name fs = (Err (PathError "open" name "no such file or directory"), fs).
Proof. unfold ReadFile. by intros ->. Qed.

(** Reading back what was just written. *)
Lemma ReadFile_WriteFile name data fs fs' :
  WriteFile name data fs = (Ok tt, fs') -> ReadFile name fs' = (Ok data, fs').
Proof.
  intros (_ & _ & _ & Hf)%WriteFile_inv_Ok. apply ReadFile_Some.
  rewrite Hf. simpl. apply lookup_insert_eq.
Qed.

(** A write leaves the other files as they were. *)
Lemma WriteFile_other name data fs fs' other :
  WriteFile name data fs = (Ok tt, fs') -> other <> name ->
  files fs' !! other = files fs !! other.
Proof.
  intros (_ & _ & _ & Hf)%WriteFile_inv_Ok Hne. rewrite Hf. simpl.
  by apply lookup_insert_ne.
Qed.

End FS.

#[export] Hint Resolve FS.WriteFile_stable FS.ReadFile_stable : go.
