(* ===== verification/Env.v ===== *)
(** * Env: what the artifact pipeline is handed, and the store it works on

    src/shared/services/rewards/files.go works on values it does not
    define: the rewards file and its minipool performance file behind the
    interfaces [IRewardsFile] and [IMinipoolPerformanceFile], the content
    identifier [cid.Cid] computed by [singleFileDirIPFSCid], the zstd
    encoder, and the paths given by [config.SmartnodeConfig].  This file
    states them as the interface [Env] (a class of operations) with the
    laws the specification promises ([EnvLaws]), the data of a rewards
    file that files.go reads and writes, and the store: Go passes these
    files by reference, so the model keeps them in a heap and hands
    pointers around, and a world is a heap beside a disk. *)

From stdpp Require Import gmap strings list.
From S2P Require Import Prelude Filepath FileSystem.

(** ** The data of a rewards file *)

(** The fields of [RewardsFileHeader] that files.go touches: the index of
    the rewards interval (a uint64) and the identifier of the compressed
    minipool performance file. *)
Record RewardsFileHeader := mkHeader {
  Index : N;
  MinipoolPerformanceFileCID : string;
}.

(** A rewards file: its header, the rest of its content ([C]) and its
    minipool performance file ([P]). *)
Record RewardsFile (C P : Type) := mkRewardsFile {
  Header : RewardsFileHeader;
  Claims : C;
  MinipoolPerformanceFile : P;
}.
Arguments mkRewardsFile {C P}.
Arguments Header {C P}.
Arguments Claims {C P}.
Arguments MinipoolPerformanceFile {C P}.

#[global] Instance RewardsFileHeader_eq_dec : EqDecision RewardsFileHeader.
Proof. solve_decision. Defined.

#[global] Instance RewardsFile_eq_dec `{EqDecision C, EqDecision P} :
  EqDecision (RewardsFile C P).
Proof. solve_decision. Defined.

(** The field update behind [SetMinipoolPerformanceFileCID]. *)
Definition withPerformanceFileCID {C P} (cid : string) (rf : RewardsFile C P) :
    RewardsFile C P :=
  {| Header := {| Index := Index (Header rf); MinipoolPerformanceFileCID := cid |};
     Claims := Claims rf;
     MinipoolPerformanceFile := MinipoolPerformanceFile rf |}.

(** ** The collaborators *)

Class Env : Type := {
  (** the content of a rewards file and of a performance file *)
  ClaimsData : Type;
  PerformanceData : Type;
  (** [cid.Cid], its [String] method and its zero value [cid.Cid{}] *)
  Cid : Type;
  CidString : Cid -> string;
  CidUndef : Cid;
  (** the identifier of [data] as the only file, named [name], of a
      directory *)
  singleFileDirIPFSCid : bytes -> string -> result Cid;
  (** zstd at the level [SpeedBestCompression], and its inverse *)
  zstdEncode : bytes -> bytes;
  zstdDecode : bytes -> result bytes;
  (** the [Serialize] methods and the package's deserializers *)
  SerializeRewardsFile : RewardsFile ClaimsData PerformanceData -> result bytes;
  DeserializeRewardsFile : bytes -> result (RewardsFile ClaimsData PerformanceData);
  SerializeMinipoolPerformanceFile : PerformanceData -> result bytes;
  DeserializeMinipoolPerformanceFile : bytes -> result PerformanceData;
}.

(** What the specification promises of the collaborators. *)
Class EnvLaws (E : Env) : Prop := {
  zstd_roundtrip : forall b, zstdDecode (zstdEncode b) = Ok b;
  rewards_roundtrip : forall rf b,
    SerializeRewardsFile rf = Ok b -> DeserializeRewardsFile b = Ok rf;
  performance_roundtrip : forall p b,
    SerializeMinipoolPerformanceFile p = Ok b ->
    DeserializeMinipoolPerformanceFile b = Ok p;
}.

(** [encoder.EncodeAll(src, dst)]: the encoding of [src] appended to
    [dst]. *)
Definition EncodeAll `{Env} (src dst : bytes) : bytes := dst ++ zstdEncode src.

(** [config.RewardsTreeIpfsExtension] and [config.RewardsExtensionJSON]. *)
Definition RewardsTreeIpfsExtension : string := ".zst".
Definition RewardsExtensionJSON : string := ".json".

(** The two path methods of [*config.SmartnodeConfig] that files.go calls:
    the interval, the [daemon] flag and, for the rewards tree, the
    extension. *)
Record SmartnodeConfig := mkConfig {
  GetMinipoolPerformancePath : N -> bool -> string;
  GetRewardsTreePath : N -> bool -> string -> string;
}.

(** ** The store *)

Section Store.
Context `{Env}.

Abbreviation rewardsFile := (RewardsFile ClaimsData PerformanceData).

Definition loc := positive.

(** A value of [IRewardsFile]: a pointer to a rewards file of the heap. *)
Definition IRewardsFile := loc.

(** A value of [IMinipoolPerformanceFile]: a pointer to a performance file
    of its own, or to the performance file inside a rewards file. *)
Inductive IMinipoolPerformanceFile :=
| PerformanceObject (l : loc)
| PerformanceField (r : IRewardsFile).

Record Heap := mkHeap {
  rewardsFiles : gmap loc rewardsFile;
  performanceFiles : gmap loc PerformanceData;
}.

Record World := mkWorld {
  heap : Heap;
  fs : FS.t;
}.

Definition nilDereference : string :=
  "runtime error: invalid memory address or nil pointer dereference".

(** Reading through a pointer. *)
Definition derefRewards (r : IRewardsFile) (h : Heap) : result rewardsFile :=
  match rewardsFiles h !! r with
  | Some rf => Ok rf
  | None => Panic nilDereference
  end.

Definition derefPerformance (p : IMinipoolPerformanceFile) (h : Heap) :
    result PerformanceData :=
  match p with
  | PerformanceObject l =>
      match performanceFiles h !! l with
      | Some d => Ok d
      | None => Panic nilDereference
      end
  | PerformanceField r => result_map MinipoolPerformanceFile (derefRewards r h)
  end.

(** [rewardsFile.GetHeader()]. *)
Definition GetHeader (r : IRewardsFile) : prog Heap RewardsFileHeader :=
  reads (fun h => result_map Header (derefRewards r h)).

(** [rewardsFile.GetMinipoolPerformanceFile()]: a pointer into the file. *)
Definition GetMinipoolPerformanceFile (r : IRewardsFile) :
    prog Heap IMinipoolPerformanceFile :=
  reads (fun h => result_map (fun _ => PerformanceField r) (derefRewards r h)).

(** [rewardsFile.SetMinipoolPerformanceFileCID(cid)]. *)
Definition SetMinipoolPerformanceFileCID (r : IRewardsFile) (cid : string) :
    prog Heap unit :=
  fun h =>
    match rewardsFiles h !! r with
    | Some rf =>
        (Ok tt, {| rewardsFiles := <[r := withPerformanceFileCID cid rf]> (rewardsFiles h);
                   performanceFiles := performanceFiles h |})
    | None => (Panic nilDereference, h)
    end.

(** Allocation of a deserialized file. *)
Definition newRewardsFile (rf : rewardsFile) : prog Heap IRewardsFile :=
  fun h =>
    let l := fresh (dom (rewardsFiles h)) in
    (Ok l, {| rewardsFiles := <[l := rf]> (rewardsFiles h);
              performanceFiles := performanceFiles h |}).

Definition newPerformanceFile (d : PerformanceData) :
    prog Heap IMinipoolPerformanceFile :=
  fun h =>
    let l := fresh (dom (performanceFiles h)) in
    (Ok (PerformanceObject l),
     {| rewardsFiles := rewardsFiles h;
        performanceFiles := <[l := d]> (performanceFiles h) |}).

(** Programs on the heap or on the disk, run on the world. *)
Definition onHeap {A} (c : prog Heap A) : prog World A :=
  zoom heap (fun h w => {| heap := h; fs := fs w |}) c.

Definition onDisk {A} (c : prog FS.t A) : prog World A :=
  zoom fs (fun d w => {| heap := heap w; fs := d |}) c.

(** The disk of the second world is the disk of the first after more
    writes. *)
Definition diskLe (w w' : World) : Prop := FS.le (fs w) (fs w').

(** The world with the rewards file at [r] replaced by [rf]. *)
Definition withRewards (r : IRewardsFile) (rf : rewardsFile) (w : World) : World :=
  {| heap := {| rewardsFiles := <[r := rf]> (rewardsFiles (heap w));
                performanceFiles := performanceFiles (heap w) |};
     fs := fs w |}.

(** ** Lemmas on the store *)

#[global] Instance diskLe_preorder : PreOrder diskLe.
Proof.
  split; [intros w; unfold diskLe; reflexivity|].
  intros w1 w2 w3. unfold diskLe. apply transitivity.
Qed.

Lemma withPerformanceFileCID_cid cid (rf : rewardsFile) :
  MinipoolPerformanceFileCID (Header (withPerformanceFileCID cid rf)) = cid.
Proof. reflexivity. Qed.

Lemma withPerformanceFileCID_idemp c1 c2 (rf : rewardsFile) :
  withPerformanceFileCID c2 (withPerformanceFileCID c1 rf) = withPerformanceFileCID c2 rf.
Proof. reflexivity. Qed.

Lemma derefRewards_Some r h rf :
  rewardsFiles h !! r = Some rf -> derefRewards r h = Ok rf.
Proof. unfold derefRewards. by intros ->. Qed.

Lemma derefRewards_None r h :
  rewardsFiles h !! r = None -> derefRewards r h = Panic nilDereference.
Proof. unfold derefRewards. by intros ->. Qed.

Lemma derefRewards_inv_Ok r h rf :
  derefRewards r h = Ok rf -> rewardsFiles h !! r = Some rf.
Proof. unfold derefRewards. destruct (rewardsFiles h !! r); naive_solver. Qed.

Lemma derefPerformance_field r h rf :
  rewardsFiles h !! r = Some rf ->
  derefPerformance (PerformanceField r) h = Ok (MinipoolPerformanceFile rf).
Proof. intros Hr. simpl. by rewrite (derefRewards_Some _ _ _ Hr). Qed.

Lemma SetMinipoolPerformanceFileCID_Some r cid h rf :
  rewardsFiles h !! r = Some rf ->
  SetMinipoolPerformanceFileCID r cid h =
    (Ok tt, {| rewardsFiles := <[r := withPerformanceFileCID cid rf]> (rewardsFiles h);
               performanceFiles := performanceFiles h |}).
Proof. unfold SetMinipoolPerformanceFileCID. by intros ->. Qed.

(** Setting the identifier leaves the performance file of the rewards
    file as it was: the pointer [PerformanceField r] reads the same data
    before and after. *)
Lemma derefPerformance_Set r cid h h' u p :
  SetMinipoolPerformanceFileCID r cid h = (Ok u, h') ->
  derefPerformance p h' = derefPerformance p h.
Proof.
  unfold SetMinipoolPerformanceFileCID.
  destruct (rewardsFiles h !! r) as [rf|] eqn:E; [|done]. intros [= <- <-].
  destruct p as [l|r']; simpl; [done|]. unfold derefRewards. simpl.
  destruct (decide (r = r')) as [<-|Hne].
  - by rewrite lookup_insert_eq, E.
  - by rewrite lookup_insert_ne.
Qed.

Lemma onHeap_run {A} (c : prog Heap A) w r h :
  c (heap w) = (r, h) -> onHeap c w = (r, {| heap := h; fs := fs w |}).
Proof. intros Hc. unfold onHeap, zoom. by rewrite Hc. Qed.

Lemma onDisk_run {A} (c : prog FS.t A) w r d :
  c (fs w) = (r, d) -> onDisk c w = (r, {| heap := heap w; fs := d |}).
Proof. intros Hc. unfold onDisk, zoom. by rewrite Hc. Qed.

Lemma onHeap_fs {A} (c : prog Heap A) w : fs (onHeap c w).2 = fs w.
Proof. unfold onHeap, zoom. by destruct (c (heap w)). Qed.

Lemma onDisk_heap {A} (c : prog FS.t A) w : heap (onDisk c w).2 = heap w.
Proof. unfold onDisk, zoom. by destruct (c (fs w)). Qed.

Lemma World_eta w : {| heap := heap w; fs := fs w |} = w.
Proof. by destruct w. Qed.

(** The three heap methods of a rewards file, run on a world: they
    succeed on a pointer into the heap and panic on any other. *)
Lemma GetHeader_Some r w rf :
  rewardsFiles (heap w) !! r = Some rf ->
  onHeap (GetHeader r) w = (Ok (Header rf), w).
Proof.
  intros Hr. unfold onHeap, zoom, GetHeader, reads.
  by rewrite (derefRewards_Some _ _ _ Hr), World_eta.
Qed.

Lemma GetHeader_None {A} r w (k : RewardsFileHeader -> prog World A) :
  rewardsFiles (heap w) !! r = None ->
  bind (onHeap (GetHeader r)) k w = (Panic nilDereference, w).
Proof.
  intros Hr. unfold bind, onHeap, zoom, GetHeader, reads.
  by rewrite (derefRewards_None _ _ Hr), World_eta.
Qed.

Lemma GetMinipoolPerformanceFile_Some r w rf :
  rewardsFiles (heap w) !! r = Some rf ->
  onHeap (GetMinipoolPerformanceFile r) w = (Ok (PerformanceField r), w).
Proof.
  intros Hr. unfold onHeap, zoom, GetMinipoolPerformanceFile, reads.
  by rewrite (derefRewards_Some _ _ _ Hr), World_eta.
Qed.

Lemma Set_Some r cid w rf :
  rewardsFiles (heap w) !! r = Some rf ->
  onHeap (SetMinipoolPerformanceFileCID r cid) w =
    (Ok tt, withRewards r (withPerformanceFileCID cid rf) w).
Proof.
  intros Hr. unfold onHeap, zoom.
  by rewrite (SetMinipoolPerformanceFileCID_Some _ _ _ _ Hr).
Qed.

Lemma withRewards_lookup r rf w : rewardsFiles (heap (withRewards r rf w)) !! r = Some rf.
Proof. apply lookup_insert_eq. Qed.

Lemma withRewards_fs r rf w : fs (withRewards r rf w) = fs w.
Proof. reflexivity. Qed.

Lemma withRewards_diskLe r rf w : diskLe w (withRewards r rf w).
Proof. unfold diskLe. simpl. reflexivity. Qed.

Lemma stable_onHeap {A} (c : prog Heap A) : stable diskLe (onHeap c).
Proof. intros w. unfold diskLe. rewrite onHeap_fs. reflexivity. Qed.

Lemma stable_onDisk {A} (c : prog FS.t A) : stable FS.le c -> stable diskLe (onDisk c).
Proof. apply stable_zoom. intros w d Hd. exact Hd. Qed.

End Store.

#[export] Hint Resolve stable_onHeap stable_onDisk : go.
