(* ===== verification/Concrete.v ===== *)
(** * Concrete: a small environment in which the models run

    An instance [Demo.env] of the interface [Env] with its laws proved
    ([Demo.laws]), a configuration and a few worlds.  The formats are toy
    ones (a four-byte magic number for zstd, a length-prefixed rewards
    file, an identifier made of the name and a checksum): they are here to show
    that the laws of [EnvLaws] can be met and to let the theorems of the
    development be applied to inputs that evaluate.  Nothing in them
    models the real encodings. *)

From Stdlib.Strings Require Import Byte.
From stdpp Require Import gmap strings list pretty.
From S2P Require Import Prelude Filepath FileSystem Env.

Module Demo.

Definition magic : bytes := [x28; xb5; x2f; xfd].

Definition encode (b : bytes) : bytes := magic ++ b.

Definition decode (b : bytes) : result bytes :=
  match b with
  | x28 :: xb5 :: x2f :: xfd :: b' => Ok b'
  | _ => Err (ErrorNew "invalid input: magic number mismatch")
  end.

(** A 32-bit checksum of the data. *)
Definition checksum (data : bytes) : N :=
  foldl (fun acc b => (acc * 31 + Byte.to_N b) mod 4294967296)%N 7%N data.

(** The identifier spells out the name and the checksum of the data; an
    empty name is an encoding error. *)
Definition cidOf (data : bytes) (name : string) : result string :=
  if decide (name = "") then Err (ErrorNew "empty file name")
  else Ok ("cid:" +:+ name +:+ ":" +:+ pretty (checksum data)).

Definition byteOf (n : N) : result byte :=
  match Byte.of_N n with
  | Some b => Ok b
  | None => Err (ErrorNew "json: unsupported value")
  end.

(** One byte for the index, one for the length of the identifier, the
    identifier, then the performance file. *)
Definition serializeRewards (rf : RewardsFile unit bytes) : result bytes :=
  let cid := String.list_byte_of_string (MinipoolPerformanceFileCID (Header rf)) in
  result_bind (byteOf (Index (Header rf))) (fun i =>
  result_bind (byteOf (N.of_nat (length cid))) (fun n =>
  Ok (i :: n :: cid ++ MinipoolPerformanceFile rf))).

Definition deserializeRewards (b : bytes) : result (RewardsFile unit bytes) :=
  match b with
  | i :: n :: rest =>
      let k := N.to_nat (Byte.to_N n) in
      if decide (k <= length rest)
      then Ok {| Header := {| Index := Byte.to_N i;
                              MinipoolPerformanceFileCID :=
                                String.string_of_list_byte (take k rest) |};
                 Claims := tt;
                 MinipoolPerformanceFile := drop k rest |}
      else Err (ErrorNew "unexpected end of JSON input")
  | _ => Err (ErrorNew "unexpected end of JSON input")
  end.

#[export] Instance env : Env := {|
  ClaimsData := unit;
  PerformanceData := bytes;
  Cid := string;
  CidString c := c;
  CidUndef := "";
  singleFileDirIPFSCid := cidOf;
  zstdEncode := encode;
  zstdDecode := decode;
  SerializeRewardsFile := serializeRewards;
  DeserializeRewardsFile := deserializeRewards;
  SerializeMinipoolPerformanceFile p := Ok p;
  DeserializeMinipoolPerformanceFile b := Ok b;
|}.

Definition config : SmartnodeConfig := {|
  GetMinipoolPerformancePath i _ :=
    "/data/rewards-trees/rp-minipool-performance-mainnet-" +:+ pretty i +:+ ".json";
  GetRewardsTreePath i _ ext :=
    "/data/rewards-trees/rp-rewards-mainnet-" +:+ pretty i +:+ ext;
|}.

(** A rewards file of interval 5 that carries a stale identifier. *)
Definition rewards5 : RewardsFile unit bytes :=
  {| Header := {| Index := 5; MinipoolPerformanceFileCID := "stale" |};
     Claims := tt;
     MinipoolPerformanceFile := [x70; x65; x72; x66] |}.

(** A rewards file whose index does not fit the toy format: it cannot be
    serialized. *)
Definition rewards300 : RewardsFile unit bytes :=
  {| Header := {| Index := 300; MinipoolPerformanceFileCID := "" |};
     Claims := tt;
     MinipoolPerformanceFile := [] |}.

Definition heapOf (rf : RewardsFile unit bytes) : Heap :=
  {| rewardsFiles := {[ 1%positive := rf ]}; performanceFiles := ∅ |}.

(** The file at pointer 1 and an empty disk on which every path can be
    written. *)
Definition world (rf : RewardsFile unit bytes) : World :=
  {| heap := heapOf rf; fs := FS.empty |}.

(** The same with the paths of [names] read-only. *)
Definition worldDenying (rf : RewardsFile unit bytes) (names : list string) : World :=
  {| heap := heapOf rf;
     fs := {| FS.files := ∅; FS.denied := list_to_set names; FS.log := [] |} |}.

Definition perfPath : string := GetMinipoolPerformancePath config 5 true.
Definition rewardsPath : string := GetRewardsTreePath config 5 true RewardsExtensionJSON.

(** ** The laws hold *)

Lemma decode_encode b : decode (encode b) = Ok b.
Proof. reflexivity. Qed.

Lemma byteOf_inv n b : byteOf n = Ok b -> Byte.to_N b = n.
Proof.
  unfold byteOf. destruct (Byte.of_N n) as [b'|] eqn:E; [|done].
  intros [= <-]. by apply Byte.to_of_N.
Qed.

Lemma deserialize_serialize rf b :
  serializeRewards rf = Ok b -> deserializeRewards b = Ok rf.
Proof.
  destruct rf as [[idx cid] [] perf]. unfold serializeRewards. simpl.
  destruct (byteOf idx) as [i| |] eqn:Ei; simpl; [|done..].
  destruct (byteOf (N.of_nat _)) as [n| |] eqn:En; simpl; [|done..].
  intros [= <-]. simpl.
  apply byteOf_inv in Ei as ->. apply byteOf_inv in En as ->.
  rewrite Nat2N.id, decide_True by (rewrite length_app; lia).
  by rewrite take_app_length, drop_app_length, String.string_of_list_byte_of_string.
Qed.

#[export] Instance laws : EnvLaws env.
Proof.
  split.
  - exact decode_encode.
  - exact deserialize_serialize.
  - simpl. congruence.
Qed.

End Demo.
