(* ===== verification/LocalFile.v ===== *)
(** * LocalFile: the wrapper of a serializable file and its path

    Models the first part of src/shared/services/rewards/files.go: the
    interface [ISerializable], the generic wrapper [LocalFile[T]] with its
    constructor [NewLocalFile] and its methods [Impl], [Serialize],
    [Write], [Path], [FileName] and [CreateCompressedFileAndCid], the
    interface [ILocalFile] they implement, and the two readers
    [ReadLocalRewardsFile] and [ReadLocalMinipoolPerformanceFile].

    A [LocalFile] holds a pointer, not a copy: [Serialize] reads the heap
    at the time of the call.  The theorems give the result and the world
    after each method on every branch (serialization error, identifier
    error, write error, success), show that no method undoes a write, that
    the identifier returned by [CreateCompressedFileAndCid] is the one of
    the bytes it wrote, that a file written by [Write] is read back by
    the readers as an equal file, and that the errors of
    [ReadLocalMinipoolPerformanceFile] carry the messages of
    [ReadLocalRewardsFile] ([performance_read_error_names_rewards_file]). *)

From stdpp Require Import gmap strings list.
From S2P Require Import Prelude Filepath FileSystem Env Concrete.

(** ** Definitions *)

(** [type ISerializable interface { Serialize() ([]byte, error) }].
    A value of the interface may be a pointer, so the method reads the
    heap. *)
Class ISerializable `{Env} (T : Type) := {
  Serialize : T -> Heap -> result bytes;
}.

(** The two kinds of files that are wrapped. *)
#[export] Instance IRewardsFile_ISerializable `{Env} : ISerializable IRewardsFile := {|
  Serialize r h := result_bind (derefRewards r h) SerializeRewardsFile;
|}.

#[export] Instance IMinipoolPerformanceFile_ISerializable `{Env} :
    ISerializable IMinipoolPerformanceFile := {|
  Serialize p h := result_bind (derefPerformance p h) SerializeMinipoolPerformanceFile;
|}.

(** [type LocalFile[T ISerializable] struct { f T; fullPath string }]. *)
Record LocalFile (T : Type) := mkLocalFile {
  f : T;
  fullPath : string;
}.
Arguments mkLocalFile {T}.
Arguments f {T}.
Arguments fullPath {T}.

(** [type ILocalFile interface]: a value of the interface is the record
    of its methods, bound to the value they act on. *)
Module ILocalFile.
Record t `{Env} := mk {
  Serialize : Heap -> result bytes;
  Write : prog World bytes;
  Path : string;
  FileName : string;
  CreateCompressedFileAndCid : prog World (string * Cid * option error);
}.
End ILocalFile.

Section LocalFile.
Context `{Env}.

(** The type aliases [LocalRewardsFile] and [LocalMinipoolPerformanceFile]. *)
Definition LocalRewardsFile := LocalFile IRewardsFile.
Definition LocalMinipoolPerformanceFile := LocalFile IMinipoolPerformanceFile.

(** [NewLocalFile] creates the wrapper, and writes nothing. *)
Definition NewLocalFile {T} (ilf : T) (fullpath : string) : LocalFile T :=
  {| f := ilf; fullPath := fullpath |}.

Definition Impl {T} (lf : LocalFile T) : T := f lf.

(** [func (lf *LocalFile[T]) Serialize()]: the wrapper is serializable
    as what it wraps. *)
#[export] Instance LocalFile_ISerializable {T} `{!ISerializable T} :
    ISerializable (LocalFile T) := {|
  Serialize lf := Serialize (f lf);
|}.

(** [func (lf *LocalFile[T]) Write()]: serializes the file and writes it
    to the disk. *)
Definition Write {T} `{!ISerializable T} (lf : LocalFile T) : prog World bytes :=
  data <- reads (fun w => Serialize lf (heap w)) orwrap "error serializing file: " ;;
  onDisk (FS.WriteFile (fullPath lf) data)
    orwrap ("error writing file to " +:+ fullPath lf +:+ ": ") ;;
  ret data.

Definition Path {T} (lf : LocalFile T) : string := fullPath lf.

Definition FileName {T} (lf : LocalFile T) : string := filepath.Base (Path lf).

(** [func (lf *LocalFile[T]) CreateCompressedFileAndCid()]: the three
    values it returns, the error last. *)
Definition CreateCompressedFileAndCid {T} `{!ISerializable T} (lf : LocalFile T) :
    prog World (string * Cid * option error) :=
  or_return (reads (fun w => Serialize lf (heap w)))
    (fun err => ("", CidUndef, Some (Errorf "error serializing file: " err)))
    (fun data =>
  let compressedBytes := EncodeAll data [] in
  let filename := fullPath lf +:+ RewardsTreeIpfsExtension in
  or_return (lift (singleFileDirIPFSCid compressedBytes (filepath.Base filename)))
    (fun err => (filename, CidUndef, Some (Errorf "error calculating CID: " err)))
    (fun c =>
  or_return (onDisk (FS.WriteFile filename compressedBytes))
    (fun err => (filename, CidUndef,
                 Some (Errorf ("error writing file to " +:+ fullPath lf +:+ ": ") err)))
    (fun _ => ret (filename, c, None)))).

(** A [*LocalFile[T]] as a value of [ILocalFile]. *)
Definition asILocalFile {T} `{!ISerializable T} (lf : LocalFile T) : ILocalFile.t :=
  {| ILocalFile.Serialize := Serialize lf;
     ILocalFile.Write := Write lf;
     ILocalFile.Path := Path lf;
     ILocalFile.FileName := FileName lf;
     ILocalFile.CreateCompressedFileAndCid := CreateCompressedFileAndCid lf |}.

(** [ReadLocalRewardsFile] reads a rewards file from the disk and wraps
    it: the deserialized file is a new object of the heap. *)
Definition ReadLocalRewardsFile (path : string) : prog World LocalRewardsFile :=
  fileBytes <- onDisk (FS.ReadFile path)
    orwrap ("error reading rewards file from " +:+ path +:+ ": ") ;;
  proofWrapper <- (rf <- lift (DeserializeRewardsFile fileBytes) ;;
                   onHeap (newRewardsFile rf))
    orwrap ("error unmarshaling rewards file from " +:+ path +:+ ": ") ;;
  ret (NewLocalFile proofWrapper path).

(** [ReadLocalMinipoolPerformanceFile], likewise. *)
Definition ReadLocalMinipoolPerformanceFile (path : string) :
    prog World LocalMinipoolPerformanceFile :=
  fileBytes <- onDisk (FS.ReadFile path)
    orwrap ("error reading rewards file from " +:+ path +:+ ": ") ;;
  minipoolPerformance <- (d <- lift (DeserializeMinipoolPerformanceFile fileBytes) ;;
                          onHeap (newPerformanceFile d))
    orwrap ("error unmarshaling rewards file from " +:+ path +:+ ": ") ;;
  ret (NewLocalFile minipoolPerformance path).

(** The path of the compressed copy. *)
Definition compressedPath {T} (lf : LocalFile T) : string :=
  fullPath lf +:+ RewardsTreeIpfsExtension.

(** The world after a successful write of [data] to [name]. *)
Definition written (name : string) (data : bytes) (w : World) : World :=
  {| heap := heap w;
     fs := {| FS.files := <[name := data]> (FS.files (fs w));
              FS.denied := FS.denied (fs w);
              FS.log := FS.log (fs w) ++ [FS.Write_ name data] |} |}.

(** The pointers the next allocations return. *)
Definition nextRewards (w : World) : IRewardsFile :=
  fresh (dom (rewardsFiles (heap w))).

Definition nextPerformance (w : World) : loc :=
  fresh (dom (performanceFiles (heap w))).

(** The world with the performance file [d] at [l]. *)
Definition withPerformance (l : loc) (d : PerformanceData) (w : World) : World :=
  {| heap := {| rewardsFiles := rewardsFiles (heap w);
                performanceFiles := <[l := d]> (performanceFiles (heap w)) |};
     fs := fs w |}.

End LocalFile.

(** ** The methods, branch by branch *)

(** Unfolds a method down to the calls it makes. *)
Ltac unfold_methods :=
  unfold Write, CreateCompressedFileAndCid, ReadLocalRewardsFile,
    ReadLocalMinipoolPerformanceFile, compressedPath, written, EncodeAll,
    bind, or_return, wrap_err, reads, lift, onDisk, onHeap, zoom, ret,
    FS.WriteFile, FS.ReadFile, result_wrap in *.

Section Methods.
Context `{Env} {T : Type} `{!ISerializable T}.
Implicit Types (lf : LocalFile T) (w : World) (data : bytes).

(** [Write] on its three branches. *)
Lemma Write_ok lf w data :
  Serialize lf (heap w) = Ok data ->
  fullPath lf ∉ FS.denied (fs w) ->
  Write lf w = (Ok data, written (fullPath lf) data w).
Proof.
  intros Hs Hd. unfold_methods. rewrite Hs. simpl.
  by rewrite decide_False.
Qed.

Lemma Write_serialize_error lf w e :
  Serialize lf (heap w) = Err e ->
  Write lf w = (Err (Errorf "error serializing file: " e), w).
Proof. intros Hs. unfold_methods. by rewrite Hs. Qed.

Lemma Write_write_error lf w data :
  Serialize lf (heap w) = Ok data ->
  fullPath lf ∈ FS.denied (fs w) ->
  Write lf w =
    (Err (Errorf ("error writing file to " +:+ fullPath lf +:+ ": ")
            (FS.PathError "open" (fullPath lf) "permission denied")), w).
Proof.
  intros Hs Hd. unfold_methods. rewrite Hs. simpl.
  by rewrite decide_True, World_eta.
Qed.

Lemma Write_panic lf w m :
  Serialize lf (heap w) = Panic m -> Write lf w = (Panic m, w).
Proof. intros Hs. unfold_methods. by rewrite Hs. Qed.

(** What a successful [Write] did. *)
Lemma Write_inv_Ok lf w data w' :
  Write lf w = (Ok data, w') ->
  Serialize lf (heap w) = Ok data /\
  (fullPath lf ∉ FS.denied (fs w)) /\
  w' = written (fullPath lf) data w.
Proof.
  destruct (Serialize lf (heap w)) as [d|e|m] eqn:Hs.
  - destruct (decide (fullPath lf ∈ FS.denied (fs w))) as [Hd|Hd].
    + by rewrite (Write_write_error _ _ _ Hs Hd).
    + rewrite (Write_ok _ _ _ Hs Hd). by intros [= <- <-].
  - by rewrite (Write_serialize_error _ _ _ Hs).
  - by rewrite (Write_panic _ _ _ Hs).
Qed.

(** A [Write] that does not succeed leaves the world as it was. *)
Lemma Write_failure_unchanged lf w r w' :
  Write lf w = (r, w') -> is_Ok r = false -> w' = w.
Proof.
  destruct (Serialize lf (heap w)) as [d|e|m] eqn:Hs.
  - destruct (decide (fullPath lf ∈ FS.denied (fs w))) as [Hd|Hd].
    + rewrite (Write_write_error _ _ _ Hs Hd). by intros [= <- <-].
    + rewrite (Write_ok _ _ _ Hs Hd). by intros [= <- <-].
  - rewrite (Write_serialize_error _ _ _ Hs). by intros [= <- <-].
  - rewrite (Write_panic _ _ _ Hs). by intros [= <- <-].
Qed.

Lemma written_heap name data w : heap (written name data w) = heap w.
Proof. reflexivity. Qed.

Lemma written_lookup name data w :
  FS.files (fs (written name data w)) !! name = Some data.
Proof. apply lookup_insert_eq. Qed.

Lemma written_lookup_ne name data w other :
  other <> name ->
  FS.files (fs (written name data w)) !! other = FS.files (fs w) !! other.
Proof. intros. by apply lookup_insert_ne. Qed.

Lemma written_after name data w :
  FS.after [FS.Write_ name data] (fs w) (fs (written name data w)).
Proof. by split_and!. Qed.

Lemma written_denied name data w :
  FS.denied (fs (written name data w)) = FS.denied (fs w).
Proof. reflexivity. Qed.

Lemma written_log name data w :
  FS.log (fs (written name data w)) = FS.log (fs w) ++ [FS.Write_ name data].
Proof. reflexivity. Qed.

Lemma written_diskLe name data w : diskLe w (written name data w).
Proof. exists [FS.Write_ name data]. apply written_after. Qed.

(** A path and the path of its compressed copy differ. *)
Lemma compressedPath_ne lf : fullPath lf <> compressedPath lf.
Proof.
  unfold compressedPath. intros Heq%(f_equal String.length).
  rewrite string_app_length in Heq. simpl in Heq. lia.
Qed.

(** [CreateCompressedFileAndCid] on its branches. *)
Lemma Create_ok lf w data c :
  Serialize lf (heap w) = Ok data ->
  singleFileDirIPFSCid (zstdEncode data) (filepath.Base (compressedPath lf)) = Ok c ->
  compressedPath lf ∉ FS.denied (fs w) ->
  CreateCompressedFileAndCid lf w =
    (Ok (compressedPath lf, c, None), written (compressedPath lf) (zstdEncode data) w).
Proof.
  intros Hs Hc Hd. unfold_methods. rewrite Hs. simpl. rewrite Hc.
  by rewrite decide_False.
Qed.

Lemma Create_serialize_error lf w e :
  Serialize lf (heap w) = Err e ->
  CreateCompressedFileAndCid lf w =
    (Ok ("", CidUndef, Some (Errorf "error serializing file: " e)), w).
Proof. intros Hs. unfold_methods. by rewrite Hs. Qed.

Lemma Create_cid_error lf w data e :
  Serialize lf (heap w) = Ok data ->
  singleFileDirIPFSCid (zstdEncode data) (filepath.Base (compressedPath lf)) = Err e ->
  CreateCompressedFileAndCid lf w =
    (Ok (compressedPath lf, CidUndef, Some (Errorf "error calculating CID: " e)), w).
Proof. intros Hs Hc. unfold_methods. rewrite Hs. simpl. by rewrite Hc. Qed.

Lemma Create_write_error lf w data c :
  Serialize lf (heap w) = Ok data ->
  singleFileDirIPFSCid (zstdEncode data) (filepath.Base (compressedPath lf)) = Ok c ->
  compressedPath lf ∈ FS.denied (fs w) ->
  CreateCompressedFileAndCid lf w =
    (Ok (compressedPath lf, CidUndef,
         Some (Errorf ("error writing file to " +:+ fullPath lf +:+ ": ")
                 (FS.PathError "open" (compressedPath lf) "permission denied"))), w).
Proof.
  intros Hs Hc Hd. unfold_methods. rewrite Hs. simpl. rewrite Hc.
  by rewrite decide_True, World_eta.
Qed.

Lemma Create_panic lf w m :
  Serialize lf (heap w) = Panic m ->
  CreateCompressedFileAndCid lf w = (Panic m, w).
Proof. intros Hs. unfold_methods. by rewrite Hs. Qed.

Lemma Create_cid_panic lf w data m :
  Serialize lf (heap w) = Ok data ->
  singleFileDirIPFSCid (zstdEncode data) (filepath.Base (compressedPath lf)) = Panic m ->
  CreateCompressedFileAndCid lf w = (Panic m, w).
Proof. intros Hs Hc. unfold_methods. rewrite Hs. simpl. by rewrite Hc. Qed.

(** The call succeeded: it returned no error. *)
Definition created lf w data c : Prop :=
  Serialize lf (heap w) = Ok data /\
  singleFileDirIPFSCid (zstdEncode data) (filepath.Base (compressedPath lf)) = Ok c /\
  compressedPath lf ∉ FS.denied (fs w).

(** Every outcome of [CreateCompressedFileAndCid]: success, one of the
    three errors with the world unchanged, or a panic of a callee. *)
Lemma Create_cases lf w :
  (exists data c, created lf w data c /\
     CreateCompressedFileAndCid lf w =
       (Ok (compressedPath lf, c, None),
        written (compressedPath lf) (zstdEncode data) w)) \/
  (exists name e, CreateCompressedFileAndCid lf w = (Ok (name, CidUndef, Some e), w)) \/
  (exists m, CreateCompressedFileAndCid lf w = (Panic m, w)).
Proof.
  destruct (Serialize lf (heap w)) as [data|e|m] eqn:Hs;
    [|right; left; eauto using Create_serialize_error
     |right; right; eauto using Create_panic].
  destruct (singleFileDirIPFSCid (zstdEncode data) (filepath.Base (compressedPath lf)))
    as [c|e|m] eqn:Hc;
    [|right; left; eauto using Create_cid_error
     |right; right; eauto using Create_cid_panic].
  destruct (decide (compressedPath lf ∈ FS.denied (fs w))) as [Hd|Hd];
    [right; left; eauto using Create_write_error|].
  left. exists data, c. split; [done|]. by apply Create_ok.
Qed.

(** What a call that returned no error did. *)
Lemma Create_inv_Ok lf w name c w' :
  CreateCompressedFileAndCid lf w = (Ok (name, c, None), w') ->
  exists data, created lf w data c /\ name = compressedPath lf /\
    w' = written (compressedPath lf) (zstdEncode data) w.
Proof.
  destruct (Create_cases lf w) as [(data & c0 & Hc & ->)|[(n & e & ->)|(m & ->)]];
    [|done..].
  intros [= <- <- <-]. eauto.
Qed.

(** A call that did not succeed leaves the world as it was. *)
Lemma Create_failure_unchanged lf w r w' :
  CreateCompressedFileAndCid lf w = (r, w') ->
  (forall name c, r <> Ok (name, c, None)) -> w' = w.
Proof.
  destruct (Create_cases lf w) as [(data & c0 & Hc & ->)|[(n & e & ->)|(m & ->)]];
    intros [= <- <-] Hr; [|done..].
  by destruct (Hr (compressedPath lf) c0).
Qed.

(** The caller's view of the call, its error checked. *)
Lemma checked_Create_inv_Ok p lf w res w' :
  checked p (CreateCompressedFileAndCid lf) w = (Ok res, w') ->
  exists data, created lf w data res.2 /\ res.1 = compressedPath lf /\
    w' = written (compressedPath lf) (zstdEncode data) w.
Proof.
  unfold checked, bind.
  destruct (Create_cases lf w) as [(data & c0 & Hc & ->)|[(n & e & ->)|(m & ->)]];
    simpl; [|done..].
  intros [= <- <-]. eauto.
Qed.

Lemma checked_Create_failure_unchanged p lf w r w' :
  checked p (CreateCompressedFileAndCid lf) w = (r, w') -> is_Ok r = false -> w' = w.
Proof.
  unfold checked, bind.
  destruct (Create_cases lf w) as [(data & c0 & Hc & ->)|[(n & e & ->)|(m & ->)]];
    simpl; by intros [= <- <-].
Qed.

(** No method undoes a write. *)
Lemma Write_stable lf : stable diskLe (Write lf).
Proof. unfold Write. eauto 10 with go. Qed.

Lemma Create_stable lf : stable diskLe (CreateCompressedFileAndCid lf).
Proof. unfold CreateCompressedFileAndCid. eauto 15 with go. Qed.

(** No method changes the heap. *)
Lemma Write_heap lf w : heap (Write lf w).2 = heap w.
Proof.
  destruct (Write lf w) as [[data|e|m] w'] eqn:E; simpl;
    [|by rewrite (Write_failure_unchanged _ _ _ _ E)..].
  by apply Write_inv_Ok in E as (_ & _ & ->).
Qed.

Lemma Create_heap lf w : heap (CreateCompressedFileAndCid lf w).2 = heap w.
Proof.
  by destruct (Create_cases lf w) as [(data & c0 & Hc & ->)|[(n & e & ->)|(m & ->)]].
Qed.

(** C20: [Write] is all or nothing.  Either the file serializes, the
    call returns its bytes and the world is the one before with those
    bytes at the path of the wrapper; or the call returns no result and
    the world is unchanged. *)
Theorem Write_all_or_nothing lf w :
  (exists data,
     Serialize lf (heap w) = Ok data /\
     Write lf w = (Ok data, written (Path lf) data w) /\
     FS.files (fs (Write lf w).2) !! Path lf = Some data) \/
  (is_Ok (Write lf w).1 = false /\ (Write lf w).2 = w).
Proof.
  destruct (Write lf w) as [[data|e|m] w'] eqn:E;
    [|right; split; [done|by eapply Write_failure_unchanged]..].
  apply Write_inv_Ok in E as (Hs & _ & ->). left. exists data.
  split_and!; [done..|apply written_lookup].
Qed.

(** C19: when [CreateCompressedFileAndCid] returns no error, the name it
    returns is the path of the wrapper with the extension [.zst], the
    file of that name on the disk holds the compressed serialization,
    and the identifier returned is the one of exactly those bytes under
    the base name of that file. *)
Theorem Create_identifies_written_bytes lf w name c w' :
  CreateCompressedFileAndCid lf w = (Ok (name, c, None), w') ->
  name = Path lf +:+ RewardsTreeIpfsExtension /\
  exists data,
    Serialize lf (heap w) = Ok data /\
    FS.files (fs w') !! name = Some (EncodeAll data []) /\
    singleFileDirIPFSCid (EncodeAll data []) (filepath.Base name) = Ok c.
Proof.
  intros (data & (Hs & Hc & _) & -> & ->)%Create_inv_Ok. split; [done|].
  exists data. split_and!; [done|apply written_lookup|done].
Qed.

(** When [CreateCompressedFileAndCid] returns an error, the
    identifier it returns is the undefined one, the name is empty (the
    file did not serialize) or the path of the compressed copy, and
    nothing was written. *)
Theorem Create_error_keeps_world lf w name c e w' :
  CreateCompressedFileAndCid lf w = (Ok (name, c, Some e), w') ->
  c = CidUndef /\ w' = w /\ (name = "" \/ name = compressedPath lf).
Proof.
  destruct (Serialize lf (heap w)) as [data|e0|m] eqn:Hs;
    [|rewrite (Create_serialize_error _ _ _ Hs); intros [= <- <- <- <-]; auto
     |by rewrite (Create_panic _ _ _ Hs)].
  destruct (singleFileDirIPFSCid (zstdEncode data) (filepath.Base (compressedPath lf)))
    as [c0|e0|m] eqn:Hc;
    [|rewrite (Create_cid_error _ _ _ _ Hs Hc); intros [= <- <- <- <-]; auto
     |by rewrite (Create_cid_panic _ _ _ _ Hs Hc)].
  destruct (decide (compressedPath lf ∈ FS.denied (fs w))) as [Hd|Hd].
  - rewrite (Create_write_error _ _ _ _ Hs Hc Hd). intros [= <- <- <- <-]. auto.
  - by rewrite (Create_ok _ _ _ _ Hs Hc Hd).
Qed.

(** C23: when the compressed copy cannot be written, the error
    [CreateCompressedFileAndCid] returns names the path of the plain file
    in its message, which is not the path the write failed on. *)
Theorem Create_write_error_names_plain_path lf w data c :
  Serialize lf (heap w) = Ok data ->
  singleFileDirIPFSCid (zstdEncode data) (filepath.Base (compressedPath lf)) = Ok c ->
  compressedPath lf ∈ FS.denied (fs w) ->
  exists name failed,
    CreateCompressedFileAndCid lf w =
      (Ok (name, CidUndef,
           Some (Errorf ("error writing file to " +:+ Path lf +:+ ": ")
                   (FS.PathError "open" failed "permission denied"))), w) /\
    failed = name /\ failed <> Path lf.
Proof.
  intros Hs Hc Hd. exists (compressedPath lf), (compressedPath lf).
  split_and!; [by eapply Create_write_error|done|].
  intros Heq. by apply (compressedPath_ne lf).
Qed.

(** For a path that is not empty and does not end in a separator,
    the base name of the compressed copy, under which its identifier is
    computed and recorded, is the file name of the wrapper followed by
    [.zst]. *)
Theorem compressed_name_is_name_plus_ext lf :
  Path lf <> "" -> filepath.endsPlain (Path lf) = true ->
  filepath.Base (compressedPath lf) = FileName lf +:+ RewardsTreeIpfsExtension.
Proof.
  intros Hne Hend. unfold compressedPath, FileName.
  apply filepath.Base_app_ext; [done..|].
  unfold filepath.noSeparator. simpl. by repeat constructor.
Qed.

End Methods.

#[export] Hint Resolve Write_stable Create_stable : go.

(** ** The readers, branch by branch *)

Section Readers.
Context `{Env}.
Implicit Types (w : World) (path : string).

Lemma nextRewards_fresh w : rewardsFiles (heap w) !! nextRewards w = None.
Proof. apply not_elem_of_dom, is_fresh. Qed.

Lemma nextPerformance_fresh w : performanceFiles (heap w) !! nextPerformance w = None.
Proof. apply not_elem_of_dom, is_fresh. Qed.

Lemma ReadLocalRewardsFile_ok path w b rf :
  FS.files (fs w) !! path = Some b ->
  DeserializeRewardsFile b = Ok rf ->
  ReadLocalRewardsFile path w =
    (Ok (NewLocalFile (nextRewards w) path), withRewards (nextRewards w) rf w).
Proof. intros Hb Hrf. unfold_methods. rewrite Hb. simpl. by rewrite Hrf. Qed.

Lemma ReadLocalMinipoolPerformanceFile_ok path w b d :
  FS.files (fs w) !! path = Some b ->
  DeserializeMinipoolPerformanceFile b = Ok d ->
  ReadLocalMinipoolPerformanceFile path w =
    (Ok (NewLocalFile (PerformanceObject (nextPerformance w)) path),
     withPerformance (nextPerformance w) d w).
Proof. intros Hb Hd. unfold_methods. rewrite Hb. simpl. by rewrite Hd. Qed.

Lemma ReadLocalRewardsFile_missing path w :
  FS.files (fs w) !! path = None ->
  ReadLocalRewardsFile path w =
    (Err (Errorf ("error reading rewards file from " +:+ path +:+ ": ")
            (FS.PathError "open" path "no such file or directory")), w).
Proof. intros Hb. unfold_methods. rewrite Hb. simpl. by rewrite World_eta. Qed.

Lemma ReadLocalRewardsFile_malformed path w b e :
  FS.files (fs w) !! path = Some b ->
  DeserializeRewardsFile b = Err e ->
  ReadLocalRewardsFile path w =
    (Err (Errorf ("error unmarshaling rewards file from " +:+ path +:+ ": ") e), w).
Proof.
  intros Hb He. unfold_methods. rewrite Hb. simpl. rewrite He. simpl.
  by rewrite World_eta.
Qed.

(** Reading a file changes no file that was in the heap. *)
Lemma ReadLocalRewardsFile_heap path w r w' l rf :
  ReadLocalRewardsFile path w = (r, w') ->
  rewardsFiles (heap w) !! l = Some rf -> rewardsFiles (heap w') !! l = Some rf.
Proof.
  intros E Hl. destruct (FS.files (fs w) !! path) as [b|] eqn:Hb;
    [|rewrite (ReadLocalRewardsFile_missing _ _ Hb) in E; by simplify_eq].
  unfold_methods. rewrite Hb in E. simpl in E.
  destruct (DeserializeRewardsFile b); simplify_eq; simpl; [|done..].
  rewrite lookup_insert_ne; [done|]. intros <-.
  pose proof (nextRewards_fresh w) as Hf.
  by assert (Some rf = None) by (etrans; [symmetry; exact Hl|exact Hf]).
Qed.

Lemma ReadLocalRewardsFile_stable path : stable diskLe (ReadLocalRewardsFile path).
Proof. unfold ReadLocalRewardsFile. eauto 15 with go. Qed.

Lemma ReadLocalMinipoolPerformanceFile_missing path w :
  FS.files (fs w) !! path = None ->
  ReadLocalMinipoolPerformanceFile path w =
    (Err (Errorf ("error reading rewards file from " +:+ path +:+ ": ")
            (FS.PathError "open" path "no such file or directory")), w).
Proof. intros Hb. unfold_methods. rewrite Hb. simpl. by rewrite World_eta. Qed.

Lemma ReadLocalMinipoolPerformanceFile_malformed path w b e :
  FS.files (fs w) !! path = Some b ->
  DeserializeMinipoolPerformanceFile b = Err e ->
  ReadLocalMinipoolPerformanceFile path w =
    (Err (Errorf ("error unmarshaling rewards file from " +:+ path +:+ ": ") e), w).
Proof.
  intros Hb He. unfold_methods. rewrite Hb. simpl. rewrite He. simpl.
  by rewrite World_eta.
Qed.

(** A deserializer that panics takes the reader with it. *)
Lemma ReadLocalMinipoolPerformanceFile_panic path w b m :
  FS.files (fs w) !! path = Some b ->
  DeserializeMinipoolPerformanceFile b = Panic m ->
  ReadLocalMinipoolPerformanceFile path w = (Panic m, w).
Proof.
  intros Hb He. unfold_methods. rewrite Hb. simpl. rewrite He. simpl.
  by rewrite World_eta.
Qed.

(** C21: a failed read of the performance file is reported as a failed
    read of the rewards file.  Whenever [ReadLocalMinipoolPerformanceFile]
    returns an error the world is as it was and the error wraps its
    cause, but its message begins with the words of
    [ReadLocalRewardsFile]: "error reading rewards file from" the path
    when the file is missing, where the error is the very error
    [ReadLocalRewardsFile] returns for that path, and "error unmarshaling
    rewards file from" the path when the bytes are no performance
    file. *)
Theorem performance_read_error_names_rewards_file path w e w' :
  ReadLocalMinipoolPerformanceFile path w = (Err e, w') ->
  w' = w /\
  exists cause, Unwrap e = Some cause /\
    ((FS.files (fs w) !! path = None /\
      cause = FS.PathError "open" path "no such file or directory" /\
      Error e = ("error reading rewards file from " +:+ path +:+ ": ") +:+ Error cause /\
      ReadLocalRewardsFile path w = (Err e, w)) \/
     (exists b, FS.files (fs w) !! path = Some b /\
      DeserializeMinipoolPerformanceFile b = Err cause /\
      Error e = ("error unmarshaling rewards file from " +:+ path +:+ ": ") +:+ Error cause)).
Proof.
  destruct (FS.files (fs w) !! path) as [b|] eqn:Hb.
  - destruct (DeserializeMinipoolPerformanceFile b) as [d|c|m] eqn:Hd.
    + rewrite (ReadLocalMinipoolPerformanceFile_ok _ _ _ _ Hb Hd). by intros.
    + rewrite (ReadLocalMinipoolPerformanceFile_malformed _ _ _ _ Hb Hd).
      intros [= <- <-]. split; [done|]. exists c. split; [done|]. right. by exists b.
    + rewrite (ReadLocalMinipoolPerformanceFile_panic _ _ _ _ Hb Hd). by intros.
  - rewrite (ReadLocalMinipoolPerformanceFile_missing _ _ Hb).
    intros [= <- <-]. split; [done|]. eexists. split; [done|]. left.
    split_and!; [done..|]. by apply ReadLocalRewardsFile_missing.
Qed.

(** C17: a rewards file written by [Write] is read back by
    [ReadLocalRewardsFile] from the same path as an equal file: the
    result wraps a new object of the heap, distinct from the one
    written, whose content is the content written; the file written is
    still in the heap and the disk is the one [Write] left. *)
Theorem Write_then_ReadLocalRewardsFile `{!EnvLaws H} (lf : LocalRewardsFile) w data w' rf :
  rewardsFiles (heap w) !! Impl lf = Some rf ->
  Write lf w = (Ok data, w') ->
  exists lf' w'',
    ReadLocalRewardsFile (Path lf) w' = (Ok lf', w'') /\
    Path lf' = Path lf /\ Impl lf' <> Impl lf /\
    rewardsFiles (heap w'') !! Impl lf' = Some rf /\
    rewardsFiles (heap w'') !! Impl lf = Some rf /\
    fs w'' = fs w'.
Proof.
  intros Hrf (Hs & _ & ->)%Write_inv_Ok. unfold Impl in *.
  simpl in Hs. rewrite (derefRewards_Some _ _ _ Hrf) in Hs.
  eexists _, _. split.
  { apply ReadLocalRewardsFile_ok with (b := data);
      [apply written_lookup|by apply rewards_roundtrip]. }
  assert (nextRewards (written (fullPath lf) data w) <> f lf) as Hne.
  { intros Heq. pose proof (nextRewards_fresh w) as Hf.
    unfold nextRewards in *. rewrite written_heap in Heq. congruence. }
  split_and!; [done|done|apply lookup_insert_eq| |done].
  simpl. by rewrite lookup_insert_ne.
Qed.

End Readers.

(** ** The theorems at concrete inputs *)

Module LocalFileDemo.
Import Demo.

Definition lfDemo : LocalRewardsFile := NewLocalFile 1%positive rewardsPath.

(** A wrapper whose path ends in a separator. *)
Definition dirDemo : LocalRewardsFile := NewLocalFile 1%positive "/data/".

(** What the methods compute on the rewards file of interval 5. *)
Definition dataDemo : bytes := from_Ok [] (Serialize lfDemo (heapOf rewards5)).
Definition writeDemo := Write lfDemo (world rewards5).
Definition createDemo := CreateCompressedFileAndCid lfDemo (world rewards5).
Definition cidDemo : string := (from_Ok ("", "", @None error) createDemo.1).1.2.
Definition errDemo : error :=
  Errorf "error serializing file: " (ErrorNew "json: unsupported value").

(** A world in which the compressed copy cannot be written. *)
Definition denying : World := worldDenying rewards5 [compressedPath lfDemo].

Lemma serializeDemo_eq : Serialize lfDemo (heapOf rewards5) = Ok dataDemo.
Proof. vm_cast_no_check (eq_refl (Ok dataDemo)). Qed.

Lemma cidDemo_eq :
  singleFileDirIPFSCid (zstdEncode dataDemo) (filepath.Base (compressedPath lfDemo))
  = Ok cidDemo.
Proof. vm_cast_no_check (eq_refl (Ok cidDemo)). Qed.

Lemma writeDemo_eq : Write lfDemo (world rewards5) = (Ok dataDemo, writeDemo.2).
Proof. vm_cast_no_check (eq_refl (Ok dataDemo, writeDemo.2)). Qed.

Lemma createDemo_eq :
  CreateCompressedFileAndCid lfDemo (world rewards5)
  = (Ok (compressedPath lfDemo, cidDemo, None), createDemo.2).
Proof.
  vm_cast_no_check
    (eq_refl (Ok (compressedPath lfDemo, cidDemo, @None error), createDemo.2)).
Qed.

Lemma createErrDemo_eq :
  CreateCompressedFileAndCid lfDemo (world rewards300)
  = (Ok ("", CidUndef, Some errDemo), world rewards300).
Proof. vm_cast_no_check (eq_refl (Ok ("", CidUndef, Some errDemo), world rewards300)). Qed.

Lemma denying_denied : compressedPath lfDemo ∈ FS.denied (fs denying).
Proof. apply elem_of_list_to_set. left. Qed.

Lemma Create_identifies_written_bytes_witness :
  compressedPath lfDemo = Path lfDemo +:+ RewardsTreeIpfsExtension /\
  exists data,
    Serialize lfDemo (heap (world rewards5)) = Ok data /\
    FS.files (fs createDemo.2) !! compressedPath lfDemo = Some (EncodeAll data []) /\
    singleFileDirIPFSCid (EncodeAll data []) (filepath.Base (compressedPath lfDemo))
      = Ok cidDemo.
Proof.
  exact (Create_identifies_written_bytes lfDemo (world rewards5) _ _ _ createDemo_eq).
Defined.

Lemma Create_error_keeps_world_witness :
  CreateCompressedFileAndCid lfDemo (world rewards300)
    = (Ok ("", CidUndef, Some errDemo), world rewards300) /\
  CidUndef = CidUndef /\ world rewards300 = world rewards300 /\
  ("" = "" \/ "" = compressedPath lfDemo).
Proof.
  split; [exact createErrDemo_eq|].
  exact (Create_error_keeps_world lfDemo (world rewards300) _ _ _ _ createErrDemo_eq).
Defined.

Lemma Create_write_error_names_plain_path_witness :
  exists name failed,
    CreateCompressedFileAndCid lfDemo denying =
      (Ok (name, CidUndef,
           Some (Errorf ("error writing file to " +:+ Path lfDemo +:+ ": ")
                   (FS.PathError "open" failed "permission denied"))), denying) /\
    failed = name /\ failed <> Path lfDemo.
Proof.
  exact (Create_write_error_names_plain_path lfDemo denying dataDemo cidDemo
           serializeDemo_eq cidDemo_eq denying_denied).
Defined.

Lemma compressed_name_is_name_plus_ext_witness :
  filepath.Base (compressedPath lfDemo) = FileName lfDemo +:+ RewardsTreeIpfsExtension.
Proof. apply (compressed_name_is_name_plus_ext lfDemo); by vm_compute. Defined.

Lemma Write_then_ReadLocalRewardsFile_witness :
  exists lf' w'',
    ReadLocalRewardsFile (Path lfDemo) writeDemo.2 = (Ok lf', w'') /\
    Path lf' = Path lfDemo /\ Impl lf' <> Impl lfDemo /\
    rewardsFiles (heap w'') !! Impl lf' = Some rewards5 /\
    rewardsFiles (heap w'') !! Impl lfDemo = Some rewards5 /\
    fs w'' = fs writeDemo.2.
Proof.
  exact (Write_then_ReadLocalRewardsFile (EnvLaws0 := laws) lfDemo (world rewards5)
           dataDemo writeDemo.2 rewards5 eq_refl writeDemo_eq).
Defined.

(** Reading a performance file that is not on the disk. *)
Definition missingPath : string := "/data/rp-minipool-performance-mainnet-5.json".
Definition missingDemo : error :=
  Errorf ("error reading rewards file from " +:+ missingPath +:+ ": ")
    (FS.PathError "open" missingPath "no such file or directory").

Lemma missingDemo_eq :
  ReadLocalMinipoolPerformanceFile missingPath (world rewards5)
  = (Err missingDemo, world rewards5).
Proof. vm_cast_no_check (eq_refl (@Err LocalMinipoolPerformanceFile missingDemo, world rewards5)). Qed.

Lemma performance_read_error_names_rewards_file_witness :
  world rewards5 = world rewards5 /\
  exists cause, Unwrap missingDemo = Some cause /\
    ((FS.files (fs (world rewards5)) !! missingPath = None /\
      cause = FS.PathError "open" missingPath "no such file or directory" /\
      Error missingDemo
        = ("error reading rewards file from " +:+ missingPath +:+ ": ") +:+ Error cause /\
      ReadLocalRewardsFile missingPath (world rewards5) = (Err missingDemo, world rewards5)) \/
     (exists b, FS.files (fs (world rewards5)) !! missingPath = Some b /\
      DeserializeMinipoolPerformanceFile b = Err cause /\
      Error missingDemo
        = ("error unmarshaling rewards file from " +:+ missingPath +:+ ": ") +:+ Error cause)).
Proof.
  exact (performance_read_error_names_rewards_file missingPath (world rewards5)
           missingDemo (world rewards5) missingDemo_eq).
Defined.

(** The condition of [compressed_name_is_name_plus_ext] on the path is
    needed.  For a path that
    ends in a separator the file name of the wrapper is [data], and the
    compressed copy is identified and recorded under [.zst]. *)
Example compressed_name_of_directory_path :
  FileName dirDemo = "data" /\
  filepath.Base (compressedPath dirDemo) = ".zst" /\
  filepath.Base (compressedPath dirDemo) <> FileName dirDemo +:+ RewardsTreeIpfsExtension.
Proof. by vm_compute. Qed.

End LocalFileDemo.
