(* ===== verification/Artifacts.v ===== *)
(** * Artifacts: [saveJSONArtifacts], the orchestrator of the two files

    Models the second part of src/shared/services/rewards/files.go.
    [saveJSONArtifacts] wraps the minipool performance file and the
    rewards file, in that order, and for each of them writes the file,
    computes its identifier and records it; on a trusted node it then
    writes the compressed copy, records its identifier, and, between the
    two files, stores the identifier of the compressed performance file
    in the rewards file.  The rewards file is wrapped by reference before
    the loop and serialized after that update: the model keeps the
    pointer, so the bytes written are those of the updated file.

    The loop body is [saveOne]; the loop is the prelude's [range].  The
    pointer [primaryCid] of the source is an option, and the dereference
    of the final [return] panics on [None].

    The two files a run wrote are read back by the readers of
    LocalFile.v as the run has them in memory ([reload_after_save],
    [reload_performance_after_save]). *)

From stdpp Require Import gmap strings list.
From S2P Require Import Prelude Filepath FileSystem Env Concrete LocalFile.

(** ** Definitions *)

Section Artifacts.
Context `{Env}.

(** The variables of [saveJSONArtifacts] that the loop updates:
    [var primaryCid *cid.Cid] and [out := make(map[string]cid.Cid, 4)]. *)
Record loopState := mkLoop {
  primaryCid : option Cid;
  out : gmap string Cid;
}.

Definition setOut (name : string) (c : Cid) (st : loopState) : loopState :=
  {| primaryCid := primaryCid st; out := <[name := c]> (out st) |}.

Definition setPrimary (c : Cid) (st : loopState) : loopState :=
  {| primaryCid := Some c; out := out st |}.

(** The value written in the rewards file of a node that is not trusted. *)
Definition sentinel : string := "---".

(** The body of the loop, for the file [f] at index [i]. *)
Definition saveOne (rewardsFile : IRewardsFile) (nodeTrusted : bool)
    (i : nat) (f : ILocalFile.t) (st : loopState) : prog World loopState :=
  data <- ILocalFile.Write f
    orwrap ("error saving " +:+ ILocalFile.Path f +:+ ": ") ;;
  c <- lift (singleFileDirIPFSCid data (ILocalFile.FileName f))
    orwrap ("error calculating cid for saved file " +:+ ILocalFile.Path f +:+ ": ") ;;
  let st := setOut (ILocalFile.FileName f) c st in
  if negb nodeTrusted then
    onHeap (SetMinipoolPerformanceFileCID rewardsFile sentinel) ;;
    ret st
  else
    r <- checked ("error compressing file " +:+ ILocalFile.Path f +:+ ": ")
           (ILocalFile.CreateCompressedFileAndCid f) ;;
    let compressedFilePath := r.1 in
    let c := r.2 in
    let st := setOut (filepath.Base compressedFilePath) c st in
    (if decide (i = 0)
     then onHeap (SetMinipoolPerformanceFileCID rewardsFile (CidString c))
     else ret tt) ;;
    ret (if decide (i = 1) then setPrimary c st else st).

(** The slice the loop ranges over: the performance file of the rewards
    file, then the rewards file itself. *)
Definition artifactFiles (smartnode : SmartnodeConfig) (rewardsFile : IRewardsFile)
    (currentIndex : N) : prog World (list ILocalFile.t) :=
  performanceFile <- onHeap (GetMinipoolPerformanceFile rewardsFile) ;;
  ret [ asILocalFile
          (NewLocalFile performanceFile
             (GetMinipoolPerformancePath smartnode currentIndex true));
        asILocalFile
          (NewLocalFile rewardsFile
             (GetRewardsTreePath smartnode currentIndex true RewardsExtensionJSON)) ].

(** [saveJSONArtifacts(smartnode, rewardsFile, nodeTrusted)]. *)
Definition saveJSONArtifacts (smartnode : SmartnodeConfig) (rewardsFile : IRewardsFile)
    (nodeTrusted : bool) : prog World (Cid * gmap string Cid) :=
  header <- onHeap (GetHeader rewardsFile) ;;
  let currentIndex := Index header in
  files <- artifactFiles smartnode rewardsFile currentIndex ;;
  st <- range (saveOne rewardsFile nodeTrusted) files
          {| primaryCid := None; out := ∅ |} ;;
  match primaryCid st with
  | Some c => ret (c, out st)
  | None => panic nilDereference
  end.

End Artifacts.

(** ** One iteration of the loop *)

Section SaveOne.
Context `{Env} {T : Type} `{!ISerializable T}.
Implicit Types (lf : LocalFile T) (r : IRewardsFile) (st : loopState) (w : World).
Implicit Types (data : bytes) (c : Cid).

(** The file was serialized to [data], written, and identified as [c]. *)
Definition saved lf w data c : Prop :=
  Serialize lf (heap w) = Ok data /\
  (fullPath lf ∉ FS.denied (fs w)) /\
  singleFileDirIPFSCid data (FileName lf) = Ok c.

(** The step that follows the compressed copy: the identifier goes into
    the rewards file after the first file, and is the primary one after
    the second. *)
Definition recordCompressed r (i : nat) c st : prog World loopState :=
  (if decide (i = 0)
   then onHeap (SetMinipoolPerformanceFileCID r (CidString c))
   else ret tt) ;;
  ret (if decide (i = 1) then setPrimary c st else st).

(** The first half of an iteration: the plain file. *)
Lemma saveOne_saved r trusted i lf st w data c :
  saved lf w data c ->
  saveOne r trusted i (asILocalFile lf) st w =
    (if negb trusted
     then onHeap (SetMinipoolPerformanceFileCID r sentinel) ;;
          ret (setOut (FileName lf) c st)
     else
       res <- checked ("error compressing file " +:+ Path lf +:+ ": ")
                (CreateCompressedFileAndCid lf) ;;
       recordCompressed r i res.2
         (setOut (filepath.Base res.1) res.2 (setOut (FileName lf) c st)))
    (written (fullPath lf) data w).
Proof.
  intros (Hs & Hd & Hc). unfold saveOne. simpl.
  rewrite (bind_Ok _ _ w data (written (fullPath lf) data w))
    by by apply wrap_err_Ok, Write_ok.
  erewrite bind_Ok by by apply wrap_err_Ok; unfold lift; rewrite Hc.
  by destruct trusted.
Qed.

(** An iteration that succeeded saved the plain file. *)
Lemma saveOne_inv_saved r trusted i lf st w st' w' :
  saveOne r trusted i (asILocalFile lf) st w = (Ok st', w') ->
  exists data c, saved lf w data c.
Proof.
  unfold saveOne. simpl.
  intros (data & w1 & (Hs & Hd & ->)%wrap_err_inv_Ok%Write_inv_Ok & Hk)%bind_inv_Ok.
  apply bind_inv_Ok in Hk as (c & w2 & Hc%wrap_err_inv_Ok & _).
  unfold lift in Hc. exists data, c. split_and!; [done..|congruence].
Qed.

(** The whole iteration on a trusted node. *)
Lemma saveOne_trusted r i lf st w data c c' :
  saved lf w data c ->
  created lf w data c' ->
  saveOne r true i (asILocalFile lf) st w =
    recordCompressed r i c'
      (setOut (filepath.Base (compressedPath lf)) c' (setOut (FileName lf) c st))
      (written (compressedPath lf) (zstdEncode data) (written (fullPath lf) data w)).
Proof.
  intros Hsaved (Hs & Hc & Hd). rewrite (saveOne_saved _ _ _ _ _ _ _ _ Hsaved). simpl.
  rewrite (bind_Ok _ _ _ (compressedPath lf, c')
             (written (compressedPath lf) (zstdEncode data) (written (fullPath lf) data w)));
    [done|].
  by apply checked_Ok, Create_ok.
Qed.

Lemma saveOne_trusted_inv r i lf st w st' w' :
  saveOne r true i (asILocalFile lf) st w = (Ok st', w') ->
  exists data c c', saved lf w data c /\ created lf w data c' /\
    recordCompressed r i c'
      (setOut (filepath.Base (compressedPath lf)) c' (setOut (FileName lf) c st))
      (written (compressedPath lf) (zstdEncode data) (written (fullPath lf) data w))
    = (Ok st', w').
Proof.
  intros Hrun. destruct (saveOne_inv_saved _ _ _ _ _ _ _ _ Hrun) as (data & c & Hsaved).
  rewrite (saveOne_saved _ _ _ _ _ _ _ _ Hsaved) in Hrun. simpl in Hrun.
  apply bind_inv_Ok in Hrun as (res & w1 & Hcr & Hk).
  apply checked_Create_inv_Ok in Hcr as (data' & (Hs' & Hc' & Hd') & Hres & ->).
  change (heap (written _ _ w)) with (heap w) in Hs'.
  assert (data' = data) as -> by (destruct Hsaved as (Hs & _); congruence).
  exists data, c, res.2. rewrite Hres in Hk.
  split_and!; [done| |done]. split_and!; [exact Hs'|exact Hc'|exact Hd'].
Qed.

(** The whole iteration on a node that is not trusted. *)
Lemma saveOne_untrusted r i lf st w data c rf :
  saved lf w data c ->
  rewardsFiles (heap w) !! r = Some rf ->
  saveOne r false i (asILocalFile lf) st w =
    (Ok (setOut (FileName lf) c st),
     withRewards r (withPerformanceFileCID sentinel rf) (written (fullPath lf) data w)).
Proof.
  intros Hsaved Hr. rewrite (saveOne_saved _ _ _ _ _ _ _ _ Hsaved). simpl.
  by erewrite bind_Ok by by apply Set_Some.
Qed.

(** An iteration whose file cannot be written. *)
Lemma saveOne_write_error r trusted i lf st w data :
  Serialize lf (heap w) = Ok data ->
  fullPath lf ∈ FS.denied (fs w) ->
  saveOne r trusted i (asILocalFile lf) st w =
    (Err (Errorf ("error saving " +:+ Path lf +:+ ": ")
            (Errorf ("error writing file to " +:+ Path lf +:+ ": ")
               (FS.PathError "open" (Path lf) "permission denied"))), w).
Proof.
  intros Hs Hd. unfold saveOne. simpl.
  by apply bind_Err, wrap_err_Err, (Write_write_error lf w data).
Qed.

(** Whatever its outcome, an iteration undoes no write. *)
Lemma saveOne_stable r trusted i lf st :
  stable diskLe (saveOne r trusted i (asILocalFile lf) st).
Proof.
  unfold saveOne. simpl. repeat (apply stable_bind; [eauto with go..|intros]).
  destruct trusted; simpl; [|eauto with go].
  repeat (apply stable_bind; [eauto with go..|intros]).
  - case_decide; eauto with go.
  - eauto with go.
Qed.

Lemma recordCompressed_fs r i c st w : fs (recordCompressed r i c st w).2 = fs w.
Proof.
  unfold recordCompressed, bind. case_decide; [|done].
  pose proof (onHeap_fs (SetMinipoolPerformanceFileCID r (CidString c)) w) as Hfs.
  by destruct (onHeap _ w) as [[] ?].
Qed.

(** The writes of an iteration, by outcome: none, the plain file, or
    the plain file and then its compressed copy. *)
Definition iterationWrites r trusted i lf st w (ws : list FS.write) : Prop :=
  let res := saveOne r trusted i (asILocalFile lf) st w in
  FS.after ws (fs w) (fs res.2) /\
  ((FS.names ws = [] /\ is_Ok res.1 = false) \/
   (FS.names ws = [fullPath lf] /\ (trusted = true -> is_Ok res.1 = false)) \/
   (FS.names ws = [fullPath lf; compressedPath lf] /\ trusted = true)).

(** The iteration after the plain file was written and identified. *)
Lemma saveOne_saved_writes r trusted i lf st w data c :
  saved lf w data c -> exists ws, iterationWrites r trusted i lf st w ws.
Proof.
  intros Hsaved. unfold iterationWrites.
  rewrite (saveOne_saved _ _ _ _ _ _ _ _ Hsaved). unfold bind.
  set (w1 := written (fullPath lf) data w). destruct trusted; simpl.
  - destruct (checked _ (CreateCompressedFileAndCid lf) w1) as [[res| |] w2] eqn:EC;
      [|apply checked_Create_failure_unchanged in EC as ->; [|done];
        exists [FS.Write_ (fullPath lf) data]; split; [apply written_after|auto]..].
    apply checked_Create_inv_Ok in EC as (z & _ & _ & ->).
    exists [FS.Write_ (fullPath lf) data; FS.Write_ (compressedPath lf) (zstdEncode z)].
    rewrite recordCompressed_fs. split; [|auto].
    split_and!; [done| |done]. simpl. by rewrite <-(assoc_L (++)).
  - pose proof (onHeap_fs (SetMinipoolPerformanceFileCID r sentinel) w1) as Hfs.
    destruct (onHeap _ w1) as [[] w2]; simpl in *;
      exists [FS.Write_ (fullPath lf) data]; rewrite Hfs;
      (split; [apply written_after|right; left; by split]).
Qed.

Lemma saveOne_writes r trusted i lf st w : exists ws, iterationWrites r trusted i lf st w ws.
Proof.
  destruct (Write lf w) as [[data|e|m] w1] eqn:EW;
    [|pose proof (Write_failure_unchanged _ _ _ _ EW eq_refl) as ->;
      exists []; unfold iterationWrites, saveOne, bind, wrap_err; simpl; rewrite EW;
      split; [apply FS.after_nil|by left]..].
  pose proof EW as (Hs & Hd & ->)%Write_inv_Ok.
  destruct (singleFileDirIPFSCid data (FileName lf)) as [c|e|m] eqn:Hc;
    [by apply (saveOne_saved_writes _ _ _ _ _ _ data c)|..];
    exists [FS.Write_ (fullPath lf) data]; unfold iterationWrites, saveOne; simpl;
    rewrite (bind_Ok _ _ w data (written (fullPath lf) data w))
      by (by apply wrap_err_Ok);
    unfold bind, wrap_err, lift; rewrite Hc; simpl;
    (split; [apply written_after|right; left; by split]).
Qed.

End SaveOne.

(** On a node that is not trusted an iteration leaves [primaryCid] as it
    was, whatever the file. *)
Lemma saveOne_untrusted_primary `{Env} r i (f : ILocalFile.t) st w st' w' :
  saveOne r false i f st w = (Ok st', w') -> primaryCid st' = primaryCid st.
Proof.
  unfold saveOne. simpl.
  intros (data & w1 & _ & Hk)%bind_inv_Ok.
  apply bind_inv_Ok in Hk as (c & w2 & _ & Hk).
  apply bind_inv_Ok in Hk as (u & w3 & _ & Hk).
  by injection Hk as <- _.
Qed.

(** ** The two iterations *)

Section Run.
Context `{Env}.
Implicit Types (smartnode : SmartnodeConfig) (r : IRewardsFile) (w : World).
Implicit Types (st : loopState) (rf : RewardsFile ClaimsData PerformanceData).

(** The two wrappers of the loop, for a rewards file of header [rf]. *)
Definition performanceLocalFile smartnode r rf : LocalMinipoolPerformanceFile :=
  NewLocalFile (PerformanceField r)
    (GetMinipoolPerformancePath smartnode (Index (Header rf)) true).

Definition rewardsLocalFile smartnode r rf : LocalRewardsFile :=
  NewLocalFile r
    (GetRewardsTreePath smartnode (Index (Header rf)) true RewardsExtensionJSON).

(** What a run on a trusted node computes: the bytes and the identifiers
    of the two files, plain and compressed. *)
Record trustedRun := mkRun {
  perfData : bytes;
  perfCid : Cid;
  perfZCid : Cid;
  rewardsData : bytes;
  rewardsCid : Cid;
  rewardsZCid : Cid;
}.

(** The rewards file once it carries the identifier of the compressed
    performance file. *)
Definition finalRewards rf (x : trustedRun) : RewardsFile ClaimsData PerformanceData :=
  withPerformanceFileCID (CidString (perfZCid x)) rf.

(** The world between the two iterations. *)
Definition afterPerformance smartnode r rf (x : trustedRun) w : World :=
  let pf := performanceLocalFile smartnode r rf in
  withRewards r (finalRewards rf x)
    (written (compressedPath pf) (zstdEncode (perfData x))
       (written (fullPath pf) (perfData x) w)).

(** The world after the run. *)
Definition trustedWorld smartnode r rf (x : trustedRun) w : World :=
  let rl := rewardsLocalFile smartnode r rf in
  written (compressedPath rl) (zstdEncode (rewardsData x))
    (written (fullPath rl) (rewardsData x) (afterPerformance smartnode r rf x w)).

(** The map the run returns. *)
Definition trustedOut smartnode r rf (x : trustedRun) : gmap string Cid :=
  let pf := performanceLocalFile smartnode r rf in
  let rl := rewardsLocalFile smartnode r rf in
  <[filepath.Base (compressedPath rl) := rewardsZCid x]>
    (<[FileName rl := rewardsCid x]>
       (<[filepath.Base (compressedPath pf) := perfZCid x]>
          (<[FileName pf := perfCid x]> ∅))).

(** The specification of a run on a trusted node that succeeds: every
    step did, each on the world the previous ones left. *)
Definition trustedRunOk smartnode r w rf (x : trustedRun) : Prop :=
  let pf := performanceLocalFile smartnode r rf in
  let rl := rewardsLocalFile smartnode r rf in
  let w1 := afterPerformance smartnode r rf x w in
  rewardsFiles (heap w) !! r = Some rf /\
  saved pf w (perfData x) (perfCid x) /\
  created pf w (perfData x) (perfZCid x) /\
  saved rl w1 (rewardsData x) (rewardsCid x) /\
  created rl w1 (rewardsData x) (rewardsZCid x).

(** The step after the compressed copy, at the two indices. *)
Lemma recordCompressed_0 r c st w rf :
  rewardsFiles (heap w) !! r = Some rf ->
  recordCompressed r 0 c st w =
    (Ok st, withRewards r (withPerformanceFileCID (CidString c) rf) w).
Proof.
  intros Hr. unfold recordCompressed. simpl.
  by rewrite (bind_Ok _ _ _ _ _ (Set_Some _ _ _ _ Hr)).
Qed.

Lemma recordCompressed_0_None r c st w :
  rewardsFiles (heap w) !! r = None ->
  recordCompressed r 0 c st w = (Panic nilDereference, w).
Proof.
  intros Hr. unfold recordCompressed, bind, onHeap, zoom, SetMinipoolPerformanceFileCID.
  simpl. by rewrite Hr, World_eta.
Qed.

Lemma recordCompressed_1 r c st w :
  recordCompressed r 1 c st w = (Ok (setPrimary c st), w).
Proof. reflexivity. Qed.

(** The function as the two iterations it runs, when the pointer is
    valid. *)
Lemma saveJSONArtifacts_unfold smartnode r trusted w rf :
  rewardsFiles (heap w) !! r = Some rf ->
  saveJSONArtifacts smartnode r trusted w =
    (st1 <- saveOne r trusted 0 (asILocalFile (performanceLocalFile smartnode r rf))
              {| primaryCid := None; out := ∅ |} ;;
     st2 <- saveOne r trusted 1 (asILocalFile (rewardsLocalFile smartnode r rf)) st1 ;;
     match primaryCid st2 with
     | Some c => ret (c, out st2)
     | None => panic nilDereference
     end) w.
Proof.
  intros Hr. unfold saveJSONArtifacts, artifactFiles.
  rewrite (bind_Ok _ _ _ _ _ (GetHeader_Some _ _ _ Hr)).
  rewrite (bind_Ok _ _ w (asILocalFile (performanceLocalFile smartnode r rf) ::
                          asILocalFile (rewardsLocalFile smartnode r rf) :: []) w).
  - unfold range. simpl. unfold bind.
    destruct (saveOne _ _ 0 _ _ w) as [[st1| |] w1]; [|done..].
    by destruct (saveOne _ _ 1 _ _ w1) as [[st2| |] w2].
  - by rewrite (bind_Ok _ _ _ _ _ (GetMinipoolPerformanceFile_Some _ _ _ Hr)).
Qed.

(** A nil or dangling pointer: the first call panics, nothing is written. *)
Lemma saveJSONArtifacts_nil smartnode r trusted w :
  rewardsFiles (heap w) !! r = None ->
  saveJSONArtifacts smartnode r trusted w = (Panic nilDereference, w).
Proof. intros Hr. unfold saveJSONArtifacts. by apply GetHeader_None. Qed.

(** The specification is met by the run it describes. *)
Lemma trustedRun_complete smartnode r w rf x :
  trustedRunOk smartnode r w rf x ->
  saveJSONArtifacts smartnode r true w =
    (Ok (rewardsZCid x, trustedOut smartnode r rf x), trustedWorld smartnode r rf x w).
Proof.
  intros (Hr & Hs1 & Hc1 & Hs2 & Hc2).
  rewrite (saveJSONArtifacts_unfold _ _ _ _ _ Hr).
  erewrite bind_Ok; last first.
  { rewrite (saveOne_trusted _ _ _ _ _ _ _ _ Hs1 Hc1). by apply recordCompressed_0. }
  erewrite bind_Ok; last first.
  { rewrite (saveOne_trusted _ _ _ _ _ _ _ _ Hs2 Hc2). apply recordCompressed_1. }
  reflexivity.
Qed.

(** Every run on a trusted node that succeeds is described by the
    specification. *)
Lemma trustedRun_sound smartnode r w res w' :
  saveJSONArtifacts smartnode r true w = (Ok res, w') ->
  exists rf x, trustedRunOk smartnode r w rf x /\
    res = (rewardsZCid x, trustedOut smartnode r rf x) /\
    w' = trustedWorld smartnode r rf x w.
Proof.
  destruct (rewardsFiles (heap w) !! r) as [rf|] eqn:Hr;
    [|by rewrite saveJSONArtifacts_nil].
  rewrite (saveJSONArtifacts_unfold _ _ _ _ _ Hr).
  intros (st1 & w1 & H1 & Hk)%bind_inv_Ok.
  apply bind_inv_Ok in Hk as (st2 & w2 & H2 & Hk).
  apply saveOne_trusted_inv in H1 as (pd & c1 & c2 & Hs1 & Hc1 & H1).
  rewrite (recordCompressed_0 _ _ _ _ rf) in H1 by done. injection H1 as <- <-.
  apply saveOne_trusted_inv in H2 as (rd & c3 & c4 & Hs2 & Hc2 & H2).
  rewrite recordCompressed_1 in H2. injection H2 as <- <-.
  simpl in Hk. injection Hk as <- <-.
  exists rf, (mkRun pd c1 c2 rd c3 c4). by split_and!.
Qed.

(** The disk after the run: four writes, in this order. *)
Definition trustedWrites smartnode r rf (x : trustedRun) : list FS.write :=
  let pf := performanceLocalFile smartnode r rf in
  let rl := rewardsLocalFile smartnode r rf in
  [ FS.Write_ (fullPath pf) (perfData x);
    FS.Write_ (compressedPath pf) (zstdEncode (perfData x));
    FS.Write_ (fullPath rl) (rewardsData x);
    FS.Write_ (compressedPath rl) (zstdEncode (rewardsData x)) ].

Lemma trustedWorld_after smartnode r rf x w :
  FS.after (trustedWrites smartnode r rf x) (fs w) (fs (trustedWorld smartnode r rf x w)).
Proof.
  unfold trustedWorld, afterPerformance, trustedWrites. split_and!; [done| |done].
  simpl. by rewrite <-!(assoc_L (++)).
Qed.

Lemma trustedWorld_rewards smartnode r rf x w :
  rewardsFiles (heap (trustedWorld smartnode r rf x w)) !! r = Some (finalRewards rf x).
Proof. apply lookup_insert_eq. Qed.

(** After the run the two files of the rewards file are on the disk: the
    compressed copy is the last write, the plain file the one before. *)
Lemma trustedWorld_rewards_files smartnode r rf x w :
  let rl := rewardsLocalFile smartnode r rf in
  FS.files (fs (trustedWorld smartnode r rf x w)) !! fullPath rl = Some (rewardsData x) /\
  FS.files (fs (trustedWorld smartnode r rf x w)) !! compressedPath rl
    = Some (zstdEncode (rewardsData x)).
Proof.
  intros rl. unfold trustedWorld. fold rl. split.
  - rewrite written_lookup_ne by apply compressedPath_ne. apply written_lookup.
  - apply written_lookup.
Qed.

(** The two files of the performance file are on the disk as well when
    the writes of the rewards file went to other paths. *)
Lemma trustedWorld_performance_files smartnode r rf x w :
  let pf := performanceLocalFile smartnode r rf in
  let rl := rewardsLocalFile smartnode r rf in
  fullPath pf <> fullPath rl -> fullPath pf <> compressedPath rl ->
  compressedPath pf <> fullPath rl -> compressedPath pf <> compressedPath rl ->
  FS.files (fs (trustedWorld smartnode r rf x w)) !! fullPath pf = Some (perfData x) /\
  FS.files (fs (trustedWorld smartnode r rf x w)) !! compressedPath pf
    = Some (zstdEncode (perfData x)).
Proof.
  intros pf rl H13 H14 H23 H24. unfold trustedWorld, afterPerformance. fold pf rl.
  rewrite !written_lookup_ne, !withRewards_fs by done. split.
  - rewrite written_lookup_ne by apply compressedPath_ne. apply written_lookup.
  - apply written_lookup.
Qed.

(** The file at [path] is on the disk, and the map holds the identifier
    of its bytes under its base name. *)
Definition identified (m : gmap string Cid) (d : FS.t) (path : string) : Prop :=
  exists b c,
    FS.files d !! path = Some b /\
    singleFileDirIPFSCid b (filepath.Base path) = Ok c /\
    m !! filepath.Base path = Some c.

(** The four entries of the map, when the four names differ. *)
Lemma trustedOut_lookup smartnode r rf x :
  let pf := performanceLocalFile smartnode r rf in
  let rl := rewardsLocalFile smartnode r rf in
  NoDup [FileName pf; filepath.Base (compressedPath pf);
         FileName rl; filepath.Base (compressedPath rl)] ->
  trustedOut smartnode r rf x !! FileName pf = Some (perfCid x) /\
  trustedOut smartnode r rf x !! filepath.Base (compressedPath pf) = Some (perfZCid x) /\
  trustedOut smartnode r rf x !! FileName rl = Some (rewardsCid x) /\
  trustedOut smartnode r rf x !! filepath.Base (compressedPath rl) = Some (rewardsZCid x).
Proof.
  intros pf rl (?&?&?&?&?&?)%NoDup_four. unfold trustedOut. fold pf rl.
  split_and!; by simplify_map_eq.
Qed.

(** What the second iteration serializes is the rewards file with the
    identifier in it. *)
Lemma saved_rewards smartnode r rf x w data c :
  saved (rewardsLocalFile smartnode r rf) (afterPerformance smartnode r rf x w) data c ->
  SerializeRewardsFile (finalRewards rf x) = Ok data.
Proof.
  intros (Hs & _). simpl in Hs. unfold derefRewards in Hs. simpl in Hs.
  by rewrite lookup_insert_eq in Hs.
Qed.

Lemma saved_performance smartnode r rf w data c :
  rewardsFiles (heap w) !! r = Some rf ->
  saved (performanceLocalFile smartnode r rf) w data c ->
  SerializeMinipoolPerformanceFile (MinipoolPerformanceFile rf) = Ok data.
Proof.
  intros Hr (Hs & _). simpl in Hs. by rewrite (derefRewards_Some _ _ _ Hr) in Hs.
Qed.

End Run.

(** ** The run on a trusted node *)

Section Trusted.
Context `{Env}.
Implicit Types (smartnode : SmartnodeConfig) (r : IRewardsFile) (w : World).

(** C1: a run of [saveJSONArtifacts] on a trusted node returns a result
    exactly when every step of the specified sequence succeeds (serialize,
    write and identify the performance file, compress, identify and write
    its copy, store that identifier in the rewards file, then the same
    four steps on the rewards file); the result is then the identifier of
    the compressed rewards file with the map of the four identifiers, and
    the world is the one after the four writes and the update. *)
Theorem saveJSONArtifacts_trusted_spec smartnode r w res w' :
  saveJSONArtifacts smartnode r true w = (Ok res, w') <->
  exists rf x, trustedRunOk smartnode r w rf x /\
    res = (rewardsZCid x, trustedOut smartnode r rf x) /\
    w' = trustedWorld smartnode r rf x w.
Proof.
  split; [apply trustedRun_sound|].
  intros (rf & x & Hok & -> & ->). by apply trustedRun_complete.
Qed.

(** C2: after a run on a trusted node that returns, the rewards file on
    the disk is the serialization of the rewards file in memory, whose
    field [MinipoolPerformanceFileCID] is the string form of the
    identifier computed over the compressed bytes of the performance
    file. *)
Theorem rewards_file_carries_performance_cid smartnode r w res w' :
  saveJSONArtifacts smartnode r true w = (Ok res, w') ->
  exists rf perf c rf' data,
    rewardsFiles (heap w) !! r = Some rf /\
    SerializeMinipoolPerformanceFile (MinipoolPerformanceFile rf) = Ok perf /\
    singleFileDirIPFSCid (zstdEncode perf)
      (filepath.Base (compressedPath (performanceLocalFile smartnode r rf))) = Ok c /\
    rf' = withPerformanceFileCID (CidString c) rf /\
    rewardsFiles (heap w') !! r = Some rf' /\
    SerializeRewardsFile rf' = Ok data /\
    FS.files (fs w') !! GetRewardsTreePath smartnode (Index (Header rf)) true
                          RewardsExtensionJSON = Some data.
Proof.
  intros (rf & x & (Hr & Hs1 & Hc1 & Hs2 & Hc2) & -> & ->)%trustedRun_sound.
  exists rf, (perfData x), (perfZCid x), (finalRewards rf x), (rewardsData x).
  split_and!; [done| |by destruct Hc1 as (_ & ? & _)|done| | |].
  - by eapply saved_performance.
  - apply trustedWorld_rewards.
  - by eapply saved_rewards.
  - apply trustedWorld_rewards_files.
Qed.

(** C5: a run on a trusted node that returns made four writes, in this
    order: the performance file, its compressed copy, the rewards file,
    its compressed copy.  The performance file is on the disk before the
    rewards file is written. *)
Theorem trusted_writes_in_order smartnode r w res w' :
  saveJSONArtifacts smartnode r true w = (Ok res, w') ->
  exists rf ws,
    rewardsFiles (heap w) !! r = Some rf /\
    FS.after ws (fs w) (fs w') /\
    FS.names ws =
      [ fullPath (performanceLocalFile smartnode r rf);
        compressedPath (performanceLocalFile smartnode r rf);
        fullPath (rewardsLocalFile smartnode r rf);
        compressedPath (rewardsLocalFile smartnode r rf) ].
Proof.
  intros (rf & x & (Hr & _) & -> & ->)%trustedRun_sound.
  exists rf, (trustedWrites smartnode r rf x).
  split_and!; [done|apply trustedWorld_after|done].
Qed.

(** C7: the identifier a run on a trusted node returns is the one the map
    holds for the compressed rewards file. *)
Theorem primary_cid_is_compressed_rewards smartnode r w primary outMap w' :
  saveJSONArtifacts smartnode r true w = (Ok (primary, outMap), w') ->
  exists rf,
    rewardsFiles (heap w) !! r = Some rf /\
    outMap !! filepath.Base (compressedPath (rewardsLocalFile smartnode r rf))
      = Some primary.
Proof.
  intros (rf & x & (Hr & _) & [= -> ->] & _)%trustedRun_sound.
  exists rf. split; [done|]. apply lookup_insert_eq.
Qed.

(** The map a run on a trusted node returns has the four file names
    as its keys: the two base names and the base names of the two
    compressed copies. *)
Theorem trusted_out_domain smartnode r w primary outMap w' :
  saveJSONArtifacts smartnode r true w = (Ok (primary, outMap), w') ->
  exists rf,
    rewardsFiles (heap w) !! r = Some rf /\
    dom outMap =
      list_to_set
        [ FileName (performanceLocalFile smartnode r rf);
          filepath.Base (compressedPath (performanceLocalFile smartnode r rf));
          FileName (rewardsLocalFile smartnode r rf);
          filepath.Base (compressedPath (rewardsLocalFile smartnode r rf)) ].
Proof.
  intros (rf & x & (Hr & _) & [= -> ->] & _)%trustedRun_sound.
  exists rf. split; [done|]. unfold trustedOut.
  rewrite !dom_insert_L, dom_empty_L. simpl.
  apply set_eq. intros k. rewrite !elem_of_union, !elem_of_singleton. tauto.
Qed.

(** C10: after a run on a trusted node that returns, the compressed
    rewards file on the disk decodes to the bytes of the rewards file on
    the disk. *)
Theorem compressed_rewards_decodes_to_plain `{!EnvLaws H} smartnode r w res w' :
  saveJSONArtifacts smartnode r true w = (Ok res, w') ->
  exists rf z data,
    rewardsFiles (heap w) !! r = Some rf /\
    FS.files (fs w') !! compressedPath (rewardsLocalFile smartnode r rf) = Some z /\
    FS.files (fs w') !! fullPath (rewardsLocalFile smartnode r rf) = Some data /\
    zstdDecode z = Ok data.
Proof.
  intros (rf & x & (Hr & _) & -> & ->)%trustedRun_sound.
  exists rf, (zstdEncode (rewardsData x)), (rewardsData x).
  destruct (trustedWorld_rewards_files smartnode r rf x w) as [Hp Hz].
  split_and!; [done..|apply zstd_roundtrip].
Qed.

(** C18: after a run on a trusted node that returns,
    [ReadLocalRewardsFile] on the path of the rewards file gives back the
    rewards file as it is in memory after the run, with the identifier of
    the compressed performance file in it: the file on the disk is the
    final one, not the one the caller passed in. *)
Theorem reload_after_save `{!EnvLaws H} smartnode r w res w' :
  saveJSONArtifacts smartnode r true w = (Ok res, w') ->
  exists rf rf' lf' w'',
    rewardsFiles (heap w) !! r = Some rf /\
    rewardsFiles (heap w') !! r = Some rf' /\
    ReadLocalRewardsFile (Path (rewardsLocalFile smartnode r rf)) w' = (Ok lf', w'') /\
    rewardsFiles (heap w'') !! Impl lf' = Some rf' /\
    Path lf' = Path (rewardsLocalFile smartnode r rf) /\
    fs w'' = fs w'.
Proof.
  intros (rf & x & (Hr & _ & _ & Hs2 & _) & -> & ->)%trustedRun_sound.
  destruct (trustedWorld_rewards_files smartnode r rf x w) as [Hp _].
  apply saved_rewards, rewards_roundtrip in Hs2.
  eexists rf, (finalRewards rf x), _, _.
  split_and!; [done|apply trustedWorld_rewards|by eapply ReadLocalRewardsFile_ok
              |apply withRewards_lookup|done..].
Qed.

(** The plain performance file is still on the disk after the run when
    the rewards file went to other paths. *)
Lemma trustedWorld_performance_file smartnode r rf x w :
  let pf := performanceLocalFile smartnode r rf in
  let rl := rewardsLocalFile smartnode r rf in
  fullPath pf <> fullPath rl -> fullPath pf <> compressedPath rl ->
  FS.files (fs (trustedWorld smartnode r rf x w)) !! fullPath pf = Some (perfData x).
Proof.
  intros pf rl H1 H2. unfold trustedWorld, afterPerformance. fold pf rl.
  rewrite !written_lookup_ne, withRewards_fs by done.
  rewrite written_lookup_ne by apply compressedPath_ne. apply written_lookup.
Qed.

(** C14: the performance file a run wrote is read back.  After a run on
    a trusted node that returns, [ReadLocalMinipoolPerformanceFile] on the
    path of the performance file gives a new object of the heap that
    holds the performance file of the rewards file, the content the
    wrapper of the run serializes, when the rewards file was written to
    other paths; the disk is as the run left it. *)
Theorem reload_performance_after_save `{!EnvLaws H} smartnode r w rf res w' :
  let pf := performanceLocalFile smartnode r rf in
  let rl := rewardsLocalFile smartnode r rf in
  rewardsFiles (heap w) !! r = Some rf ->
  fullPath pf <> fullPath rl -> fullPath pf <> compressedPath rl ->
  saveJSONArtifacts smartnode r true w = (Ok res, w') ->
  exists lf' w'',
    ReadLocalMinipoolPerformanceFile (Path pf) w' = (Ok lf', w'') /\
    derefPerformance (Impl lf') (heap w'') = Ok (MinipoolPerformanceFile rf) /\
    derefPerformance (Impl lf') (heap w'') = derefPerformance (Impl pf) (heap w') /\
    Path lf' = Path pf /\
    fs w'' = fs w'.
Proof.
  intros pf rl Hr H1 H2 (rf' & x & (Hr' & Hs1 & _) & -> & ->)%trustedRun_sound.
  assert (rf' = rf) as -> by congruence.
  pose proof (saved_performance _ _ _ _ _ _ Hr Hs1) as Hd%performance_roundtrip.
  do 2 eexists. split_and!.
  - eapply ReadLocalMinipoolPerformanceFile_ok;
      [by apply trustedWorld_performance_file|exact Hd].
  - simpl. by rewrite lookup_insert_eq.
  - unfold pf, performanceLocalFile, Impl, NewLocalFile. cbn [f derefPerformance].
    rewrite (derefRewards_Some _ _ _ (trustedWorld_rewards smartnode r rf x w)).
    simpl. by rewrite lookup_insert_eq.
  - done.
  - done.
Qed.

(** C9: the map a run on a trusted node returns agrees with the disk.
    When the base names of the four files differ, each of the four files
    is on the disk after the run and the map holds, under the base name
    of the file, the identifier of the bytes the file holds. *)
Theorem trusted_out_identifies_disk smartnode r w rf res w' :
  let pf := performanceLocalFile smartnode r rf in
  let rl := rewardsLocalFile smartnode r rf in
  rewardsFiles (heap w) !! r = Some rf ->
  NoDup [FileName pf; filepath.Base (compressedPath pf);
         FileName rl; filepath.Base (compressedPath rl)] ->
  saveJSONArtifacts smartnode r true w = (Ok res, w') ->
  Forall (identified res.2 (fs w'))
    [fullPath pf; compressedPath pf; fullPath rl; compressedPath rl].
Proof.
  intros pf rl Hr Hnd (rf' & x & (Hr' & Hs1 & Hc1 & Hs2 & Hc2) & -> & ->)%trustedRun_sound.
  assert (rf' = rf) as -> by congruence.
  destruct (trustedOut_lookup smartnode r rf x Hnd) as (Ho1 & Ho2 & Ho3 & Ho4).
  destruct (trustedWorld_rewards_files smartnode r rf x w) as [Hf3 Hf4].
  apply NoDup_four in Hnd as (_ & H13 & H14 & H23 & H24 & _).
  destruct (trustedWorld_performance_files smartnode r rf x w) as [Hf1 Hf2];
    [intros Heq%(f_equal filepath.Base);
     first [by apply H13|by apply H14|by apply H23|by apply H24]..|].
  destruct Hs1 as (_ & _ & Hi1), Hc1 as (_ & Hi2 & _),
    Hs2 as (_ & _ & Hi3), Hc2 as (_ & Hi4 & _).
  repeat apply Forall_cons_2; [..|apply Forall_nil_2]; eexists _, _; eauto.
Qed.

End Trusted.

(** ** The run on a node that is not trusted *)

Section Untrusted.
Context `{Env}.
Implicit Types (smartnode : SmartnodeConfig) (r : IRewardsFile) (w : World).

(** The world after the run: the two plain files, and the sentinel in the
    rewards file. *)
Definition untrustedWorld smartnode r rf (perf data : bytes) w : World :=
  let rf' := withPerformanceFileCID sentinel rf in
  withRewards r rf'
    (written (fullPath (rewardsLocalFile smartnode r rf)) data
       (withRewards r rf'
          (written (fullPath (performanceLocalFile smartnode r rf)) perf w))).

(** The run when both files are saved: the dereference of [primaryCid],
    still nil, panics. *)
Lemma untrusted_run smartnode r w rf perf c1 data c3 :
  rewardsFiles (heap w) !! r = Some rf ->
  saved (performanceLocalFile smartnode r rf) w perf c1 ->
  saved (rewardsLocalFile smartnode r rf)
    (withRewards r (withPerformanceFileCID sentinel rf)
       (written (fullPath (performanceLocalFile smartnode r rf)) perf w)) data c3 ->
  saveJSONArtifacts smartnode r false w =
    (Panic nilDereference, untrustedWorld smartnode r rf perf data w).
Proof.
  intros Hr Hs1 Hs2. rewrite (saveJSONArtifacts_unfold _ _ _ _ _ Hr).
  erewrite bind_Ok by by apply saveOne_untrusted.
  erewrite bind_Ok; last first.
  { eapply saveOne_untrusted; [done|]. simpl. apply lookup_insert_eq. }
  reflexivity.
Qed.

(** C3: on a node that is not trusted [saveJSONArtifacts] never returns a
    result: it returns an error or it panics.  [primaryCid] is set only
    after the compressed copy of the rewards file is made, which such a
    node skips, and the final [return] dereferences it. *)
Theorem untrusted_run_never_returns smartnode r w :
  is_Ok (saveJSONArtifacts smartnode r false w).1 = false.
Proof.
  destruct (rewardsFiles (heap w) !! r) as [rf|] eqn:Hr;
    [|by rewrite saveJSONArtifacts_nil].
  rewrite (saveJSONArtifacts_unfold _ _ _ _ _ Hr). unfold bind.
  destruct (saveOne _ _ 0 _ _ w) as [[st1| |] w1] eqn:H1; [|done..].
  destruct (saveOne _ _ 1 _ _ w1) as [[st2| |] w2] eqn:H2; [|done..].
  apply saveOne_untrusted_primary in H1, H2.
  by rewrite H2, H1.
Qed.

(** C4: on a node that is not trusted, when both files can be serialized,
    written and identified, the run writes exactly the two plain files,
    the performance file first, the rewards file on the disk is the
    serialization of the rewards file with the sentinel "---" in its
    field, whatever the field held before, and the run panics. *)
Theorem untrusted_rewards_file_carries_sentinel smartnode r w rf perf c1 data c3 :
  let pf := performanceLocalFile smartnode r rf in
  let rl := rewardsLocalFile smartnode r rf in
  rewardsFiles (heap w) !! r = Some rf ->
  SerializeMinipoolPerformanceFile (MinipoolPerformanceFile rf) = Ok perf ->
  singleFileDirIPFSCid perf (FileName pf) = Ok c1 ->
  SerializeRewardsFile (withPerformanceFileCID "---" rf) = Ok data ->
  singleFileDirIPFSCid data (FileName rl) = Ok c3 ->
  fullPath pf ∉ FS.denied (fs w) ->
  fullPath rl ∉ FS.denied (fs w) ->
  exists w',
    saveJSONArtifacts smartnode r false w = (Panic nilDereference, w') /\
    FS.after [FS.Write_ (fullPath pf) perf; FS.Write_ (fullPath rl) data] (fs w) (fs w') /\
    FS.files (fs w') !! fullPath rl = Some data /\
    rewardsFiles (heap w') !! r = Some (withPerformanceFileCID "---" rf).
Proof.
  intros pf rl Hr Hp Hc1 Hd Hc3 Hn1 Hn3.
  exists (untrustedWorld smartnode r rf perf data w). split_and!.
  - apply (untrusted_run _ _ _ _ _ c1 _ c3); [done|..].
    + split_and!; [|done..]. simpl. by rewrite (derefRewards_Some _ _ _ Hr).
    + split_and!; [|done..]. simpl. unfold derefRewards. simpl.
      by rewrite lookup_insert_eq.
  - split_and!; [done| |done]. simpl. by rewrite <-(assoc_L (++)).
  - apply written_lookup.
  - apply lookup_insert_eq.
Qed.

End Untrusted.

(** ** Every run *)

Section AnyRun.
Context `{Env}.
Implicit Types (smartnode : SmartnodeConfig) (r : IRewardsFile) (w : World).

(** C6: whatever its outcome (a result, an error or a panic),
    [saveJSONArtifacts] leaves the disk as it was before with a sequence
    of whole-file writes applied: no file is removed or truncated, the
    log of the writes only grows, and the set of paths that cannot be
    written is the same.  There is no clean-up on failure. *)
Theorem saveJSONArtifacts_no_rollback smartnode r trusted :
  stable diskLe (saveJSONArtifacts smartnode r trusted).
Proof.
  intros w. destruct (rewardsFiles (heap w) !! r) as [rf|] eqn:Hr.
  - rewrite (saveJSONArtifacts_unfold _ _ _ _ _ Hr). revert w Hr.
    change (forall w, ?P w -> diskLe w (?c w).2) with (forall w, P w -> stable diskLe c w).
    intros w _.
    apply stable_bind; [apply _|apply saveOne_stable|intros st1].
    apply stable_bind; [apply _|apply saveOne_stable|intros st2].
    destruct (primaryCid st2); eauto with go.
  - rewrite saveJSONArtifacts_nil by done. reflexivity.
Qed.

(** C8: when the performance file can be serialized and its path cannot
    be written, the run returns the error of the write, wrapped twice
    with the path, and changes nothing. *)
Theorem performance_write_error smartnode r trusted w rf perf :
  let path := GetMinipoolPerformancePath smartnode (Index (Header rf)) true in
  rewardsFiles (heap w) !! r = Some rf ->
  SerializeMinipoolPerformanceFile (MinipoolPerformanceFile rf) = Ok perf ->
  path ∈ FS.denied (fs w) ->
  saveJSONArtifacts smartnode r trusted w =
    (Err (Errorf ("error saving " +:+ path +:+ ": ")
            (Errorf ("error writing file to " +:+ path +:+ ": ")
               (FS.PathError "open" path "permission denied"))), w).
Proof.
  intros path Hr Hp Hd. rewrite (saveJSONArtifacts_unfold _ _ _ _ _ Hr).
  apply bind_Err.
  apply (saveOne_write_error _ _ _ (performanceLocalFile smartnode r rf) _ w perf); [|done].
  simpl. by rewrite (derefRewards_Some _ _ _ Hr).
Qed.

(** C24: a failure on the rewards file comes after the work on the
    performance file, and that work stays.  On a trusted node, when the
    performance file and its compressed copy are saved and the path of
    the rewards file cannot be written, the run returns the error of
    that write; the two files of the performance file are on the disk,
    and the rewards file in memory carries the identifier of the
    compressed performance file although the run failed. *)
Theorem rewards_write_error_keeps_performance smartnode r w rf perf c1 c2 data :
  let pf := performanceLocalFile smartnode r rf in
  let rl := rewardsLocalFile smartnode r rf in
  rewardsFiles (heap w) !! r = Some rf ->
  saved pf w perf c1 ->
  created pf w perf c2 ->
  SerializeRewardsFile (withPerformanceFileCID (CidString c2) rf) = Ok data ->
  Path rl ∈ FS.denied (fs w) ->
  exists w',
    saveJSONArtifacts smartnode r true w =
      (Err (Errorf ("error saving " +:+ Path rl +:+ ": ")
              (Errorf ("error writing file to " +:+ Path rl +:+ ": ")
                 (FS.PathError "open" (Path rl) "permission denied"))), w') /\
    FS.after [FS.Write_ (Path pf) perf; FS.Write_ (compressedPath pf) (zstdEncode perf)]
      (fs w) (fs w') /\
    rewardsFiles (heap w') !! r = Some (withPerformanceFileCID (CidString c2) rf).
Proof.
  intros pf rl Hr Hs1 Hc1 Hd Hden.
  rewrite (saveJSONArtifacts_unfold _ _ _ _ _ Hr). eexists. split_and!.
  - erewrite bind_Ok; last first.
    { rewrite (saveOne_trusted _ _ _ _ _ _ _ _ Hs1 Hc1). by apply recordCompressed_0. }
    apply bind_Err, (saveOne_write_error _ _ _ rl _ _ data); [|done].
    simpl. unfold derefRewards. simpl. by rewrite lookup_insert_eq.
  - split_and!; [done| |done]. simpl. by rewrite <-(assoc_L (++)).
  - apply withRewards_lookup.
Qed.

(** C27: whatever the outcome of a run (a result, an error or a panic),
    the disk it leaves is the disk before after a sequence of whole
    writes, and the paths written are a prefix of the specified order:
    the performance file, its compressed copy, the rewards file, its
    compressed copy on a trusted node; the performance file, the rewards
    file on another.  The rewards file is never written before the
    performance file. *)
Theorem writes_follow_the_order smartnode r trusted w rf :
  let pf := performanceLocalFile smartnode r rf in
  let rl := rewardsLocalFile smartnode r rf in
  rewardsFiles (heap w) !! r = Some rf ->
  exists ws,
    FS.after ws (fs w) (fs (saveJSONArtifacts smartnode r trusted w).2) /\
    FS.names ws `prefix_of`
      (if trusted
       then [fullPath pf; compressedPath pf; fullPath rl; compressedPath rl]
       else [fullPath pf; fullPath rl]).
Proof.
  intros pf rl Hr. rewrite (saveJSONArtifacts_unfold _ _ _ _ _ Hr). fold pf rl.
  unfold bind.
  destruct (saveOne_writes r trusted 0 pf {| primaryCid := None; out := ∅ |} w)
    as (ws1 & Ha1 & Hc1).
  destruct (saveOne r trusted 0 (asILocalFile pf) _ w) as [[st1|e|m] w1]; simpl in *.
  2,3: exists ws1; split; [done|];
       destruct trusted, Hc1 as [[-> Hk]|[[-> Hk]|[-> Hk]]]; try discriminate; by eexists.
  destruct (saveOne_writes r trusted 1 rl st1 w1) as (ws2 & Ha2 & Hc2).
  exists (ws1 ++ ws2). split.
  - destruct (saveOne r trusted 1 (asILocalFile rl) st1 w1) as [[st2|e|m] w2];
      simpl in *; [destruct (primaryCid st2)|..]; by eapply FS.after_app.
  - unfold FS.names in *. rewrite fmap_app.
    destruct trusted, Hc1 as [[Hn1 Hk1]|[[Hn1 Hk1]|[Hn1 Hk1]]],
      Hc2 as [[Hn2 Hk2]|[[Hn2 Hk2]|[Hn2 Hk2]]];
      rewrite Hn1, Hn2; try discriminate; try (by specialize (Hk1 eq_refl));
      by eexists.
Qed.

End AnyRun.

(** ** Two runs *)

Section Determinism.
Context `{Env}.
Implicit Types (smartnode : SmartnodeConfig) (r : IRewardsFile) (w : World).
Implicit Types (rf : RewardsFile ClaimsData PerformanceData) (x : trustedRun).

(** What the two wrappers serialize: the file the pointer leads to. *)
Lemma Serialize_performance smartnode r rf0 w rf :
  rewardsFiles (heap w) !! r = Some rf ->
  Serialize (performanceLocalFile smartnode r rf0) (heap w)
  = SerializeMinipoolPerformanceFile (MinipoolPerformanceFile rf).
Proof. intros Hr. simpl. by rewrite (derefRewards_Some _ _ _ Hr). Qed.

Lemma Serialize_rewards smartnode r rf0 w rf :
  rewardsFiles (heap w) !! r = Some rf ->
  Serialize (rewardsLocalFile smartnode r rf0) (heap w) = SerializeRewardsFile rf.
Proof. intros Hr. simpl. by rewrite (derefRewards_Some _ _ _ Hr). Qed.

Lemma afterPerformance_rewards smartnode r rf x w :
  rewardsFiles (heap (afterPerformance smartnode r rf x w)) !! r = Some (finalRewards rf x).
Proof. apply withRewards_lookup. Qed.

(** The bytes and the identifiers of a run are functions of the rewards
    file. *)
Lemma trustedRunOk_functional smartnode r w1 w2 rf x1 x2 :
  trustedRunOk smartnode r w1 rf x1 -> trustedRunOk smartnode r w2 rf x2 -> x1 = x2.
Proof.
  intros (Hr & (Hs1 & _ & Hi1) & (_ & Hz1 & _) & (Hs2 & _ & Hi2) & (_ & Hz2 & _)).
  intros (Hr' & (Hs1' & _ & Hi1') & (_ & Hz1' & _) & (Hs2' & _ & Hi2') & (_ & Hz2' & _)).
  rewrite (Serialize_performance _ _ _ _ _ Hr) in Hs1.
  rewrite (Serialize_performance _ _ _ _ _ Hr') in Hs1'.
  rewrite (Serialize_rewards _ _ _ _ _ (afterPerformance_rewards _ _ _ _ _)) in Hs2.
  rewrite (Serialize_rewards _ _ _ _ _ (afterPerformance_rewards _ _ _ _ _)) in Hs2'.
  destruct x1 as [pd1 pc1 pz1 rd1 rc1 rz1], x2 as [pd2 pc2 pz2 rd2 rc2 rz2].
  unfold finalRewards in *. simpl in *.
  assert (pd2 = pd1) as -> by congruence.
  assert (pc2 = pc1) as -> by congruence.
  assert (pz2 = pz1) as -> by congruence.
  assert (rd2 = rd1) as -> by congruence.
  f_equal; congruence.
Qed.

(** A run that succeeded can be run again on the world it left. *)
Lemma trustedRunOk_again smartnode r w rf x :
  trustedRunOk smartnode r w rf x ->
  trustedRunOk smartnode r (trustedWorld smartnode r rf x w) (finalRewards rf x) x.
Proof.
  intros (Hr & (Hs1 & Hd1 & Hi1) & (Hz1 & Hzi1 & Hzd1) &
          (Hs2 & Hd2 & Hi2) & (Hz2 & Hzi2 & Hzd2)).
  rewrite (Serialize_performance _ _ _ _ _ Hr) in Hs1.
  rewrite (Serialize_performance _ _ _ _ _ Hr) in Hz1.
  rewrite (Serialize_rewards _ _ _ _ _ (afterPerformance_rewards _ _ _ _ _)) in Hs2.
  rewrite (Serialize_rewards _ _ _ _ _ (afterPerformance_rewards _ _ _ _ _)) in Hz2.
  split_and!; [apply trustedWorld_rewards|..]; (split_and!; [|done..]).
  1,2: by rewrite (Serialize_performance _ _ _ _ _ (trustedWorld_rewards _ _ _ _ _)).
  all: by rewrite (Serialize_rewards _ _ _ _ _ (afterPerformance_rewards _ _ _ _ _)).
Qed.

(** A run on a trusted node that returned can be repeated.  The
    second run, on the world the first one left, returns the same
    identifier and the same map, and leaves every file on the disk and
    the rewards file in memory as they were. *)
Theorem rerun_same_result smartnode r w res w' :
  saveJSONArtifacts smartnode r true w = (Ok res, w') ->
  exists w'',
    saveJSONArtifacts smartnode r true w' = (Ok res, w'') /\
    FS.files (fs w'') = FS.files (fs w') /\
    heap w'' = heap w'.
Proof.
  intros (rf & x & Hok & -> & ->)%trustedRun_sound.
  eexists. split; [exact (trustedRun_complete _ _ _ _ _ (trustedRunOk_again _ _ _ _ _ Hok))|].
  split.
  - destruct (trustedWorld_after smartnode r (finalRewards rf x) x
                (trustedWorld smartnode r rf x w)) as (_ & _ & ->).
    destruct (trustedWorld_after smartnode r rf x w) as (_ & _ & ->).
    exact (FS.replay_idemp _ _).
  - unfold trustedWorld, afterPerformance, withRewards, finalRewards. simpl.
    by rewrite insert_insert_eq.
Qed.

(** Two runs on a trusted node that return, on the same rewards file
    and from any two disks, return the same identifier and the same map
    and write the same bytes to the same paths, in the same order.
    TwoRuns.v proves it of every run, whatever its outcome. *)
Theorem runs_agree smartnode r w1 w2 res1 res2 w1' w2' :
  rewardsFiles (heap w1) !! r = rewardsFiles (heap w2) !! r ->
  saveJSONArtifacts smartnode r true w1 = (Ok res1, w1') ->
  saveJSONArtifacts smartnode r true w2 = (Ok res2, w2') ->
  res1 = res2 /\
  exists ws, FS.after ws (fs w1) (fs w1') /\ FS.after ws (fs w2) (fs w2').
Proof.
  intros Heq (rf1 & x1 & Hok1 & -> & ->)%trustedRun_sound
    (rf2 & x2 & Hok2 & -> & ->)%trustedRun_sound.
  assert (rf2 = rf1) as -> by (destruct Hok1 as [Hr1 _], Hok2 as [Hr2 _]; congruence).
  assert (x2 = x1) as -> by eauto using trustedRunOk_functional.
  split; [done|]. exists (trustedWrites smartnode r rf1 x1).
  split; apply trustedWorld_after.
Qed.

End Determinism.

(** ** The theorems at work on the demonstration environment *)

Module ArtifactsDemo.
Import Demo.

(** The run of interval 5 on a trusted node, from an empty disk. *)
Definition start : World := Demo.world Demo.rewards5.
Definition trustedDemo := saveJSONArtifacts Demo.config 1%positive true start.
Definition primaryDemo : string := (from_Ok ("", ∅) trustedDemo.1).1.
Definition outDemo : gmap string string := (from_Ok ("", ∅) trustedDemo.1).2.
Definition pfDemo := performanceLocalFile Demo.config 1%positive Demo.rewards5.
Definition rlDemo := rewardsLocalFile Demo.config 1%positive Demo.rewards5.

Lemma trustedDemo_eq :
  saveJSONArtifacts Demo.config 1%positive true start
  = (Ok (primaryDemo, outDemo), trustedDemo.2).
Proof. vm_cast_no_check (eq_refl (Ok (primaryDemo, outDemo), trustedDemo.2)). Qed.

Lemma rewards_file_carries_performance_cid_witness :
  exists rf perf c rf' data,
    rewardsFiles (heap start) !! 1%positive = Some rf /\
    SerializeMinipoolPerformanceFile (MinipoolPerformanceFile rf) = Ok perf /\
    singleFileDirIPFSCid (zstdEncode perf)
      (filepath.Base (compressedPath (performanceLocalFile Demo.config 1%positive rf)))
      = Ok c /\
    rf' = withPerformanceFileCID (CidString c) rf /\
    rewardsFiles (heap trustedDemo.2) !! 1%positive = Some rf' /\
    SerializeRewardsFile rf' = Ok data /\
    FS.files (fs trustedDemo.2) !! GetRewardsTreePath Demo.config (Index (Header rf)) true
                                     RewardsExtensionJSON = Some data.
Proof.
  apply (rewards_file_carries_performance_cid Demo.config 1%positive start
           (primaryDemo, outDemo)).
  exact trustedDemo_eq.
Defined.

Lemma trusted_writes_in_order_witness :
  exists rf ws,
    rewardsFiles (heap start) !! 1%positive = Some rf /\
    FS.after ws (fs start) (fs trustedDemo.2) /\
    FS.names ws =
      [ fullPath (performanceLocalFile Demo.config 1%positive rf);
        compressedPath (performanceLocalFile Demo.config 1%positive rf);
        fullPath (rewardsLocalFile Demo.config 1%positive rf);
        compressedPath (rewardsLocalFile Demo.config 1%positive rf) ].
Proof.
  apply (trusted_writes_in_order Demo.config 1%positive start (primaryDemo, outDemo)).
  exact trustedDemo_eq.
Defined.

Lemma primary_cid_is_compressed_rewards_witness :
  exists rf,
    rewardsFiles (heap start) !! 1%positive = Some rf /\
    outDemo !! filepath.Base (compressedPath (rewardsLocalFile Demo.config 1%positive rf))
      = Some primaryDemo.
Proof.
  apply (primary_cid_is_compressed_rewards Demo.config 1%positive start
           primaryDemo outDemo trustedDemo.2).
  exact trustedDemo_eq.
Defined.

Lemma trusted_out_domain_witness :
  exists rf,
    rewardsFiles (heap start) !! 1%positive = Some rf /\
    dom outDemo =
      list_to_set
        [ FileName (performanceLocalFile Demo.config 1%positive rf);
          filepath.Base (compressedPath (performanceLocalFile Demo.config 1%positive rf));
          FileName (rewardsLocalFile Demo.config 1%positive rf);
          filepath.Base (compressedPath (rewardsLocalFile Demo.config 1%positive rf)) ].
Proof.
  apply (trusted_out_domain Demo.config 1%positive start primaryDemo outDemo trustedDemo.2).
  exact trustedDemo_eq.
Defined.

Lemma compressed_rewards_decodes_to_plain_witness :
  exists rf z data,
    rewardsFiles (heap start) !! 1%positive = Some rf /\
    FS.files (fs trustedDemo.2) !! compressedPath (rewardsLocalFile Demo.config 1%positive rf)
      = Some z /\
    FS.files (fs trustedDemo.2) !! fullPath (rewardsLocalFile Demo.config 1%positive rf)
      = Some data /\
    zstdDecode z = Ok data.
Proof.
  apply (compressed_rewards_decodes_to_plain (EnvLaws0 := Demo.laws)
           Demo.config 1%positive start (primaryDemo, outDemo)).
  exact trustedDemo_eq.
Defined.

Lemma reload_after_save_witness :
  exists rf rf' lf' w'',
    rewardsFiles (heap start) !! 1%positive = Some rf /\
    rewardsFiles (heap trustedDemo.2) !! 1%positive = Some rf' /\
    ReadLocalRewardsFile (Path (rewardsLocalFile Demo.config 1%positive rf)) trustedDemo.2
      = (Ok lf', w'') /\
    rewardsFiles (heap w'') !! Impl lf' = Some rf' /\
    Path lf' = Path (rewardsLocalFile Demo.config 1%positive rf) /\
    fs w'' = fs trustedDemo.2.
Proof.
  apply (reload_after_save (EnvLaws0 := Demo.laws)
           Demo.config 1%positive start (primaryDemo, outDemo)).
  exact trustedDemo_eq.
Defined.

Lemma reload_performance_after_save_witness :
  exists lf' w'',
    ReadLocalMinipoolPerformanceFile (Path pfDemo) trustedDemo.2 = (Ok lf', w'') /\
    derefPerformance (Impl lf') (heap w'') = Ok (MinipoolPerformanceFile Demo.rewards5) /\
    derefPerformance (Impl lf') (heap w'') = derefPerformance (Impl pfDemo) (heap trustedDemo.2) /\
    Path lf' = Path pfDemo /\
    fs w'' = fs trustedDemo.2.
Proof.
  apply (reload_performance_after_save (EnvLaws0 := Demo.laws) Demo.config 1%positive
           start Demo.rewards5 (primaryDemo, outDemo) trustedDemo.2 eq_refl);
    [by vm_compute..|exact trustedDemo_eq].
Defined.

Lemma demo_names_NoDup :
  NoDup [FileName pfDemo; filepath.Base (compressedPath pfDemo);
         FileName rlDemo; filepath.Base (compressedPath rlDemo)].
Proof. apply NoDup_four. by vm_compute. Qed.

Lemma trusted_out_identifies_disk_witness :
  Forall (identified outDemo (fs trustedDemo.2))
    [fullPath pfDemo; compressedPath pfDemo; fullPath rlDemo; compressedPath rlDemo].
Proof.
  exact (trusted_out_identifies_disk Demo.config 1%positive start Demo.rewards5
           (primaryDemo, outDemo) trustedDemo.2 eq_refl demo_names_NoDup trustedDemo_eq).
Defined.

(** A configuration that puts the two files in two directories under
    one name. *)
Definition sameNames : SmartnodeConfig := {|
  GetMinipoolPerformancePath _ _ := "/data/performance/5.json";
  GetRewardsTreePath _ _ ext := "/data/rewards/5" +:+ ext;
|}.

Definition sameNamesDemo := saveJSONArtifacts sameNames 1%positive true start.

(** The map is keyed by base names, so the condition of
    [trusted_out_identifies_disk] on the names is needed.  With the two files in two directories under one
    name the run writes four files and returns a map of two entries:
    the identifiers of the performance file and of its compressed copy
    are overwritten by those of the rewards file. *)
Example same_names_overwrite_entries :
  is_Ok sameNamesDemo.1 = true /\
  length (FS.log (fs sameNamesDemo.2)) = 4 /\
  dom (from_Ok ("", ∅) sameNamesDemo.1).2 = {[ "5.json"; "5.json.zst" ]} /\
  singleFileDirIPFSCid [Byte.x70; Byte.x65; Byte.x72; Byte.x66] "5.json"
    <> result_map (fun res => res.2 !!! "5.json") sameNamesDemo.1.
Proof. split_and!; [vm_compute; reflexivity..|vm_compute; discriminate]. Qed.

(** The same file on a node that is not trusted: two writes, the
    sentinel, and the panic. *)
Lemma untrusted_rewards_file_carries_sentinel_witness :
  exists w',
    saveJSONArtifacts Demo.config 1%positive false start = (Panic nilDereference, w') /\
    FS.after [FS.Write_ (fullPath pfDemo) [Byte.x70; Byte.x65; Byte.x72; Byte.x66];
              FS.Write_ (fullPath rlDemo)
                [Byte.x05; Byte.x03; Byte.x2d; Byte.x2d; Byte.x2d;
                 Byte.x70; Byte.x65; Byte.x72; Byte.x66]]
      (fs start) (fs w') /\
    FS.files (fs w') !! fullPath rlDemo
      = Some [Byte.x05; Byte.x03; Byte.x2d; Byte.x2d; Byte.x2d;
              Byte.x70; Byte.x65; Byte.x72; Byte.x66] /\
    rewardsFiles (heap w') !! 1%positive
      = Some (withPerformanceFileCID "---" Demo.rewards5).
Proof.
  eapply (untrusted_rewards_file_carries_sentinel Demo.config 1%positive start
            Demo.rewards5 _ _ _ _); evaluated.
Defined.

(** On the run of interval 5 the identifier returned is the one
    recorded for the compressed rewards file, and it is not the one
    recorded for the plain rewards file. *)
Example primary_cid_is_not_plain_rewards_cid :
  saveJSONArtifacts Demo.config 1%positive true start
    = (Ok (primaryDemo, outDemo), trustedDemo.2) /\
  outDemo !! "rp-rewards-mainnet-5.json.zst" = Some primaryDemo /\
  outDemo !! FileName rlDemo = Some "cid:rp-rewards-mainnet-5.json:2019382359" /\
  outDemo !! FileName rlDemo <> Some primaryDemo.
Proof.
  split; [exact trustedDemo_eq|].
  split_and!; [vm_compute; reflexivity..|vm_compute; discriminate].
Qed.

Lemma rerun_same_result_witness :
  exists w'',
    saveJSONArtifacts Demo.config 1%positive true trustedDemo.2
      = (Ok (primaryDemo, outDemo), w'') /\
    FS.files (fs w'') = FS.files (fs trustedDemo.2) /\
    heap w'' = heap trustedDemo.2.
Proof.
  exact (rerun_same_result Demo.config 1%positive start (primaryDemo, outDemo)
           trustedDemo.2 trustedDemo_eq).
Defined.

(** The same rewards file and a disk that holds another file. *)
Definition startOther : World :=
  {| heap := Demo.heapOf Demo.rewards5;
     fs := FS.init {[ "/data/rewards-trees/notes.txt" := [Byte.x6f; Byte.x6b] ]} |}.

Definition otherDemo := saveJSONArtifacts Demo.config 1%positive true startOther.

Lemma otherDemo_eq :
  saveJSONArtifacts Demo.config 1%positive true startOther
  = (Ok (from_Ok ("", ∅) otherDemo.1), otherDemo.2).
Proof. vm_cast_no_check (eq_refl (Ok (from_Ok ("", ∅) otherDemo.1), otherDemo.2)). Qed.

Lemma runs_agree_witness :
  (primaryDemo, outDemo) = from_Ok ("", ∅) otherDemo.1 /\
  exists ws,
    FS.after ws (fs start) (fs trustedDemo.2) /\
    FS.after ws (fs startOther) (fs otherDemo.2).
Proof.
  exact (runs_agree Demo.config 1%positive start startOther _ _ _ _ eq_refl
           trustedDemo_eq otherDemo_eq).
Defined.

(** The rewards file cannot be written: the error comes after the two
    writes of the performance file. *)
Definition denyRewards : World := Demo.worldDenying Demo.rewards5 [Demo.rewardsPath].
Definition perfDemo : bytes := [Byte.x70; Byte.x65; Byte.x72; Byte.x66].
Definition c1Demo : string :=
  from_Ok "" (singleFileDirIPFSCid perfDemo (FileName pfDemo)).
Definition c2Demo : string :=
  from_Ok "" (singleFileDirIPFSCid (zstdEncode perfDemo)
                (filepath.Base (compressedPath pfDemo))).
Definition finalDataDemo : bytes :=
  from_Ok [] (SerializeRewardsFile (withPerformanceFileCID c2Demo Demo.rewards5)).

Lemma denyRewards_saved : saved pfDemo denyRewards perfDemo c1Demo.
Proof. split_and!; evaluated. Qed.

Lemma denyRewards_created : created pfDemo denyRewards perfDemo c2Demo.
Proof. split_and!; evaluated. Qed.

Lemma finalDataDemo_eq :
  SerializeRewardsFile (withPerformanceFileCID (CidString c2Demo) Demo.rewards5)
  = Ok finalDataDemo.
Proof. vm_cast_no_check (eq_refl (Ok finalDataDemo)). Qed.

Lemma denyRewards_denied : Path rlDemo ∈ FS.denied (fs denyRewards).
Proof. apply elem_of_list_to_set. left. Qed.

Lemma rewards_write_error_keeps_performance_witness :
  exists w',
    saveJSONArtifacts Demo.config 1%positive true denyRewards =
      (Err (Errorf ("error saving " +:+ Path rlDemo +:+ ": ")
              (Errorf ("error writing file to " +:+ Path rlDemo +:+ ": ")
                 (FS.PathError "open" (Path rlDemo) "permission denied"))), w') /\
    FS.after [FS.Write_ (Path pfDemo) perfDemo;
              FS.Write_ (compressedPath pfDemo) (zstdEncode perfDemo)]
      (fs denyRewards) (fs w') /\
    rewardsFiles (heap w') !! 1%positive
      = Some (withPerformanceFileCID (CidString c2Demo) Demo.rewards5).
Proof.
  exact (rewards_write_error_keeps_performance Demo.config 1%positive denyRewards
           Demo.rewards5 perfDemo c1Demo c2Demo finalDataDemo eq_refl
           denyRewards_saved denyRewards_created finalDataDemo_eq denyRewards_denied).
Defined.

Lemma writes_follow_the_order_witness :
  exists ws,
    FS.after ws (fs denyRewards)
      (fs (saveJSONArtifacts Demo.config 1%positive true denyRewards).2) /\
    FS.names ws `prefix_of`
      [fullPath pfDemo; compressedPath pfDemo; fullPath rlDemo; compressedPath rlDemo].
Proof.
  exact (writes_follow_the_order Demo.config 1%positive true denyRewards
           Demo.rewards5 eq_refl).
Defined.

(** The performance file cannot be written: the error, and no write. *)
Lemma performance_write_error_witness :
  saveJSONArtifacts Demo.config 1%positive true
    (Demo.worldDenying Demo.rewards5 [Demo.perfPath]) =
  (Err (Errorf ("error saving " +:+ Demo.perfPath +:+ ": ")
          (Errorf ("error writing file to " +:+ Demo.perfPath +:+ ": ")
             (FS.PathError "open" Demo.perfPath "permission denied"))),
   Demo.worldDenying Demo.rewards5 [Demo.perfPath]).
Proof.
  apply (performance_write_error Demo.config 1%positive true
           (Demo.worldDenying Demo.rewards5 [Demo.perfPath]) Demo.rewards5
           [Byte.x70; Byte.x65; Byte.x72; Byte.x66]); evaluated.
Defined.

End ArtifactsDemo.
