(* ===== verification/Machine.v ===== *)
(** * Machine: [saveJSONArtifacts] statement by statement

    Artifacts.v gives [saveJSONArtifacts] as one program of the monad.
    This file gives the same function of
    src/shared/services/rewards/files.go (lines 148 to 205) as a
    transition system: a [point] for every statement at which a run can
    be, with the local variables that are live there; a configuration
    [config] of a point, the two variables the loop updates and the
    world; a relation [step] with one rule for every statement and every
    branch; the function [next] that computes the step, and [run] that
    iterates it.

    The theorems: [next] computes [step], which is deterministic; a run
    from the entry ends at the outcome and the world [saveJSONArtifacts]
    gives; the configurations reached from the entry are well formed
    ([wf]); the rewards file is serialized only after its field
    MinipoolPerformanceFileCID has the value it keeps to the end of the
    run; the map [out] never holds a key that is not the base name of
    one of the four paths of the run ([out_holds_four_names]).

    The loop of the function ranges over a slice literal of two files
    and every call in it returns, so that the machine stops is no
    property of the program worth a theorem of its own.  It is kept as
    lemmas the other proofs use: every step lowers [measure]
    ([step_decreases]), [run] with [measure] steps of fuel is at an exit
    ([run_final]), and the exit a configuration of a run reaches is the
    exit of the whole run ([reachable_exit]). *)

From stdpp Require Import gmap strings list relations.
From S2P Require Import Prelude Filepath FileSystem Env Concrete LocalFile Artifacts.

(** ** Definitions *)

Section Machine.
Context `{Env}.
Context (smartnode : SmartnodeConfig) (rewardsFile : IRewardsFile) (nodeTrusted : bool).

(** The variables of one round of the loop: [i], [f], and the files that
    remain after [f]. *)
Record iteration := mkIteration {
  index : nat;
  file : ILocalFile.t;
  rest : list ILocalFile.t;
}.

(** The statements of [saveJSONArtifacts], by the line at which they
    start, with the local variables assigned before them. *)
Inductive point : Type :=
  | AtHeader                                         (* 149 *)
  | AtFiles (currentIndex : N)                       (* 154-166, the slice *)
  | AtRange (i : nat) (files : list ILocalFile.t)    (* 154, the head of the loop *)
  | AtWrite (it : iteration)                         (* 168 *)
  | AtCid (it : iteration) (data : bytes)            (* 173 *)
  | AtRecord (it : iteration) (c : Cid)              (* 177 *)
  | AtTrusted (it : iteration)                       (* 179 *)
  | AtSentinel (it : iteration)                      (* 181, 183 *)
  | AtCompress (it : iteration)                      (* 187 *)
  | AtRecordCompressed (it : iteration) (compressedFilePath : string) (c : Cid) (* 191 *)
  | AtNote (it : iteration) (c : Cid)                (* 194 *)
  | AtPrimary (it : iteration) (c : Cid)             (* 199 *)
  | AtReturn                                         (* 204 *)
  | Finished (r : result (Cid * gmap string Cid)).

Record config := Config {
  pc : point;
  vars : loopState;
  world : World;
}.

(** Where a run is after a call: at [k a] when the call returned [a],
    out of the function when it returned an error or panicked.  The world
    is the one the call left. *)
Definition resume {A} (r : result A * World) (st : loopState) (k : A -> point) : config :=
  {| pc := match r.1 with
           | Ok a => k a
           | Err e => Finished (Err e)
           | Panic m => Finished (Panic m)
           end;
     vars := st;
     world := r.2 |}.

(** The next round of the loop. *)
Definition continue (it : iteration) : point := AtRange (S (index it)) (rest it).

(** One statement. *)
Inductive step : config -> config -> Prop :=
  | step_header st w :
      step (Config AtHeader st w)
        (resume (onHeap (GetHeader rewardsFile) w) st (fun header => AtFiles (Index header)))
  | step_files currentIndex st w :
      step (Config (AtFiles currentIndex) st w)
        (resume (artifactFiles smartnode rewardsFile currentIndex w) st (AtRange 0))
  | step_range i f files st w :
      step (Config (AtRange i (f :: files)) st w) (Config (AtWrite (mkIteration i f files)) st w)
  | step_range_end i st w :
      step (Config (AtRange i []) st w) (Config AtReturn st w)
  | step_write it st w :
      step (Config (AtWrite it) st w)
        (resume ((ILocalFile.Write (file it)
                    orwrap ("error saving " +:+ ILocalFile.Path (file it) +:+ ": ")) w)
           st (AtCid it))
  | step_cid it data st w :
      step (Config (AtCid it data) st w)
        (resume ((lift (singleFileDirIPFSCid data (ILocalFile.FileName (file it)))
                    orwrap ("error calculating cid for saved file "
                            +:+ ILocalFile.Path (file it) +:+ ": ")) w)
           st (AtRecord it))
  | step_record it c st w :
      step (Config (AtRecord it c) st w)
        (Config (AtTrusted it) (setOut (ILocalFile.FileName (file it)) c st) w)
  | step_not_trusted it st w :
      nodeTrusted = false ->
      step (Config (AtTrusted it) st w) (Config (AtSentinel it) st w)
  | step_trusted it st w :
      nodeTrusted = true ->
      step (Config (AtTrusted it) st w) (Config (AtCompress it) st w)
  | step_sentinel it st w :
      step (Config (AtSentinel it) st w)
        (resume (onHeap (SetMinipoolPerformanceFileCID rewardsFile sentinel) w) st
           (fun _ => continue it))
  | step_compress it st w :
      step (Config (AtCompress it) st w)
        (resume (checked ("error compressing file " +:+ ILocalFile.Path (file it) +:+ ": ")
                   (ILocalFile.CreateCompressedFileAndCid (file it)) w)
           st (fun r => AtRecordCompressed it r.1 r.2))
  | step_record_compressed it compressedFilePath c st w :
      step (Config (AtRecordCompressed it compressedFilePath c) st w)
        (Config (AtNote it c) (setOut (filepath.Base compressedFilePath) c st) w)
  | step_note it c st w :
      index it = 0 ->
      step (Config (AtNote it c) st w)
        (resume (onHeap (SetMinipoolPerformanceFileCID rewardsFile (CidString c)) w) st
           (fun _ => AtPrimary it c))
  | step_note_skip it c st w :
      index it <> 0 ->
      step (Config (AtNote it c) st w) (Config (AtPrimary it c) st w)
  | step_primary it c st w :
      index it = 1 ->
      step (Config (AtPrimary it c) st w) (Config (continue it) (setPrimary c st) w)
  | step_primary_skip it c st w :
      index it <> 1 ->
      step (Config (AtPrimary it c) st w) (Config (continue it) st w)
  | step_return c st w :
      primaryCid st = Some c ->
      step (Config AtReturn st w) (Config (Finished (Ok (c, out st))) st w)
  | step_return_nil st w :
      primaryCid st = None ->
      step (Config AtReturn st w) (Config (Finished (Panic nilDereference)) st w).

(** The step as a function: [None] when the function has returned. *)
Definition next (c : config) : option config :=
  let st := vars c in
  let w := world c in
  match pc c with
  | AtHeader =>
      Some (resume (onHeap (GetHeader rewardsFile) w) st (fun header => AtFiles (Index header)))
  | AtFiles currentIndex =>
      Some (resume (artifactFiles smartnode rewardsFile currentIndex w) st (AtRange 0))
  | AtRange i (f :: files) => Some (Config (AtWrite (mkIteration i f files)) st w)
  | AtRange i [] => Some (Config AtReturn st w)
  | AtWrite it =>
      Some (resume ((ILocalFile.Write (file it)
                       orwrap ("error saving " +:+ ILocalFile.Path (file it) +:+ ": ")) w)
              st (AtCid it))
  | AtCid it data =>
      Some (resume ((lift (singleFileDirIPFSCid data (ILocalFile.FileName (file it)))
                       orwrap ("error calculating cid for saved file "
                               +:+ ILocalFile.Path (file it) +:+ ": ")) w)
              st (AtRecord it))
  | AtRecord it c =>
      Some (Config (AtTrusted it) (setOut (ILocalFile.FileName (file it)) c st) w)
  | AtTrusted it =>
      Some (Config (if negb nodeTrusted then AtSentinel it else AtCompress it) st w)
  | AtSentinel it =>
      Some (resume (onHeap (SetMinipoolPerformanceFileCID rewardsFile sentinel) w) st
              (fun _ => continue it))
  | AtCompress it =>
      Some (resume (checked ("error compressing file " +:+ ILocalFile.Path (file it) +:+ ": ")
                      (ILocalFile.CreateCompressedFileAndCid (file it)) w)
              st (fun r => AtRecordCompressed it r.1 r.2))
  | AtRecordCompressed it compressedFilePath c =>
      Some (Config (AtNote it c) (setOut (filepath.Base compressedFilePath) c st) w)
  | AtNote it c =>
      Some (if decide (index it = 0)
            then resume (onHeap (SetMinipoolPerformanceFileCID rewardsFile (CidString c)) w) st
                   (fun _ => AtPrimary it c)
            else Config (AtPrimary it c) st w)
  | AtPrimary it c =>
      Some (Config (continue it) (if decide (index it = 1) then setPrimary c st else st) w)
  | AtReturn =>
      Some (Config (match primaryCid st with
                    | Some c => Finished (Ok (c, out st))
                    | None => Finished (Panic nilDereference)
                    end) st w)
  | Finished _ => None
  end.

(** At most [n] steps from [c]. *)
Fixpoint run (n : nat) (c : config) : config :=
  match n with
  | 0 => c
  | S n' => match next c with
            | Some c' => run n' c'
            | None => c
            end
  end.

(** The entry of the function in the world [w], and its exits. *)
Definition start (w : World) : config :=
  Config AtHeader {| primaryCid := None; out := ∅ |} w.

Definition final (c : config) : bool :=
  match pc c with Finished _ => true | _ => false end.

(** What the function returned, once it has. *)
Definition returned (c : config) : option (result (Cid * gmap string Cid)) :=
  match pc c with Finished r => Some r | _ => None end.

(** The statements left in a round of the loop after the point, and the
    statements left in the function: a bound on the steps to come. *)
Definition roundLength : nat := 9.

Definition afterRounds (files : list ILocalFile.t) : nat :=
  2 + roundLength * length files.

Definition measure (p : point) : nat :=
  match p with
  | AtHeader => 2 + afterRounds [] + roundLength * 2
  | AtFiles _ => 1 + afterRounds [] + roundLength * 2
  | AtRange _ files => afterRounds files
  | AtWrite it => 8 + afterRounds (rest it)
  | AtCid it _ => 7 + afterRounds (rest it)
  | AtRecord it _ => 6 + afterRounds (rest it)
  | AtTrusted it => 5 + afterRounds (rest it)
  | AtCompress it => 4 + afterRounds (rest it)
  | AtRecordCompressed it _ _ => 3 + afterRounds (rest it)
  | AtNote it _ => 2 + afterRounds (rest it)
  | AtPrimary it _ => 1 + afterRounds (rest it)
  | AtSentinel it => 1 + afterRounds (rest it)
  | AtReturn => 1
  | Finished _ => 0
  end.

(** The steps a run from the entry can take. *)
Definition maxSteps : nat := measure AtHeader.

(** The configurations a run from the entry in [w0] goes through. *)
Definition reachable (w0 : World) (c : config) : Prop := rtc step (start w0) c.

(** *** Well-formed configurations *)

(** The slice of lines 154 to 166 for the interval [currentIndex]. *)
Definition slice (currentIndex : N) : list ILocalFile.t :=
  [ asILocalFile
      (NewLocalFile (PerformanceField rewardsFile)
         (GetMinipoolPerformancePath smartnode currentIndex true));
    asILocalFile
      (NewLocalFile rewardsFile
         (GetRewardsTreePath smartnode currentIndex true RewardsExtensionJSON)) ].

(** The round of the loop a point is in. *)
Definition round (p : point) : option iteration :=
  match p with
  | AtWrite it | AtCid it _ | AtRecord it _ | AtTrusted it | AtSentinel it
  | AtCompress it | AtRecordCompressed it _ _ | AtNote it _ | AtPrimary it _ => Some it
  | _ => None
  end.

Definition roundIndex (p : point) : option nat := index <$> round p.

(** What the test of line 179 found, at the points that follow it. *)
Definition trustedAt (p : point) : option bool :=
  match p with
  | AtSentinel _ => Some false
  | AtCompress _ | AtRecordCompressed _ _ _ | AtNote _ _ | AtPrimary _ _ => Some true
  | _ => None
  end.

(** [primaryCid] is set exactly after the second round of a trusted
    node. *)
Definition wfVars (i : nat) (st : loopState) : Prop :=
  is_Some (primaryCid st) <-> i = 2 /\ nodeTrusted = true.

(** A configuration is well formed for the interval [currentIndex]: the
    round in progress is a round of the slice, at its index; [primaryCid]
    is nil until the second round of a trusted node is over; a returned
    result is made of the two variables. *)
Definition wf (currentIndex : N) (c : config) : Prop :=
  match pc c with
  | AtHeader =>
      primaryCid (vars c) = None /\
      forall rf, rewardsFiles (heap (world c)) !! rewardsFile = Some rf ->
                 Index (Header rf) = currentIndex
  | AtFiles i => i = currentIndex /\ primaryCid (vars c) = None
  | AtRange i files =>
      drop i (slice currentIndex) = files /\ i <= 2 /\ wfVars i (vars c)
  | AtReturn => wfVars 2 (vars c)
  | Finished r =>
      forall v, r = Ok v ->
        nodeTrusted = true /\ primaryCid (vars c) = Some v.1 /\ out (vars c) = v.2
  | p =>
      match round p with
      | Some it =>
          drop (index it) (slice currentIndex) = file it :: rest it /\
          primaryCid (vars c) = None /\
          (forall b, trustedAt p = Some b -> nodeTrusted = b)
      | None => True
      end
  end.

(** The interval of the rewards file in the world [w], when there is
    one. *)
Definition intervalOf (w : World) : N :=
  match rewardsFiles (heap w) !! rewardsFile with
  | Some rf => Index (Header rf)
  | None => 0%N
  end.

(** *** The field the two files share *)

(** The field MinipoolPerformanceFileCID of the rewards file. *)
Definition noted (w : World) : option string :=
  (fun rf => MinipoolPerformanceFileCID (Header rf)) <$>
    rewardsFiles (heap w) !! rewardsFile.

(** The first round is over. *)
Definition late (p : point) : Prop :=
  match p with
  | AtHeader | AtFiles _ => False
  | AtRange i _ => 1 <= i
  | AtReturn | Finished _ => True
  | p => match round p with Some it => 1 <= index it | None => True end
  end.

(** [z] is the identifier of the compressed performance file of the
    rewards file, as it is in the world [w]. *)
Definition performanceCid (currentIndex : N) (w : World) (z : Cid) : Prop :=
  let pf := NewLocalFile (PerformanceField rewardsFile)
              (GetMinipoolPerformancePath smartnode currentIndex true) in
  exists data,
    Serialize pf (heap w) = Ok data /\
    singleFileDirIPFSCid (zstdEncode data) (filepath.Base (compressedPath pf)) = Ok z.

(** The field has the value the run gives it: the sentinel on a node
    that is not trusted, the identifier of the compressed performance
    file on a trusted one. *)
Definition settled (currentIndex : N) (w : World) : Prop :=
  if nodeTrusted
  then exists z, performanceCid currentIndex w z /\ noted w = Some (CidString z)
  else noted w = Some sentinel.

(** What the run knows at a point about the field: nothing in the first
    round before the compressed performance file is identified; that [z]
    is its identifier once it is; that the field holds it once it is
    noted; that the field is settled from the end of the first round
    on. *)
Definition settledAt (currentIndex : N) (c : config) : Prop :=
  let w := world c in
  match pc c with
  | AtHeader | AtFiles _ | Finished _ => True
  | AtRange i _ => 1 <= i -> settled currentIndex w
  | AtReturn => settled currentIndex w
  | AtRecordCompressed it _ z | AtNote it z =>
      if decide (index it = 0) then performanceCid currentIndex w z
      else settled currentIndex w
  | AtPrimary it z =>
      if decide (index it = 0)
      then performanceCid currentIndex w z /\ noted w = Some (CidString z)
      else settled currentIndex w
  | AtWrite it | AtCid it _ | AtRecord it _ | AtTrusted it | AtSentinel it
  | AtCompress it => 1 <= index it -> settled currentIndex w
  end.

(** The heap without the field MinipoolPerformanceFileCID of the rewards
    file, and the worlds whose heaps differ by that field at most. *)
Definition eraseCid (h : Heap) : Heap :=
  {| rewardsFiles := alter (withPerformanceFileCID "") rewardsFile (rewardsFiles h);
     performanceFiles := performanceFiles h |}.

Definition sameButCid (w0 w : World) : Prop := eraseCid (heap w0) = eraseCid (heap w).

(** What a run may do to the world: write files, and set that field. *)
Definition moves (w0 w : World) : Prop := diskLe w0 w /\ sameButCid w0 w.

(** *** The keys of the map *)

(** The keys [out] can hold for the interval [currentIndex]: the base
    names of the two files and of their compressed copies, in the order
    in which a trusted node records them. *)
Definition outNames (currentIndex : N) : list string :=
  let performance := GetMinipoolPerformancePath smartnode currentIndex true in
  let rewards := GetRewardsTreePath smartnode currentIndex true RewardsExtensionJSON in
  [ filepath.Base performance; filepath.Base (performance +:+ RewardsTreeIpfsExtension);
    filepath.Base rewards; filepath.Base (rewards +:+ RewardsTreeIpfsExtension) ].

(** [out] holds such keys only, and the path of the compressed copy that
    is about to be recorded gives one. *)
Definition outKnown (currentIndex : N) (c : config) : Prop :=
  dom (out (vars c)) ⊆ list_to_set (outNames currentIndex) /\
  match pc c with
  | AtRecordCompressed _ compressedFilePath _ =>
      filepath.Base compressedFilePath ∈ outNames currentIndex
  | _ => True
  end.

(** ** The step relation and its function *)

Implicit Types (c : config) (p : point) (st : loopState) (w : World) (it : iteration).

Lemma next_step c c' : next c = Some c' -> step c c'.
Proof.
  destruct c as [p st w]; destruct p as [| |i [|f files]| | | | | | | | | | |];
    simpl; intros [= <-]; try (by constructor).
  - destruct nodeTrusted eqn:E; by constructor.
  - case_decide; by constructor.
  - case_decide; by constructor.
  - destruct (primaryCid st) eqn:E; by constructor.
Qed.

Lemma step_next c c' : step c c' <-> next c = Some c'.
Proof.
  split; [|apply next_step].
  destruct 1; unfold next; simpl; try done;
    first [ by rewrite decide_False by done
          | match goal with E : _ = _ |- _ => by rewrite E end ].
Qed.

Lemma step_deterministic c c1 c2 : step c c1 -> step c c2 -> c1 = c2.
Proof. rewrite !step_next. congruence. Qed.

Lemma final_next c : final c = true <-> next c = None.
Proof.
  destruct c as [p st w];
    destruct p as [| |i [|f files]| | | | | | | | | | |]; by simpl.
Qed.

(** A configuration that is not final takes a step. *)
Lemma progress c : final c = false -> exists c', step c c'.
Proof.
  intros Hf. destruct (next c) as [c'|] eqn:E; [by exists c'; apply next_step|].
  apply final_next in E. congruence.
Qed.

Lemma final_nf c : final c = true -> nf step c.
Proof. intros Hf%final_next [c' Hs%step_next]. congruence. Qed.

(** ** Every step lowers the measure *)

Lemma artifactFiles_length currentIndex w files w' :
  artifactFiles smartnode rewardsFile currentIndex w = (Ok files, w') -> length files = 2.
Proof.
  unfold artifactFiles, bind, ret.
  destruct (onHeap _ w) as [[a|e|m] w1]; by intros [= <- <-].
Qed.

Lemma measure_resume {A} (r : result A * World) st (k : A -> point) n :
  (forall a w', r = (Ok a, w') -> measure (k a) < n) -> 0 < n ->
  measure (pc (resume r st k)) < n.
Proof. destruct r as [[a|e|m] w']; simpl; eauto. Qed.

Lemma step_decreases c c' : step c c' -> measure (pc c') < measure (pc c).
Proof.
  destruct 1; try apply measure_resume; simpl; unfold continue, afterRounds, roundLength;
    simpl; intros; try lia.
  erewrite artifactFiles_length by done. lia.
Qed.

(** ** Runs *)

Lemma run_rtc n c : rtc step c (run n c).
Proof.
  induction n as [|n IH] in c |- *; simpl; [done|].
  destruct (next c) as [c'|] eqn:E; [|done].
  eapply rtc_l; [by apply next_step|apply IH].
Qed.

Lemma run_final_id n c : final c = true -> run n c = c.
Proof. intros Hf%final_next. destruct n; simpl; by rewrite ?Hf. Qed.

Lemma run_final n c : measure (pc c) <= n -> final (run n c) = true.
Proof.
  induction n as [|n IH] in c |- *; simpl.
  - destruct c as [[] st w]; simpl; unfold afterRounds; intros; (done || lia).
  - destruct (next c) as [c'|] eqn:E; [|by intros; apply final_next].
    intros Hn. apply IH. apply next_step, step_decreases in E. lia.
Qed.

(** A run that reaches an exit is the run [run] computes. *)
Lemma rtc_final_run n c c' :
  rtc step c c' -> final c' = true -> measure (pc c) <= n -> run n c = c'.
Proof.
  induction 1 as [c|c1 c2 c3 Hs _ IH] in n |- *; intros Hf Hn; [by apply run_final_id|].
  pose proof (step_decreases _ _ Hs). apply step_next in Hs.
  destruct n as [|n]; [lia|]. simpl. rewrite Hs. apply IH; [done|lia].
Qed.

(** ** From the program to the steps *)

(** The run from [c] follows the call whose outcome is [r]: it reaches
    the point and the variables [k a] when the call returned [a], and an
    exit with the error or the panic of the call otherwise. *)
Definition lands {A} c (r : result A * World) (k : A -> point * loopState) : Prop :=
  match r.1 with
  | Ok a => rtc step c (Config (k a).1 (k a).2 r.2)
  | Err e => exists st, rtc step c (Config (Finished (Err e)) st r.2)
  | Panic m => exists st, rtc step c (Config (Finished (Panic m)) st r.2)
  end.

(** The run from [c] ends with the outcome and in the world [r]. *)
Definition ends c (r : result (Cid * gmap string Cid) * World) : Prop :=
  exists st, rtc step c (Config (Finished r.1) st r.2).

Lemma lands_call {A} st w (q : prog World A) (k : A -> point) c :
  step c (resume (q w) st k) -> lands c (q w) (fun a => (k a, st)).
Proof.
  unfold lands, resume. destruct (q w) as [[a|e|m] w']; simpl; intros Hs;
    [|eexists..]; by apply rtc_once.
Qed.

Lemma lands_ret {A} (a : A) p st w k :
  k a = (p, st) -> lands (Config p st w) (ret a w) k.
Proof. unfold lands; simpl. by intros ->. Qed.

Lemma lands_step {A} c c' (r : result A * World) k :
  step c c' -> lands c' r k -> lands c r k.
Proof.
  unfold lands. destruct r as [[a|e|m] w']; simpl; intros Hs;
    [|intros [st ?]; exists st..]; by eapply rtc_l.
Qed.

Lemma lands_bind {A B} c (q : prog World A) (q' : A -> prog World B) w k k' :
  lands c (q w) k ->
  (forall a w', lands (Config (k a).1 (k a).2 w') (q' a w') k') ->
  lands c (bind q q' w) k'.
Proof.
  unfold lands, bind. destruct (q w) as [[a|e|m] w1]; simpl; [|done..].
  intros H1 H2. specialize (H2 a w1). destruct (q' a w1) as [[b|e|m] w2]; simpl in *;
    [|destruct H2 as [st ?]; exists st..]; by etrans.
Qed.

Lemma ends_bind {A} c (q : prog World A) q' w k :
  lands c (q w) k ->
  (forall a w', ends (Config (k a).1 (k a).2 w') (q' a w')) ->
  ends c (bind q q' w).
Proof.
  unfold lands, ends, bind. destruct (q w) as [[a|e|m] w1]; simpl; [|done..].
  intros H1 H2. destruct (H2 a w1) as [st ?]. exists st. by etrans.
Qed.

(** A round of the loop is the body [saveOne]. *)
Lemma lands_saveOne it st w :
  lands (Config (AtWrite it) st w)
    (saveOne rewardsFile nodeTrusted (index it) (file it) st w)
    (fun st' => (continue it, st')).
Proof.
  unfold saveOne.
  eapply lands_bind; [apply lands_call, step_write|]; simpl; intros data w1.
  eapply lands_bind; [apply lands_call, step_cid|]; simpl; intros c w2.
  eapply lands_step; [apply step_record|].
  destruct nodeTrusted eqn:Ht; simpl.
  - eapply lands_step; [by apply step_trusted|].
    eapply lands_bind; [apply lands_call, step_compress|]; simpl; intros res w3.
    eapply lands_step; [apply step_record_compressed|].
    eapply lands_bind with (k := fun _ => (AtPrimary it res.2, _)).
    + case_decide.
      * by apply lands_call, step_note.
      * eapply lands_step; [by apply step_note_skip|]. by apply lands_ret.
    + simpl; intros _ w4. case_decide.
      * eapply lands_step; [by apply step_primary|]. by apply lands_ret.
      * eapply lands_step; [by apply step_primary_skip|]. by apply lands_ret.
  - eapply lands_step; [by apply step_not_trusted|].
    eapply lands_bind; [apply lands_call, step_sentinel|]; simpl; intros _ w3.
    by apply lands_ret.
Qed.

(** The loop is [range]. *)
Lemma lands_range files i st w :
  lands (Config (AtRange i files) st w)
    (range_from (saveOne rewardsFile nodeTrusted) i files st w)
    (fun st' => (AtReturn, st')).
Proof.
  induction files as [|f files IH] in i, st, w |- *; simpl.
  - eapply lands_step; [apply step_range_end|]. by apply lands_ret.
  - eapply lands_step; [apply step_range|].
    eapply lands_bind; [apply (lands_saveOne (mkIteration i f files))|].
    simpl; intros st' w'. apply IH.
Qed.

(** The function from its entry. *)
Lemma ends_saveJSONArtifacts w :
  ends (start w) (saveJSONArtifacts smartnode rewardsFile nodeTrusted w).
Proof.
  unfold saveJSONArtifacts, start, range.
  eapply ends_bind; [apply lands_call, step_header|]; simpl; intros header w1.
  eapply ends_bind; [apply lands_call, step_files|]; simpl; intros files w2.
  eapply ends_bind; [apply lands_range|]; simpl; intros st w3.
  exists st. apply rtc_once.
  destruct (primaryCid st) as [c|] eqn:E; [by apply step_return|by apply step_return_nil].
Qed.

(** ** Reachable configurations are well formed *)

Lemma artifactFiles_Ok i w files w' :
  artifactFiles smartnode rewardsFile i w = (Ok files, w') -> files = slice i /\ w' = w.
Proof.
  unfold artifactFiles, bind, ret, onHeap, zoom, GetMinipoolPerformanceFile, reads,
    derefRewards.
  destruct (rewardsFiles (heap w) !! rewardsFile); simpl; intros ?; simplify_eq.
  by destruct w.
Qed.

Lemma artifactFiles_world i w : (artifactFiles smartnode rewardsFile i w).2 = w.
Proof.
  unfold artifactFiles, bind, ret, onHeap, zoom, GetMinipoolPerformanceFile, reads,
    derefRewards.
  destruct (rewardsFiles (heap w) !! rewardsFile); simpl; by destruct w.
Qed.

Lemma GetHeader_Ok w header w' :
  onHeap (GetHeader rewardsFile) w = (Ok header, w') ->
  exists rf, rewardsFiles (heap w) !! rewardsFile = Some rf /\ header = Header rf.
Proof.
  unfold onHeap, zoom, GetHeader, reads, derefRewards.
  destruct (rewardsFiles (heap w) !! rewardsFile) as [rf|]; simpl; intros ?; simplify_eq.
  eauto.
Qed.

Lemma round_cases currentIndex it :
  drop (index it) (slice currentIndex) = file it :: rest it ->
  index it < 2 /\ drop (S (index it)) (slice currentIndex) = rest it.
Proof.
  unfold slice. destruct it as [[|[|n]] f l]; simpl; rewrite ?drop_nil; intros ?;
    simplify_eq; split; (lia || done).
Qed.

Lemma wf_start w : wf (intervalOf w) (start w).
Proof. unfold wf, intervalOf; simpl. split; [done|]. by intros rf ->. Qed.

Lemma wf_resume {A} currentIndex (r : result A * World) st (k : A -> point) :
  (forall a w', r = (Ok a, w') -> wf currentIndex (Config (k a) st w')) ->
  wf currentIndex (resume r st k).
Proof. destruct r as [[a|e|m] w']; unfold wf, resume; simpl; [by intros Hk; apply Hk|done..]. Qed.

Lemma wfVars_None i st : i < 2 -> wfVars i st -> primaryCid st = None.
Proof.
  unfold wfVars. intros Hi Hv. destruct (primaryCid st) as [c|]; [|done].
  destruct Hv as [Hv _]. destruct Hv; [by eexists|lia].
Qed.

Lemma wfVars_unset i st :
  primaryCid st = None -> i < 2 \/ nodeTrusted = false -> wfVars i st.
Proof.
  unfold wfVars. intros -> Hi. split; [by intros []|]. intros [-> Ht].
  destruct Hi; [lia|congruence].
Qed.

Lemma wfVars_range_end currentIndex i st :
  drop i (slice currentIndex) = [] -> i <= 2 -> wfVars i st -> wfVars 2 st.
Proof.
  intros Hd%(f_equal length) Hi. rewrite length_drop in Hd. simpl in Hd.
  by replace i with 2 by lia.
Qed.

(** The next round, after a round that did not set [primaryCid]. *)
Lemma wf_continue currentIndex it st :
  drop (index it) (slice currentIndex) = file it :: rest it ->
  primaryCid st = None -> index it = 0 \/ nodeTrusted = false ->
  drop (S (index it)) (slice currentIndex) = rest it /\
  S (index it) <= 2 /\ wfVars (S (index it)) st.
Proof.
  intros [Hi Hd]%round_cases Hp Hc. split_and!; [done|lia|].
  apply wfVars_unset; [done|]. destruct Hc; [left; lia|by right].
Qed.

Lemma wf_step currentIndex c c' : wf currentIndex c -> step c c' -> wf currentIndex c'.
Proof.
  intros Hwf Hs. destruct Hs; try apply wf_resume; unfold wf, continue in *;
    cbn [pc vars world round trustedAt index file rest] in *; intros;
    try (by destruct_and?; split_and!; try done; intros ? [= <-]; eauto).
  - destruct Hwf as [Hp Hi]. by apply GetHeader_Ok in H0 as (rf & ?%Hi & ->).
  - destruct Hwf as [-> Hp]. apply artifactFiles_Ok in H0 as [-> ->].
    split_and!; [done|lia|]. apply wfVars_unset; [done|left; lia].
  - destruct Hwf as (Hd & Hi & Hv). split_and!; [done| |done].
    apply (round_cases _ (mkIteration i f files)) in Hd as [? _].
    by eapply wfVars_None.
  - destruct Hwf as (Hd & Hi & Hv). by eapply wfVars_range_end.
  - destruct Hwf as (Hd & Hp & Ht). apply wf_continue; [done..|]. right. by apply Ht.
  - destruct Hwf as (Hd & Hp & Ht). apply round_cases in Hd as [? Hd].
    split_and!; [done|lia|]. rewrite H0. unfold wfVars; simpl. naive_solver.
  - destruct Hwf as (Hd & Hp & Ht). apply wf_continue; [done..|].
    left. apply round_cases in Hd. lia.
  - simplify_eq/=. split_and!; [|done..]. apply Hwf. by eexists.
Qed.

(** An invariant of the steps from well-formed configurations that holds
    at the entry holds of every reachable configuration. *)
Lemma reachable_ind (P : config -> Prop) w0 :
  P (start w0) ->
  (forall c c', wf (intervalOf w0) c -> step c c' -> P c -> P c') ->
  forall c, reachable w0 c -> P c.
Proof.
  intros H0 Hstep c Hr.
  cut (wf (intervalOf w0) c /\ P c); [by intros []|].
  apply (rtc_ind_r (R := step) (fun c => wf (intervalOf w0) c /\ P c) (start w0));
    [split; [apply wf_start|done]| |done].
  intros c1 c2 _ Hs [Hwf HP]. split; [by eapply wf_step|by eapply Hstep].
Qed.

Lemma reachable_wf w0 c : reachable w0 c -> wf (intervalOf w0) c.
Proof.
  intros Hr.
  apply (rtc_ind_r (R := step) (wf (intervalOf w0)) (start w0)); [apply wf_start| |done].
  intros c1 c2 _ Hs Hwf. by eapply wf_step.
Qed.

(** ** What a run changes in the world *)

#[global] Instance sameButCid_equivalence : Equivalence sameButCid.
Proof.
  unfold sameButCid. split; [by intros w|by intros w1 w2|].
  intros w1 w2 w3. congruence.
Qed.

#[global] Instance moves_preorder : PreOrder moves.
Proof.
  unfold moves. split; [by intros w|].
  intros w1 w2 w3 [] []. split; by etrans.
Qed.

Lemma moves_heap w w' : diskLe w w' -> heap w' = heap w -> moves w w'.
Proof. intros Hd Hh. split; [done|]. unfold sameButCid. by rewrite Hh. Qed.

(** A call that writes files and leaves the heap as it is. *)
Definition writesOnly {A} (q : prog World A) : Prop :=
  stable diskLe q /\ forall w, heap (q w).2 = heap w.

Lemma writesOnly_moves {A} (q : prog World A) : writesOnly q -> stable moves q.
Proof. intros [Hd Hh] w. by apply moves_heap. Qed.

Lemma writesOnly_checked {A} prefix (q : prog World (A * option error)) :
  writesOnly q -> writesOnly (checked prefix q).
Proof.
  intros [Hd Hh]. split; [by apply stable_checked|]. intros w. by rewrite checked_state.
Qed.

Lemma writesOnly_Ok {A} (q : prog World A) w a w' :
  writesOnly q -> q w = (Ok a, w') -> heap w' = heap w.
Proof. intros [_ Hh] E. by rewrite <-(Hh w), E. Qed.

Lemma eraseCid_Set cid h : eraseCid (SetMinipoolPerformanceFileCID rewardsFile cid h).2 = eraseCid h.
Proof.
  unfold SetMinipoolPerformanceFileCID, eraseCid.
  destruct (rewardsFiles h !! rewardsFile) as [rf|] eqn:E; simpl; [|done]. f_equal.
  rewrite alter_insert_eq. rewrite <-(insert_id (rewardsFiles h) _ _ E) at 2.
  by rewrite alter_insert_eq.
Qed.

Lemma stable_moves_Set cid :
  stable moves (onHeap (SetMinipoolPerformanceFileCID rewardsFile cid)).
Proof.
  intros w. split; [apply stable_onHeap|].
  unfold sameButCid, onHeap, zoom.
  destruct (SetMinipoolPerformanceFileCID rewardsFile cid (heap w)) as [r h] eqn:E.
  simpl. by rewrite <-(eraseCid_Set cid (heap w)), E.
Qed.

Lemma stable_moves_reads {A} (f : Heap -> result A) : stable moves (onHeap (reads f)).
Proof. intros w. unfold onHeap, zoom. simpl. by rewrite World_eta. Qed.

(** The two methods of a file of the slice that write. *)
Lemma round_file currentIndex it :
  drop (index it) (slice currentIndex) = file it :: rest it ->
  writesOnly (ILocalFile.Write (file it)) /\
  writesOnly (ILocalFile.CreateCompressedFileAndCid (file it)).
Proof.
  unfold slice, writesOnly.
  destruct it as [[|[|n]] f l]; simpl; rewrite ?drop_nil; intros ?; simplify_eq; simpl;
    auto using Write_stable, Write_heap, Create_stable, Create_heap.
Qed.

(** The file of the first round is the performance file. *)
Lemma round_first currentIndex it :
  drop (index it) (slice currentIndex) = file it :: rest it -> index it = 0 ->
  file it = asILocalFile
              (NewLocalFile (PerformanceField rewardsFile)
                 (GetMinipoolPerformancePath smartnode currentIndex true)).
Proof. unfold slice. destruct it as [i f l]; simpl. intros Hd ->. by simplify_eq/=. Qed.

Lemma step_moves currentIndex c c' :
  wf currentIndex c -> step c c' -> moves (world c) (world c').
Proof.
  intros Hwf Hs. destruct Hs; unfold wf in Hwf; simpl in *; try done.
  - by rewrite World_eta.
  - by rewrite artifactFiles_world.
  - rewrite wrap_err_state. apply writesOnly_moves, (round_file currentIndex it), Hwf.
  - apply stable_moves_Set.
  - rewrite checked_state. apply writesOnly_moves, (round_file currentIndex it), Hwf.
  - apply stable_moves_Set.
Qed.

Lemma reachable_moves w0 c : reachable w0 c -> moves w0 (world c).
Proof.
  apply (reachable_ind (fun c => moves w0 (world c))); [done|].
  intros c1 c2 Hwf Hs Hm. etrans; [done|by eapply step_moves].
Qed.

(** ** The field is settled before the rewards file is serialized *)

(** The bytes of the performance file do not depend on the field. *)
Lemma Serialize_eraseCid path h :
  Serialize (NewLocalFile (PerformanceField rewardsFile) path) (eraseCid h) =
  Serialize (NewLocalFile (PerformanceField rewardsFile) path) h.
Proof.
  simpl. unfold derefRewards, eraseCid. simpl. rewrite lookup_alter_eq.
  by destruct (rewardsFiles h !! rewardsFile).
Qed.

#[global] Instance performanceCid_proper currentIndex :
  Proper (sameButCid ==> eq ==> iff) (performanceCid currentIndex).
Proof.
  intros w1 w2 Hw z _ <-. unfold performanceCid, sameButCid in *.
  by rewrite <-(Serialize_eraseCid _ (heap w1)), Hw, Serialize_eraseCid.
Qed.

Lemma settled_heap currentIndex w w' :
  heap w' = heap w -> settled currentIndex w -> settled currentIndex w'.
Proof. unfold settled, performanceCid, noted. by intros ->. Qed.

Lemma Set_noted cid w u w' :
  onHeap (SetMinipoolPerformanceFileCID rewardsFile cid) w = (Ok u, w') ->
  noted w' = Some cid.
Proof.
  unfold onHeap, zoom, SetMinipoolPerformanceFileCID, noted.
  destruct (rewardsFiles (heap w) !! rewardsFile) as [rf|]; intros ?; simplify_eq/=.
  by rewrite lookup_insert_eq.
Qed.

Lemma Set_moves cid w u w' :
  onHeap (SetMinipoolPerformanceFileCID rewardsFile cid) w = (Ok u, w') -> sameButCid w w'.
Proof. intros E. pose proof (stable_moves_Set cid w) as [_ Hs]. by rewrite E in Hs. Qed.

(** The compressed copy of the first round is identified as the
    performance file's. *)
Lemma compress_first currentIndex it prefix w res w' :
  drop (index it) (slice currentIndex) = file it :: rest it -> index it = 0 ->
  checked prefix (ILocalFile.CreateCompressedFileAndCid (file it)) w = (Ok res, w') ->
  performanceCid currentIndex w' res.2.
Proof.
  intros Hd Hi. rewrite (round_first _ _ Hd Hi). simpl.
  intros (data & (Hs & Hc & _) & _ & ->)%checked_Create_inv_Ok. by exists data.
Qed.

Lemma settledAt_resume {A} currentIndex (r : result A * World) st (k : A -> point) :
  (forall a w', r = (Ok a, w') -> settledAt currentIndex (Config (k a) st w')) ->
  settledAt currentIndex (resume r st k).
Proof.
  destruct r as [[a|e|m] w']; unfold settledAt, resume; simpl; [by intros Hk; apply Hk|done..].
Qed.

Lemma settledAt_step currentIndex c c' :
  wf currentIndex c -> step c c' -> settledAt currentIndex c -> settledAt currentIndex c'.
Proof.
  intros Hwf Hs Hst.
  destruct Hs as [st w|idx st w|i f files st w|i st w|it st w|it data st w|it z st w
                 |it st w Ht|it st w Ht|it st w|it st w|it path z st w
                 |it z st w Hi|it z st w Hi|it z st w Hi|it z st w Hi|z st w Hp|st w Hp];
    try apply settledAt_resume; unfold wf, settledAt, continue in *;
    cbn [pc vars world round trustedAt index file rest] in *; try done; auto.
  - intros a w' _ ?. lia.
  - apply Hst. destruct Hwf as (Hd%(f_equal length) & _). rewrite length_drop in Hd.
    simpl in Hd. lia.
  - intros a w' E%wrap_err_inv_Ok Hi. eapply settled_heap; [|by apply Hst].
    eapply writesOnly_Ok; [|done]. apply (round_file currentIndex it), Hwf.
  - intros a w' E%wrap_err_inv_Ok Hi. unfold lift in E. simplify_eq. by apply Hst.
  - intros a w' E%Set_noted _. unfold settled. by rewrite (proj2 (proj2 Hwf) false).
  - intros res w' E. case_decide as Hi; [by eapply compress_first; [apply Hwf|..]|].
    eapply settled_heap; [|apply Hst; lia].
    eapply writesOnly_Ok; [|done].
    apply writesOnly_checked, (round_file currentIndex it), Hwf.
  - intros a w' E. rewrite decide_True in * by done. split; [|by eapply Set_noted].
    by rewrite <-(Set_moves _ _ _ _ E).
  - by rewrite decide_False in * by done.
  - intros _. by rewrite decide_False in Hst by lia.
  - intros _. case_decide; [|done]. unfold settled.
    rewrite (proj2 (proj2 Hwf) true) by done. by exists z.
Qed.

Lemma reachable_settledAt w0 c : reachable w0 c -> settledAt (intervalOf w0) c.
Proof.
  apply (reachable_ind (settledAt (intervalOf w0))); [done|].
  intros c1 c2 Hwf Hs Hst. by eapply settledAt_step.
Qed.

(** After the first round the field is settled. *)
Lemma settledAt_late currentIndex c :
  settledAt currentIndex c -> late (pc c) -> final c = false ->
  settled currentIndex (world c).
Proof.
  destruct c as [p st w]. unfold settledAt, late. destruct p; simpl; try done; auto;
    intros Hs Hi _; by rewrite decide_False in Hs by lia.
Qed.

Lemma late_resume {A} (r : result A * World) st (k : A -> point) :
  (forall a, late (k a)) -> late (pc (resume r st k)).
Proof. destruct r as [[a|e|m] w']; simpl; auto. Qed.

Lemma noted_heap w w' : heap w' = heap w -> noted w' = noted w.
Proof. unfold noted. by intros ->. Qed.

Lemma Set_noted_same cid w :
  noted w = Some cid ->
  noted (onHeap (SetMinipoolPerformanceFileCID rewardsFile cid) w).2 = Some cid.
Proof.
  unfold onHeap, zoom, SetMinipoolPerformanceFileCID, noted.
  destruct (rewardsFiles (heap w) !! rewardsFile) as [rf|]; [|done]. simpl.
  by rewrite lookup_insert_eq.
Qed.

(** A step after the first round leaves the field as it is. *)
Lemma late_step currentIndex c c' :
  wf currentIndex c -> settledAt currentIndex c -> late (pc c) -> step c c' ->
  late (pc c') /\ noted (world c') = noted (world c).
Proof.
  intros Hwf Hst Hl Hs. pose proof (settledAt_late _ _ Hst Hl) as Hse. clear Hst.
  destruct Hs as [st w|idx st w|i f files st w|i st w|it st w|it data st w|it z st w
                 |it st w Ht|it st w Ht|it st w|it st w|it path z st w
                 |it z st w Hi|it z st w Hi|it z st w Hi|it z st w Hi|z st w Hp|st w Hp];
    (split; [try apply late_resume|]); unfold wf, late, continue in *;
    cbn [pc vars world resume round trustedAt index file rest snd] in *;
    try done; try lia.
  - rewrite wrap_err_state. apply noted_heap, (round_file currentIndex it), Hwf.
  - specialize (Hse eq_refl). unfold settled in Hse.
    rewrite (proj2 (proj2 Hwf) false) in Hse by done. by rewrite Set_noted_same.
  - rewrite checked_state. apply noted_heap, (round_file currentIndex it), Hwf.
Qed.

Lemma round_late p i : roundIndex p = Some i -> 1 <= i -> late p.
Proof. unfold roundIndex, late. destruct p; simpl; intros ?; simplify_eq; auto. Qed.

Lemma round_not_final c i : roundIndex (pc c) = Some i -> final c = false.
Proof. unfold roundIndex, final. by destruct (pc c). Qed.

(** ** The map holds four keys at most *)

(** The name and the compressed name of the file of a round are keys of
    the interval. *)
Lemma round_names currentIndex it :
  drop (index it) (slice currentIndex) = file it :: rest it ->
  ILocalFile.FileName (file it) ∈ outNames currentIndex /\
  forall prefix w res w',
    checked prefix (ILocalFile.CreateCompressedFileAndCid (file it)) w = (Ok res, w') ->
    filepath.Base res.1 ∈ outNames currentIndex.
Proof.
  unfold slice, outNames.
  destruct it as [[|[|n]] f l]; simpl; rewrite ?drop_nil; intros ?; simplify_eq; simpl;
    (split; [unfold FileName, Path; simpl; set_solver|]);
    intros prefix w res w' (data & _ & -> & _)%checked_Create_inv_Ok;
    unfold compressedPath; simpl; set_solver.
Qed.

Lemma outKnown_resume {A} currentIndex (r : result A * World) st (k : A -> point) :
  dom (out st) ⊆ list_to_set (outNames currentIndex) ->
  (forall a, r.1 = Ok a -> outKnown currentIndex (Config (k a) st r.2)) ->
  outKnown currentIndex (resume r st k).
Proof.
  intros Hdom Hk. unfold resume. destruct r as [[a|e|m] w]; cbn [fst snd]; [by apply Hk|..];
    by split.
Qed.

Lemma outKnown_step currentIndex c c' :
  wf currentIndex c -> step c c' -> outKnown currentIndex c -> outKnown currentIndex c'.
Proof.
  intros Hwf Hs [Hdom Hpc]. unfold wf in Hwf.
  destruct Hs; cbn [pc vars world round] in *;
    try (by apply outKnown_resume; [done|intros a _; split]);
    try (by split).
  - split; [|done]. cbn [vars setOut out]. rewrite dom_insert.
    destruct (round_names currentIndex it (proj1 Hwf)) as [Hn _]. set_solver.
  - apply outKnown_resume; [done|]. intros res Hr. split; [done|]. cbn [pc].
    destruct (checked _ _ w) as [r' w'] eqn:E. cbn [fst] in Hr. subst r'.
    by eapply (round_names currentIndex it (proj1 Hwf)).
  - split; [|done]. cbn [vars setOut out]. rewrite dom_insert. set_solver.
Qed.

Lemma reachable_outKnown w0 c : reachable w0 c -> outKnown (intervalOf w0) c.
Proof.
  apply (reachable_ind (outKnown (intervalOf w0))); [by split|].
  intros c1 c2 Hwf Hs Hk. by eapply outKnown_step.
Qed.

(** In every configuration of a run the keys of [out] are base names of
    the two files and of their compressed copies: the map never holds
    more than the four entries it was made for at line 152. *)
Theorem out_holds_four_names w0 c :
  reachable w0 c ->
  dom (out (vars c)) ⊆ list_to_set (outNames (intervalOf w0)) /\ size (out (vars c)) <= 4.
Proof.
  intros [Hdom _]%reachable_outKnown. split; [done|].
  rewrite <-size_dom. etrans; [by apply subseteq_size|].
  apply (size_list_to_set_le (outNames (intervalOf w0))).
Qed.

(** ** From a configuration of a run to its exit *)

Lemma rtc_moves currentIndex c c' :
  wf currentIndex c -> rtc step c c' -> moves (world c) (world c').
Proof.
  intros Hwf Hs. induction Hs as [c|c1 c2 c3 Hs _ IH]; [done|].
  etrans; [by eapply step_moves|]. apply IH. by eapply wf_step.
Qed.

(** Every configuration of a run goes on to the exit of the function:
    the outcome and the world of the program. *)
Lemma reachable_exit w0 c :
  reachable w0 c ->
  exists st,
    rtc step c (Config (Finished (saveJSONArtifacts smartnode rewardsFile nodeTrusted w0).1)
                  st (saveJSONArtifacts smartnode rewardsFile nodeTrusted w0).2).
Proof.
  intros Hr. destruct (ends_saveJSONArtifacts w0) as [st Hend]. exists st.
  rewrite <-(rtc_final_run maxSteps _ _ Hend) by done.
  rewrite (rtc_final_run maxSteps (start w0) (run (measure (pc c)) c));
    [apply run_rtc|by etrans; [exact Hr|apply run_rtc]|by apply run_final|done].
Qed.

(** A configuration of a run at which the function has returned is that
    exit. *)
Lemma reachable_returned w0 c res :
  reachable w0 c -> returned c = Some res ->
  res = (saveJSONArtifacts smartnode rewardsFile nodeTrusted w0).1 /\
  world c = (saveJSONArtifacts smartnode rewardsFile nodeTrusted w0).2.
Proof.
  intros [st Hs]%reachable_exit Hret.
  assert (final c = true) as Hf by (unfold final, returned in *; by destruct (pc c)).
  apply rtc_nf in Hs; [|by apply final_nf]. subst c.
  unfold returned in Hret. simpl in Hret. by simplify_eq.
Qed.

(** The writes a run made so far are the first writes of the run. *)
Lemma reachable_diskLe w0 c :
  reachable w0 c ->
  diskLe (world c) (saveJSONArtifacts smartnode rewardsFile nodeTrusted w0).2.
Proof.
  intros Hr. destruct (reachable_exit _ _ Hr) as [st Hs].
  by destruct (rtc_moves _ _ _ (reachable_wf _ _ Hr) Hs).
Qed.

(** ** The theorems of the machine *)

(** C11: the machine and the program agree.  The run of at most
    [maxSteps] steps from the entry of [saveJSONArtifacts] has returned,
    and what it returned (a result, an error or a panic) and the world it
    left are those of the program [saveJSONArtifacts] of Artifacts.v. *)
Theorem run_saveJSONArtifacts w :
  returned (run maxSteps (start w)) =
    Some (saveJSONArtifacts smartnode rewardsFile nodeTrusted w).1 /\
  world (run maxSteps (start w)) =
    (saveJSONArtifacts smartnode rewardsFile nodeTrusted w).2.
Proof.
  destruct (ends_saveJSONArtifacts w) as [st Hr].
  by rewrite (rtc_final_run maxSteps _ _ Hr).
Qed.

(** C12: the rewards file is serialized only once its field
    MinipoolPerformanceFileCID has its final value.  In every
    configuration of the second round, the round of the rewards file,
    the field holds the sentinel on a node that is not trusted and the
    identifier of the compressed performance file on a trusted one, and
    no step from there to the end of the run changes it. *)
Theorem rewards_serialized_after_cid w0 c :
  reachable w0 c -> roundIndex (pc c) = Some 1 ->
  settled (intervalOf w0) (world c) /\
  forall c', rtc step c c' -> noted (world c') = noted (world c).
Proof.
  intros Hr Hi. pose proof (round_late _ _ Hi (le_n 1)) as Hl.
  split; [by eapply settledAt_late, round_not_final; [apply reachable_settledAt|..]|].
  intros c' Hs.
  cut (late (pc c') /\ noted (world c') = noted (world c)); [by intros []|].
  apply (rtc_ind_r (R := step) (fun c' => late (pc c') /\ noted (world c') = noted (world c)) c);
    [done| |done].
  intros c1 c2 Hs1 Hs2 [Hl1 Hn1]. rewrite <-Hn1.
  assert (reachable w0 c1) as Hr1 by (unfold reachable; by etrans).
  eapply late_step; eauto using reachable_wf, reachable_settledAt.
Qed.

(** C13: every configuration a run goes through is well formed: the
    round in progress is a round of the slice of the two files, at its
    index; the outcome of the test of [nodeTrusted] is the flag;
    [primaryCid] is nil until the second round of a trusted node is over;
    a returned result is made of [primaryCid] and [out], and only a
    trusted node returns one. *)
Theorem reachable_well_formed w0 c : reachable w0 c -> wf (intervalOf w0) c.
Proof. apply reachable_wf. Qed.

(** C16: a run writes files and sets one field, and does nothing else
    to the world.  In every configuration of a run the disk is the disk
    of the entry after more writes, and the heap is the heap of the entry
    but for the field MinipoolPerformanceFileCID of the rewards file. *)
Theorem run_changes_files_and_cid_only w0 c :
  reachable w0 c -> diskLe w0 (world c) /\ sameButCid w0 (world c).
Proof. apply reachable_moves. Qed.

End Machine.

Arguments point {_}.
Arguments config {_}.
Arguments iteration {_}.

(** ** The machine on the files of Concrete.v *)

Module MachineDemo.

#[local] Existing Instance Demo.env.

(** The run of Artifacts.v on a trusted node, and the same on a node
    that is not trusted. *)
Definition entry : config := start ArtifactsDemo.start.
Definition stepDemo : relation config := step Demo.config 1%positive true.
Definition runDemo (n : nat) : config := run Demo.config 1%positive true n entry.

(** Twelve steps in, the rewards file is about to be written. *)
Definition secondRound : config := runDemo 12.

Lemma secondRound_reachable :
  reachable Demo.config 1%positive true ArtifactsDemo.start secondRound.
Proof. apply run_rtc. Qed.

Lemma secondRound_index : roundIndex (pc secondRound) = Some 1.
Proof. vm_compute. reflexivity. Qed.

Lemma rewards_serialized_after_cid_witness :
  settled Demo.config 1%positive true (intervalOf 1%positive ArtifactsDemo.start)
    (world secondRound) /\
  forall c', rtc stepDemo secondRound c' ->
             noted 1%positive (world c') = noted 1%positive (world secondRound).
Proof.
  exact (rewards_serialized_after_cid Demo.config 1%positive true ArtifactsDemo.start
           secondRound secondRound_reachable secondRound_index).
Defined.

Lemma reachable_well_formed_witness :
  wf Demo.config 1%positive true (intervalOf 1%positive ArtifactsDemo.start) secondRound.
Proof.
  exact (reachable_well_formed Demo.config 1%positive true ArtifactsDemo.start
           secondRound secondRound_reachable).
Defined.

Lemma run_changes_files_and_cid_only_witness :
  diskLe ArtifactsDemo.start (world secondRound) /\
  sameButCid 1%positive ArtifactsDemo.start (world secondRound).
Proof.
  exact (run_changes_files_and_cid_only Demo.config 1%positive true ArtifactsDemo.start
           secondRound secondRound_reachable).
Defined.

(** The machine returns what the program of Artifacts.v returns on the
    trusted node, and panics on the other. *)
Example machine_returns :
  returned (runDemo 22) = Some (Ok (ArtifactsDemo.primaryDemo, ArtifactsDemo.outDemo)) /\
  returned (run Demo.config 1%positive false 22 entry) = Some (Panic nilDereference) /\
  final (run Demo.config 1%positive false 14 entry) = false.
Proof.
  split_and!;
    [vm_cast_no_check (eq_refl (returned (runDemo 22)))
    |vm_cast_no_check (eq_refl (returned (run Demo.config 1%positive false 22 entry)))
    |vm_cast_no_check (eq_refl false)].
Qed.

End MachineDemo.
