(* ===== verification/TwoRuns.v ===== *)
(** * TwoRuns: what a run of [saveJSONArtifacts] depends on

    [saveJSONArtifacts] (src/shared/services/rewards/files.go, lines 148
    to 205) reads the rewards file behind its pointer and writes four
    files; it never reads the disk.  This file proves it of the whole
    function and of every outcome: two runs on worlds that hold the same
    rewards file behind the pointer, and whose disks refuse the same
    paths, return the same result, the same error or the same panic,
    leave the same rewards file, and make the same writes in the same
    order, whatever the files the two disks hold.

    The proof is relational.  [twin] relates the worlds of two runs that
    started on the disks [d1] and [d2]; every call of the function agrees
    on twins ([agree], Prelude.v), and agreement composes along the
    monad, so the function does.  Crash.v uses it for the run that
    follows a crash. *)

From stdpp Require Import gmap strings list.
From S2P Require Import Prelude Filepath FileSystem Env Concrete LocalFile Artifacts.

(** ** Definitions *)

Section Twin.
Context `{Env}.
Context (r : IRewardsFile) (d1 d2 : FS.t).

(** The worlds of two runs in step, one started on the disk [d1] and the
    other on [d2]: the pointer [r] leads to the same rewards file in both,
    and the two disks gained the same writes. *)
Definition twin (w1 w2 : World) : Prop :=
  rewardsFiles (heap w1) !! r = rewardsFiles (heap w2) !! r /\
  exists ws, FS.after ws d1 (fs w1) /\ FS.after ws d2 (fs w2).

(** A value that is serialized from the rewards file behind [r] and from
    nothing else of the heap. *)
Definition through {T} `{!ISerializable T} (x : T) : Prop :=
  forall w1 w2, twin w1 w2 -> Serialize x (heap w1) = Serialize x (heap w2).

(** A wrapper whose two writing methods agree on twins. *)
Definition twinFile (x : ILocalFile.t) : Prop :=
  agree twin (ILocalFile.Write x) /\
  agree twin (ILocalFile.CreateCompressedFileAndCid x).

(** ** Every call agrees on twins *)

Hypothesis denied_eq : FS.denied d1 = FS.denied d2.

Lemma twin_denied w1 w2 : twin w1 w2 -> FS.denied (fs w1) = FS.denied (fs w2).
Proof. intros (_ & ws & [-> _] & [-> _]). exact denied_eq. Qed.

Lemma twin_WriteFile name data : agree twin (onDisk (FS.WriteFile name data)).
Proof.
  intros w1 w2 Ht. pose proof (twin_denied _ _ Ht) as Hd.
  destruct Ht as (Hh & ws & H1 & H2). unfold onDisk, zoom, FS.WriteFile.
  rewrite Hd. case_decide; simpl; [by split; [|split; [|exists ws]]|].
  split; [done|]. split; [done|]. exists (ws ++ [FS.Write_ name data]).
  split; (eapply FS.after_app; [done|]); split_and!; done.
Qed.

Lemma twin_derefRewards w1 w2 :
  twin w1 w2 -> derefRewards r (heap w1) = derefRewards r (heap w2).
Proof. intros [Hh _]. unfold derefRewards. by rewrite Hh. Qed.

Lemma twin_GetHeader : agree twin (onHeap (GetHeader r)).
Proof.
  intros w1 w2 Ht. unfold onHeap, zoom, GetHeader, reads. simpl.
  by rewrite (twin_derefRewards _ _ Ht), !World_eta.
Qed.

Lemma twin_GetMinipoolPerformanceFile :
  agree twin (onHeap (GetMinipoolPerformanceFile r)).
Proof.
  intros w1 w2 Ht. unfold onHeap, zoom, GetMinipoolPerformanceFile, reads. simpl.
  by rewrite (twin_derefRewards _ _ Ht), !World_eta.
Qed.

Lemma twin_Set cid : agree twin (onHeap (SetMinipoolPerformanceFileCID r cid)).
Proof.
  intros w1 w2 (Hh & Hws). unfold onHeap, zoom, SetMinipoolPerformanceFileCID.
  rewrite <-Hh. destruct (rewardsFiles (heap w1) !! r) as [rf|] eqn:E; simpl.
  - split; [done|]. split; [by simpl; rewrite !lookup_insert_eq|done].
  - split; [done|]. split; [by simpl; rewrite E|done].
Qed.

Lemma through_rewards : through r.
Proof. intros w1 w2 Ht. simpl. by rewrite (twin_derefRewards _ _ Ht). Qed.

Lemma through_performance : through (PerformanceField r).
Proof. intros w1 w2 Ht. simpl. by rewrite (twin_derefRewards _ _ Ht). Qed.

(** The methods of a wrapper around such a value. *)
Section Methods.
Context {T : Type} `{!ISerializable T} (lf : LocalFile T).
Hypothesis through_lf : through (f lf).

Lemma twin_Serialize : agree twin (reads (fun w => Serialize lf (heap w))).
Proof. apply agree_reads. intros w1 w2 Ht. by apply through_lf. Qed.

Lemma twin_Write : agree twin (Write lf).
Proof. unfold Write. auto 10 using twin_Serialize, twin_WriteFile with go. Qed.

Lemma twin_Create : agree twin (CreateCompressedFileAndCid lf).
Proof.
  unfold CreateCompressedFileAndCid.
  auto 10 using twin_Serialize, twin_WriteFile with go.
Qed.

End Methods.

(** ** The loop and the function *)

Lemma twin_saveOne trusted i x st : twinFile x -> agree twin (saveOne r trusted i x st).
Proof.
  intros [Hw Hc]. unfold saveOne.
  destruct trusted; simpl; repeat case_decide; auto 10 using twin_Set with go.
Qed.

Lemma twin_artifactFiles smartnode i : agree twin (artifactFiles smartnode r i).
Proof. unfold artifactFiles. auto using twin_GetMinipoolPerformanceFile with go. Qed.

(** The two wrappers of the slice are such wrappers. *)
Lemma artifactFiles_twinFile smartnode i w files :
  (artifactFiles smartnode r i w).1 = Ok files -> Forall twinFile files.
Proof.
  unfold artifactFiles, bind, onHeap, zoom, GetMinipoolPerformanceFile, reads, ret.
  destruct (derefRewards r (heap w)); simpl; intros ?; simplify_eq.
  apply Forall_cons_2; [split|apply Forall_singleton; split]; simpl;
    first [apply twin_Write | apply twin_Create];
    first [apply through_rewards | apply through_performance].
Qed.

Lemma twin_saveJSONArtifacts smartnode trusted :
  agree twin (saveJSONArtifacts smartnode r trusted).
Proof.
  unfold saveJSONArtifacts, range.
  apply agree_bind; [apply twin_GetHeader|]. intros header.
  apply (agree_bind_post _ (Forall twinFile));
    [apply twin_artifactFiles|intros w files; apply artifactFiles_twinFile|].
  intros files Hf. rewrite Forall_forall in Hf. apply agree_bind.
  - apply agree_range_from. auto using twin_saveOne.
  - intros st. destruct (primaryCid st); auto with go.
Qed.

End Twin.

(** ** Two runs *)

Section Runs.
Context `{Env}.
Implicit Types (smartnode : SmartnodeConfig) (r : IRewardsFile) (w : World).

(** Two worlds at the entry of the function are twins when they hold the
    same rewards file and their disks refuse the same paths. *)
Lemma twin_entry r w1 w2 :
  rewardsFiles (heap w1) !! r = rewardsFiles (heap w2) !! r ->
  twin r (fs w1) (fs w2) w1 w2.
Proof. intros Hh. split; [done|]. exists []. split; apply FS.after_nil. Qed.

(** C26: a run does not depend on the files of the disk.  Two runs of
    [saveJSONArtifacts] on the same rewards file, from two disks that
    refuse the same paths and hold any files, have the same outcome (the
    same identifier and map, the same error or the same panic), leave the
    same rewards file behind the pointer, and write the same bytes to the
    same paths in the same order: the worlds they end in are twins
    ([twin]) from the two disks. *)
Theorem disk_content_is_irrelevant smartnode r trusted w1 w2 :
  rewardsFiles (heap w1) !! r = rewardsFiles (heap w2) !! r ->
  FS.denied (fs w1) = FS.denied (fs w2) ->
  let run1 := saveJSONArtifacts smartnode r trusted w1 in
  let run2 := saveJSONArtifacts smartnode r trusted w2 in
  run1.1 = run2.1 /\ twin r (fs w1) (fs w2) run1.2 run2.2.
Proof.
  intros Hh Hd.
  by apply (twin_saveJSONArtifacts r (fs w1) (fs w2) Hd smartnode trusted w1 w2), twin_entry.
Qed.

End Runs.

(** ** On the files of Concrete.v *)

Module TwoRunsDemo.

#[local] Existing Instance Demo.env.

(** The run of Artifacts.v and the run on a disk that holds another
    file. *)
Lemma disk_content_is_irrelevant_witness :
  let run1 := saveJSONArtifacts Demo.config 1%positive true ArtifactsDemo.start in
  let run2 := saveJSONArtifacts Demo.config 1%positive true ArtifactsDemo.startOther in
  run1.1 = run2.1 /\
  rewardsFiles (heap run1.2) !! 1%positive = rewardsFiles (heap run2.2) !! 1%positive /\
  exists ws,
    FS.after ws (fs ArtifactsDemo.start) (fs run1.2) /\
    FS.after ws (fs ArtifactsDemo.startOther) (fs run2.2).
Proof.
  exact (disk_content_is_irrelevant Demo.config 1%positive true
           ArtifactsDemo.start ArtifactsDemo.startOther eq_refl eq_refl).
Defined.

End TwoRunsDemo.
