(* ===== verification/Crash.v ===== *)
(** * Crash: a run of [saveJSONArtifacts] that dies, and the run after it

    The specification does not ask for atomic writes: "a crash mid-write
    may leave a truncated file", and a computation that failed "must be
    recomputed from scratch" (sections 5 and 7).  The code
    (src/shared/services/rewards/files.go) writes each of its files with
    one [os.WriteFile], at lines 96 and 136, which truncates the file and
    then writes the bytes.

    This file says what a crash leaves and what the next run makes of it.
    The process may die at any statement of the machine of Machine.v:
    between two statements the disk holds the files written so far; inside
    a statement that writes, the file being written may be torn, cut after
    any number of its bytes ([crashDisk], and [crashDisks] that lists the
    disks).  The memory is lost, the disk stays: [restart] is the world in
    which the function is called again, on the rewards file computed
    anew.

    The theorems: the disk a crash leaves is the disk of the entry after
    a prefix of the writes of the run, with at most one more file, the
    next one in the order of the writes, torn ([crashDisk_shape]); the run
    after the crash has the outcome of the run that did not crash and
    leaves the files that run leaves ([recompute_after_crash]): no
    cleaning of the directory is needed before the function is called
    again.  The files are whole only after that second run: the readers
    of LocalFile.v may fail on a torn file or read another file from
    it. *)

From stdpp Require Import gmap strings list relations.
From S2P Require Import Prelude Filepath FileSystem Env Concrete LocalFile Artifacts.
From S2P Require Import Machine TwoRuns.

(** ** Definitions *)

Section Crash.
Context `{Env}.
Context (smartnode : SmartnodeConfig) (rewardsFile : IRewardsFile) (nodeTrusted : bool).

(** The writes of a step from [c] to [c']: what the log of the disk
    gained. *)
Definition stepWrites (c c' : config) : list FS.write :=
  FS.since (FS.log (fs (world c))) (fs (world c')).

(** The files on the disk after the process died at the statement of
    [c]: before the statement or in a part of it that writes nothing, the
    files of [c]; inside the [os.WriteFile] of the statement, those files
    with the file being written cut after [k] bytes. *)
Inductive crashDisk : config -> gmap string bytes -> Prop :=
  | crash_between c : crashDisk c (FS.files (fs (world c)))
  | crash_in_write c c' name data k :
      step smartnode rewardsFile nodeTrusted c c' ->
      stepWrites c c' = [FS.Write_ name data] ->
      k <= length data ->
      crashDisk c (FS.torn name data k (FS.files (fs (world c)))).

(** The write the statement of [c] makes, when it makes one. *)
Definition pending (c : config) : option FS.write :=
  match next smartnode rewardsFile nodeTrusted c with
  | Some c' => match stepWrites c c' with [w] => Some w | _ => None end
  | None => None
  end.

(** The disks of [crashDisk], listed. *)
Definition crashDisks (c : config) : list (gmap string bytes) :=
  let m := FS.files (fs (world c)) in
  m :: match pending c with
       | Some w => (fun k => FS.torn (FS.w_name w) (FS.w_data w) k m)
                     <$> seq 0 (S (length (FS.w_data w)))
       | None => []
       end.

(** The world in which the function is called again after a crash: the
    rewards file is computed anew, as it was in the world [w0] of the
    first call; the disk holds the files [m] the crash left and refuses
    the paths it refused. *)
Definition restart (w0 : World) (m : gmap string bytes) : World :=
  {| heap := heap w0;
     fs := {| FS.files := m; FS.denied := FS.denied (fs w0); FS.log := [] |} |}.

(** The run that does not crash, from the world [w]. *)
Definition whole (w : World) : result (Cid * gmap string Cid) * World :=
  saveJSONArtifacts smartnode rewardsFile nodeTrusted w.

(** ** The disks of a crash, listed *)

Implicit Types (c : config) (w : World) (m : gmap string bytes).

Lemma pending_step c (x : FS.write) :
  pending c = Some x <->
  exists c', step smartnode rewardsFile nodeTrusted c c' /\ stepWrites c c' = [x].
Proof.
  unfold pending. split.
  - destruct (next _ _ _ c) as [c'|] eqn:E; [|done]. apply next_step in E.
    destruct (stepWrites c c') as [|w' [|]] eqn:Ew; [done| |done].
    intros [= <-]. eauto.
  - intros (c' & Hs%step_next & Hw). by rewrite Hs, Hw.
Qed.

Lemma crashDisk_crashDisks c m : crashDisk c m <-> m ∈ crashDisks c.
Proof.
  unfold crashDisks. rewrite elem_of_cons. split.
  - destruct 1 as [c|c c' name data k Hs Hw Hk]; [by left|right].
    rewrite (proj2 (pending_step c (FS.Write_ name data))) by eauto.
    apply list_elem_of_fmap. exists k. split; [done|]. apply elem_of_seq. simpl. lia.
  - intros [->|Hm]; [constructor|].
    destruct (pending c) as [[name data]|] eqn:E; [|by apply elem_of_nil in Hm].
    apply pending_step in E as (c' & Hs & Hw).
    apply list_elem_of_fmap in Hm as (k & -> & Hk%elem_of_seq). simpl in *.
    eapply crash_in_write; [done..|lia].
Qed.

(** ** The shape of the disk a crash leaves *)

(** The writes of a step that writes are the writes between its two
    worlds. *)
Lemma stepWrites_after c c' ws :
  FS.after ws (fs (world c)) (fs (world c')) -> stepWrites c c' = ws.
Proof. apply FS.after_since. Qed.

(** The writes up to a configuration of the run are the first writes of
    the run. *)
Lemma reachable_writes w0 c ws :
  reachable smartnode rewardsFile nodeTrusted w0 c ->
  FS.after ws (fs w0) (fs (whole w0).2) ->
  exists ws1 ws2, ws = ws1 ++ ws2 /\ FS.after ws1 (fs w0) (fs (world c)).
Proof.
  intros Hr Hws. destruct (reachable_moves _ _ _ _ _ Hr) as [[ws1 H1] _].
  destruct (FS.after_split _ _ _ _ _ Hws H1 (reachable_diskLe _ _ _ _ _ Hr))
    as (ws2 & -> & _).
  by exists ws1, ws2.
Qed.

Lemma crashDisk_shape w0 c m ws :
  reachable smartnode rewardsFile nodeTrusted w0 c -> crashDisk c m ->
  FS.after ws (fs w0) (fs (whole w0).2) ->
  FS.interrupted (FS.files (fs w0)) ws m.
Proof.
  intros Hr Hc Hws. destruct (reachable_writes _ _ _ Hr Hws) as (ws1 & ws2 & -> & H1).
  destruct Hc as [c|c c' name data k Hs Hw Hk].
  - destruct H1 as (_ & _ & ->). constructor.
  - assert (reachable smartnode rewardsFile nodeTrusted w0 c') as Hr'
      by (eapply rtc_r; [exact Hr|done]).
    destruct (reachable_writes _ _ _ Hr' Hws) as (ws1' & ws2' & Heq & H1').
    destruct (step_moves _ _ _ _ _ _ (reachable_wf _ _ _ _ _ Hr) Hs) as [[wsx Hx] _].
    rewrite (stepWrites_after _ _ _ Hx) in Hw. subst wsx.
    rewrite (FS.after_inj _ _ _ _ H1' (FS.after_app _ _ _ _ _ H1 Hx)) in Heq.
    rewrite <-(assoc_L (++)) in Heq. simpl in Heq. rewrite Heq.
    destruct H1 as (_ & _ & ->). by apply (FS.interrupted_within _ _ (FS.Write_ name data)).
Qed.

(** The run from the disk of a crash and the run from the disk of the
    entry are twins: same outcome, same rewards file, and the writes of
    the second run put on the crashed disk the files the run that did
    not crash leaves. *)
Lemma restart_whole w0 c m :
  reachable smartnode rewardsFile nodeTrusted w0 c -> crashDisk c m ->
  let again := saveJSONArtifacts smartnode rewardsFile nodeTrusted (restart w0 m) in
  again.1 = (whole w0).1 /\
  FS.files (fs again.2) = FS.files (fs (whole w0).2) /\
  rewardsFiles (heap again.2) !! rewardsFile
    = rewardsFiles (heap (whole w0).2) !! rewardsFile.
Proof.
  intros Hr Hc.
  destruct (twin_saveJSONArtifacts rewardsFile (fs (restart w0 m)) (fs w0) eq_refl
              smartnode nodeTrusted (restart w0 m) w0
              (twin_entry rewardsFile (restart w0 m) w0 eq_refl))
    as (Hres & Hh & ws & (_ & _ & Hf1) & Hws).
  unfold whole. split_and!; [done| |done].
  rewrite Hf1. pose proof Hws as (_ & _ & ->).
  exact (FS.replay_interrupted _ _ _ (crashDisk_shape _ _ _ _ Hr Hc Hws)).
Qed.

(** ** The theorems of the crash *)

(** C30: what a crash leaves.  Wherever the process dies in a run of
    [saveJSONArtifacts], the files on the disk are those of the entry
    after the first writes of the run, whole, in the order of the run;
    the file that comes next in that order, and no other, may be torn:
    cut after any number of its bytes. *)
Theorem crash_leaves_a_prefix w0 c m ws :
  reachable smartnode rewardsFile nodeTrusted w0 c -> crashDisk c m ->
  FS.after ws (fs w0) (fs (saveJSONArtifacts smartnode rewardsFile nodeTrusted w0).2) ->
  FS.interrupted (FS.files (fs w0)) ws m.
Proof. apply crashDisk_shape. Qed.

(** C22: the run after a crash.  Wherever the process died, the
    function called again on the rewards file computed anew, on the disk
    the crash left, has the outcome of the run that did not crash (its
    result, its error or its panic), leaves the files that run leaves,
    the torn one repaired, and the same rewards file in memory. *)
Theorem recompute_after_crash w0 c m :
  reachable smartnode rewardsFile nodeTrusted w0 c -> crashDisk c m ->
  let again := saveJSONArtifacts smartnode rewardsFile nodeTrusted (restart w0 m) in
  again.1 = (whole w0).1 /\
  FS.files (fs again.2) = FS.files (fs (whole w0).2) /\
  rewardsFiles (heap again.2) !! rewardsFile
    = rewardsFiles (heap (whole w0).2) !! rewardsFile.
Proof. apply restart_whole. Qed.

End Crash.

(** ** A crash on the files of Concrete.v *)

Module CrashDemo.

#[local] Existing Instance Demo.env.

(** The run of the trusted node dies while it writes the rewards file,
    twelve steps in, after three bytes. *)
Definition atWrite : config := MachineDemo.secondRound.

Definition pendingDemo : FS.write :=
  default (FS.Write_ "" []) (pending Demo.config 1%positive true atWrite).

Definition tornDemo : gmap string bytes :=
  FS.torn (FS.w_name pendingDemo) (FS.w_data pendingDemo) 3 (FS.files (fs (world atWrite))).

(** The writes of the run that does not crash. *)
Definition writesDemo : list FS.write := FS.log (fs ArtifactsDemo.trustedDemo.2).

Definition againDemo :=
  saveJSONArtifacts Demo.config 1%positive true (restart ArtifactsDemo.start tornDemo).

Lemma atWrite_step : step Demo.config 1%positive true atWrite (MachineDemo.runDemo 13).
Proof. apply next_step. vm_cast_no_check (eq_refl (Some (MachineDemo.runDemo 13))). Qed.

Lemma atWrite_writes :
  stepWrites atWrite (MachineDemo.runDemo 13)
  = [FS.Write_ (FS.w_name pendingDemo) (FS.w_data pendingDemo)].
Proof.
  vm_cast_no_check (eq_refl [FS.Write_ (FS.w_name pendingDemo) (FS.w_data pendingDemo)]).
Qed.

Lemma tornDemo_crash : crashDisk Demo.config 1%positive true atWrite tornDemo.
Proof.
  apply (crash_in_write _ _ _ atWrite (MachineDemo.runDemo 13));
    [exact atWrite_step|exact atWrite_writes|].
  apply Nat.leb_le. vm_cast_no_check (eq_refl true).
Qed.

Lemma writesDemo_after :
  FS.after writesDemo (fs ArtifactsDemo.start)
    (fs (saveJSONArtifacts Demo.config 1%positive true ArtifactsDemo.start).2).
Proof.
  split_and!;
    [vm_cast_no_check (eq_refl (FS.denied (fs ArtifactsDemo.start)))
    |vm_cast_no_check (eq_refl writesDemo)
    |vm_cast_no_check (eq_refl (FS.files (fs ArtifactsDemo.trustedDemo.2)))].
Qed.

Lemma crash_leaves_a_prefix_witness :
  FS.interrupted (FS.files (fs ArtifactsDemo.start)) writesDemo tornDemo.
Proof.
  exact (crash_leaves_a_prefix Demo.config 1%positive true ArtifactsDemo.start atWrite
           tornDemo writesDemo MachineDemo.secondRound_reachable tornDemo_crash
           writesDemo_after).
Defined.

Lemma recompute_after_crash_witness :
  againDemo.1 = (whole Demo.config 1%positive true ArtifactsDemo.start).1 /\
  FS.files (fs againDemo.2)
    = FS.files (fs (whole Demo.config 1%positive true ArtifactsDemo.start).2) /\
  rewardsFiles (heap againDemo.2) !! 1%positive
    = rewardsFiles (heap (whole Demo.config 1%positive true ArtifactsDemo.start).2)
        !! 1%positive.
Proof.
  exact (recompute_after_crash Demo.config 1%positive true ArtifactsDemo.start atWrite
           tornDemo MachineDemo.secondRound_reachable tornDemo_crash).
Defined.

(** What the crash left: the two files of the performance file, whole,
    three bytes of the rewards file, which [ReadLocalRewardsFile] does
    not read, and no compressed rewards file.  The statement can die in
    as many ways as the file has bytes, and one more. *)
Example torn_rewards_file :
  tornDemo !! Demo.perfPath = Some ArtifactsDemo.perfDemo /\
  tornDemo !! Demo.rewardsPath = Some (take 3 (FS.w_data pendingDemo)) /\
  tornDemo !! (Demo.rewardsPath +:+ ".zst") = None /\
  is_Err (ReadLocalRewardsFile Demo.rewardsPath
            (restart ArtifactsDemo.start tornDemo)).1 = true /\
  length (crashDisks Demo.config 1%positive true atWrite)
    = 2 + length (FS.w_data pendingDemo).
Proof.
  split_and!;
    [vm_cast_no_check (eq_refl (Some ArtifactsDemo.perfDemo))
    |vm_cast_no_check (eq_refl (Some (take 3 (FS.w_data pendingDemo))))
    |vm_cast_no_check (eq_refl (@None bytes))
    |vm_cast_no_check (eq_refl true)
    |vm_cast_no_check (eq_refl (2 + length (FS.w_data pendingDemo)))].
Qed.

End CrashDemo.
