(* ===== verification/Interleave.v ===== *)
(** * Interleave: two runs of [saveJSONArtifacts] in one process

    The specification forbids two computations that touch the same
    payloads or the same paths at a time, and leaves it to the callers to
    keep them apart (section 5).  This file says what the code
    (src/shared/services/rewards/files.go, lines 148 to 205) does when
    two runs share a process: each run has its own statement and its own
    variables [primaryCid] and [out], the heap and the disk are shared,
    and the statements of the two runs are interleaved in any order
    ([istep], over the machine of Machine.v; [schedule] runs a given
    order).

    The theorem: when the two runs have two rewards files, whatever the
    order of the statements each run returns what it returns alone and
    leaves its rewards file as it leaves it alone, and every file the
    other run does not write is as the run alone leaves it
    ([interleaved_runs_return_alone]).  The proof keeps, beside each run
    of the pair, the run alone it is in step with ([alone]): a statement
    of the run moves both ([alone_own], from the relational lemmas of
    TwoRuns.v), a statement of the other run moves neither the rewards
    file nor a file of the run ([step_effect]).  Every interleaving ends
    ([istep_sn]).

    When the two runs write the same paths the theorem says nothing of
    those files, and module [InterleaveDemo] shows why the specification
    forbids it: both runs return a result and the disk holds the
    performance file of one with the rewards file of the other. *)

From stdpp Require Import gmap strings list relations.
From S2P Require Import Prelude Filepath FileSystem Env Concrete LocalFile Artifacts.
From S2P Require Import Machine TwoRuns.

(** ** Definitions *)

Section Views.
Context `{Env}.

(** What a run on the rewards file [r] reads of the world: the file
    behind the pointer, and the paths the disk refuses. *)
Definition sameFor (r : IRewardsFile) (w1 w2 : World) : Prop :=
  rewardsFiles (heap w1) !! r = rewardsFiles (heap w2) !! r /\
  FS.denied (fs w1) = FS.denied (fs w2).

(** The files that are not in [S] are in [w'] as they are in [w]. *)
Definition outside (S : gset string) (w w' : World) : Prop :=
  forall name, name ∉ S -> FS.files (fs w') !! name = FS.files (fs w) !! name.

(** The four paths a run writes for the interval [currentIndex]. *)
Definition paths (smartnode : SmartnodeConfig) (currentIndex : N) : gset string :=
  let performance := GetMinipoolPerformancePath smartnode currentIndex true in
  let rewards := GetRewardsTreePath smartnode currentIndex true RewardsExtensionJSON in
  {[ performance; performance +:+ RewardsTreeIpfsExtension;
     rewards; rewards +:+ RewardsTreeIpfsExtension ]}.

(** Two configurations of one run at the same statement, with the same
    variables, in the worlds of two runs in step. *)
Definition inStep (r : IRewardsFile) (d1 d2 : FS.t) (c1 c2 : config) : Prop :=
  pc c1 = pc c2 /\ vars c1 = vars c2 /\ twin r d1 d2 (world c1) (world c2).

End Views.

Section Alone.
Context `{Env}.
Context (smartnode : SmartnodeConfig) (r : IRewardsFile) (trusted : bool).

(** A run of a pair is at the statement [p] with the variables [st] in
    the shared world [w], and the run alone from [w0] is there too: in a
    world that holds the same rewards file, and the same files but for
    those of [S], which the other run writes. *)
Definition alone (w0 : World) (S : gset string) (p : point) (st : loopState)
    (w : World) : Prop :=
  exists c0, reachable smartnode r trusted w0 c0 /\
    pc c0 = p /\ vars c0 = st /\ sameFor r (world c0) w /\ outside S (world c0) w.

End Alone.

Section Pair.
Context `{Env}.
Context (smartnodeA smartnodeB : SmartnodeConfig) (rA rB : IRewardsFile)
  (trustedA trustedB : bool).

(** Two runs in one process: the statement and the variables of each,
    and the world they share. *)
Record threads := Threads {
  atA : point * loopState;
  atB : point * loopState;
  shared : World;
}.

Definition configA (c : threads) : config := Config (atA c).1 (atA c).2 (shared c).
Definition configB (c : threads) : config := Config (atB c).1 (atB c).2 (shared c).

Definition afterA (c : threads) (c' : config) : threads :=
  Threads (pc c', vars c') (atB c) (world c').
Definition afterB (c : threads) (c' : config) : threads :=
  Threads (atA c) (pc c', vars c') (world c').

(** One statement of one of the two runs. *)
Inductive istep : threads -> threads -> Prop :=
  | istep_A c c' : step smartnodeA rA trustedA (configA c) c' -> istep c (afterA c c')
  | istep_B c c' : step smartnodeB rB trustedB (configB c) c' -> istep c (afterB c c').

(** The statements in a given order: [true] for a statement of the first
    run, [false] for one of the second; a run that has returned stays
    where it is. *)
Fixpoint schedule (order : list bool) (c : threads) : threads :=
  match order with
  | [] => c
  | true :: order' =>
      schedule order' (from_option (afterA c) c (next smartnodeA rA trustedA (configA c)))
  | false :: order' =>
      schedule order' (from_option (afterB c) c (next smartnodeB rB trustedB (configB c)))
  end.

(** The two runs at their entry. *)
Definition both (w : World) : threads :=
  Threads (AtHeader, {| primaryCid := None; out := ∅ |})
          (AtHeader, {| primaryCid := None; out := ∅ |}) w.

(** The statements the two runs have left. *)
Definition measure2 (c : threads) : nat := measure (atA c).1 + measure (atB c).1.

(** Each run of the pair is beside the run alone from [w0]; the files
    that may differ are those the other run writes. *)
Definition together (w0 : World) (c : threads) : Prop :=
  alone smartnodeA rA trustedA w0 (paths smartnodeB (intervalOf rB w0))
    (atA c).1 (atA c).2 (shared c) /\
  alone smartnodeB rB trustedB w0 (paths smartnodeA (intervalOf rA w0))
    (atB c).1 (atB c).2 (shared c).

End Pair.

Arguments threads {_}.

(** ** One run, seen beside another *)

Section Steps.
Context `{Env}.
Context (smartnode : SmartnodeConfig) (r : IRewardsFile) (trusted : bool).
Implicit Types (c : config) (w : World) (S : gset string) (p : point) (st : loopState).

#[global] Instance sameFor_equivalence r' : Equivalence (sameFor r').
Proof.
  unfold sameFor. split; [by intros w|by intros w1 w2 []|].
  intros w1 w2 w3 [] []. split; congruence.
Qed.

#[global] Instance outside_preorder S : PreOrder (outside S).
Proof.
  split; [by intros w name|]. intros w1 w2 w3 H12 H23 name Hn.
  by rewrite (H23 name Hn), (H12 name Hn).
Qed.

Lemma outside_fs S w w' : fs w' = fs w -> outside S w w'.
Proof. intros Hfs name _. by rewrite Hfs. Qed.

(** *** The statements of a run in two worlds in step *)

Lemma twin_sameFor d1 d2 w1 w2 :
  FS.denied d1 = FS.denied d2 -> twin r d1 d2 w1 w2 -> sameFor r w1 w2.
Proof. intros Hd Ht. split; [apply Ht|by eapply twin_denied]. Qed.

Lemma twin_outside S w1 w2 w1' w2' :
  twin r (fs w1) (fs w2) w1' w2' -> outside S w1 w2 -> outside S w1' w2'.
Proof.
  intros (_ & ws & (_ & _ & Hf1) & (_ & _ & Hf2)) Ho name Hn.
  by rewrite Hf1, Hf2, !FS.replay_lookup, (Ho name Hn).
Qed.

Lemma slice_twinFile d1 d2 currentIndex :
  FS.denied d1 = FS.denied d2 ->
  Forall (twinFile r d1 d2) (slice smartnode r currentIndex).
Proof.
  intros Hd. unfold slice.
  apply Forall_cons_2; [split|apply Forall_singleton; split]; simpl;
    first [apply twin_Write | apply twin_Create]; try done;
    first [apply through_rewards | apply through_performance].
Qed.

Lemma round_twinFile d1 d2 currentIndex (it : iteration) :
  FS.denied d1 = FS.denied d2 ->
  drop (index it) (slice smartnode r currentIndex) = file it :: rest it ->
  twinFile r d1 d2 (file it).
Proof.
  intros Hd Hdrop. pose proof (slice_twinFile d1 d2 currentIndex Hd) as Hs.
  apply (Forall_drop _ (index it)) in Hs. rewrite Hdrop in Hs. by inversion Hs.
Qed.

Lemma resume_inStep {A} d1 d2 (q : prog World A) st (k : A -> point) w1 w2 :
  agree (twin r d1 d2) q -> twin r d1 d2 w1 w2 ->
  inStep r d1 d2 (resume (q w1) st k) (resume (q w2) st k).
Proof.
  intros Hq Ht. destruct (Hq _ _ Ht) as [Hr Hw]. unfold inStep, resume. simpl.
  by rewrite Hr.
Qed.

(** The statement moves the two configurations in step. *)
Lemma next_inStep currentIndex d1 d2 c1 c2 :
  FS.denied d1 = FS.denied d2 ->
  wf smartnode r trusted currentIndex c1 -> inStep r d1 d2 c1 c2 ->
  option_Forall2 (inStep r d1 d2)
    (next smartnode r trusted c1) (next smartnode r trusted c2).
Proof.
  intros Hd Hwf (Hp & Hv & Ht).
  destruct c1 as [p st w1], c2 as [p2 st2 w2]; simpl in *; subst p2 st2.
  destruct p as [| |i [|f files]|it|it data|it c|it|it|it|it path c|it c|it c| |res];
    unfold next; simpl; try case_decide; constructor; try (by split_and!);
    (apply resume_inStep; [|done]);
    try (destruct (round_twinFile d1 d2 currentIndex it Hd (proj1 Hwf)) as [Hw Hc]);
    auto using twin_GetHeader, twin_artifactFiles, twin_Set with go.
Qed.

(** *** What a statement does to the rest of the world *)

Lemma Write_outside {T} `{!ISerializable T} S (lf : LocalFile T) :
  fullPath lf ∈ S -> stable (outside S) (Write lf).
Proof.
  intros Hin w. destruct (Write lf w) as [[data|e|m] w'] eqn:E; simpl;
    [|by rewrite (Write_failure_unchanged _ _ _ _ E)..].
  apply Write_inv_Ok in E as (_ & _ & ->). intros name Hn.
  apply written_lookup_ne. by intros ->.
Qed.

Lemma Create_outside {T} `{!ISerializable T} S (lf : LocalFile T) :
  compressedPath lf ∈ S -> stable (outside S) (CreateCompressedFileAndCid lf).
Proof.
  intros Hin w.
  destruct (Create_cases lf w) as [(data & c0 & Hc & ->)|[(n & e & ->)|(m & ->)]];
    simpl; [|done..].
  intros name Hn. apply written_lookup_ne. by intros ->.
Qed.

Lemma round_outside currentIndex (it : iteration) :
  drop (index it) (slice smartnode r currentIndex) = file it :: rest it ->
  stable (outside (paths smartnode currentIndex)) (ILocalFile.Write (file it)) /\
  stable (outside (paths smartnode currentIndex))
    (ILocalFile.CreateCompressedFileAndCid (file it)).
Proof.
  unfold slice, paths.
  destruct it as [[|[|n]] f l]; simpl; rewrite ?drop_nil; intros ?; simplify_eq; simpl;
    (split; [apply Write_outside|apply Create_outside]); unfold compressedPath; simpl;
    set_solver.
Qed.

Lemma sameButCid_other w w' r' :
  sameButCid r w w' -> r' <> r ->
  rewardsFiles (heap w) !! r' = rewardsFiles (heap w') !! r'.
Proof.
  unfold sameButCid, eraseCid. intros Heq Hne.
  apply (f_equal (fun h => rewardsFiles h !! r')) in Heq. simpl in Heq.
  by rewrite !lookup_alter_ne in Heq.
Qed.

(** A statement of the run writes no file but the four of its interval,
    and leaves the rewards files of the other runs as they are. *)
Lemma step_effect currentIndex c c' :
  wf smartnode r trusted currentIndex c -> step smartnode r trusted c c' ->
  outside (paths smartnode currentIndex) (world c) (world c') /\
  forall r', r' <> r -> sameFor r' (world c) (world c').
Proof.
  intros Hwf Hs. split.
  - destruct Hs; unfold wf in Hwf; simpl in *; try done;
      try (apply outside_fs; unfold resume; simpl;
           by rewrite ?onHeap_fs, ?artifactFiles_world).
    + rewrite wrap_err_state. apply (round_outside currentIndex it), Hwf.
    + rewrite checked_state. apply (round_outside currentIndex it), Hwf.
  - intros r' Hne. destruct (step_moves _ _ _ _ _ _ Hwf Hs) as [Hle Hcid].
    split; [by apply sameButCid_other|]. symmetry. by apply FS.le_denied.
Qed.

(** *** The run alone, beside the run of the pair *)

Lemma alone_start w0 S :
  alone smartnode r trusted w0 S AtHeader {| primaryCid := None; out := ∅ |} w0.
Proof. exists (start w0). split_and!; [apply rtc_refl|done..]. Qed.

Lemma wf_sameFor currentIndex p st w1 w2 :
  sameFor r w1 w2 ->
  wf smartnode r trusted currentIndex (Config p st w1) ->
  wf smartnode r trusted currentIndex (Config p st w2).
Proof.
  intros [Hh _]. unfold wf. destruct p; simpl; try done.
  intros [? Hrf]. split; [done|]. intros rf. rewrite <-Hh. apply Hrf.
Qed.

Lemma alone_wf w0 S p st w :
  alone smartnode r trusted w0 S p st w ->
  wf smartnode r trusted (intervalOf r w0) (Config p st w).
Proof.
  intros (c0 & Hr & <- & <- & Hs & _). apply (wf_sameFor _ _ _ (world c0)); [done|].
  apply reachable_wf in Hr. by destruct c0.
Qed.

(** A statement of the run moves the run alone with it. *)
Lemma alone_own w0 S p st w c' :
  alone smartnode r trusted w0 S p st w ->
  step smartnode r trusted (Config p st w) c' ->
  alone smartnode r trusted w0 S (pc c') (vars c') (world c').
Proof.
  intros (c0 & Hr & Hp & Hv & [Hh Hd] & Ho) Hs%step_next.
  assert (inStep r (fs (world c0)) (fs w) c0 (Config p st w)) as Hi
    by (split_and!; [done..|by apply twin_entry]).
  pose proof (next_inStep (intervalOf r w0) _ _ _ _ Hd (reachable_wf _ _ _ _ _ Hr) Hi) as Hn.
  rewrite Hs in Hn. inversion Hn as [c0' ? (Hp' & Hv' & Ht) Hs0|].
  symmetry in Hs0. apply next_step in Hs0. subst.
  exists c0'.
  split_and!; [by eapply rtc_r|done..|by eapply twin_sameFor|by eapply twin_outside].
Qed.

(** A statement of another run leaves the run alone where it is. *)
Lemma alone_other w0 S p st w w' :
  alone smartnode r trusted w0 S p st w -> sameFor r w w' -> outside S w w' ->
  alone smartnode r trusted w0 S p st w'.
Proof.
  intros (c0 & Hr & Hp & Hv & Hs & Ho) Hs' Ho'. exists c0.
  split_and!; [done..|by etrans|by etrans].
Qed.

(** When the run of the pair has returned, the run alone has: with the
    same outcome, the same rewards file, and the same files but for those
    the other run writes. *)
Lemma alone_returned w0 S p st w res :
  alone smartnode r trusted w0 S p st w -> returned (Config p st w) = Some res ->
  res = (saveJSONArtifacts smartnode r trusted w0).1 /\
  sameFor r (saveJSONArtifacts smartnode r trusted w0).2 w /\
  outside S (saveJSONArtifacts smartnode r trusted w0).2 w.
Proof.
  intros (c0 & Hr & Hp & Hv & Hs & Ho) Hret.
  assert (returned c0 = Some res) as Hret0 by (unfold returned in *; simpl in *; by rewrite Hp).
  by destruct (reachable_returned _ _ _ _ _ _ Hr Hret0) as [-> <-].
Qed.

End Steps.

(** ** The pair of runs *)

Section Together.
Context `{Env}.
Context (smartnodeA smartnodeB : SmartnodeConfig) (rA rB : IRewardsFile)
  (trustedA trustedB : bool).
Implicit Types (c : threads) (w : World).

Local Notation isteps := (istep smartnodeA smartnodeB rA rB trustedA trustedB).
Local Notation schedules := (schedule smartnodeA smartnodeB rA rB trustedA trustedB).
Local Notation togethers := (together smartnodeA smartnodeB rA rB trustedA trustedB).

(** *** Every interleaving ends *)

Lemma istep_decreases c c' : isteps c c' -> measure2 c' < measure2 c.
Proof.
  destruct 1 as [c c' Hs%step_decreases|c c' Hs%step_decreases];
    unfold measure2; simpl in *; lia.
Qed.

Lemma istep_sn c : sn isteps c.
Proof.
  remember (measure2 c) as n eqn:E. revert c E.
  induction (lt_wf n) as [n _ IH]; intros c ->.
  constructor; intros c' Hs. eapply IH; [|done]. by apply istep_decreases.
Qed.

Lemma schedule_rtc order c : rtc isteps c (schedules order c).
Proof.
  induction order as [|[] order IH] in c |- *; simpl; [done|..].
  - destruct (next smartnodeA rA trustedA (configA c)) as [c'|] eqn:E; simpl; [|apply IH].
    eapply rtc_l; [apply istep_A, next_step, E|apply IH].
  - destruct (next smartnodeB rB trustedB (configB c)) as [c'|] eqn:E; simpl; [|apply IH].
    eapply rtc_l; [apply istep_B, next_step, E|apply IH].
Qed.

(** *** Each run is beside the run alone *)

Hypothesis distinct : rA <> rB.

Lemma together_step w0 c c' : togethers w0 c -> isteps c c' -> togethers w0 c'.
Proof.
  intros [HA HB] Hs. destruct Hs as [c c' Hs|c c' Hs]; split; simpl.
  - by eapply alone_own.
  - destruct (step_effect _ _ _ _ _ _ (alone_wf _ _ _ _ _ _ _ _ HA) Hs) as [Ho Hf].
    eapply alone_other; [done|by apply Hf|exact Ho].
  - destruct (step_effect _ _ _ _ _ _ (alone_wf _ _ _ _ _ _ _ _ HB) Hs) as [Ho Hf].
    eapply alone_other; [done|by apply Hf|exact Ho].
  - by eapply alone_own.
Qed.

Lemma reachable_together w0 c : rtc isteps (both w0) c -> togethers w0 c.
Proof.
  intros Hr. apply (rtc_ind_r (R := isteps) (togethers w0) (both w0)); [| |done].
  - split; apply alone_start.
  - intros c1 c2 _ Hs Ht. by eapply together_step.
Qed.

(** C25: two runs in one process, on two rewards files, do not disturb
    each other.  Whatever the order in which the statements of the two
    runs are taken, a run that has returned has returned what it returns
    alone (its result, its error or its panic); its rewards file is as it
    leaves it alone; and every file that is not one of the four paths of
    the other run is on the disk as the run alone leaves it. *)
Theorem interleaved_runs_return_alone w0 c :
  rtc isteps (both w0) c ->
  (forall res, returned (configA c) = Some res ->
     let runA := saveJSONArtifacts smartnodeA rA trustedA w0 in
     res = runA.1 /\ sameFor rA runA.2 (shared c) /\
     outside (paths smartnodeB (intervalOf rB w0)) runA.2 (shared c)) /\
  (forall res, returned (configB c) = Some res ->
     let runB := saveJSONArtifacts smartnodeB rB trustedB w0 in
     res = runB.1 /\ sameFor rB runB.2 (shared c) /\
     outside (paths smartnodeA (intervalOf rA w0)) runB.2 (shared c)).
Proof.
  intros [HA HB]%reachable_together.
  split; intros res Hret; simpl; by eapply alone_returned.
Qed.

End Together.

(** ** Two runs on the files of Concrete.v *)

Module InterleaveDemo.

#[local] Existing Instance Demo.env.

(** A second rewards file for the interval 5, with another performance
    file, and a heap that holds it at the pointer 2 beside the file of
    Concrete.v at the pointer 1. *)
Definition other5 : RewardsFile unit bytes :=
  {| Header := {| Index := 5; MinipoolPerformanceFileCID := "" |};
     Claims := tt;
     MinipoolPerformanceFile := [Byte.x6f; Byte.x74; Byte.x68; Byte.x65; Byte.x72] |}.

Definition two : World :=
  {| heap := {| rewardsFiles := {[ 1%positive := Demo.rewards5; 2%positive := other5 ]};
                performanceFiles := ∅ |};
     fs := FS.empty |}.

Definition istepDemo : relation threads :=
  istep Demo.config Demo.config 1%positive 2%positive true true.

Definition scheduleDemo (order : list bool) : threads :=
  schedule Demo.config Demo.config 1%positive 2%positive true true order (both two).

(** The second run takes its first round, the first run takes all its
    statements, the second run takes its second round. *)
Definition order : list bool :=
  replicate 11 false ++ replicate 22 true ++ replicate 11 false.

Definition mixed : threads := scheduleDemo order.

(** The file the two runs left at [path], the rewards file they left,
    the identifier it carries, and the identifier of the compressed
    performance file they left. *)
Definition onDisk (path : string) : option bytes := FS.files (fs (shared mixed)) !! path.

Definition rewardsOnDisk : option (RewardsFile unit bytes) :=
  match DeserializeRewardsFile (default [] (onDisk Demo.rewardsPath)) with
  | Ok rf => Some rf
  | _ => None
  end.

Definition carried : option string :=
  (fun rf => MinipoolPerformanceFileCID (Header rf)) <$> rewardsOnDisk.

Definition identified : option string :=
  match singleFileDirIPFSCid (default [] (onDisk (Demo.perfPath +:+ ".zst")))
          (filepath.Base (Demo.perfPath +:+ ".zst")) with
  | Ok c => Some c
  | _ => None
  end.

Lemma mixed_reachable : rtc istepDemo (both two) mixed.
Proof. apply schedule_rtc. Qed.

Lemma interleaved_runs_return_alone_witness :
  (forall res, returned (configA mixed) = Some res ->
     let runA := saveJSONArtifacts Demo.config 1%positive true two in
     res = runA.1 /\ sameFor 1%positive runA.2 (shared mixed) /\
     outside (paths Demo.config (intervalOf 2%positive two)) runA.2 (shared mixed)) /\
  (forall res, returned (configB mixed) = Some res ->
     let runB := saveJSONArtifacts Demo.config 2%positive true two in
     res = runB.1 /\ sameFor 2%positive runB.2 (shared mixed) /\
     outside (paths Demo.config (intervalOf 1%positive two)) runB.2 (shared mixed)).
Proof.
  assert (1%positive <> 2%positive) as Hne by done.
  exact (interleaved_runs_return_alone Demo.config Demo.config 1%positive 2%positive
           true true Hne two mixed mixed_reachable).
Defined.

(** The two runs write the same four paths.  Both return a result, each
    the one it returns alone, and the disk they leave is the disk of
    neither: the performance file is the one of the first run, the
    rewards file the one of the second, and the identifier it carries is
    not the identifier of the compressed performance file beside it. *)
Example same_paths_mix_the_files :
  (is_Ok <$> returned (configA mixed)) = Some true /\
  (is_Ok <$> returned (configB mixed)) = Some true /\
  onDisk Demo.perfPath = Some (MinipoolPerformanceFile Demo.rewards5) /\
  MinipoolPerformanceFile <$> rewardsOnDisk = Some (MinipoolPerformanceFile other5) /\
  bool_decide (carried = identified) = false.
Proof.
  split_and!;
    [vm_cast_no_check (eq_refl (Some true))
    |vm_cast_no_check (eq_refl (Some true))
    |vm_cast_no_check (eq_refl (Some (MinipoolPerformanceFile Demo.rewards5)))
    |vm_cast_no_check (eq_refl (Some (MinipoolPerformanceFile other5)))
    |vm_cast_no_check (eq_refl false)].
Qed.

End InterleaveDemo.
