(* ===== verification/Reload.v ===== *)
(** * Reload: the files of a run, read back after a crash

    The package reads its files back with [ReadLocalRewardsFile] and
    [ReadLocalMinipoolPerformanceFile]
    (src/shared/services/rewards/files.go, lines 13 to 43) and writes
    them with [saveJSONArtifacts] (lines 143 to 205).  Artifacts.v shows
    what the readers give on the disk a run left; this file puts the
    crash of Crash.v between the two.

    The theorem: after a crash anywhere in a run and the run that
    follows it, the rewards file is read back as the rewards file the
    run that did not crash has in memory, the identifier of the
    compressed performance file in it ([reload_after_crash]). *)

From stdpp Require Import gmap strings list relations.
From S2P Require Import Prelude Filepath FileSystem Env Concrete LocalFile Artifacts.
From S2P Require Import Machine TwoRuns Crash.

Section Reload.
Context `{!EnvLaws H}.
Context (smartnode : SmartnodeConfig) (r : IRewardsFile).
Implicit Types (w : World) (m : gmap string bytes).

(** The rewards file after a crash and the run that follows it.  The
    process died anywhere in a run that would have returned; the
    function was called again on the disk the crash left.  Then
    [ReadLocalRewardsFile] gives the rewards file the run that did not
    crash has in memory at its end: no trace of the torn file is left. *)
Theorem reload_after_crash w0 c m res :
  reachable smartnode r true w0 c -> crashDisk smartnode r true c m ->
  (whole smartnode r true w0).1 = Ok res ->
  let again := saveJSONArtifacts smartnode r true (restart w0 m) in
  exists rf rf' lf' w'',
    rewardsFiles (heap w0) !! r = Some rf /\
    rewardsFiles (heap (whole smartnode r true w0).2) !! r = Some rf' /\
    ReadLocalRewardsFile (Path (rewardsLocalFile smartnode r rf)) again.2 = (Ok lf', w'') /\
    rewardsFiles (heap w'') !! Impl lf' = Some rf'.
Proof.
  intros Hr Hc Hres again.
  destruct (restart_whole smartnode r true w0 c m Hr Hc) as (_ & Hf & _). fold again in Hf.
  unfold whole in *. destruct (saveJSONArtifacts smartnode r true w0) as [o w'] eqn:E.
  simpl in Hres. subst o.
  apply trustedRun_sound in E as (rf & x & (Hrf & _ & _ & Hs2 & _) & -> & ->).
  destruct (trustedWorld_rewards_files smartnode r rf x w0) as [Hp _].
  apply saved_rewards, rewards_roundtrip in Hs2.
  cbn [snd] in Hf. rewrite <-Hf in Hp.
  exists rf, (finalRewards rf x). do 2 eexists. split_and!;
    [done|apply trustedWorld_rewards|by eapply ReadLocalRewardsFile_ok
    |apply withRewards_lookup].
Qed.

End Reload.

(** ** The readers on the files of Concrete.v *)

Module ReloadDemo.

#[local] Existing Instance Demo.env.

(** The crash of Crash.v, three bytes into the rewards file, and the run
    after it: the rewards file is read back whole. *)
Example reload_after_crash_demo :
  exists rf rf' lf' w'',
    rewardsFiles (heap ArtifactsDemo.start) !! 1%positive = Some rf /\
    rewardsFiles (heap (whole Demo.config 1%positive true ArtifactsDemo.start).2)
      !! 1%positive = Some rf' /\
    ReadLocalRewardsFile (Path (rewardsLocalFile Demo.config 1%positive rf))
      CrashDemo.againDemo.2 = (Ok lf', w'') /\
    rewardsFiles (heap w'') !! Impl lf' = Some rf'.
Proof.
  apply (reload_after_crash (EnvLaws0 := Demo.laws) Demo.config 1%positive
           ArtifactsDemo.start CrashDemo.atWrite CrashDemo.tornDemo
           (ArtifactsDemo.primaryDemo, ArtifactsDemo.outDemo)
           MachineDemo.secondRound_reachable CrashDemo.tornDemo_crash).
  unfold whole. by rewrite ArtifactsDemo.trustedDemo_eq.
Qed.

End ReloadDemo.
