(* ===== verification/Algorithm.v ===== *)
(** * Algorithm: the orchestrator as the specification words it

    The specification gives the orchestrator as eight steps in strict
    order (section 4.4): build the artifact of the performance file;
    persist it, identify it, record it; on a node that is not trusted
    store the sentinel in the rewards file; on a trusted node compress
    and identify the performance file, record the identifier and store
    it in the rewards file; build the artifact of the rewards file;
    persist it, identify it, record it: this identifier is the primary
    one; on a trusted node compress and identify the rewards file and
    record the identifier; return the primary identifier and the map.

    [orchestrate] is that sequence, written with the methods of
    LocalFile.v and with the messages of the code, without a loop.  The
    theorem compares the function [saveJSONArtifacts] of
    src/shared/services/rewards/files.go with it on every input and
    every outcome: the two leave the same world and fail alike; where the
    algorithm returns, the code returns the same map with the identifier
    of the compressed rewards file on a trusted node, and panics on a
    node that is not trusted. *)

From stdpp Require Import gmap strings list.
From S2P Require Import Prelude Filepath FileSystem Env Concrete LocalFile Artifacts.

(** ** Definitions *)

Section Algorithm.
Context `{Env}.

(** Steps 2 and 6: persist the artifact, identify the plain file, record
    the identifier under the file name. *)
Definition persistAndIdentify (a : ILocalFile.t) (m : gmap string Cid) :
    prog World (Cid * gmap string Cid) :=
  data <- ILocalFile.Write a orwrap ("error saving " +:+ ILocalFile.Path a +:+ ": ") ;;
  c <- lift (singleFileDirIPFSCid data (ILocalFile.FileName a))
    orwrap ("error calculating cid for saved file " +:+ ILocalFile.Path a +:+ ": ") ;;
  ret (c, <[ILocalFile.FileName a := c]> m).

(** Steps 4 and 7: compress the artifact, identify the compressed file,
    record the identifier under the compressed file name. *)
Definition compressAndRecord (a : ILocalFile.t) (m : gmap string Cid) :
    prog World (Cid * gmap string Cid) :=
  r <- checked ("error compressing file " +:+ ILocalFile.Path a +:+ ": ")
         (ILocalFile.CreateCompressedFileAndCid a) ;;
  ret (r.2, <[filepath.Base r.1 := r.2]> m).

(** The eight steps. *)
Definition orchestrate (smartnode : SmartnodeConfig) (rewardsFile : IRewardsFile)
    (trusted : bool) : prog World (Cid * gmap string Cid) :=
  header <- onHeap (GetHeader rewardsFile) ;;
  performanceFile <- onHeap (GetMinipoolPerformanceFile rewardsFile) ;;
  let performance :=
    asILocalFile (NewLocalFile performanceFile
                    (GetMinipoolPerformancePath smartnode (Index header) true)) in
  r <- persistAndIdentify performance ∅ ;;
  m <- (if negb trusted
        then onHeap (SetMinipoolPerformanceFileCID rewardsFile sentinel) ;; ret r.2
        else z <- compressAndRecord performance r.2 ;;
             onHeap (SetMinipoolPerformanceFileCID rewardsFile (CidString z.1)) ;;
             ret z.2) ;;
  let rewards :=
    asILocalFile (NewLocalFile rewardsFile
                    (GetRewardsTreePath smartnode (Index header) true RewardsExtensionJSON)) in
  primary <- persistAndIdentify rewards m ;;
  m <- (if negb trusted then ret primary.2
        else z <- compressAndRecord rewards primary.2 ;; ret z.2) ;;
  ret (primary.1, m).

(** What the code returns where the algorithm returns [(primary, m)]:
    the identifier the map holds under [name], the name of the compressed
    rewards file, on a trusted node; the panic of the nil dereference on
    the others. *)
Definition returnedByCode (trusted : bool) (name : string)
    (r : result (Cid * gmap string Cid)) : result (Cid * gmap string Cid) :=
  match r with
  | Ok (primary, m) =>
      if trusted
      then match m !! name with
           | Some z => Ok (z, m)
           | None => Panic nilDereference
           end
      else Panic nilDereference
  | other => other
  end.

(** The name of the compressed rewards file, for the rewards file of the
    world [w]. *)
Definition compressedRewardsName (smartnode : SmartnodeConfig) (rewardsFile : IRewardsFile)
    (w : World) : string :=
  match rewardsFiles (heap w) !! rewardsFile with
  | Some rf => filepath.Base (compressedPath (rewardsLocalFile smartnode rewardsFile rf))
  | None => ""
  end.

End Algorithm.

(** ** The code against the algorithm *)

(** Splits on the outcome of the next call of a method or of a
    collaborator. *)
Ltac outcome :=
  match goal with
  | |- context [Write ?lf ?w] =>
      destruct (Write lf w) as [[?|?|?] ?] eqn:?
  | |- context [singleFileDirIPFSCid ?d ?n] =>
      destruct (singleFileDirIPFSCid d n) as [?|?|?] eqn:?
  | |- context [CreateCompressedFileAndCid ?lf ?w] =>
      destruct (CreateCompressedFileAndCid lf w) as [[[[? ?] [?|]]|?|?] ?] eqn:?
  | |- context [onHeap (SetMinipoolPerformanceFileCID ?r ?c) ?w] =>
      destruct (onHeap (SetMinipoolPerformanceFileCID r c) w) as [[[]|?|?] ?] eqn:?
  end; simpl; try reflexivity.

(** On a node that is not trusted the second round stores the sentinel
    the first round stored: with the lemma [again] that says so, the call
    is replaced by its outcome. *)
Ltac second_store again :=
  match goal with
  | E1 : onHeap (SetMinipoolPerformanceFileCID ?r ?cid) _ = (Ok _, ?w1),
    E2 : Write ?lf ?w1 = (Ok _, ?w2),
    E3 : onHeap (SetMinipoolPerformanceFileCID ?r ?cid) ?w2 = _ |- _ =>
      rewrite (again r cid _ _ w1 w2 E1) in E3
        by (by apply Write_inv_Ok in E2 as (_ & _ & ->));
      by simplify_eq
  end.

Section Compare.
Context `{Env}.
Implicit Types (smartnode : SmartnodeConfig) (r : IRewardsFile) (w : World).

(** Storing again the value the field holds changes nothing. *)
Lemma Set_again r cid w0 u w1 w2 :
  onHeap (SetMinipoolPerformanceFileCID r cid) w0 = (Ok u, w1) ->
  heap w2 = heap w1 ->
  onHeap (SetMinipoolPerformanceFileCID r cid) w2 = (Ok tt, w2).
Proof.
  unfold onHeap, zoom, SetMinipoolPerformanceFileCID. intros E Hh. rewrite Hh.
  destruct (rewardsFiles (heap w0) !! r) as [rf|]; simplify_eq/=.
  rewrite lookup_insert_eq, insert_insert_eq. f_equal.
  rewrite <-(World_eta w2), Hh. by destruct w2.
Qed.

(** C31: the code against the eight steps of the specification, on
    every input.  [saveJSONArtifacts] leaves the world [orchestrate]
    leaves, and returns the error or the panic it returns.  Where
    [orchestrate] returns the identifier of the plain rewards file and
    the map, the code returns, on a trusted node, the same map with the
    identifier the map holds for the compressed rewards file, and on a
    node that is not trusted it panics. *)
Theorem saveJSONArtifacts_vs_algorithm smartnode r trusted w :
  saveJSONArtifacts smartnode r trusted w =
    (returnedByCode trusted (compressedRewardsName smartnode r w)
       (orchestrate smartnode r trusted w).1,
     (orchestrate smartnode r trusted w).2).
Proof.
  unfold compressedRewardsName.
  destruct (rewardsFiles (heap w) !! r) as [rf|] eqn:Hr.
  2: { rewrite saveJSONArtifacts_nil by done. unfold orchestrate.
       by rewrite GetHeader_None. }
  rewrite (saveJSONArtifacts_unfold _ _ _ _ _ Hr). unfold orchestrate.
  rewrite (bind_Ok _ _ _ _ _ (GetHeader_Some _ _ _ Hr)).
  rewrite (bind_Ok _ _ _ _ _ (GetMinipoolPerformanceFile_Some _ _ _ Hr)).
  unfold saveOne, persistAndIdentify, compressAndRecord, performanceLocalFile,
    rewardsLocalFile, bind, wrap_err, checked, ret, lift, bind, panic, throw.
  simpl. destruct trusted; simpl; repeat outcome.
  - repeat match goal with
           | E : CreateCompressedFileAndCid _ _ = _ |- _ =>
               apply Create_inv_Ok in E as (? & _ & -> & _)
           end.
    by rewrite lookup_insert_eq.
  - second_store Set_again.
  - second_store Set_again.
  - second_store Set_again.
Qed.

End Compare.

(** ** The two on the files of Concrete.v *)

Module AlgorithmDemo.

#[local] Existing Instance Demo.env.

Definition trusted := orchestrate Demo.config 1%positive true ArtifactsDemo.start.
Definition untrusted := orchestrate Demo.config 1%positive false ArtifactsDemo.start.

(** On the trusted node the algorithm returns another identifier than
    the code, with the map of the code; on the other node it returns
    where the code panics, with a map of two entries. *)
Example algorithm_and_code_differ :
  (from_Ok ("", ∅) trusted.1).2 = ArtifactsDemo.outDemo /\
  (from_Ok ("", ∅) trusted.1).1 <> ArtifactsDemo.primaryDemo /\
  is_Ok untrusted.1 = true /\
  size (from_Ok ("", ∅) untrusted.1).2 = 2 /\
  (saveJSONArtifacts Demo.config 1%positive false ArtifactsDemo.start).1
    = Panic nilDereference.
Proof.
  split_and!;
    [vm_cast_no_check (eq_refl ArtifactsDemo.outDemo)
    |vm_compute; discriminate
    |vm_cast_no_check (eq_refl true)
    |vm_cast_no_check (eq_refl 2)
    |vm_cast_no_check (eq_refl (@Panic (string * gmap string string) nilDereference))].
Qed.

End AlgorithmDemo.
