(* ===== verification/Strings.v ===== *)
(** * Strings: Go's package strings, as far as the validators call it

    [ToLower], [TrimSpace] and [Repeat] of package strings, modelled on
    the bytes of a Go string (a [string] of this development is a
    sequence of bytes, as in Go; there is no code of this package under
    src/).

    [TrimSpace] removes the leading and the trailing white space in the
    sense of [unicode.IsSpace]: the six ASCII characters and the UTF-8
    encodings of U+0085, U+00A0, U+1680, U+2000 to U+200A, U+2028,
    U+2029, U+202F, U+205F and U+3000.  The library decodes one rune at
    either end; a rune is white space exactly when the bytes at that end
    are one of these encodings, so the model strips encodings.

    [ToLower] lowers the letters A to Z and leaves every other byte.  This
    is what the library does on a string of ASCII bytes.  On other
    strings the library lowers the runes, and two runes outside ASCII
    lower to an ASCII letter (U+0130 to i, U+212A to k); the words the
    validators compare the result with hold neither letter, so a string
    with a byte outside ASCII is rejected by the code and by the model
    alike. *)

From Stdlib Require Import Ascii NArith.
From stdpp Require Import strings list.
From S2P Require Import Prelude.

Module strings.

(** ** Definitions *)

(** The value of a byte. *)
Definition code (c : ascii) : N := N_of_ascii c.

Definition isUpper (c : ascii) : bool := (65 <=? code c)%N && (code c <=? 90)%N.

Definition isLower (c : ascii) : bool := (97 <=? code c)%N && (code c <=? 122)%N.

Definition isASCII (s : string) : bool := forallb (fun c => (code c <? 128)%N) (chars s).

(** [c += 'a' - 'A'] on an upper-case letter. *)
Definition lowerByte (c : ascii) : ascii :=
  if isUpper c then ascii_of_N (code c + 32) else c.

Definition ToLower (s : string) : string := of_chars (lowerByte <$> chars s).

Fixpoint Repeat (s : string) (count : nat) : string :=
  match count with
  | 0 => ""
  | S n => s +:+ Repeat s n
  end.

(** The encodings of the runes of [unicode.IsSpace]. *)
Definition spaceRunes : list (list N) :=
  [ [9]; [10]; [11]; [12]; [13]; [32];
    [194; 133]; [194; 160];
    [225; 154; 128];
    [226; 128; 128]; [226; 128; 129]; [226; 128; 130]; [226; 128; 131];
    [226; 128; 132]; [226; 128; 133]; [226; 128; 134]; [226; 128; 135];
    [226; 128; 136]; [226; 128; 137]; [226; 128; 138];
    [226; 128; 168]; [226; 128; 169]; [226; 128; 175];
    [226; 129; 159];
    [227; 128; 128] ]%N.

Definition spaces : list (list ascii) := map (map ascii_of_N) spaceRunes.

(** What follows the first of [seqs] that [l] starts with. *)
Fixpoint stripAny (seqs : list (list ascii)) (l : list ascii) : option (list ascii) :=
  match seqs with
  | [] => None
  | q :: seqs' =>
      if decide (take (length q) l = q) then Some (drop (length q) l)
      else stripAny seqs' l
  end.

(** Strips sequences of [seqs] from the front of [l] while there is one;
    [n] bounds the number of rounds. *)
Fixpoint stripFront (seqs : list (list ascii)) (n : nat) (l : list ascii) : list ascii :=
  match n with
  | 0 => l
  | S n' =>
      match stripAny seqs l with
      | Some l' => stripFront seqs n' l'
      | None => l
      end
  end.

(** [TrimLeftFunc(s, unicode.IsSpace)] and [TrimRightFunc]. *)
Definition trimLeft (l : list ascii) : list ascii := stripFront spaces (length l) l.

Definition trimRight (l : list ascii) : list ascii :=
  reverse (stripFront (map reverse spaces) (length l) (reverse l)).

Definition TrimSpace (s : string) : string := of_chars (trimRight (trimLeft (chars s))).

(** No sequence of [seqs] starts [l]. *)
Definition clean (seqs : list (list ascii)) (l : list ascii) : Prop :=
  stripAny seqs l = None.

(** The six characters of the table [asciiSpace] of the library. *)
Definition asciiSpace (c : ascii) : bool :=
  bool_decide (code c ∈ [9; 10; 11; 12; 13; 32]%N).

(** ** [ToLower] *)

Lemma isUpper_spec c : isUpper c = true <-> (65 <= code c <= 90)%N.
Proof. unfold isUpper. by rewrite andb_true_iff, !N.leb_le. Qed.

Lemma isLower_spec c : isLower c = true <-> (97 <= code c <= 122)%N.
Proof. unfold isLower. by rewrite andb_true_iff, !N.leb_le. Qed.

Lemma code_inj c1 c2 : code c1 = code c2 -> c1 = c2.
Proof.
  unfold code. intros Hc.
  by rewrite <-(ascii_N_embedding c1), <-(ascii_N_embedding c2), Hc.
Qed.

Lemma code_lt c : (code c < 256)%N.
Proof. apply N_ascii_bounded. Qed.

(** An upper-case letter becomes the lower-case one, 32 further. *)
Lemma lowerByte_upper c :
  isUpper c = true -> code (lowerByte c) = (code c + 32)%N /\ isLower (lowerByte c) = true.
Proof.
  intros Hc. unfold lowerByte. rewrite Hc. apply isUpper_spec in Hc.
  assert (code (ascii_of_N (code c + 32)) = (code c + 32)%N) as Heq
    by (unfold code in *; apply N_ascii_embedding; lia).
  split; [done|]. apply isLower_spec. lia.
Qed.

Lemma lowerByte_not_upper c : isUpper (lowerByte c) = false.
Proof.
  destruct (isUpper c) eqn:E; [|by unfold lowerByte; rewrite E].
  destruct (lowerByte_upper c E) as [Hc _]. apply isUpper_spec in E.
  apply not_true_iff_false. rewrite isUpper_spec. lia.
Qed.

Lemma lowerByte_idemp c : lowerByte (lowerByte c) = lowerByte c.
Proof. unfold lowerByte at 1. by rewrite lowerByte_not_upper. Qed.

Lemma ToLower_idemp s : ToLower (ToLower s) = ToLower s.
Proof.
  unfold ToLower. rewrite chars_of_chars, <-list_fmap_compose. f_equal.
  apply list_fmap_ext. intros _ c _. apply lowerByte_idemp.
Qed.

Lemma ToLower_length s : String.length (ToLower s) = String.length s.
Proof. unfold ToLower. by rewrite <-!chars_length, chars_of_chars, length_fmap. Qed.

Lemma ToLower_app s1 s2 : ToLower (s1 +:+ s2) = ToLower s1 +:+ ToLower s2.
Proof. unfold ToLower. by rewrite chars_app, fmap_app, of_chars_app. Qed.

(** A string without an upper-case letter is its own lower-case form. *)
Lemma ToLower_fixed s :
  Forall (fun c => isUpper c = false) (chars s) -> ToLower s = s.
Proof.
  intros Hs. unfold ToLower. rewrite <-(of_chars_chars s) at 2. f_equal.
  induction Hs as [|c l Hc _ IH]; [done|]. rewrite fmap_cons, IH.
  unfold lowerByte. by rewrite Hc.
Qed.

(** ** [Repeat] *)

Lemma Repeat_length s n : String.length (Repeat s n) = n * String.length s.
Proof. induction n; simpl; [done|]. rewrite string_app_length. lia. Qed.

(** ** Stripping *)

Lemma stripAny_Some seqs l l' :
  stripAny seqs l = Some l' -> exists q, q ∈ seqs /\ l = q ++ l'.
Proof.
  induction seqs as [|q seqs IH]; [done|]. simpl. case_decide as Hq.
  - intros [= <-]. exists q. split; [left|]. by rewrite <-Hq at 1; rewrite take_drop.
  - intros (q' & ? & ?)%IH. exists q'. split; [by right|done].
Qed.

Lemma stripAny_None seqs l q : stripAny seqs l = None -> q ∈ seqs -> take (length q) l <> q.
Proof.
  induction seqs as [|q' seqs IH]; [by intros _ ?%elem_of_nil|]. simpl.
  case_decide; [done|]. intros Hn [->|Hq]%elem_of_cons; auto.
Qed.

(** A sequence that starts a prefix of [l] starts [l]. *)
Lemma clean_prefix seqs l1 l2 : clean seqs (l1 ++ l2) -> clean seqs l1.
Proof.
  unfold clean. induction seqs as [|q seqs IH]; [done|]. simpl.
  case_decide as H1; [done|]. case_decide as H2; [|done]. intros _. destruct H1.
  rewrite <-H2 at 2. rewrite take_app_le; [done|].
  rewrite <-H2, length_take. lia.
Qed.

Lemma stripFront_clean_id seqs n l : clean seqs l -> stripFront seqs n l = l.
Proof. unfold clean. destruct n; simpl; [done|]. by intros ->. Qed.

Section Strip.
Context (seqs : list (list ascii)).
Hypothesis nonempty : Forall (fun q => q <> []) seqs.

Lemma clean_nil : clean seqs [].
Proof using nonempty.
  unfold clean. revert nonempty. clear. induction seqs as [|q l IH]; [done|].
  intros [Hq Hl]%Forall_cons. simpl. rewrite take_nil.
  rewrite decide_False; [by apply IH|]. by intros <-.
Qed.

(** One round removes at least one byte. *)
Lemma stripAny_shorter l l' : stripAny seqs l = Some l' -> length l' < length l.
Proof using nonempty.
  intros (q & Hq & ->)%stripAny_Some. rewrite length_app.
  rewrite Forall_forall in nonempty. specialize (nonempty q Hq).
  destruct q; [done|]. simpl. lia.
Qed.

(** As many rounds as [l] has bytes are enough. *)
Lemma stripFront_clean n l : length l <= n -> clean seqs (stripFront seqs n l).
Proof using nonempty.
  revert l. induction n as [|n IH]; intros l Hn; simpl.
  - destruct l; [apply clean_nil|simpl in Hn; lia].
  - destruct (stripAny seqs l) as [l'|] eqn:E; [|done].
    apply IH. apply stripAny_shorter in E. lia.
Qed.

(** More rounds change nothing. *)
Lemma stripFront_fuel n m l :
  length l <= n -> length l <= m -> stripFront seqs n l = stripFront seqs m l.
Proof using nonempty.
  revert m l. induction n as [|n IH]; intros m l Hn Hm.
  - destruct l; [|simpl in Hn; lia]. apply eq_sym, stripFront_clean_id, clean_nil.
  - destruct m as [|m]; [destruct l; [|simpl in Hm; lia];
                         apply stripFront_clean_id, clean_nil|].
    simpl. destruct (stripAny seqs l) as [l'|] eqn:E; [|done].
    apply stripAny_shorter in E. apply IH; lia.
Qed.

End Strip.

Lemma stripFront_suffix seqs n l : exists p, l = p ++ stripFront seqs n l.
Proof.
  revert l. induction n as [|n IH]; intros l; simpl; [by exists []|].
  destruct (stripAny seqs l) as [l'|] eqn:E; [|by exists []].
  apply stripAny_Some in E as (q & _ & ->). destruct (IH l') as [p Hp].
  exists (q ++ p). by rewrite <-(assoc_L (++)), <-Hp.
Qed.

(** ** [TrimSpace] *)

Lemma spaces_nonempty : Forall (fun q => q <> []) spaces.
Proof. by apply (bool_decide_unpack _). Qed.

Lemma reversed_spaces_nonempty : Forall (fun q => q <> []) (map reverse spaces).
Proof. by apply (bool_decide_unpack _). Qed.

Lemma trimLeft_clean l : clean spaces (trimLeft l).
Proof. by apply stripFront_clean; [apply spaces_nonempty|]. Qed.

Lemma trimLeft_suffix l : exists p, l = p ++ trimLeft l.
Proof. apply stripFront_suffix. Qed.

Lemma trimRight_prefix l : exists s, l = trimRight l ++ s.
Proof.
  destruct (stripFront_suffix (map reverse spaces) (length l) (reverse l)) as [p Hp].
  exists (reverse p). unfold trimRight. rewrite <-reverse_app, <-Hp.
  by rewrite reverse_involutive.
Qed.

Lemma trimRight_clean l : clean (map reverse spaces) (reverse (trimRight l)).
Proof.
  unfold trimRight. rewrite reverse_involutive.
  apply stripFront_clean; [apply reversed_spaces_nonempty|by rewrite length_reverse].
Qed.

(** Trimming at the right keeps the left trimmed. *)
Lemma trimRight_keeps_clean l : clean spaces l -> clean spaces (trimRight l).
Proof.
  intros Hl. destruct (trimRight_prefix l) as [s Hs]. rewrite Hs in Hl.
  by apply clean_prefix in Hl.
Qed.

Lemma trimLeft_id l : clean spaces l -> trimLeft l = l.
Proof. apply stripFront_clean_id. Qed.

Lemma trimRight_id l : clean (map reverse spaces) (reverse l) -> trimRight l = l.
Proof.
  intros Hl. unfold trimRight. rewrite stripFront_clean_id by done.
  apply reverse_involutive.
Qed.

(** The result of [TrimSpace] has no white space at either end. *)
Lemma TrimSpace_trimmed s :
  clean spaces (chars (TrimSpace s)) /\
  clean (map reverse spaces) (reverse (chars (TrimSpace s))).
Proof.
  unfold TrimSpace. rewrite chars_of_chars. split.
  - apply trimRight_keeps_clean, trimLeft_clean.
  - apply trimRight_clean.
Qed.

Lemma TrimSpace_id s :
  clean spaces (chars s) -> clean (map reverse spaces) (reverse (chars s)) ->
  TrimSpace s = s.
Proof.
  intros Hl Hr. unfold TrimSpace. rewrite trimLeft_id, trimRight_id by done.
  apply of_chars_chars.
Qed.

Lemma TrimSpace_idemp s : TrimSpace (TrimSpace s) = TrimSpace s.
Proof. destruct (TrimSpace_trimmed s). by apply TrimSpace_id. Qed.

(** What is trimmed is never longer. *)
Lemma TrimSpace_length s : String.length (TrimSpace s) <= String.length s.
Proof.
  unfold TrimSpace. rewrite <-!chars_length, chars_of_chars.
  destruct (trimLeft_suffix (chars s)) as [p Hp].
  destruct (trimRight_prefix (trimLeft (chars s))) as [q Hq].
  rewrite Hp, Hq at 2. rewrite !length_app. lia.
Qed.

End strings.
