(* ===== verification/Strconv.v ===== *)
(** * Strconv: the parsers of numbers the validators call

    [strconv.ParseUint(s, 10, 64)] and the methods [SetString(s, 10)] and
    [String] of [big.Int], modelled from the Go library (there is no code
    of these packages under src/).

    [ParseUint] is the loop of the library on a 64-bit accumulator, with
    its cut-off test before the multiplication and its wrap-around test
    after the addition; the products and the sums are taken modulo 2^64.
    [ParseUint_spec] shows that the loop computes the decimal value of a
    non-empty string of digits when that value fits 64 bits and fails
    otherwise: the two tests catch every overflow.

    A [big.Int] is an integer of [Z].  [SetString] in base 10 reads an
    optional sign and at least one digit, and nothing else. *)

From Stdlib Require Import Ascii NArith ZArith Lia.
From stdpp Require Import strings list pretty.
From S2P Require Import Prelude Strings.

Module strconv.
Import strings.

(** ** Definitions *)

(** [strconv.ErrSyntax] and [strconv.ErrRange]. *)
Definition ErrSyntax : error := ErrorNew "invalid syntax".
Definition ErrRange : error := ErrorNew "value out of range".

(** [1<<64 - 1]. *)
Definition maxUint64 : N := 18446744073709551615.

(** A product or a sum of [uint64]. *)
Definition wrap64 (n : N) : N := (n mod 2 ^ 64)%N.

(** [maxUint64/10 + 1]: the least [n] with [n * 10] out of range. *)
Definition cutoff : N := (maxUint64 / 10 + 1)%N.

(** The value of a decimal digit. *)
Definition digitOf (c : ascii) : option N :=
  if (48 <=? code c)%N && (code c <=? 57)%N then Some (code c - 48)%N else None.

(** The loop of [ParseUint] in base 10, from the accumulator [n]. *)
Fixpoint parseLoop (l : list ascii) (n : N) : result N :=
  match l with
  | [] => Ok n
  | c :: l' =>
      match digitOf c with
      | None => Err ErrSyntax
      | Some d =>
          if (cutoff <=? n)%N then Err ErrRange
          else
            let n := wrap64 (n * 10) in
            let n1 := wrap64 (n + d) in
            if (n1 <? n)%N || (maxUint64 <? n1)%N then Err ErrRange
            else parseLoop l' n1
      end
  end.

(** [strconv.ParseUint(s, 10, 64)]. *)
Definition ParseUint (s : string) : result N :=
  if decide (s = "") then Err ErrSyntax else parseLoop (chars s) 0.

(** The digits of a string of digits. *)
Definition digits (l : list ascii) : option (list N) := mapM digitOf l.

(** The number the digits [ds] spell after [n]. *)
Definition valueFrom (n : N) (ds : list N) : N := foldl (fun acc d => acc * 10 + d)%N n ds.

Definition value (ds : list N) : N := valueFrom 0 ds.

(** The digits of [nat.scan] in base 10: at least one, and no other
    byte. *)
Definition natScan (l : list ascii) : option N :=
  match l with
  | [] => None
  | _ => value <$> digits l
  end.
Arguments natScan : simpl never.

(** [new(big.Int).SetString(s, 10)]: the integer, or [None] for
    [ok == false]. *)
Definition SetString (s : string) : option Z :=
  match chars s with
  | "-"%char :: l => (fun n => (- Z.of_N n)%Z) <$> natScan l
  | "+"%char :: l => Z.of_N <$> natScan l
  | l => Z.of_N <$> natScan l
  end.

(** The method [String] of [big.Int]. *)
Definition bigString (x : Z) : string := pretty x.

(** ** The loop against the decimal value *)

Lemma digitOf_Some c d : digitOf c = Some d -> (d <= 9)%N /\ code c = (d + 48)%N.
Proof.
  unfold digitOf. destruct (_ && _) eqn:E; [|done]. intros [= <-].
  apply andb_true_iff in E as [?%N.leb_le ?%N.leb_le]. lia.
Qed.

Lemma valueFrom_cons n d ds : valueFrom n (d :: ds) = valueFrom (n * 10 + d) ds.
Proof. reflexivity. Qed.

Lemma valueFrom_ge n ds : (n <= valueFrom n ds)%N.
Proof.
  revert n. induction ds as [|d ds IH]; intros n; [done|].
  rewrite valueFrom_cons. specialize (IH (n * 10 + d)%N). lia.
Qed.

Lemma valueFrom_mono n m ds : (n <= m)%N -> (valueFrom n ds <= valueFrom m ds)%N.
Proof.
  revert n m. induction ds as [|d ds IH]; intros n m Hnm; [done|].
  rewrite !valueFrom_cons. apply IH. lia.
Qed.

Lemma wrap64_small n : (n <= maxUint64)%N -> wrap64 n = n.
Proof. intros Hn. apply N.mod_small. unfold maxUint64 in Hn. lia. Qed.

(** A sum that leaves the range by less than 2^64 comes back below
    either summand. *)
Lemma wrap64_overflow n : (maxUint64 < n < 2 ^ 64 + 2 ^ 64)%N -> wrap64 n = (n - 2 ^ 64)%N.
Proof.
  intros Hn. unfold wrap64, maxUint64 in *.
  rewrite (N.mod_unique n (2 ^ 64) 1 (n - 2 ^ 64)); [done|lia..].
Qed.

(** One round of the loop on the digit [d]. *)
Lemma parseLoop_cons c l n d :
  digitOf c = Some d -> (n <= maxUint64)%N ->
  parseLoop (c :: l) n =
    if (n * 10 + d <=? maxUint64)%N then parseLoop l (n * 10 + d) else Err ErrRange.
Proof.
  intros Hc Hn. simpl. rewrite Hc. apply digitOf_Some in Hc as [Hd _].
  unfold cutoff, maxUint64 in *. change (18446744073709551615 / 10 + 1)%N
    with 1844674407370955162%N.
  destruct (N.leb_spec 1844674407370955162 n) as [Hcut|Hcut].
  { rewrite (proj2 (N.leb_gt _ _)); [done|lia]. }
  rewrite (wrap64_small (n * 10)) by (unfold maxUint64; lia).
  destruct (N.leb_spec (n * 10 + d) 18446744073709551615) as [Hin|Hout].
  - rewrite wrap64_small by done.
    rewrite (proj2 (N.ltb_ge _ _)), (proj2 (N.ltb_ge _ _)) by lia. done.
  - rewrite wrap64_overflow by (unfold maxUint64; lia).
    by rewrite (proj2 (N.ltb_lt _ _)) by lia.
Qed.

(** The loop on a string of digits. *)
Lemma parseLoop_digits l ds n :
  digits l = Some ds -> (n <= maxUint64)%N ->
  parseLoop l n =
    if (valueFrom n ds <=? maxUint64)%N then Ok (valueFrom n ds) else Err ErrRange.
Proof.
  unfold digits. revert ds n. induction l as [|c l IH]; intros ds n Hds Hn.
  - simpl in Hds. injection Hds as <-. change (valueFrom n []) with n.
    by rewrite (proj2 (N.leb_le _ _) Hn).
  - rewrite mapM_Some in Hds. apply Forall2_cons_inv_l in Hds as (d & ds' & Hc & Hds & ->).
    rewrite <-mapM_Some in Hds. rewrite (parseLoop_cons _ _ _ d) by done.
    rewrite valueFrom_cons.
    destruct (N.leb_spec (n * 10 + d) maxUint64) as [Hin|Hout]; [by apply IH|].
    pose proof (valueFrom_ge (n * 10 + d) ds').
    by rewrite (proj2 (N.leb_gt _ _)) by lia.
Qed.

(** The loop on a string with another byte. *)
Lemma parseLoop_not_digits l n : digits l = None -> is_Ok (parseLoop l n) = false.
Proof.
  unfold digits. revert n. induction l as [|c l IH]; intros n; [done|]. simpl.
  destruct (digitOf c) as [d|]; [|done]. simpl.
  destruct (mapM digitOf l) eqn:E; [done|]. intros _.
  destruct (_ <=? _)%N; [done|]. destruct (_ || _); [done|]. by apply IH.
Qed.

(** [ParseUint] against the decimal value: the loop returns the value of
    a non-empty string of digits that fits 64 bits, and an error in
    every other case. *)
Lemma ParseUint_spec s v :
  ParseUint s = Ok v <->
  s <> "" /\ exists ds, digits (chars s) = Some ds /\ value ds = v /\ (v <= maxUint64)%N.
Proof.
  unfold ParseUint. case_decide as Hs; [naive_solver|].
  destruct (digits (chars s)) as [ds|] eqn:Hd.
  - rewrite (parseLoop_digits _ ds) by done. fold (value ds).
    destruct (N.leb_spec (value ds) maxUint64); [naive_solver|].
    split; [done|]. intros (_ & ds' & [= <-] & <- & ?). lia.
  - pose proof (parseLoop_not_digits (chars s) 0 Hd) as Hno.
    split; [intros Hok; by rewrite Hok in Hno|naive_solver].
Qed.

Lemma ParseUint_range s ds :
  s <> "" -> digits (chars s) = Some ds -> (maxUint64 < value ds)%N ->
  ParseUint s = Err ErrRange.
Proof.
  intros Hs Hd Hv. unfold ParseUint. rewrite decide_False by done.
  rewrite (parseLoop_digits _ ds) by done. fold (value ds).
  by rewrite (proj2 (N.leb_gt _ _)).
Qed.

Lemma ParseUint_bound s v : ParseUint s = Ok v -> (v < 2 ^ 64)%N.
Proof. intros (_ & _ & _ & _ & Hv)%ParseUint_spec. unfold maxUint64 in Hv. lia. Qed.

(** ** The decimal form of a number is read back *)

Lemma digitOf_pretty_N_char d : (d < 10)%N -> digitOf (pretty_N_char d) = Some d.
Proof.
  intros Hd. do 10 (destruct d as [|d] using N.peano_ind; [done|]). lia.
Qed.

Lemma value_snoc ds d : value (ds ++ [d]) = (value ds * 10 + d)%N.
Proof. unfold value, valueFrom. by rewrite foldl_app. Qed.

Lemma digits_cons c l d ds :
  digitOf c = Some d -> digits l = Some ds -> digits (c :: l) = Some (d :: ds).
Proof. unfold digits. simpl. by intros -> ->. Qed.

Lemma pretty_N_go_digits x s ds :
  digits (chars s) = Some ds ->
  exists dx, digits (chars (pretty_N_go x s)) = Some (dx ++ ds) /\ value dx = x.
Proof.
  revert s ds. induction (N.lt_wf_0 x) as [x _ IH]. intros s ds Hs.
  destruct (decide (x = 0)%N) as [->|Hx].
  { exists []. by rewrite pretty_N_go_0. }
  rewrite pretty_N_go_step by lia.
  destruct (IH (x / 10)%N) with
    (s := String (pretty_N_char (x mod 10)) s) (ds := (x mod 10)%N :: ds)
    as (dx & Hdx & Hv).
  { apply N.div_lt; lia. }
  { apply digits_cons; [|done]. apply digitOf_pretty_N_char, N.mod_lt. lia. }
  exists (dx ++ [(x mod 10)%N]). rewrite <-(assoc_L (++)). split; [done|].
  rewrite value_snoc, Hv. pose proof (N.div_mod x 10). lia.
Qed.

Lemma pretty_N_digits (n : N) : exists ds, digits (chars (pretty n)) = Some ds /\ value ds = n.
Proof.
  unfold pretty, pretty_N. case_decide as Hn; [by exists [0%N]; subst|].
  destruct (pretty_N_go_digits n "" []) as (dx & Hdx & Hv); [done|].
  exists dx. by rewrite (right_id_L [] (++)) in Hdx.
Qed.

Lemma pretty_N_nonempty (n : N) : pretty n <> "".
Proof.
  destruct (pretty_N_digits n) as (ds & Hds & Hv). intros Heq. rewrite Heq in Hds.
  injection Hds as <-. unfold pretty, pretty_N in Heq. case_decide; [done|]. by subst.
Qed.

Lemma ParseUint_pretty (n : N) : (n <= maxUint64)%N -> ParseUint (pretty n) = Ok n.
Proof.
  intros Hn. destruct (pretty_N_digits n) as (ds & Hds & Hv).
  apply ParseUint_spec. split; [apply pretty_N_nonempty|]. by exists ds.
Qed.

(** ** [SetString] and [String] *)

Lemma natScan_Some l n :
  natScan l = Some n <-> l <> [] /\ exists ds, digits l = Some ds /\ value ds = n.
Proof.
  destruct l as [|c l]; [naive_solver|]. unfold natScan.
  destruct (digits (c :: l)); naive_solver.
Qed.

(** A string of digits is read as its value, with or without a sign. *)
Lemma SetString_digits s ds :
  s <> "" -> digits (chars s) = Some ds -> SetString s = Some (Z.of_N (value ds)).
Proof.
  intros Hs Hd. unfold SetString.
  destruct (chars s) as [|c l] eqn:E; [by apply chars_nil in E|].
  assert (natScan (c :: l) = Some (value ds)) as Hn by (apply natScan_Some; eauto).
  assert (digitOf c <> None) as Hc.
  { unfold digits in Hd. simpl in Hd. by destruct (digitOf c). }
  destruct (decide (c = "-"%char)) as [->|]; [done|].
  destruct (decide (c = "+"%char)) as [->|]; [done|].
  replace (match c with "-"%char => _ | _ => _ end) with (Z.of_N <$> natScan (c :: l));
    [by rewrite Hn|].
  destruct c as [[] [] [] [] [] [] [] []]; done.
Qed.

Lemma SetString_minus s n :
  natScan (chars s) = Some n -> SetString ("-" +:+ s) = Some (- Z.of_N n)%Z.
Proof. intros Hn. unfold SetString. simpl. change ("" +:+ s) with s. by rewrite Hn. Qed.

Lemma SetString_plus s n :
  natScan (chars s) = Some n -> SetString ("+" +:+ s) = Some (Z.of_N n).
Proof. intros Hn. unfold SetString. simpl. change ("" +:+ s) with s. by rewrite Hn. Qed.

Lemma SetString_empty : SetString "" = None.
Proof. reflexivity. Qed.

Lemma bigString_inj x y : bigString x = bigString y -> x = y.
Proof. apply (inj pretty). Qed.

End strconv.
