(* ===== verification/Regexp.v ===== *)
(** * Regexp: the two regular expressions of the validators

    The validators of src/shared/utils/cli/validation.go match a value
    against two patterns with [regexp.MustCompile(p).MatchString(v)].
    Both patterns are anchored at the two ends, so a match is a match of
    the whole value.  This file has regular expressions over bytes
    ([re]), the language of an expression ([lang]), a matcher by
    derivatives ([matches]) proved to decide the language
    ([matches_lang]), and what the two patterns accept, stated on the
    value itself ([timezone_matches], [email_matches]).

    The classes of the two patterns are sets of ASCII characters or
    complements of such sets, and the bytes of a rune outside ASCII are
    all outside ASCII, so matching bytes and matching runes accept the
    same strings.  (Package regexp is not under src/.) *)

From Stdlib Require Import Ascii NArith.
From stdpp Require Import strings list.
From S2P Require Import Prelude Strings.

Module regexp.
Import strings.

(** ** Definitions *)

Inductive re : Type :=
  | Empty
  | Eps
  | Class (p : ascii -> bool)
  | Cat (r1 r2 : re)
  | Alt (r1 r2 : re)
  | Star (r : re).

(** [r+] and [r{2,}]. *)
Definition Plus (r : re) : re := Cat r (Star r).
Definition AtLeast2 (r : re) : re := Cat r (Plus r).

(** The strings of an expression. *)
Inductive lang : re -> list ascii -> Prop :=
  | lang_eps : lang Eps []
  | lang_class p c : p c = true -> lang (Class p) [c]
  | lang_cat r1 r2 l1 l2 : lang r1 l1 -> lang r2 l2 -> lang (Cat r1 r2) (l1 ++ l2)
  | lang_alt_l r1 r2 l : lang r1 l -> lang (Alt r1 r2) l
  | lang_alt_r r1 r2 l : lang r2 l -> lang (Alt r1 r2) l
  | lang_star_nil r : lang (Star r) []
  | lang_star_cons r l1 l2 : lang r l1 -> lang (Star r) l2 -> lang (Star r) (l1 ++ l2).

Fixpoint nullable (r : re) : bool :=
  match r with
  | Empty | Class _ => false
  | Eps | Star _ => true
  | Cat r1 r2 => nullable r1 && nullable r2
  | Alt r1 r2 => nullable r1 || nullable r2
  end.

(** The expression of what may follow the byte [c]. *)
Fixpoint deriv (c : ascii) (r : re) : re :=
  match r with
  | Empty | Eps => Empty
  | Class p => if p c then Eps else Empty
  | Cat r1 r2 =>
      if nullable r1 then Alt (Cat (deriv c r1) r2) (deriv c r2)
      else Cat (deriv c r1) r2
  | Alt r1 r2 => Alt (deriv c r1) (deriv c r2)
  | Star r => Cat (deriv c r) (Star r)
  end.

Definition matches (r : re) (l : list ascii) : bool :=
  nullable (foldl (fun r c => deriv c r) r l).

(** [MatchString] for a pattern [^r$]. *)
Definition MatchString (r : re) (s : string) : bool := matches r (chars s).

(** The class [\w]: [0-9A-Za-z_]. *)
Definition wordChar (c : ascii) : bool :=
  ((48 <=? code c)%N && (code c <=? 57)%N) || isUpper c || isLower c
  || (code c =? 95)%N.

(** The class [\S]: every byte but tab, line feed, form feed, carriage
    return and space.  (The vertical tab is not white space here.) *)
Definition nonSpace (c : ascii) : bool :=
  negb (bool_decide (code c ∈ [9; 10; 12; 13; 32]%N)).

Definition Lit (c : ascii) : re := Class (fun c' => bool_decide (c' = c)).

(** [^\w{2,}\/\w{2,}$]. *)
Definition timezonePattern : re :=
  Cat (AtLeast2 (Class wordChar)) (Cat (Lit "/") (AtLeast2 (Class wordChar))).

(** [^\S+@\S+(\.\S+)+$]. *)
Definition emailPattern : re :=
  Cat (Plus (Class nonSpace))
    (Cat (Lit "@")
       (Cat (Plus (Class nonSpace)) (Plus (Cat (Lit ".") (Plus (Class nonSpace)))))).

(** ** The matcher decides the language *)

#[export] Hint Constructors lang : go.

Lemma lang_nil_nullable r l : lang r l -> l = [] -> nullable r = true.
Proof.
  induction 1 as [|p c Hc|r1 r2 l1 l2 _ IH1 _ IH2|r1 r2 l _ IH|r1 r2 l _ IH| |];
    intros Hl; simpl; try done.
  - apply app_eq_nil in Hl as [-> ->]. by rewrite IH1, IH2.
  - by rewrite IH.
  - rewrite IH by done. apply orb_true_r.
Qed.

Lemma nullable_lang r : nullable r = true <-> lang r [].
Proof.
  split; [|intros Hr; by eapply lang_nil_nullable].
  induction r as [| |p|r1 IH1 r2 IH2|r1 IH1 r2 IH2|r IH]; simpl; try done;
    eauto with go.
  - intros [??]%andb_true_iff. apply (lang_cat _ _ [] []); auto.
  - intros [?|?]%orb_true_iff; eauto with go.
Qed.

Lemma lang_cat_inv r1 r2 l :
  lang (Cat r1 r2) l <-> exists l1 l2, l = l1 ++ l2 /\ lang r1 l1 /\ lang r2 l2.
Proof.
  split; [inversion 1; eauto|]. intros (l1 & l2 & -> & ? & ?). by constructor.
Qed.

Lemma lang_alt_inv r1 r2 l : lang (Alt r1 r2) l <-> lang r1 l \/ lang r2 l.
Proof. split; [inversion 1; auto|]. intros [?|?]; eauto with go. Qed.

Lemma lang_class_inv p l : lang (Class p) l <-> exists c, l = [c] /\ p c = true.
Proof. split; [inversion 1; eauto|]. intros (c & -> & ?). by constructor. Qed.

Lemma lang_eps_inv l : lang Eps l <-> l = [].
Proof. split; [by inversion 1|]. intros ->. constructor. Qed.

Lemma lang_empty_inv l : ~ lang Empty l.
Proof. inversion 1. Qed.

(** A string of [Star r] that starts with [c] starts with a string of
    [r] that starts with [c]. *)
Lemma lang_star_cons_inv r c l :
  lang (Star r) (c :: l) ->
  exists l1 l2, l = l1 ++ l2 /\ lang r (c :: l1) /\ lang (Star r) l2.
Proof.
  intros H. remember (Star r) as r0 eqn:Er. remember (c :: l) as l0 eqn:El.
  revert l El. induction H as [| | | | | |r' l1 l2 H1 _ H2 IH2]; intros k El; try done.
  injection Er as ->. destruct l1 as [|c' l1]; [by apply IH2|].
  injection El as -> <-. eauto.
Qed.

Lemma deriv_sound c r l : lang (deriv c r) l -> lang r (c :: l).
Proof.
  revert l. induction r as [| |p|r1 IH1 r2 IH2|r1 IH1 r2 IH2|r IH]; intros l; simpl.
  - by intros ?%lang_empty_inv.
  - by intros ?%lang_empty_inv.
  - destruct (p c) eqn:Hc; [|by intros ?%lang_empty_inv].
    intros ->%lang_eps_inv. by constructor.
  - destruct (nullable r1) eqn:Hn.
    + intros [(l1 & l2 & -> & H1 & H2)%lang_cat_inv|H2]%lang_alt_inv.
      * apply (lang_cat _ _ (c :: l1)); auto.
      * apply (lang_cat _ _ []); [by apply nullable_lang|auto].
    + intros (l1 & l2 & -> & H1 & H2)%lang_cat_inv.
      apply (lang_cat _ _ (c :: l1)); auto.
  - intros [?|?]%lang_alt_inv; eauto with go.
  - intros (l1 & l2 & -> & H1 & H2)%lang_cat_inv.
    apply (lang_star_cons _ (c :: l1)); auto.
Qed.

Lemma deriv_complete c r l : lang r (c :: l) -> lang (deriv c r) l.
Proof.
  revert l. induction r as [| |p|r1 IH1 r2 IH2|r1 IH1 r2 IH2|r IH]; intros l; simpl.
  - by intros ?%lang_empty_inv.
  - by intros ?%lang_eps_inv.
  - intros (c' & [= <- ->] & ->)%lang_class_inv. constructor.
  - intros ([|c' l1] & l2 & Hl & H1 & H2)%lang_cat_inv; simpl in Hl; subst.
    + rewrite (proj2 (nullable_lang r1)) by done. apply lang_alt_r. auto.
    + injection Hl as <- ->. destruct (nullable r1); [apply lang_alt_l|];
        apply lang_cat; auto.
  - intros [?|?]%lang_alt_inv; eauto with go.
  - intros (l1 & l2 & -> & H1 & H2)%lang_star_cons_inv. apply lang_cat; auto.
Qed.

Lemma matches_cons r c l : matches r (c :: l) = matches (deriv c r) l.
Proof. reflexivity. Qed.

(** The matcher accepts the strings of the expression, and no other. *)
Lemma matches_lang r l : matches r l = true <-> lang r l.
Proof.
  revert r. induction l as [|c l IH]; intros r; [apply nullable_lang|].
  rewrite matches_cons, IH. split; [apply deriv_sound|apply deriv_complete].
Qed.

(** ** Repetitions of a class *)

(** Every byte of [l] is in the class [p]. *)
Definition all (p : ascii -> bool) (l : list ascii) : Prop :=
  Forall (fun c => p c = true) l.

(** When the strings of [r] satisfy [P], so do those of [Star r]. *)
Lemma lang_star_Forall (P : ascii -> Prop) r l :
  (forall k, lang r k -> Forall P k) -> lang (Star r) l -> Forall P l.
Proof.
  intros Hr H. remember (Star r) as r0 eqn:Er.
  induction H as [| | | | | |r' l1 l2 H1 _ H2 IH2]; try discriminate; [constructor|].
  injection Er as ->. apply Forall_app. auto.
Qed.

Lemma lang_lit c l : lang (Lit c) l <-> l = [c].
Proof.
  unfold Lit. rewrite lang_class_inv. split.
  - by intros (c' & -> & ->%bool_decide_eq_true).
  - intros ->. exists c. by rewrite bool_decide_eq_true.
Qed.

Lemma lang_star_class p l : lang (Star (Class p)) l <-> all p l.
Proof.
  split.
  - apply lang_star_Forall. intros k (c & -> & Hc)%lang_class_inv. by repeat constructor.
  - induction 1 as [|c l Hc _ IH]; [constructor|].
    apply (lang_star_cons _ [c]); [by constructor|done].
Qed.

Lemma lang_plus_class p l : lang (Plus (Class p)) l <-> l <> [] /\ all p l.
Proof.
  unfold Plus. rewrite lang_cat_inv. split.
  - intros (l1 & l2 & -> & (c & -> & Hc)%lang_class_inv & Hl%lang_star_class).
    split; [done|]. by constructor.
  - intros [Hne Hl]. destruct Hl as [|c l Hc Hl]; [done|].
    exists [c], l. split_and!; [done|by constructor|by apply lang_star_class].
Qed.

Lemma lang_atLeast2_class p l : lang (AtLeast2 (Class p)) l <-> 2 <= length l /\ all p l.
Proof.
  unfold AtLeast2. rewrite lang_cat_inv. split.
  - intros (l1 & l2 & -> & (c & -> & Hc)%lang_class_inv & [Hne Hl]%lang_plus_class).
    split; [destruct l2; [done|simpl; lia]|by constructor].
  - intros [Hlen Hl]. destruct Hl as [|c l Hc Hl]; [simpl in Hlen; lia|].
    exists [c], l. split_and!; [done|by constructor|].
    apply lang_plus_class. split; [|done]. destruct l; [simpl in Hlen; lia|done].
Qed.

(** ** What the two patterns accept *)

(** [^\w{2,}\/\w{2,}$]: two words of two characters or more around one
    slash. *)
Lemma timezone_lang l :
  lang timezonePattern l <->
  exists a b, l = a ++ "/"%char :: b /\
    2 <= length a /\ all wordChar a /\ 2 <= length b /\ all wordChar b.
Proof.
  unfold timezonePattern. rewrite lang_cat_inv. split.
  - intros (a & k & -> & [??]%lang_atLeast2_class &
            (s & b & -> & ->%lang_lit & [??]%lang_atLeast2_class)%lang_cat_inv).
    by exists a, b.
  - intros (a & b & -> & ? & ? & ? & ?). exists a, ("/"%char :: b).
    split_and!; [done|by apply lang_atLeast2_class|].
    apply (lang_cat _ _ ["/"%char] b); [by apply lang_lit|by apply lang_atLeast2_class].
Qed.

Lemma nonSpace_dot : nonSpace "."%char = true.
Proof. reflexivity. Qed.

(** The tail [(\.\S+)+]: a dot and one byte or more; further dots are
    bytes like the others. *)
Lemma lang_dotted l :
  lang (Plus (Cat (Lit ".") (Plus (Class nonSpace)))) l <->
  exists z, l = "."%char :: z /\ z <> [] /\ all nonSpace z.
Proof.
  unfold Plus at 1. rewrite lang_cat_inv. split.
  - intros (l1 & l2 & -> & (d & z & -> & ->%lang_lit & [Hne Hz]%lang_plus_class)%lang_cat_inv
            & Hl2).
    exists (z ++ l2). split_and!; [done|by destruct z|]. apply Forall_app. split; [done|].
    revert Hl2. apply lang_star_Forall.
    intros k (d & z' & -> & ->%lang_lit & [_ Hz']%lang_plus_class)%lang_cat_inv.
    constructor; [apply nonSpace_dot|done].
  - intros (z & -> & Hne & Hz). exists ("."%char :: z), []. rewrite (right_id_L [] (++)).
    split_and!; [done| |constructor].
    apply (lang_cat _ _ ["."%char] z); [by apply lang_lit|by apply lang_plus_class].
Qed.

(** [^\S+@\S+(\.\S+)+$]: no white space, and three parts that are not
    empty, the first two around an at sign, the last two around a dot. *)
Lemma email_lang l :
  lang emailPattern l <->
  exists x y z, l = x ++ "@"%char :: y ++ "."%char :: z /\
    x <> [] /\ y <> [] /\ z <> [] /\ all nonSpace x /\ all nonSpace y /\ all nonSpace z.
Proof.
  unfold emailPattern. rewrite lang_cat_inv. split.
  - intros (x & k & -> & [??]%lang_plus_class &
            (a & k' & -> & ->%lang_lit &
             (y & t & -> & [??]%lang_plus_class & (z & -> & ? & ?)%lang_dotted)
               %lang_cat_inv)%lang_cat_inv).
    by exists x, y, z.
  - intros (x & y & z & -> & ? & ? & ? & ? & ? & ?).
    exists x, ("@"%char :: y ++ "."%char :: z).
    split_and!; [done|by apply lang_plus_class|].
    apply (lang_cat _ _ ["@"%char]); [by apply lang_lit|].
    apply lang_cat; [by apply lang_plus_class|]. apply lang_dotted. eauto.
Qed.

Lemma timezone_matches s :
  MatchString timezonePattern s = true <->
  exists a b, chars s = a ++ "/"%char :: b /\
    2 <= length a /\ all wordChar a /\ 2 <= length b /\ all wordChar b.
Proof. unfold MatchString. by rewrite matches_lang, timezone_lang. Qed.

Lemma email_matches s :
  MatchString emailPattern s = true <->
  exists x y z, chars s = x ++ "@"%char :: y ++ "."%char :: z /\
    x <> [] /\ y <> [] /\ z <> [] /\ all nonSpace x /\ all nonSpace y /\ all nonSpace z.
Proof. unfold MatchString. by rewrite matches_lang, email_lang. Qed.

End regexp.
