(* ===== verification/Float64.v ===== *)
(** * Float64: the comparisons of Go's [float64]

    A [float64] of Go is a primitive float of Rocq: both are the binary64
    format of IEEE 754, and the operators [<], [<=] and [==] of Go are
    [ltb], [leb] and [eqb].  The validators of
    src/shared/utils/cli/validation.go test ranges by negated
    comparisons; this file gives what such a test says of the number,
    through the specification of the primitive comparisons on
    [spec_float]: a comparison that does not hold leaves the converse
    comparison or a NaN, and a number equal to a finite number other than
    zero is that number.

    The section [Rounding] is about the rounding of the specification
    ([binary_round_aux]), which the reader of floats of Atof.v applies:
    the rounding of a magnitude is never a NaN
    ([binary_round_aux_not_nan], [SF2Prim_not_nan]), it carries the sign
    it was given ([binary_round_aux_sign], [SF2Prim_sign]), and the
    rounding with the other sign is the opposite float
    ([binary_round_aux_opp], [SF2Prim_opp]).  A float with the sign
    minus is zero or below ([leb_zero_sign]). *)

From Stdlib Require Import ZArith Lia PrimFloat FloatOps FloatAxioms SpecFloat.
From Stdlib Require Uint63.
From stdpp Require Import base tactics.

Module float64.

(** ** Definitions *)

(** [x] passed the test [!(x < lo || x > hi)] of a range. *)
Definition passes (lo hi x : float) : bool := negb ((x <? lo)%float || (hi <? x)%float).

(** [x] is a NaN or lies in the closed range. *)
Definition within (lo hi x : float) : Prop :=
  is_nan x = true \/ ((lo <=? x)%float = true /\ (x <=? hi)%float = true).

(** A finite number other than zero. *)
Definition finiteNonzero (x : float) : bool :=
  match Prim2SF x with S754_finite _ _ _ => true | _ => false end.

(** The sign of a float that is no NaN: [true] for minus. *)
Definition signOf (x : spec_float) : option bool :=
  match x with
  | S754_zero s | S754_infinity s | S754_finite s _ _ => Some s
  | S754_nan => None
  end.

(** ** Comparisons on the specification *)

Lemma SFcompare_antisym x y : SFcompare y x = option_map CompOpp (SFcompare x y).
Proof.
  destruct x as [sx|sx| |sx mx ex], y as [sy|sy| |sy my ey]; simpl; try done;
    try (by destruct sx); try (by destruct sy); try (by destruct sx, sy).
  destruct sx, sy; simpl; try done;
    rewrite (Z.compare_antisym ey ex); destruct (ey ?= ex)%Z; simpl; try done;
    rewrite (Pos.compare_cont_antisym _ _ Eq); simpl; try done.
  by rewrite CompOpp_involutive.
Qed.

Lemma SFcompare_None x y : SFcompare x y = None -> x = S754_nan \/ y = S754_nan.
Proof. destruct x as [sx|sx| |sx mx ex], y as [sy|sy| |sy my ey]; simpl; try done; auto. Qed.

Lemma SFcompare_Eq_finite x s m e :
  SFcompare x (S754_finite s m e) = Some Eq -> x = S754_finite s m e.
Proof.
  destruct x as [sx|sx| |sx mx ex]; simpl; try done; try (by destruct sx); try (by destruct s).
  destruct sx, s; try done; destruct (ex ?= e)%Z eqn:E; try done;
    apply Z.compare_eq in E as ->; intros [= Hm].
  - apply (f_equal CompOpp) in Hm. rewrite CompOpp_involutive in Hm. simpl in Hm.
    by apply Pos.compare_eq in Hm as ->.
  - by apply Pos.compare_eq in Hm as ->.
Qed.

(** ** Comparisons on floats *)

Lemma is_nan_spec x : is_nan x = match Prim2SF x with S754_nan => true | _ => false end.
Proof.
  unfold is_nan. rewrite FloatAxioms.eqb_spec. unfold SFeqb.
  destruct (Prim2SF x) as [s|s| |s m e]; simpl; try done; try by destruct s.
  destruct s; by rewrite Z.compare_refl, Pos.compare_cont_refl.
Qed.

(** What is left when [x < y] does not hold. *)
Lemma ltb_false_leb x y :
  (x <? y)%float = false -> is_nan x = false -> is_nan y = false -> (y <=? x)%float = true.
Proof.
  rewrite FloatAxioms.ltb_spec, FloatAxioms.leb_spec, !is_nan_spec. unfold SFltb, SFleb.
  rewrite (SFcompare_antisym (Prim2SF x) (Prim2SF y)).
  destruct (SFcompare (Prim2SF x) (Prim2SF y)) as [[]|] eqn:E; simpl; try done.
  by apply SFcompare_None in E as [-> | ->].
Qed.

(** What is left when [x <= y] does not hold. *)
Lemma leb_false_ltb x y :
  (x <=? y)%float = false -> is_nan x = false -> is_nan y = false -> (y <? x)%float = true.
Proof.
  rewrite FloatAxioms.ltb_spec, FloatAxioms.leb_spec, !is_nan_spec. unfold SFltb, SFleb.
  rewrite (SFcompare_antisym (Prim2SF x) (Prim2SF y)).
  destruct (SFcompare (Prim2SF x) (Prim2SF y)) as [[]|] eqn:E; simpl; try done.
  by apply SFcompare_None in E as [-> | ->].
Qed.

(** A comparison with a NaN does not hold. *)
Lemma ltb_nan_l x y : is_nan x = true -> (x <? y)%float = false.
Proof.
  rewrite FloatAxioms.ltb_spec, is_nan_spec. unfold SFltb.
  by destruct (Prim2SF x).
Qed.

Lemma ltb_nan_r x y : is_nan y = true -> (x <? y)%float = false.
Proof.
  rewrite FloatAxioms.ltb_spec, is_nan_spec. unfold SFltb.
  by destruct (Prim2SF x), (Prim2SF y).
Qed.

(** The test of a range lets through the numbers of the range and the
    NaNs, and nothing else. *)
Lemma passes_sound lo hi x :
  is_nan lo = false -> is_nan hi = false -> passes lo hi x = true -> within lo hi x.
Proof.
  unfold passes, within. intros Hlo Hhi [Hl Hh]%negb_true_iff%orb_false_iff.
  destruct (is_nan x) eqn:Hx; [by left|right].
  split; by apply ltb_false_leb.
Qed.

Lemma passes_nan lo hi x : is_nan x = true -> passes lo hi x = true.
Proof. intros Hx. unfold passes. by rewrite ltb_nan_l, ltb_nan_r. Qed.

(** Equality with a finite number other than zero is identity; equality
    with zero leaves the two zeros. *)
Lemma eqb_finite x y : finiteNonzero y = true -> (x =? y)%float = true -> x = y.
Proof.
  unfold finiteNonzero. rewrite FloatAxioms.eqb_spec. unfold SFeqb.
  destruct (Prim2SF y) as [s|s| |s m e] eqn:Ey; try done. intros _ Hc.
  apply Prim2SF_inj. rewrite Ey. apply SFcompare_Eq_finite.
  by destruct (SFcompare (Prim2SF x) (S754_finite s m e)) as [[]|].
Qed.

Lemma eqb_zero x : (x =? 0)%float = true -> x = 0%float \/ x = (-0)%float.
Proof.
  rewrite FloatAxioms.eqb_spec. unfold SFeqb. intros Hc.
  assert (Prim2SF x = S754_zero false \/ Prim2SF x = S754_zero true) as [Hx|Hx].
  { replace (Prim2SF 0) with (S754_zero false) in Hc by (by vm_compute).
    destruct (Prim2SF x) as [[]|[]| |[] m e]; simpl in Hc; try done; auto. }
  - left. apply Prim2SF_inj. rewrite Hx. by vm_compute.
  - right. apply Prim2SF_inj. rewrite Hx. by vm_compute.
Qed.

(** ** Rounding gives no NaN *)

Section Rounding.
Context (prec emax : Z).

Lemma iter_pos_invariant {A} (P : A -> Prop) (f : A -> A) p x :
  (forall y, P y -> P (f y)) -> P x -> P (iter_pos f p x).
Proof. intros Hf. revert x. induction p as [p IH|p IH|]; simpl; auto. Qed.

Lemma shr_1_nonneg mrs : (0 <= shr_m mrs)%Z -> (0 <= shr_m (shr_1 mrs))%Z.
Proof. destruct mrs as [[|[p|p|]|[p|p|]] r s]; simpl; lia. Qed.

Lemma shr_nonneg mrs e n : (0 <= shr_m mrs)%Z -> (0 <= shr_m (shr mrs e n).1)%Z.
Proof.
  intros Hm. destruct n as [|p|p]; simpl; [done| |done].
  apply (iter_pos_invariant (fun mrs => 0 <= shr_m mrs)%Z); [apply shr_1_nonneg|done].
Qed.

Lemma shr_fexp_nonneg m e l : (0 <= m)%Z -> (0 <= shr_m (shr_fexp prec emax m e l).1)%Z.
Proof. intros Hm. apply shr_nonneg. by destruct l as [|[]]. Qed.

Lemma round_nearest_even_nonneg m l : (0 <= m)%Z -> (0 <= round_nearest_even m l)%Z.
Proof. intros Hm. destruct l as [|[]]; simpl; try done; [case_match|]; lia. Qed.

(** The rounding of a magnitude is a zero, a number or an infinity. *)
Lemma binary_round_aux_not_nan sx mx ex lx :
  (0 <= mx)%Z -> binary_round_aux prec emax sx mx ex lx <> S754_nan.
Proof.
  intros Hm. unfold binary_round_aux.
  pose proof (shr_fexp_nonneg mx ex lx Hm) as H1.
  destruct (shr_fexp prec emax mx ex lx) as [mrs' e'].
  pose proof (shr_fexp_nonneg _ e' loc_Exact
                (round_nearest_even_nonneg _ (loc_of_shr_record mrs') H1)) as H2.
  destruct (shr_fexp prec emax _ e' loc_Exact) as [mrs'' e'']. simpl in H2.
  destruct (shr_m mrs'') as [|m|m]; [done| |lia]. by case_match.
Qed.

(** The sign of a rounding is a label: the magnitude is rounded, and the
    result with the other sign is the opposite. *)
Lemma binary_round_aux_opp sx mx ex lx :
  binary_round_aux prec emax (negb sx) mx ex lx
  = SFopp (binary_round_aux prec emax sx mx ex lx).
Proof.
  unfold binary_round_aux. destruct (shr_fexp prec emax mx ex lx) as [mrs' e'].
  destruct (shr_fexp prec emax _ e' loc_Exact) as [mrs'' e''].
  destruct (shr_m mrs'') as [|m|m]; [done| |done]. by case_match.
Qed.

Lemma binary_round_not_nan sx mx ex : binary_round prec emax sx mx ex <> S754_nan.
Proof.
  unfold binary_round. destruct (shl_align _ _ _) as [mz ez].
  by apply binary_round_aux_not_nan.
Qed.

Lemma binary_normalize_not_nan m e szero : binary_normalize prec emax m e szero <> S754_nan.
Proof. destruct m; simpl; [done|apply binary_round_not_nan..]. Qed.

Lemma SFldexp_not_nan x e : x <> S754_nan -> SFldexp prec emax x e <> S754_nan.
Proof. destruct x; simpl; try done. intros _. apply binary_round_not_nan. Qed.

(** The rounding of a magnitude carries the sign it was given. *)
Lemma binary_round_aux_sign sx mx ex lx :
  (0 <= mx)%Z -> signOf (binary_round_aux prec emax sx mx ex lx) = Some sx.
Proof.
  intros Hm. unfold binary_round_aux.
  pose proof (shr_fexp_nonneg mx ex lx Hm) as H1.
  destruct (shr_fexp prec emax mx ex lx) as [mrs' e'].
  pose proof (shr_fexp_nonneg _ e' loc_Exact
                (round_nearest_even_nonneg _ (loc_of_shr_record mrs') H1)) as H2.
  destruct (shr_fexp prec emax _ e' loc_Exact) as [mrs'' e'']. simpl in H2.
  destruct (shr_m mrs'') as [|m|m]; [done| |lia]. by case_match.
Qed.

Lemma binary_round_sign sx mx ex : signOf (binary_round prec emax sx mx ex) = Some sx.
Proof.
  unfold binary_round. destruct (shl_align _ _ _) as [mz ez].
  by apply binary_round_aux_sign.
Qed.

Lemma binary_normalize_sign m e :
  (0 <= m)%Z -> signOf (binary_normalize prec emax m e false) = Some false.
Proof. destruct m; simpl; [done|intros _; apply binary_round_sign|lia]. Qed.

Lemma SFldexp_sign x e : signOf (SFldexp prec emax x e) = signOf x.
Proof. destruct x; simpl; try done. apply binary_round_sign. Qed.

End Rounding.

Lemma SFopp_not_nan x : x <> S754_nan -> SFopp x <> S754_nan.
Proof. by destruct x. Qed.

Lemma is_nan_false x : is_nan x = false <-> Prim2SF x <> S754_nan.
Proof. rewrite is_nan_spec. by destruct (Prim2SF x). Qed.

(** The float of a specification that is no NaN is no NaN. *)
Lemma SF2Prim_not_nan x : x <> S754_nan -> is_nan (SF2Prim x) = false.
Proof.
  destruct x as [[]|[]| |s m e]; try done; intros _. unfold SF2Prim.
  set (f := Z.ldexp _ e).
  assert (is_nan f = false) as Hf.
  { apply is_nan_false. unfold f, Z.ldexp. rewrite ldshiftexp_spec, of_uint63_spec.
    apply SFldexp_not_nan, binary_normalize_not_nan. }
  destruct s; [|done].
  apply is_nan_false. rewrite FloatAxioms.opp_spec. by apply SFopp_not_nan, is_nan_false.
Qed.

(** The float of the opposite is the opposite float. *)
Lemma SF2Prim_opp x : x <> S754_nan -> SF2Prim (SFopp x) = (- SF2Prim x)%float.
Proof.
  destruct x as [[]|[]| |[] m e]; try done; intros _; try (by vm_compute).
  unfold SFopp, SF2Prim, negb. apply Prim2SF_inj. rewrite !FloatAxioms.opp_spec.
  by destruct (Prim2SF (Z.ldexp _ e)) as [[]|[]| |[] m' e'].
Qed.

(** A float and its opposite are infinite together. *)
Lemma abs_opp x : abs (- x) = abs x.
Proof.
  apply Prim2SF_inj. rewrite !FloatAxioms.abs_spec, FloatAxioms.opp_spec.
  by destruct (Prim2SF x).
Qed.

Lemma is_infinity_opp x : is_infinity (- x) = is_infinity x.
Proof. unfold is_infinity. by rewrite abs_opp. Qed.

(** ** Signs *)

(** The float of a specification has its sign. *)
Lemma SF2Prim_sign x : x <> S754_nan -> signOf (Prim2SF (SF2Prim x)) = signOf x.
Proof.
  intros Hx. destruct x as [[]|[]| |s m e]; [by vm_compute..|done|].
  unfold SF2Prim. set (f := Z.ldexp _ e).
  assert (signOf (Prim2SF f) = Some false) as Hf.
  { unfold f, Z.ldexp. rewrite ldshiftexp_spec, of_uint63_spec, SFldexp_sign.
    apply binary_normalize_sign, Uint63.to_Z_bounded. }
  destruct s; [|done]. rewrite FloatAxioms.opp_spec.
  by destruct (Prim2SF f) as [[]|[]| |[] m' e'].
Qed.

(** A float with the sign minus is zero or below. *)
Lemma leb_zero_sign x : signOf (Prim2SF x) = Some true -> (x <=? 0)%float = true.
Proof.
  rewrite FloatAxioms.leb_spec. unfold SFleb.
  replace (Prim2SF 0) with (S754_zero false) by (by vm_compute).
  by destruct (Prim2SF x) as [[]|[]| |[] m e].
Qed.

(** A float with the sign minus that is not below zero is the zero
    with that sign. *)
Lemma ltb_zero_sign x :
  signOf (Prim2SF x) = Some true -> (x <? 0)%float = false -> x = (-0)%float.
Proof.
  rewrite FloatAxioms.ltb_spec. unfold SFltb.
  replace (Prim2SF 0) with (S754_zero false) by (by vm_compute).
  intros Hs Hc. apply Prim2SF_inj.
  by destruct (Prim2SF x) as [[]|[]| |[] m e].
Qed.

End float64.
