(* ===== verification/Atof.v ===== *)
(** * Atof: [strconv.ParseFloat]

    [strconv.ParseFloat(s, 64)] of the Go library, which the validators
    of amounts call (src/shared/utils/cli/validation.go, lines 84, 94 and
    104); there is no code of package strconv under src/, the model
    follows the functions of the library's atof.go: [special] reads the
    infinities and the NaN, [readFloat] scans a decimal or a hexadecimal
    number with its exponent, [underscoreOK] checks the underscores, and
    [ParseFloat] asks that the whole text was read.

    The number read is the binary64 number nearest to the number
    written, a tie going to the even mantissa: the rounding of the
    specification of floats ([binary_round_aux]) applied to the exact
    quotient.  The library reaches the same number by three paths, two of
    them fast; it keeps nineteen digits of the mantissa and a flag for
    the rest, the model keeps the digits.  A number too large for the
    format is the error [ErrRange]. *)

From Stdlib Require Import Ascii NArith ZArith Lia PrimFloat FloatOps FloatAxioms SpecFloat.
From stdpp Require Import strings list.
From S2P Require Import Prelude Strings Strconv Float64.

Module atof.
Import strings.

(** ** Definitions *)

(** [lower(c)]: [c | ('x' - 'X')]. *)
Definition lower (c : ascii) : ascii := ascii_of_N (N.lor (code c) 32).

Definition isDigit (c : ascii) : bool := (48 <=? code c)%N && (code c <=? 57)%N.

(** ['a' <= lower(c) && lower(c) <= 'f']. *)
Definition isHexLetter (c : ascii) : bool :=
  (97 <=? code (lower c))%N && (code (lower c) <=? 102)%N.

(** [commonPrefixLenIgnoreCase(s, prefix)], for a [prefix] in lower
    case. *)
Fixpoint commonPrefixLenIgnoreCase (s prefix : list ascii) : nat :=
  match s, prefix with
  | c :: s', p :: prefix' =>
      if decide (lowerByte c = p) then S (commonPrefixLenIgnoreCase s' prefix') else 0
  | _, _ => 0
  end.

(** The case of [special] for an infinity: what follows the sign starts
    with [inf] or with [infinity]. *)
Definition specialInf (neg : bool) (nsign : nat) (s : list ascii) : option (float * nat) :=
  let n := commonPrefixLenIgnoreCase s (chars "infinity") in
  let n := if (3 <? n) && (n <? 8) then 3 else n in
  if (n =? 3) || (n =? 8)
  then Some (if neg then neg_infinity else infinity, nsign + n)
  else None.

(** [special(s)]: the value and the number of bytes read. *)
Definition special (s : list ascii) : option (float * nat) :=
  match s with
  | [] => None
  | c :: s' =>
      if decide (c = "+"%char) then specialInf false 1 s'
      else if decide (c = "-"%char) then specialInf true 1 s'
      else if decide (c = "i"%char \/ c = "I"%char) then specialInf false 0 s
      else if decide (c = "n"%char \/ c = "N"%char) then
        if commonPrefixLenIgnoreCase s (chars "nan") =? 3 then Some (nan, 3) else None
      else None
  end.

(** What the last byte seen was, in [underscoreOK]. *)
Inductive saw := SawStart | SawDigit | SawUnderscore | SawOther.

#[global] Instance saw_eq_dec : EqDecision saw.
Proof. solve_decision. Defined.

(** The loop of [underscoreOK]. *)
Fixpoint underscoreLoop (hex : bool) (s : list ascii) (last : saw) : bool :=
  match s with
  | [] => negb (bool_decide (last = SawUnderscore))
  | c :: s' =>
      if isDigit c || (hex && isHexLetter c) then underscoreLoop hex s' SawDigit
      else if decide (c = "_"%char) then
        if decide (last = SawDigit) then underscoreLoop hex s' SawUnderscore else false
      else if decide (last = SawUnderscore) then false
      else underscoreLoop hex s' SawOther
  end.

(** [underscoreOK(s)]: an underscore stands between two digits, or
    between a base prefix and a digit. *)
Definition underscoreOK (s : list ascii) : bool :=
  let s := match s with
           | c :: s' => if decide (c = "-"%char \/ c = "+"%char) then s' else s
           | [] => s
           end in
  match s with
  | c0 :: c1 :: s' =>
      if bool_decide (c0 = "0"%char)
         && bool_decide (lower c1 = "b"%char \/ lower c1 = "o"%char \/ lower c1 = "x"%char)
      then underscoreLoop (bool_decide (lower c1 = "x"%char)) s' SawDigit
      else underscoreLoop false s SawStart
  | _ => underscoreLoop false s SawStart
  end.

(** The variables of the first loop of [readFloat]. *)
Record mantissaState := mkMantissa {
  mantissa : Z;
  nd : Z;
  dp : Z;
  sawdot : bool;
  sawdigits : bool;
  underscores : bool;
}.

Definition addDigit (base d : Z) (st : mantissaState) : mantissaState :=
  {| mantissa := mantissa st * base + d; nd := nd st + 1; dp := dp st;
     sawdot := sawdot st; sawdigits := true; underscores := underscores st |}.

(** The first loop of [readFloat]: the digits and the point.  Returns
    the variables and the text from the first byte that is not part of
    the mantissa. *)
Fixpoint readMantissa (hex : bool) (s : list ascii) (st : mantissaState) :
    mantissaState * list ascii :=
  match s with
  | [] => (st, [])
  | c :: s' =>
      if decide (c = "_"%char) then
        readMantissa hex s'
          {| mantissa := mantissa st; nd := nd st; dp := dp st; sawdot := sawdot st;
             sawdigits := sawdigits st; underscores := true |}
      else if decide (c = "."%char) then
        if sawdot st then (st, s)
        else readMantissa hex s'
               {| mantissa := mantissa st; nd := nd st; dp := nd st; sawdot := true;
                  sawdigits := sawdigits st; underscores := underscores st |}
      else if isDigit c then
        if bool_decide (c = "0"%char) && (nd st =? 0)%Z then
          readMantissa hex s'
            {| mantissa := mantissa st; nd := nd st; dp := dp st - 1; sawdot := sawdot st;
               sawdigits := true; underscores := underscores st |}
        else readMantissa hex s'
               (addDigit (if hex then 16 else 10) (Z.of_N (code c) - 48) st)
      else if hex && isHexLetter c then
        readMantissa hex s' (addDigit 16 (Z.of_N (code (lower c)) - 97 + 10) st)
      else (st, s)
  end.

(** The loop of the exponent: digits and underscores, the value kept
    below 100000. *)
Fixpoint readExponent (s : list ascii) (e : Z) (underscores : bool) :
    Z * bool * list ascii :=
  match s with
  | c :: s' =>
      if isDigit c then
        readExponent s' (if (e <? 10000)%Z then e * 10 + (Z.of_N (code c) - 48) else e)
          underscores
      else if decide (c = "_"%char) then readExponent s' e true
      else (e, underscores, s)
  | [] => (e, underscores, [])
  end.

(** What [readFloat] returns when [ok]: the mantissa, the exponent of
    the base 10 or, for a hexadecimal number, 2, the sign, and the text
    that was not read. *)
Record number := mkNumber {
  mant : Z;
  exp : Z;
  neg : bool;
  hex : bool;
  rest : list ascii;
}.

(** The part of [readFloat] after the mantissa: the exponent, and the
    check of the underscores in the text read. *)
Definition readTail (s : list ascii) (neg hex : bool) (st : mantissaState)
    (after : list ascii) : option number :=
  let dp := if sawdot st then dp st else nd st in
  let dp := (if hex then dp * 4 else dp)%Z in
  let ndMant := (if hex then nd st * 4 else nd st)%Z in
  let finish (dp : Z) (underscores : bool) (after : list ascii) :=
    let read := take (length s - length after) s in
    if underscores && negb (underscoreOK read) then None
    else Some {| mant := mantissa st;
                 exp := if (mantissa st =? 0)%Z then 0%Z else (dp - ndMant)%Z;
                 neg := neg; hex := hex; rest := after |} in
  match after with
  | c :: after' =>
      if decide (lower c = (if hex then "p" else "e")%char) then
        match after' with
        | [] => None
        | c1 :: after'' =>
            let esign := if decide (c1 = "-"%char) then (-1)%Z else 1%Z in
            let digits := if decide (c1 = "+"%char \/ c1 = "-"%char) then after'' else after' in
            match digits with
            | d :: _ =>
                if isDigit d then
                  let '(e, underscores, after) := readExponent digits 0 (underscores st) in
                  finish (dp + e * esign)%Z underscores after
                else None
            | [] => None
            end
        end
      else if hex then None
      else finish dp (underscores st) after
  | [] => if hex then None else finish dp (underscores st) after
  end.

(** The optional sign at the head of [readFloat]. *)
Definition readSign (s : list ascii) : bool * list ascii :=
  match s with
  | c :: s' =>
      if decide (c = "+"%char) then (false, s')
      else if decide (c = "-"%char) then (true, s')
      else (false, s)
  | [] => (false, [])
  end.

(** The base prefix: [0x] or [0X] with a byte after it. *)
Definition readBase (s : list ascii) : bool * list ascii :=
  match s with
  | c0 :: c1 :: c2 :: s' =>
      if bool_decide (c0 = "0"%char) && bool_decide (lower c1 = "x"%char)
      then (true, c2 :: s') else (false, s)
  | _ => (false, s)
  end.

Definition mantissa0 : mantissaState :=
  {| mantissa := 0; nd := 0; dp := 0; sawdot := false; sawdigits := false;
     underscores := false |}.

(** [readFloat(s)], [None] when it does not return [ok]. *)
Definition readFloat (s : list ascii) : option number :=
  match s with
  | [] => None
  | _ =>
      let sign := readSign s in
      let base := readBase sign.2 in
      let digits := readMantissa base.1 base.2 mantissa0 in
      if negb (sawdigits digits.1) then None
      else readTail s sign.1 base.1 digits.1 digits.2
  end.

(** The number [num / den] rounded to binary64, to the nearest, a tie to
    the even mantissa, with the sign [neg]. *)
Definition nearest (neg : bool) (num den : Z) : spec_float :=
  if (num =? 0)%Z then S754_zero neg
  else
    let '(q, e, l) := SFdiv_core_binary prec emax num 0 den 0 in
    binary_round_aux prec emax neg q e l.

(** The number that [r] spells, rounded. *)
Definition valueOf (r : number) : float :=
  let base := if hex r then 2%Z else 10%Z in
  SF2Prim (nearest (neg r) (mant r * base ^ Z.max (exp r) 0) (base ^ Z.max (- exp r) 0)).

(** [atof64(s)]: the result and the number of bytes read when there is
    no error of syntax. *)
Definition atof64 (s : list ascii) : result float * nat :=
  match special s with
  | Some (val, n) => (Ok val, n)
  | None =>
      match readFloat s with
      | None => (Err strconv.ErrSyntax, 0)
      | Some r =>
          let f := valueOf r in
          (if is_infinity f then Err strconv.ErrRange else Ok f, length s - length (rest r))
      end
  end.

(** [strconv.ParseFloat(s, 64)]. *)
Definition ParseFloat (s : string) : result float :=
  let '(f, n) := atof64 (chars s) in
  let syntax := match f with
                | Err e => bool_decide (e = strconv.ErrSyntax)
                | _ => false
                end in
  if negb (n =? length (chars s)) && negb syntax then Err strconv.ErrSyntax else f.

(** The words [special] reads, in lower case, and their values. *)
Definition specials : list string :=
  ["nan"; "inf"; "+inf"; "-inf"; "infinity"; "+infinity"; "-infinity"].

Definition specialValue (w : string) : float :=
  if decide (w = "nan") then nan
  else if decide (head (chars w) = Some "-"%char) then neg_infinity
  else infinity.

(** ** Decimal texts

    The texts of the usual syntax, without underscores: a sign or none,
    digits with a point or without, an exponent or none.  [readFloat]
    reads every such text to its end, as the number it spells. *)

(** A sign as it is written: nothing, [+] or [-]. *)
Inductive signText := NoSign | PlusSign | MinusSign.

Definition signChars (g : signText) : list ascii :=
  match g with
  | NoSign => []
  | PlusSign => ["+"%char]
  | MinusSign => ["-"%char]
  end.

Definition isMinus (g : signText) : bool :=
  match g with MinusSign => true | _ => false end.

(** The character of a digit. *)
Definition digitChar (d : N) : ascii := ascii_of_N (48 + d).

(** A decimal text: its sign, the digits before the point, the digits
    after the point when there is one, and the exponent when there is
    one: the letter, the sign and the digits. *)
Record decimalText := mkDecimal {
  dsign : signText;
  dint : list N;
  dfrac : option (list N);
  dexp : option (ascii * signText * list N);
}.

Definition fracDigits (t : decimalText) : list N := default [] (dfrac t).

(** The digits and the point. *)
Definition mantissaChars (t : decimalText) : list ascii :=
  (digitChar <$> dint t)
  ++ match dfrac t with
     | Some ds => "."%char :: (digitChar <$> ds)
     | None => []
     end.

Definition exponentChars (t : decimalText) : list ascii :=
  match dexp t with
  | Some (e, g, ds) => e :: signChars g ++ (digitChar <$> ds)
  | None => []
  end.

Definition render (t : decimalText) : list ascii :=
  signChars (dsign t) ++ mantissaChars t ++ exponentChars t.

Definition isDigits (ds : list N) : bool := forallb (fun d => d <=? 9)%N ds.

(** A text with a digit in its mantissa, and in its exponent, when
    there is one, the letter and a digit. *)
Definition wellFormed (t : decimalText) : bool :=
  isDigits (dint t) && isDigits (fracDigits t)
  && negb (bool_decide (dint t ++ fracDigits t = []))
  && match dexp t with
     | Some (e, g, ds) =>
         bool_decide (lower e = "e"%char) && isDigits ds && negb (bool_decide (ds = []))
     | None => true
     end.

(** One round of the loop of the exponent: a digit is added while the
    exponent is below 10000. *)
Definition clamp (e : Z) (d : N) : Z :=
  if (e <? 10000)%Z then (e * 10 + Z.of_N d)%Z else e.

(** The exponent of a text as the loop keeps it: the value of its
    digits when that is below 100000 ([exponentOf_small]), and a number
    from 10000 to 99999 otherwise. *)
Definition exponentOf (t : decimalText) : Z :=
  match dexp t with
  | Some (_, g, ds) => (if isMinus g then - foldl clamp 0 ds else foldl clamp 0 ds)%Z
  | None => 0%Z
  end.

(** The exponent a text spells, and whether the loop keeps it. *)
Definition spelledExponent (t : decimalText) : Z :=
  match dexp t with
  | Some (_, g, ds) =>
      (if isMinus g then - Z.of_N (strconv.value ds) else Z.of_N (strconv.value ds))%Z
  | None => 0%Z
  end.

Definition smallExponent (t : decimalText) : bool :=
  match dexp t with
  | Some (_, _, ds) => (strconv.value ds <? 100000)%N
  | None => true
  end.

(** The number a text spells: the digits as one integer, and the power
    of ten that puts the point in its place, from the exponent as the
    loop keeps it. *)
Definition meaning (t : decimalText) : number :=
  let m := Z.of_N (strconv.value (dint t ++ fracDigits t)) in
  {| mant := m;
     exp := if (m =? 0)%Z then 0%Z
            else (exponentOf t - Z.of_nat (length (fracDigits t)))%Z;
     neg := isMinus (dsign t);
     hex := false;
     rest := [] |}.

(** ** The special values *)

(** The byte that [lowerByte] takes to [p] is [p] or, when [p] is a
    small letter, the capital. *)
Lemma lowerByte_inv c p :
  lowerByte c = p -> c = p \/ (c = ascii_of_N (code p - 32) /\ isLower p = true).
Proof.
  intros <-. destruct (isUpper c) eqn:E; [right|left; unfold lowerByte; by rewrite E].
  destruct (lowerByte_upper c E) as [Hc Hl]. split; [|done].
  rewrite Hc, N.add_sub. unfold code. by rewrite ascii_N_embedding.
Qed.

Lemma commonPrefix_lower s p :
  commonPrefixLenIgnoreCase (lowerByte <$> s) p = commonPrefixLenIgnoreCase s p.
Proof.
  revert p. induction s as [|c s IH]; intros [|q p]; simpl; try done.
  rewrite lowerByte_idemp, IH. done.
Qed.

Lemma commonPrefix_le s p : commonPrefixLenIgnoreCase s p <= length p.
Proof.
  revert p. induction s as [|c s IH]; intros [|q p]; simpl; try lia.
  case_decide; [|lia]. specialize (IH p). lia.
Qed.

(** The bytes counted are those of the prefix. *)
Lemma commonPrefix_take s p n :
  n <= commonPrefixLenIgnoreCase s p -> lowerByte <$> take n s = take n p /\ n <= length s.
Proof.
  revert s p. induction n as [|n IH]; intros s p Hn; [split; [done|lia]|].
  destruct s as [|c s], p as [|q p]; cbn [commonPrefixLenIgnoreCase] in Hn; try lia.
  case_decide as Hc; [|lia]. destruct (IH s p) as [IH1 IH2]; [lia|].
  cbn [take length]. rewrite fmap_cons, IH1, Hc. split; [done|lia].
Qed.

Lemma specialInf_lower neg nsign s :
  specialInf neg nsign (lowerByte <$> s) = specialInf neg nsign s.
Proof. unfold specialInf. by rewrite commonPrefix_lower. Qed.

(** [special] reads a word whatever the case of its letters. *)
Lemma special_lower s : special (lowerByte <$> s) = special s.
Proof.
  destruct s as [|c s]; [done|]. rewrite fmap_cons. unfold special.
  rewrite <-!(fmap_cons lowerByte c s), !specialInf_lower, commonPrefix_lower.
  repeat case_decide; try done; exfalso;
    repeat match goal with
           | H : _ \/ _ |- _ => destruct H
           | H : lowerByte _ = _ |- _ => apply lowerByte_inv in H as [->|[-> ?]]
           | H : ?c = _ |- _ => is_var c; subst c
           | H : ~ (_ \/ _) |- _ => apply Decidable.not_or in H as [? ?]
           end; try done; by vm_compute in *.
Qed.

Lemma specialInf_spec neg nsign s val n :
  specialInf neg nsign s = Some (val, n) ->
  exists w, w ∈ ["inf"; "infinity"]%string /\ n = nsign + String.length w /\
    lowerByte <$> take (String.length w) s = chars w /\
    String.length w <= length s /\
    val = if neg then neg_infinity else infinity.
Proof.
  unfold specialInf. set (k := commonPrefixLenIgnoreCase s _). intros Hs.
  pose proof (commonPrefix_le s (chars "infinity")) as Hle. fold k in Hle. simpl in Hle.
  destruct (decide (k = 8)) as [Hk|Hk]; [|destruct (decide (3 <= k)) as [Hk3|Hk3]].
  - rewrite Hk in Hs. injection Hs as <- <-. exists "infinity"%string.
    destruct (commonPrefix_take s (chars "infinity") 8) as [H1 H2]; [by fold k; lia|].
    split_and!; [rewrite !elem_of_cons; auto|done..].
  - assert ((if (3 <? k) && (k <? 8) then 3 else k) = 3) as Hn
      by (destruct (Nat.ltb_spec 3 k), (Nat.ltb_spec k 8); simpl; lia).
    rewrite Hn in Hs. injection Hs as <- <-. exists "inf"%string.
    destruct (commonPrefix_take s (chars "infinity") 3) as [H1 H2]; [by fold k; lia|].
    split_and!; [rewrite !elem_of_cons; auto|done..].
  - exfalso. destruct k as [|[|[|]]]; try lia; done.
Qed.

Local Ltac in_specials :=
  unfold specials; cbn [String.append]; rewrite !elem_of_cons; auto 10.

(** What [special] reads is one of the seven words, in any case, and
    the value is the one of the word. *)
Lemma special_spec s val n :
  special s = Some (val, n) ->
  exists w, w ∈ specials /\ n = String.length w /\ n <= length s /\
    lowerByte <$> take n s = chars w /\ val = specialValue w.
Proof.
  destruct s as [|c s]; [done|]. unfold special. intros Hs.
  repeat case_decide; try done; subst.
  - apply specialInf_spec in Hs as (w & Hw & -> & Hl & Hle & ->).
    exists ("+" +:+ w)%string. cbn [Nat.add take]. rewrite fmap_cons, Hl.
    apply elem_of_cons in Hw as [->| ->%list_elem_of_singleton];
      (split_and!; [in_specials|done|simpl in *; lia|done..]).
  - apply specialInf_spec in Hs as (w & Hw & -> & Hl & Hle & ->).
    exists ("-" +:+ w)%string. cbn [Nat.add take]. rewrite fmap_cons, Hl.
    apply elem_of_cons in Hw as [->| ->%list_elem_of_singleton];
      (split_and!; [in_specials|done|simpl in *; lia|done..]).
  - apply specialInf_spec in Hs as (w & Hw & -> & Hl & Hle & ->).
    exists w. apply elem_of_cons in Hw as [->| ->%list_elem_of_singleton];
      (split_and!; [in_specials|done..]).
  - destruct (commonPrefixLenIgnoreCase _ _ =? 3) eqn:E; [|done]. injection Hs as <- <-.
    apply Nat.eqb_eq in E.
    destruct (commonPrefix_take (c :: s) (chars "nan") 3) as [Hp Hq]; [lia|].
    exists "nan"%string. split_and!; [in_specials|done..].
Qed.

(** The seven words.  [ParseFloat] reads [nan], [inf] and
    [infinity], the last two with a sign or without, whatever the case of
    the letters, as the NaN and the infinities. *)
Theorem ParseFloat_special s w :
  w ∈ specials -> ToLower s = w -> ParseFloat s = Ok (specialValue w).
Proof.
  intros Hw Hs.
  assert (lowerByte <$> chars s = chars w) as Hl
    by (rewrite <-Hs; unfold ToLower; by rewrite chars_of_chars).
  assert (length (chars s) = length (chars w)) as Hn by (by rewrite <-Hl, length_fmap).
  unfold ParseFloat, atof64. rewrite <-special_lower, Hl, Hn.
  repeat (apply elem_of_cons in Hw as [->|Hw]; [by vm_compute|]).
  by apply elem_of_nil in Hw.
Qed.

(** ** The numbers *)

Lemma digit_nonneg c : isDigit c = true -> (0 <= Z.of_N (code c) - 48)%Z.
Proof. intros [?%N.leb_le _]%andb_true_iff. lia. Qed.

Lemma hexLetter_nonneg c : isHexLetter c = true -> (0 <= Z.of_N (code (lower c)) - 97 + 10)%Z.
Proof. intros [?%N.leb_le _]%andb_true_iff. lia. Qed.

Lemma addDigit_nonneg base d st :
  (0 <= base)%Z -> (0 <= d)%Z -> (0 <= mantissa st)%Z -> (0 <= mantissa (addDigit base d st))%Z.
Proof. simpl. nia. Qed.

Lemma readMantissa_nonneg hex s st :
  (0 <= mantissa st)%Z -> (0 <= mantissa (readMantissa hex s st).1)%Z.
Proof.
  revert st. induction s as [|c s IH]; intros st Hst; [done|]. simpl.
  repeat case_match; try done; apply IH; try done;
    (apply addDigit_nonneg; [done| |done]);
    first [by apply digit_nonneg|apply hexLetter_nonneg; by destruct hex].
Qed.

Lemma readTail_mant s neg hex st after r :
  readTail s neg hex st after = Some r -> mant r = mantissa st.
Proof.
  unfold readTail. intros Hr.
  repeat (case_match; try done); simplify_eq; done.
Qed.

Lemma readFloat_mant s r : readFloat s = Some r -> (0 <= mant r)%Z.
Proof.
  unfold readFloat. destruct s as [|c s]; [done|]. case_match; [done|].
  intros ->%readTail_mant. by apply readMantissa_nonneg.
Qed.

(** The quotient of a magnitude is a zero or the rounding of a
    magnitude. *)
Lemma nearest_cases neg num den :
  (0 <= num)%Z -> (0 < den)%Z ->
  nearest neg num den = S754_zero neg \/
  exists q e l, (0 <= q)%Z /\ nearest neg num den = binary_round_aux prec emax neg q e l.
Proof.
  intros Hn Hd. unfold nearest. case_match; [by left|right]. unfold SFdiv_core_binary.
  set (m' := match (_ - _ - _)%Z with Z.pos _ => _ | _ => _ end).
  assert (0 <= m')%Z as Hm'.
  { unfold m'. case_match; try lia. rewrite Z.shiftl_mul_pow2 by lia.
    apply Z.mul_nonneg_nonneg; [done|]. apply Z.pow_nonneg. lia. }
  destruct (Z.div_eucl m' den) as [q r] eqn:E. eexists q, _, _. split; [|done].
  replace q with (m' / den)%Z by (unfold Z.div; by rewrite E).
  by apply Z.div_pos.
Qed.

(** It is a zero, a number or an infinity, with the sign given. *)
Lemma nearest_not_nan neg num den :
  (0 <= num)%Z -> (0 < den)%Z -> nearest neg num den <> S754_nan.
Proof.
  intros Hn Hd. destruct (nearest_cases neg num den Hn Hd) as [->|(q & e & l & Hq & ->)];
    [done|by apply float64.binary_round_aux_not_nan].
Qed.

Lemma nearest_sign neg num den :
  (0 <= num)%Z -> (0 < den)%Z -> float64.signOf (nearest neg num den) = Some neg.
Proof.
  intros Hn Hd. destruct (nearest_cases neg num den Hn Hd) as [->|(q & e & l & Hq & ->)];
    [done|by apply float64.binary_round_aux_sign].
Qed.

(** The quotient that [valueOf] rounds. *)
Lemma number_quotient r :
  (0 <= mant r)%Z ->
  let base := if hex r then 2%Z else 10%Z in
  (0 <= mant r * base ^ Z.max (exp r) 0)%Z /\ (0 < base ^ Z.max (- exp r) 0)%Z.
Proof.
  intros Hr base. split.
  - apply Z.mul_nonneg_nonneg; [done|]. apply Z.pow_nonneg. unfold base. by destruct (hex r).
  - apply Z.pow_pos_nonneg; [unfold base; by destruct (hex r)|lia].
Qed.

Lemma valueOf_not_nan r : (0 <= mant r)%Z -> is_nan (valueOf r) = false.
Proof.
  intros [Hn Hd]%number_quotient. by apply float64.SF2Prim_not_nan, nearest_not_nan.
Qed.

Lemma valueOf_sign r :
  (0 <= mant r)%Z -> float64.signOf (Prim2SF (valueOf r)) = Some (neg r).
Proof.
  intros [Hn Hd]%number_quotient. unfold valueOf.
  rewrite float64.SF2Prim_sign by (by apply nearest_not_nan). by apply nearest_sign.
Qed.

(** What [ParseFloat] accepts was read by [special], whole, or by
    [readFloat], to the end and within the range of the format. *)
Lemma ParseFloat_inv s f :
  ParseFloat s = Ok f ->
  (exists w, w ∈ specials /\ ToLower s = w /\ f = specialValue w) \/
  (exists r, readFloat (chars s) = Some r /\ rest r = [] /\ f = valueOf r /\
     is_infinity f = false /\ special (chars s) = None).
Proof.
  unfold ParseFloat, atof64.
  destruct (special (chars s)) as [[val n]|] eqn:Es.
  - destruct (Nat.eqb_spec n (length (chars s))) as [->|]; [|done]. intros [= ->].
    apply special_spec in Es as (w & Hw & Hn & _ & Hl & ->).
    rewrite firstn_all in Hl. left. exists w. split_and!; [done| |done].
    unfold ToLower. by rewrite Hl, of_chars_chars.
  - destruct (readFloat (chars s)) as [r|] eqn:Er; simpl; [|by repeat case_match].
    destruct (is_infinity (valueOf r)) eqn:Ei; simpl; [by repeat case_match|].
    destruct (Nat.eqb_spec (length (chars s) - length (rest r)) (length (chars s)))
      as [Hn|]; [|done].
    intros [= <-]. right. exists r. split_and!; [done| |done..].
    destruct (chars s); [done|]. apply nil_length_inv. simpl in Hn. lia.
Qed.

(** A text that [ParseFloat] accepts is one of the seven words, in any
    case, and its value the NaN or the infinity of the word, or it is
    read as a finite number: a number too large for the format is an
    error and not an infinity. *)
Theorem ParseFloat_finite s f :
  ParseFloat s = Ok f ->
  (exists w, w ∈ specials /\ ToLower s = w /\ f = specialValue w) \/ is_finite f = true.
Proof.
  intros [?|(r & Hr & _ & -> & Hi & _)]%ParseFloat_inv; [by left|right].
  unfold is_finite. by rewrite (valueOf_not_nan r (readFloat_mant _ _ Hr)), Hi.
Qed.

(** ** The sign *)

Lemma readTail_neg s neg hex st after r :
  readTail s neg hex st after = Some r -> atof.neg r = neg.
Proof.
  unfold readTail. intros Hr.
  repeat (case_match; try done); simplify_eq; done.
Qed.

Lemma readSign_minus s : (readSign s).1 = bool_decide (head s = Some "-"%char).
Proof.
  destruct s as [|c s]; [done|]. unfold readSign. cbn [head].
  repeat case_decide; subst; cbn [fst]; by rewrite ?bool_decide_eq_false_2 by congruence.
Qed.

Lemma readFloat_neg s r :
  readFloat s = Some r -> neg r = bool_decide (head s = Some "-"%char).
Proof.
  rewrite <-readSign_minus. unfold readFloat. destruct s as [|c s]; [done|].
  case_match; [done|]. by intros ->%readTail_neg.
Qed.

(** A byte that is no letter passes [ToLower] unchanged; so does the
    minus sign. *)
Lemma head_ToLower p s w :
  isUpper p = false -> isLower p = false -> ToLower s = w ->
  bool_decide (head (chars s) = Some p) = bool_decide (head (chars w) = Some p).
Proof.
  intros Hu Hp <-. unfold ToLower. rewrite chars_of_chars.
  destruct (chars s) as [|c l]; [done|]. cbn [fmap list_fmap head].
  apply bool_decide_ext. split; [intros [= ->]; unfold lowerByte; by rewrite Hu|].
  intros [= [->|[_ Hl]]%lowerByte_inv]; [done|congruence].
Qed.

Lemma head_ToLower_minus s w :
  ToLower s = w ->
  bool_decide (head (chars s) = Some "-"%char) = bool_decide (head (chars w) = Some "-"%char).
Proof. by apply head_ToLower. Qed.

(** The float of a text has the sign of the text: it is below zero, or
    the zero or the infinity with the sign minus, exactly when the text
    begins with the minus sign. *)
Theorem ParseFloat_sign s f :
  ParseFloat s = Ok f ->
  f = nan \/
  float64.signOf (Prim2SF f) = Some (bool_decide (head (chars s) = Some "-"%char)).
Proof.
  intros [(w & Hw & Hs & ->)|(r & Hr & _ & -> & _)]%ParseFloat_inv.
  - rewrite (head_ToLower_minus s w Hs). clear Hs. unfold specials in Hw.
    rewrite !elem_of_cons, elem_of_nil in Hw.
    destruct Hw as [->|[->|[->|[->|[->|[->|[->|[]]]]]]]]; vm_compute; auto.
  - right. rewrite valueOf_sign by by eapply readFloat_mant. f_equal.
    by apply readFloat_neg.
Qed.

(** ** Reading a decimal text *)

Lemma code_digitChar d : (d <= 9)%N -> code (digitChar d) = (48 + d)%N.
Proof. intros Hd. unfold code, digitChar. apply N_ascii_embedding. lia. Qed.

Lemma isDigit_digitChar d : (d <= 9)%N -> isDigit (digitChar d) = true.
Proof.
  intros Hd. unfold isDigit. rewrite code_digitChar by done.
  apply andb_true_iff; split; apply N.leb_le; lia.
Qed.

(** A digit is none of the other characters of a number. *)
Lemma digitChar_ne d c : (d <= 9)%N -> (code c < 48 \/ 57 < code c)%N -> digitChar d <> c.
Proof.
  intros Hd Hc Heq%(f_equal code). rewrite code_digitChar in Heq by done. lia.
Qed.

Lemma digitChar_zero d : (d <= 9)%N -> digitChar d = "0"%char <-> d = 0%N.
Proof.
  intros Hd. split; [|by intros ->]. intros Heq%(f_equal code).
  rewrite code_digitChar in Heq by done. change (code "0") with 48%N in Heq. lia.
Qed.

Lemma isDigits_Forall ds : isDigits ds = true <-> Forall (fun d => d <= 9)%N ds.
Proof.
  unfold isDigits. rewrite forallb_forall, Forall_forall.
  split; intros H d Hd; [apply N.leb_le, H|apply N.leb_le, H]; by apply list_elem_of_In.
Qed.

(** The letter of an exponent. *)
Lemma lower_e c : lower c = "e"%char -> c = "e"%char \/ c = "E"%char.
Proof. destruct c as [[] [] [] [] [] [] [] []]; vm_compute; intros; try done; auto. Qed.

(** One round of the first loop on a digit. *)
Definition readDigit (st : mantissaState) (d : N) : mantissaState :=
  if bool_decide (d = 0%N) && (nd st =? 0)%Z
  then {| mantissa := mantissa st; nd := nd st; dp := dp st - 1; sawdot := sawdot st;
          sawdigits := true; underscores := underscores st |}
  else addDigit 10 (Z.of_N d) st.

Lemma readMantissa_digit d s st :
  (d <= 9)%N ->
  readMantissa false (digitChar d :: s) st = readMantissa false s (readDigit st d).
Proof.
  intros Hd. cbn [readMantissa].
  assert (digitChar d <> "_"%char) by (apply digitChar_ne; [done|]; right; by vm_compute).
  assert (digitChar d <> "."%char) by (apply digitChar_ne; [done|]; left; by vm_compute).
  rewrite (decide_False (P := digitChar d = "_"%char)) by done.
  rewrite (decide_False (P := digitChar d = "."%char)) by done.
  rewrite isDigit_digitChar by done. unfold readDigit.
  rewrite (bool_decide_ext _ _ (digitChar_zero d Hd)), code_digitChar by done.
  replace (Z.of_N (48 + d) - 48)%Z with (Z.of_N d) by lia. by case_match.
Qed.

Lemma readMantissa_digits ds s st :
  isDigits ds = true ->
  readMantissa false ((digitChar <$> ds) ++ s) st = readMantissa false s (foldl readDigit st ds).
Proof.
  intros Hds%isDigits_Forall. revert st.
  induction Hds as [|d ds Hd _ IH]; intros st; [done|].
  rewrite fmap_cons. cbn [app foldl]. by rewrite readMantissa_digit, IH.
Qed.

(** Where the point is, counted from the last digit read. *)
Definition pointAt (st : mantissaState) : Z :=
  ((if sawdot st then dp st else nd st) - nd st)%Z.

(** No digit counted yet, no digit in the mantissa. *)
Definition sane (st : mantissaState) : Prop :=
  (0 <= nd st)%Z /\ (nd st = 0%Z -> mantissa st = 0%Z).

Lemma readDigit_spec st d :
  sane st ->
  let st' := readDigit st d in
  sane st' /\ mantissa st' = (mantissa st * 10 + Z.of_N d)%Z /\
  pointAt st' = (pointAt st - if sawdot st then 1 else 0)%Z /\
  sawdot st' = sawdot st /\ sawdigits st' = true /\ underscores st' = underscores st.
Proof.
  intros [Hn Hm]. unfold readDigit, pointAt, sane.
  case_bool_decide as Hd; destruct (Z.eqb_spec (nd st) 0) as [H0|H0]; simpl;
    destruct (sawdot st); split_and!; try done; try lia.
  all: rewrite ?Hd, ?Hm by done; lia.
Qed.

(** The digits [ds] after the number [m]. *)
Definition valueZ (m : Z) (ds : list N) : Z := foldl (fun a d => a * 10 + Z.of_N d)%Z m ds.

Lemma valueZ_valueFrom n ds : valueZ (Z.of_N n) ds = Z.of_N (strconv.valueFrom n ds).
Proof.
  revert n. induction ds as [|d ds IH]; intros n; [done|].
  cbn [valueZ foldl]. rewrite strconv.valueFrom_cons, <-IH. unfold valueZ. f_equal. lia.
Qed.

Lemma readDigits_spec st ds :
  sane st ->
  let st' := foldl readDigit st ds in
  sane st' /\ mantissa st' = valueZ (mantissa st) ds /\
  pointAt st' = (pointAt st - if sawdot st then Z.of_nat (length ds) else 0)%Z /\
  sawdot st' = sawdot st /\
  sawdigits st' = sawdigits st || negb (bool_decide (ds = [])) /\
  underscores st' = underscores st.
Proof.
  revert st. induction ds as [|d ds IH]; intros st Hst.
  { simpl. rewrite orb_false_r. split_and!; try done. destruct (sawdot st); lia. }
  destruct (readDigit_spec st d Hst) as (Hs & Hm & Hp & Hd & Hg & Hu).
  destruct (IH _ Hs) as (Hs' & Hm' & Hp' & Hd' & Hg' & Hu').
  cbn [foldl]. cbv zeta in *. split_and!; [done|by rewrite Hm', Hm|..|congruence].
  - rewrite Hp', Hp, Hd. cbn [length]. destruct (sawdot st); lia.
  - congruence.
  - rewrite Hg', Hg. by rewrite orb_true_r.
Qed.


(** The first loop at the point, and at the end of the mantissa. *)
Definition setPoint (st : mantissaState) : mantissaState :=
  {| mantissa := mantissa st; nd := nd st; dp := nd st; sawdot := true;
     sawdigits := sawdigits st; underscores := underscores st |}.

Lemma readMantissa_point s st :
  sawdot st = false -> readMantissa false ("."%char :: s) st = readMantissa false s (setPoint st).
Proof. intros Hd. cbn [readMantissa]. by rewrite Hd. Qed.

Lemma wellFormed_exp t e g ds :
  wellFormed t = true -> dexp t = Some (e, g, ds) ->
  lower e = "e"%char /\ isDigits ds = true /\ ds <> [].
Proof.
  unfold wellFormed. intros Ht He. rewrite He, !andb_true_iff in Ht.
  destruct Ht as (_ & (Hl & Hd) & Hn).
  apply bool_decide_eq_true in Hl. by apply negb_true_iff, bool_decide_eq_false in Hn.
Qed.

Lemma readMantissa_stop t st :
  wellFormed t = true -> readMantissa false (exponentChars t) st = (st, exponentChars t).
Proof.
  intros Ht. unfold exponentChars.
  destruct (dexp t) as [[[e g] ds]|] eqn:E; [|done].
  destruct (wellFormed_exp t e g ds Ht E) as (He & _).
  by destruct (lower_e e He) as [-> | ->].
Qed.

(** The variables after the mantissa of [t]. *)
Definition afterMantissa (t : decimalText) : mantissaState :=
  let st := foldl readDigit mantissa0 (dint t) in
  match dfrac t with
  | Some ds => foldl readDigit (setPoint st) ds
  | None => st
  end.

Lemma wellFormed_digits t :
  wellFormed t = true ->
  isDigits (dint t) = true /\ isDigits (fracDigits t) = true /\ dint t ++ fracDigits t <> [].
Proof.
  unfold wellFormed. rewrite !andb_true_iff. intros (((? & ?) & Hn) & _).
  split_and!; [done..|]. by apply negb_true_iff, bool_decide_eq_false in Hn.
Qed.

Lemma readMantissa_text t :
  wellFormed t = true ->
  readMantissa false (mantissaChars t ++ exponentChars t) mantissa0
  = (afterMantissa t, exponentChars t).
Proof.
  intros Ht. destruct (wellFormed_digits t Ht) as (Hi & Hf & _).
  unfold mantissaChars, afterMantissa, fracDigits in *. rewrite <-(assoc_L (++)).
  rewrite readMantissa_digits by done.
  destruct (readDigits_spec mantissa0 (dint t)) as (_ & _ & _ & Hd & _); [done|].
  destruct (dfrac t) as [ds|]; [|by apply readMantissa_stop].
  cbn [app]. rewrite readMantissa_point, readMantissa_digits by done.
  by apply readMantissa_stop.
Qed.

(** What the variables hold after the mantissa: the number the digits
    spell, and the place of the point. *)
Lemma afterMantissa_spec t :
  let st := afterMantissa t in
  mantissa st = Z.of_N (strconv.value (dint t ++ fracDigits t)) /\
  pointAt st = (- Z.of_nat (length (fracDigits t)))%Z /\
  sawdigits st = negb (bool_decide (dint t ++ fracDigits t = [])) /\
  underscores st = false.
Proof.
  unfold afterMantissa, fracDigits, strconv.value.
  destruct (readDigits_spec mantissa0 (dint t)) as (Hs & Hm & Hp & Hd & Hg & Hu); [done|].
  cbv zeta in *. change (mantissa mantissa0) with (Z.of_N 0) in Hm.
  rewrite valueZ_valueFrom in Hm.
  destruct (dfrac t) as [ds|]; simpl.
  - destruct (readDigits_spec (setPoint (foldl readDigit mantissa0 (dint t))) ds)
      as (_ & Hm' & Hp' & _ & Hg' & Hu'); [done|]. cbv zeta in *.
    cbn [setPoint mantissa sawdot sawdigits underscores] in *.
    rewrite Hm', Hm, valueZ_valueFrom, Hp', Hg', Hg, Hu', Hu.
    split_and!; [unfold strconv.valueFrom; by rewrite foldl_app|unfold pointAt; simpl; lia
                |..|done].
    simpl. by destruct (dint t), ds.
  - rewrite app_nil_r, Hm, Hp, Hg, Hu. by split_and!.
Qed.

(** ** What is not a special value and has no base prefix *)

(** A character that is no [x], no [i] and no [n], capital or small. *)
Definition plain (c : ascii) : bool :=
  negb (bool_decide (lower c = "x"%char)) && negb (bool_decide (lowerByte c = "i"%char))
  && negb (bool_decide (lowerByte c = "n"%char)).

Lemma plain_spec c :
  plain c = true ->
  lower c <> "x"%char /\ lowerByte c <> "i"%char /\ lowerByte c <> "n"%char.
Proof.
  unfold plain. rewrite !andb_true_iff, !negb_true_iff, !bool_decide_eq_false.
  by intros [[? ?] ?].
Qed.

Lemma specialInf_plain neg nsign s :
  Forall (fun c => plain c = true) s -> specialInf neg nsign s = None.
Proof.
  intros Hs. unfold specialInf.
  replace (commonPrefixLenIgnoreCase s (chars "infinity")) with 0; [done|].
  destruct Hs as [|c s (_ & Hi & _)%plain_spec _]; [done|].
  cbn. by rewrite decide_False.
Qed.

Lemma special_plain s : Forall (fun c => plain c = true) s -> special s = None.
Proof.
  intros Hs. destruct Hs as [|c s Hc Hs]; [done|]. unfold special.
  rewrite !(specialInf_plain _ _ s Hs). apply plain_spec in Hc as (_ & Hi & Hn).
  repeat case_decide; try done;
    match goal with H : _ \/ _ |- _ => by destruct H as [-> | ->] end.
Qed.

Lemma readBase_plain s : Forall (fun c => plain c = true) s -> readBase s = (false, s).
Proof.
  intros Hs. destruct s as [|c0 [|c1 [|c2 s]]]; try done.
  apply Forall_cons in Hs as [_ [(Hx & _)%plain_spec _]%Forall_cons].
  cbn. by rewrite (bool_decide_eq_false_2 _ Hx), andb_false_r.
Qed.

Lemma plain_digitChar d : (d <= 9)%N -> plain (digitChar d) = true.
Proof.
  intros Hd. destruct d as [|p]; [done|].
  do 4 (try destruct p as [p|p|]); try done; lia.
Qed.

Lemma plain_signChars g : Forall (fun c => plain c = true) (signChars g).
Proof. destruct g; repeat constructor. Qed.

Lemma plain_digits ds :
  isDigits ds = true -> Forall (fun c => plain c = true) (digitChar <$> ds).
Proof.
  intros Hds%isDigits_Forall. apply Forall_fmap.
  eapply Forall_impl; [done|]. intros d. apply plain_digitChar.
Qed.

Lemma render_plain t : wellFormed t = true -> Forall (fun c => plain c = true) (render t).
Proof.
  intros Ht. destruct (wellFormed_digits t Ht) as (Hi & Hf & _).
  unfold render, mantissaChars, exponentChars, fracDigits in *.
  repeat apply Forall_app_2; [apply plain_signChars|by apply plain_digits|..].
  - destruct (dfrac t); [|done]. constructor; [done|by apply plain_digits].
  - destruct (dexp t) as [[[e g] ds]|] eqn:E; [|done].
    destruct (wellFormed_exp t e g ds Ht E) as (He & Hd & _).
    constructor; [by destruct (lower_e e He) as [-> | ->]|].
    apply Forall_app_2; [apply plain_signChars|by apply plain_digits].
Qed.


(** ** The sign, the exponent, and the whole text *)

(** The mantissa of a text starts with a digit or with the point. *)
Lemma mantissaChars_head t :
  wellFormed t = true ->
  exists c s, mantissaChars t = c :: s /\ c <> "+"%char /\ c <> "-"%char.
Proof.
  intros (Hi & Hf & Hn)%wellFormed_digits. unfold mantissaChars, fracDigits in *.
  destruct (dint t) as [|d ds]; cbn.
  - destruct (dfrac t) as [df|]; [|done]. by eexists _, _.
  - apply isDigits_Forall, Forall_cons in Hi as [Hd _].
    eexists _, _. split_and!; [done|apply digitChar_ne; [done|left; by vm_compute]..].
Qed.

Lemma readSign_text g body c s :
  body = c :: s -> c <> "+"%char -> c <> "-"%char ->
  readSign (signChars g ++ body) = (isMinus g, body).
Proof. intros -> Hp Hm. destruct g; cbn; [by rewrite !decide_False|done..]. Qed.

Lemma readExponent_digits ds e u :
  isDigits ds = true -> readExponent (digitChar <$> ds) e u = (foldl clamp e ds, u, []).
Proof.
  intros Hds%isDigits_Forall. revert e.
  induction Hds as [|d ds Hd _ IH]; intros e; [done|].
  rewrite fmap_cons. cbn [readExponent foldl].
  rewrite isDigit_digitChar, IH, code_digitChar by done. unfold clamp at 2.
  by replace (Z.of_N (48 + d) - 48)%Z with (Z.of_N d) by lia.
Qed.

(** Below 100000 the loop computes the value of the digits. *)
Lemma clamp_value ds :
  (strconv.value ds < 100000)%N -> foldl clamp 0%Z ds = Z.of_N (strconv.value ds).
Proof.
  induction ds as [|d ds IH] using rev_ind; [done|].
  unfold strconv.value, strconv.valueFrom in *. rewrite !foldl_app. cbn [foldl].
  intros Hv. rewrite IH by lia. unfold clamp.
  destruct (Z.ltb_spec (Z.of_N (foldl (fun acc d0 => acc * 10 + d0)%N 0%N ds)) 10000); lia.
Qed.

(** The exponent of a text whose exponent is small is the one it
    spells. *)
Lemma exponentOf_small t : smallExponent t = true -> exponentOf t = spelledExponent t.
Proof.
  unfold smallExponent, exponentOf, spelledExponent.
  destruct (dexp t) as [[[e g] ds]|]; [|done]. intros Hv%N.ltb_lt.
  by rewrite clamp_value.
Qed.

(** The part of [readFloat] after the mantissa, on the exponent of a
    text. *)
Lemma readTail_text t s neg st :
  wellFormed t = true -> underscores st = false ->
  readTail s neg false st (exponentChars t)
  = Some {| mant := mantissa st;
            exp := if (mantissa st =? 0)%Z then 0%Z else (pointAt st + exponentOf t)%Z;
            neg := neg; hex := false; rest := [] |}.
Proof.
  intros Ht Hu. unfold readTail, exponentChars, exponentOf, pointAt. rewrite Hu.
  destruct (dexp t) as [[[e g] ds]|] eqn:E; cbn [andb].
  2: { do 2 f_equal. case_match; [done|]. destruct (sawdot st); lia. }
  destruct (wellFormed_exp t e g ds Ht E) as (He & Hd & Hn).
  rewrite decide_True by done. destruct ds as [|d ds]; [done|].
  pose proof Hd as [Hd0 _]%isDigits_Forall%Forall_cons.
  assert (digitChar d <> "-"%char) by (apply digitChar_ne; [done|left; by vm_compute]).
  assert (digitChar d <> "+"%char) by (apply digitChar_ne; [done|left; by vm_compute]).
  destruct g; cbn [signChars app isMinus];
    rewrite ?fmap_cons, ?(decide_False (P := digitChar d = "-"%char)),
      ?(decide_False (P := digitChar d = "+"%char \/ digitChar d = "-"%char)) by tauto;
    cbn [isMinus]; rewrite <-?fmap_cons;
    rewrite ?decide_True by auto; rewrite ?(decide_False (P := "+"%char = "-"%char)) by done;
    rewrite fmap_cons, isDigit_digitChar, <-fmap_cons, readExponent_digits by done;
    cbn [andb]; do 2 f_equal; (case_match; [done|]); destruct (sawdot st); lia.
Qed.

(** Every decimal text is read to its end, as the number it spells. *)
Theorem readFloat_decimal t :
  wellFormed t = true -> readFloat (render t) = Some (meaning t).
Proof.
  intros Ht. destruct (mantissaChars_head t Ht) as (c & s & Hc & Hp & Hm).
  pose proof (render_plain t Ht) as Hplain.
  destruct (afterMantissa_spec t) as (Hv & Hpt & Hg & Hu). cbv zeta in *.
  destruct (wellFormed_digits t Ht) as (_ & _ & Hne).
  unfold readFloat, render in *.
  rewrite (readSign_text _ _ c (s ++ exponentChars t)) by (by rewrite ?Hc). cbn [fst snd].
  apply Forall_app in Hplain as [_ Hplain].
  rewrite (readBase_plain _ Hplain). cbn [fst snd].
  rewrite readMantissa_text by done. cbn [fst snd].
  rewrite Hg, (bool_decide_eq_false_2 _ Hne). cbn [negb].
  destruct (signChars (dsign t) ++ mantissaChars t ++ exponentChars t) eqn:El.
  { apply app_eq_nil in El as [_ [El _]%app_eq_nil]. by rewrite Hc in El. }
  rewrite readTail_text by done. unfold meaning. rewrite Hv, Hpt.
  do 2 f_equal. case_match; [done|lia].
Qed.

(** The float of a decimal text: the number it spells, rounded; a
    number out of range is an error. *)
Theorem ParseFloat_decimal t :
  wellFormed t = true ->
  ParseFloat (of_chars (render t))
  = (if is_infinity (valueOf (meaning t)) then Err strconv.ErrRange
     else Ok (valueOf (meaning t))).
Proof.
  intros Ht. unfold ParseFloat, atof64. rewrite chars_of_chars.
  rewrite special_plain by by apply render_plain.
  rewrite readFloat_decimal by done. cbn [rest length].
  rewrite Nat.sub_0_r, Nat.eqb_refl. by case_match.
Qed.

End atof.

(** ** Texts and the numbers they are read as *)

Module AtofDemo.
Import atof.
#[local] Open Scope float_scope.

(** Halfway between two numbers the even mantissa wins; above the
    largest number the text is out of range, below the smallest it is
    zero. *)
Example ParseFloat_rounds :
  ParseFloat "9007199254740993" = Ok 9007199254740992
  /\ ParseFloat "9007199254740995" = Ok 9007199254740996
  /\ ParseFloat "1.00000000000000011102230246251565404236316680908203125" = Ok 1
  /\ ParseFloat "1.00000000000000011102230246251565404236316680908203126"
      = Ok 0x1.0000000000001p0
  /\ ParseFloat "1.7976931348623157e308" = Ok 0x1.fffffffffffffp1023
  /\ ParseFloat "1.797693134862315807e308" = Ok 0x1.fffffffffffffp1023
  /\ ParseFloat "1.797693134862315808e308" = Err strconv.ErrRange
  /\ ParseFloat "2.2250738585072011e-308" = Ok 0x0.fffffffffffffp-1022
  /\ ParseFloat "4.9e-324" = Ok 0x1p-1074
  /\ ParseFloat "2.4703282292062327e-324" = Ok 0
  /\ ParseFloat "2.4703282292062328e-324" = Ok 0x1p-1074
  /\ ParseFloat "-1e-400" = Ok (-0)
  /\ ParseFloat "0x1.fffffffffffff7fffp1023" = Ok 0x1.fffffffffffffp1023
  /\ ParseFloat "0x1.fffffffffffff8p1023" = Err strconv.ErrRange.
Proof. by vm_compute. Qed.

(** The spellings of a number: a point at either end, zeros, an
    exponent, a hexadecimal mantissa, underscores between digits. *)
Example ParseFloat_spellings :
  Forall (fun s => ParseFloat s = Ok 16)
    ["16"; "+16"; "016"; "16."; "16.000"; "1.6e1"; "1.6E+1"; "160e-1"; ".16e2"; "0x10p0";
     "0X1P+4"; "0x.8p5"; "1_6"; "0x_1_0p0"; "1_6.0_0e0_0"]%string.
Proof. repeat constructor. Qed.

(** What is not a number: the table of the library's tests for
    underscores, and texts cut short. *)
Example ParseFloat_rejects :
  Forall (fun s => ParseFloat s = Err strconv.ErrSyntax)
    ["-_123.5e+12"; "+_123.5e+12"; "_123.5e+12"; "1__23.5e+12"; "123_.5e+12"; "123._5e+12";
     "123.5_e+12"; "123.5e_+12"; "123.5e+_12"; "123.5e_-12"; "123.5e-_12"; "123.5e+1__2";
     "123.5e+12_"; ""; "1x"; "1.1."; "1e"; "1e-"; ".e-1"; "."; "0x"; "0x."; "0x1"; "0x1.8";
     "infin"; "+nan"; "-nan"; "nan1"; "infinityx"; "e5"; "+"; "-"; "0x1p"; "0x_p1";
     "1.5p3"; "0b1"; " 1"; "1 "; "1,5"]%string.
Proof. repeat constructor. Qed.

Example ParseFloat_underscores :
  ParseFloat "1_23.50_0_0e+1_2" = Ok 1.235e+14 /\ ParseFloat "0x_1_2.3_4_5p+1_2" = Ok 74565.
Proof. by vm_compute. Qed.

(** A decimal text, its bytes and the number it is read as. *)
Definition sample : decimalText :=
  mkDecimal MinusSign [1; 2]%N (Some [5]%N) (Some ("e"%char, PlusSign, [0; 3]%N)).

Lemma ParseFloat_decimal_witness :
  wellFormed sample = true /\
  of_chars (render sample) = "-12.5e+03"%string /\
  ParseFloat "-12.5e+03" = Ok (-12500).
Proof.
  assert (wellFormed sample = true) as Hs by done.
  split_and!; [done..|]. exact (ParseFloat_decimal sample Hs).
Defined.

Lemma ParseFloat_special_witness :
  "+infinity"%string ∈ specials /\ ParseFloat "+InFiNiTy" = Ok infinity.
Proof.
  assert ("+infinity"%string ∈ specials) as Hw
    by (unfold specials; rewrite !elem_of_cons; auto 10).
  exact (conj Hw (ParseFloat_special "+InFiNiTy" "+infinity" Hw eq_refl)).
Defined.

End AtofDemo.
