(* ===== verification/Decimal.v ===== *)
(** * Decimal: the texts [strconv.ParseFloat] accepts

    Atof.v shows that a well-formed decimal text is read as the number
    it spells.  This file shows the converse for the texts without an
    underscore and without the letter of a base prefix: what
    [readFloat] reads to the end is a decimal text, so [ParseFloat]
    accepts, of these texts, the seven words and the decimal texts and
    nothing else ([ParseFloat_shape], [ParseFloat_usual]). *)

From Stdlib Require Import Ascii NArith ZArith Lia PrimFloat.
From stdpp Require Import strings list.
From S2P Require Import Prelude Strings Strconv Float64 Atof.

Module decimal.
Import strings atof.

(** ** Definitions *)

(** A byte that is no underscore and no letter of the prefix [0x]. *)
Definition usual (c : ascii) : bool :=
  negb (bool_decide (lower c = "x"%char)) && negb (bool_decide (c = "_"%char)).

(** The digit a character stands for. *)
Definition digitOf (c : ascii) : N := (code c - 48)%N.

(** The mantissa of a text, alone. *)
Definition mantissaOf (di : list N) (df : option (list N)) : decimalText :=
  mkDecimal NoSign di df None.

(** ** Digits at the head of a text *)

Lemma digitChar_digitOf c :
  isDigit c = true -> digitChar (digitOf c) = c /\ (digitOf c <= 9)%N.
Proof.
  unfold isDigit, digitOf. intros [H1%N.leb_le H2%N.leb_le]%andb_true_iff.
  split; [|lia]. apply code_inj. rewrite code_digitChar by lia. lia.
Qed.

Lemma usual_spec c : usual c = true -> lower c <> "x"%char /\ c <> "_"%char.
Proof.
  unfold usual. rewrite andb_true_iff, !negb_true_iff.
  by intros [?%bool_decide_eq_false ?%bool_decide_eq_false].
Qed.

(** A text is digits and what follows them. *)
Lemma digits_span s :
  exists ds tl, s = (digitChar <$> ds) ++ tl /\ isDigits ds = true /\
    (forall c tl', tl = c :: tl' -> isDigit c = false).
Proof.
  induction s as [|c s (ds & tl & -> & Hd & Hr)].
  - by exists [], [].
  - destruct (isDigit c) eqn:Ec.
    + destruct (digitChar_digitOf c Ec) as [Hc Hle].
      exists (digitOf c :: ds), tl. rewrite fmap_cons, Hc. split_and!; [done| |done].
      cbn [isDigits forallb]. apply andb_true_iff. split; [by apply N.leb_le|done].
    + exists [], (c :: (digitChar <$> ds) ++ tl). split_and!; [done..|].
      by intros ? ? [= <- _].
Qed.

(** ** The mantissa of a text is digits and a point *)

Lemma readDigits_sawdot ds st : sawdot (foldl readDigit st ds) = sawdot st.
Proof.
  revert st. induction ds as [|d ds IH]; intros st; [done|].
  cbn [foldl]. rewrite IH. unfold readDigit. by case_match.
Qed.

(** The loop stops at a byte that is no digit, no underscore and no
    first point. *)
Lemma readMantissa_halt c s st :
  isDigit c = false -> c <> "_"%char -> (c = "."%char -> sawdot st = true) ->
  readMantissa false (c :: s) st = (st, c :: s).
Proof.
  intros Hd Hu Hp. cbn [readMantissa]. rewrite decide_False by done.
  destruct (decide (c = "."%char)) as [Hc|Hc]; [by rewrite Hp|by rewrite Hd].
Qed.

(** After the point the loop reads digits and stops. *)
Lemma readMantissa_frac s st :
  sawdot st = true -> Forall (fun c => usual c = true) s ->
  exists ds tl, s = (digitChar <$> ds) ++ tl /\ isDigits ds = true /\
    readMantissa false s st = (foldl readDigit st ds, tl).
Proof.
  intros Hst Hs. destruct (digits_span s) as (ds & tl & -> & Hd & Hr).
  exists ds, tl. split_and!; [done..|]. rewrite readMantissa_digits by done.
  destruct tl as [|c tl']; [done|].
  apply Forall_app in Hs as [_ [[_ Hc]%usual_spec _]%Forall_cons].
  apply readMantissa_halt; [by eapply Hr|done|]. by rewrite readDigits_sawdot.
Qed.

(** The loop over the mantissa reads digits, a point and digits, or
    digits alone. *)
Lemma readMantissa_shape s :
  Forall (fun c => usual c = true) s ->
  exists di df tl,
    s = mantissaChars (mantissaOf di df) ++ tl /\
    isDigits di = true /\ isDigits (default [] df) = true /\
    readMantissa false s mantissa0 = (afterMantissa (mantissaOf di df), tl) /\
    Forall (fun c => usual c = true) tl.
Proof.
  intros Hs. destruct (digits_span s) as (di & tl & -> & Hd & Hr).
  rewrite readMantissa_digits by done. apply Forall_app in Hs as [_ Htl].
  unfold mantissaChars, afterMantissa, mantissaOf. cbn [dint dfrac].
  destruct tl as [|c tl']; [exists di, None, []; by rewrite !app_nil_r|].
  pose proof Htl as [[_ Hc]%usual_spec Htl']%Forall_cons.
  destruct (decide (c = "."%char)) as [->|Hp].
  - rewrite readMantissa_point by (by rewrite readDigits_sawdot).
    destruct (readMantissa_frac tl' (setPoint (foldl readDigit mantissa0 di)) eq_refl Htl')
      as (df & tl & -> & Hf & ->).
    apply Forall_app in Htl' as [_ Htl']. exists di, (Some df), tl.
    by rewrite <-app_assoc.
  - rewrite readMantissa_halt by eauto. exists di, None, (c :: tl').
    by rewrite app_nil_r.
Qed.

(** ** The exponent *)

Lemma readExponent_halt c s e u :
  isDigit c = false -> c <> "_"%char -> readExponent (c :: s) e u = (e, u, c :: s).
Proof. intros Hd Hu. cbn [readExponent]. by rewrite Hd, decide_False. Qed.

Lemma readExponent_span ds tl e u :
  isDigits ds = true ->
  readExponent ((digitChar <$> ds) ++ tl) e u = readExponent tl (foldl clamp e ds) u.
Proof.
  intros Hds%isDigits_Forall. revert e.
  induction Hds as [|d ds Hd _ IH]; intros e; [done|].
  rewrite fmap_cons. cbn [readExponent foldl app].
  rewrite isDigit_digitChar, IH, code_digitChar by done. unfold clamp at 2.
  by replace (Z.of_N (48 + d) - 48)%Z with (Z.of_N d) by lia.
Qed.

(** The loop over the exponent reads digits and stops. *)
Lemma readExponent_shape s e u :
  Forall (fun c => usual c = true) s ->
  exists ds tl, s = (digitChar <$> ds) ++ tl /\ isDigits ds = true /\
    readExponent s e u = (foldl clamp e ds, u, tl).
Proof.
  intros Hs. destruct (digits_span s) as (ds & tl & -> & Hd & Hr).
  exists ds, tl. split_and!; [done..|]. rewrite readExponent_span by done.
  destruct tl as [|c tl']; [done|].
  apply Forall_app in Hs as [_ [[_ Hc]%usual_spec _]%Forall_cons].
  apply readExponent_halt; [by eapply Hr|done].
Qed.

(** What follows the mantissa of a text read to its end is an exponent
    or nothing. *)
Lemma readTail_shape s neg st after r :
  Forall (fun c => usual c = true) after ->
  readTail s neg false st after = Some r -> rest r = [] ->
  exists x, wellFormed (mkDecimal NoSign [0%N] None x) = true /\
    after = exponentChars (mkDecimal NoSign [0%N] None x).
Proof.
  intros Hu. unfold readTail, exponentChars, wellFormed. cbn [dexp dint dfrac fracDigits].
  destruct after as [|c [|c1 after]]; [by exists None| |].
  - case_decide; [done|]. case_match; [done|]. by intros [= <-].
  - case_decide as He; [|case_match; [done|]; by intros [= <-]].
    apply Forall_cons in Hu as [_ Hu].
    set (digits := if decide (c1 = "+"%char \/ c1 = "-"%char) then after else c1 :: after).
    assert (Forall (fun c => usual c = true) digits) as Hd
      by (unfold digits; case_decide; [by apply Forall_cons in Hu as [_ ?]|done]).
    destruct (readExponent_shape digits 0 (underscores st) Hd) as (ds & tl & Hs & Hds & Hr).
    destruct digits as [|d digits'] eqn:Ed; [done|]. destruct (isDigit d) eqn:Hd0; [|done].
    rewrite Hr. case_match; [done|]. intros [= <-] Htl. cbn [rest] in Htl. subst tl.
    rewrite app_nil_r in Hs.
    assert (ds <> []) as Hne by (by intros ->).
    exists (Some (c, (if decide (c1 = "+"%char) then PlusSign
                      else if decide (c1 = "-"%char) then MinusSign else NoSign), ds)).
    rewrite Hds, (bool_decide_eq_true_2 _ He), (bool_decide_eq_false_2 _ Hne).
    split; [done|]. f_equal. rewrite <-Hs. unfold digits in Ed.
    repeat case_decide; subst; try done; cbn [signChars app]; try (by rewrite Ed); tauto.
Qed.

(** ** The whole text *)

Lemma readSign_shape s :
  exists g, s = signChars g ++ (readSign s).2 /\ (readSign s).1 = isMinus g.
Proof.
  destruct s as [|c s]; [by exists NoSign|]. unfold readSign.
  repeat case_decide; subst; [by exists PlusSign|by exists MinusSign|by exists NoSign].
Qed.

Lemma readBase_usual s : Forall (fun c => usual c = true) s -> readBase s = (false, s).
Proof.
  destruct s as [|c0 [|c1 [|c2 s]]]; try done.
  intros [_ [[Hx _]%usual_spec _]%Forall_cons]%Forall_cons. unfold readBase.
  by rewrite (bool_decide_eq_false_2 _ Hx), andb_false_r.
Qed.

(** A text is well formed when its mantissa and its exponent are. *)
Lemma wellFormed_parts g di df x :
  isDigits di = true -> isDigits (default [] df) = true -> di ++ default [] df <> [] ->
  wellFormed (mkDecimal NoSign [0%N] None x) = true ->
  wellFormed (mkDecimal g di df x) = true.
Proof.
  unfold wellFormed, fracDigits. cbn [dint dfrac dexp]. intros -> -> Hne Hx.
  rewrite (bool_decide_eq_false_2 _ Hne). by destruct x as [[[e g'] ds]|].
Qed.

(** What [readFloat] reads to its end, of the texts without an
    underscore and a base prefix, is a decimal text. *)
Theorem readFloat_shape s r :
  Forall (fun c => usual c = true) s ->
  readFloat s = Some r -> rest r = [] ->
  exists t, wellFormed t = true /\ s = render t.
Proof.
  intros Hs. unfold readFloat. destruct s as [|c0 s0] eqn:Es; [done|]. rewrite <-Es in *.
  destruct (readSign_shape s) as (g & Hg & _).
  assert (Forall (fun c => usual c = true) (readSign s).2) as H1
    by (rewrite Hg in Hs; by apply Forall_app in Hs as [_ ?]).
  rewrite (readBase_usual _ H1). cbn [fst snd].
  destruct (readMantissa_shape _ H1) as (di & df & tl & Hm & Hdi & Hdf & -> & Htl).
  cbn [fst snd]. destruct (afterMantissa_spec (mantissaOf di df)) as (_ & _ & Hsaw & _).
  cbv zeta in Hsaw. rewrite Hsaw, negb_involutive. clear Hsaw.
  cbn [mantissaOf dint fracDigits dfrac].
  case_bool_decide as Hne; [done|].
  intros Ht Hr. destruct (readTail_shape _ _ _ _ _ Htl Ht Hr) as (x & Hx & ->).
  exists (mkDecimal g di df x). split.
  - by apply wellFormed_parts.
  - by rewrite Hg at 1; rewrite Hm.
Qed.

(** The texts [ParseFloat] accepts, of the texts without an underscore
    and a base prefix: the seven words, read as the NaN and the
    infinities, and the decimal texts whose number is within the range
    of the format, read as that number, rounded. *)
Theorem ParseFloat_usual s f :
  Forall (fun c => usual c = true) (chars s) ->
  ParseFloat s = Ok f <->
    (ToLower s ∈ specials /\ f = specialValue (ToLower s)) \/
    (exists t, wellFormed t = true /\ chars s = render t /\
       f = valueOf (meaning t) /\ is_infinity f = false).
Proof.
  intros Hs. split.
  - intros [(w & Hw & <- & ->)|(r & Hr & Hrest & -> & Hi & _)]%ParseFloat_inv;
      [by left|right].
    destruct (readFloat_shape _ _ Hs Hr Hrest) as (t & Ht & Hc). exists t.
    rewrite Hc, readFloat_decimal in Hr by done. by injection Hr as <-.
  - intros [[Hw ->]|(t & Ht & Hc & -> & Hi)]; [by apply ParseFloat_special|].
    by rewrite <-(of_chars_chars s), Hc, ParseFloat_decimal, Hi.
Qed.

End decimal.

(** ** On a text *)

Module DecimalDemo.
Import atof decimal.

Lemma sample_usual : Forall (fun c => usual c = true) (chars "-12.5e+03").
Proof. repeat constructor. Qed.

Lemma readFloat_shape_witness :
  exists t, wellFormed t = true /\ chars "-12.5e+03" = render t.
Proof.
  exact (readFloat_shape (chars "-12.5e+03") (meaning AtofDemo.sample) sample_usual
           eq_refl eq_refl).
Defined.

Lemma ParseFloat_usual_witness :
  Forall (fun c => usual c = true) (chars "-12.5e+03") /\
  (ParseFloat "-12.5e+03" = Ok (-12500)%float <->
   (strings.ToLower "-12.5e+03" ∈ specials /\
    (-12500)%float = specialValue (strings.ToLower "-12.5e+03")) \/
   (exists t, wellFormed t = true /\ chars "-12.5e+03" = render t /\
      (-12500)%float = valueOf (meaning t) /\ is_infinity (-12500) = false)).
Proof. exact (conj sample_usual (ParseFloat_usual "-12.5e+03" (-12500)%float sample_usual)). Defined.

End DecimalDemo.
