(* ===== verification/Minus.v ===== *)
(** * Minus: a text with the minus sign before it

    [strconv.ParseFloat] reads the sign apart from the number: the
    rounding is made on the magnitude, and the check of the underscores
    skips the sign.  So the text of a number with the minus sign before
    it is read as the opposite float ([ParseFloat_opp]); the NaN, which
    [special] reads without a sign only, is the one exception. *)

From Stdlib Require Import Ascii NArith ZArith Lia PrimFloat FloatOps FloatAxioms SpecFloat.
From stdpp Require Import strings list.
From S2P Require Import Prelude Strings Strconv Float64 Atof.

Module minus.
Import strings atof.

(** ** Definitions *)

(** The number with the other sign. *)
Definition negate (r : number) : number :=
  {| mant := mant r; exp := exp r; neg := negb (neg r); hex := hex r; rest := rest r |}.

(** A text that begins with no sign. *)
Definition unsigned (s : list ascii) : Prop :=
  head s <> Some "+"%char /\ head s <> Some "-"%char.

(** ** The opposite number *)

Lemma nearest_opp neg num den :
  nearest (negb neg) num den = SFopp (nearest neg num den).
Proof.
  unfold nearest. case_match; [done|].
  destruct (SFdiv_core_binary _ _ _ _ _ _) as [[q e] l].
  apply float64.binary_round_aux_opp.
Qed.

Lemma valueOf_negate r : (0 <= mant r)%Z -> valueOf (negate r) = (- valueOf r)%float.
Proof.
  intros [Hn Hd]%number_quotient. unfold valueOf, negate. cbn [mant exp neg hex].
  rewrite nearest_opp. by apply float64.SF2Prim_opp, nearest_not_nan.
Qed.

(** What the loops leave is not longer than the text. *)
Lemma readMantissa_length hex s st : length (readMantissa hex s st).2 <= length s.
Proof.
  revert st. induction s as [|c s IH]; intros st; [done|]. cbn [readMantissa].
  repeat case_match; cbn [snd length]; try lia; by etrans; [apply IH|lia].
Qed.

Lemma readExponent_length s e u : length (readExponent s e u).2 <= length s.
Proof.
  revert e u. induction s as [|c s IH]; intros e u; [done|]. cbn [readExponent].
  repeat case_match; cbn [snd length]; try lia; by etrans; [apply IH|lia].
Qed.

Lemma underscoreOK_minus s : unsigned s -> underscoreOK ("-"%char :: s) = underscoreOK s.
Proof.
  intros [Hp Hm]. unfold underscoreOK. rewrite decide_True by auto.
  destruct s as [|c s]; [done|]. rewrite decide_False; [done|].
  cbn [head] in *. intros [->| ->]; done.
Qed.

Lemma unsigned_take n s : unsigned s -> unsigned (take n s).
Proof. intros [Hp Hm]. destruct n, s; done. Qed.

(** The check of the underscores does not see the sign. *)
Lemma read_minus s (after : list ascii) :
  unsigned s -> length after <= length s ->
  underscoreOK (take (length ("-"%char :: s) - length after) ("-"%char :: s))
  = underscoreOK (take (length s - length after) s).
Proof.
  intros Hs Hl. cbn [length]. rewrite Nat.sub_succ_l by done. cbn [take].
  by apply underscoreOK_minus, unsigned_take.
Qed.

(** The scanner reads a text with the minus sign before it as the
    number with the other sign. *)
Lemma readTail_minus s h st after r :
  unsigned s -> length after <= length s ->
  readTail s false h st after = Some r ->
  readTail ("-"%char :: s) true h st after = Some (negate r).
Proof.
  intros Hs Hl. unfold readTail. cbv zeta.
  destruct after as [|c after].
  { destruct h; [done|]. rewrite read_minus by done. case_match; [done|]. by intros [= <-]. }
  case_decide as He.
  2: { destruct h; [done|]. rewrite read_minus by done. case_match; [done|]. by intros [= <-]. }
  destruct after as [|c1 after]; [done|].
  destruct (if decide (c1 = "+"%char \/ c1 = "-"%char) then after else c1 :: after)
    as [|d ds] eqn:Ed; [done|].
  destruct (isDigit d); [|done].
  pose proof (readExponent_length (d :: ds) 0 (underscores st)) as Hle.
  destruct (readExponent (d :: ds) 0 (underscores st)) as [[e u] after2]. cbn [snd] in Hle.
  assert (length (d :: ds) <= length (c1 :: after)) as Hd.
  { case_decide; simplify_eq/=; try lia. }
  rewrite (read_minus s after2 Hs) by (cbn [length] in *; lia).
  destruct (u && negb (underscoreOK _)); [done|]. by intros [= <-].
Qed.

Lemma readFloat_minus s r :
  unsigned s -> readFloat s = Some r -> readFloat ("-"%char :: s) = Some (negate r).
Proof.
  intros Hs. unfold readFloat. destruct s as [|c0 s0] eqn:Es; [done|]. rewrite <-Es in *.
  assert (readSign s = (false, s)) as ->.
  { destruct Hs as [Hp Hm]. subst s. unfold readSign. cbn [head] in *.
    rewrite !decide_False; [done|congruence..]. }
  cbn [readSign fst snd]. rewrite decide_False by done. rewrite decide_True by done.
  cbn [fst snd]. case_match; [done|]. apply readTail_minus; [done|].
  etrans; [apply readMantissa_length|].
  unfold readBase. repeat case_match; simplify_eq/=; lia.
Qed.

(** [special] on a text with the minus sign before it. *)
Lemma special_minus s :
  unsigned s -> special s = None -> special ("-"%char :: s) = None.
Proof.
  intros [Hp Hm] Hsp. unfold special in *.
  rewrite (decide_False (P := "-"%char = "+"%char)),
    (decide_True (P := "-"%char = "-"%char)) by done.
  destruct s as [|c s]; [done|]. cbn [head] in *.
  rewrite !decide_False in Hsp by congruence. unfold specialInf in *.
  case_decide as Hi; [by destruct (_ || _)|]. clear Hsp.
  change (chars "infinity") with ("i"%char :: chars "nfinity").
  cbn [commonPrefixLenIgnoreCase]. rewrite decide_False; [done|].
  intros [->|[-> _]]%lowerByte_inv; apply Hi; auto.
Qed.

(** The reading is symmetric: a text with the minus sign before it is
    read as the opposite float.  The NaN, which takes no sign, is the
    one exception. *)
Theorem ParseFloat_opp s f :
  unsigned (chars s) -> ParseFloat s = Ok f -> f <> nan ->
  ParseFloat ("-" +:+ s) = Ok (- f)%float.
Proof.
  intros Hs [(w & Hw & Hl & ->)|(r & Hr & Hrest & -> & Hi & Hsp)]%ParseFloat_inv Hn.
  - assert (ToLower ("-" +:+ s) = "-" +:+ w) as Hl' by (by rewrite <-Hl).
    destruct Hs as [Hp Hm].
    pose proof (head_ToLower "+" s w eq_refl eq_refl Hl) as H1.
    pose proof (head_ToLower "-" s w eq_refl eq_refl Hl) as H2.
    rewrite (bool_decide_eq_false_2 _ Hp) in H1. rewrite (bool_decide_eq_false_2 _ Hm) in H2.
    unfold specials in Hw. rewrite !elem_of_cons, elem_of_nil in Hw.
    destruct Hw as [->|[->|[->|[->|[->|[->|[->|[]]]]]]]]; try done.
    + rewrite (ParseFloat_special _ "-inf"); [done| |done].
      unfold specials. rewrite !elem_of_cons. auto.
    + rewrite (ParseFloat_special _ "-infinity"); [done| |done].
      unfold specials. rewrite !elem_of_cons. auto 10.
  - pose proof (readFloat_mant _ _ Hr) as Hm.
    unfold ParseFloat, atof64. change (chars ("-" +:+ s)) with ("-"%char :: chars s).
    rewrite (special_minus _ Hs Hsp), (readFloat_minus _ _ Hs Hr), (valueOf_negate r Hm).
    rewrite float64.is_infinity_opp, Hi. cbn [negate rest]. rewrite Hrest.
    cbn [length]. by rewrite Nat.sub_0_r, Nat.eqb_refl.
Qed.

End minus.

(** ** On a text *)

Module MinusDemo.
Import atof minus.

Lemma ParseFloat_opp_witness :
  unsigned (chars "12.5e+03") /\ ParseFloat "12.5e+03" = Ok 12500%float /\
  12500%float <> nan /\ ParseFloat ("-" +:+ "12.5e+03") = Ok (- 12500)%float.
Proof.
  assert (unsigned (chars "12.5e+03")) as Hu by done.
  assert (ParseFloat "12.5e+03" = Ok 12500%float) as Hp by (by vm_compute).
  assert (12500%float <> nan) as Hn by done.
  exact (conj Hu (conj Hp (conj Hn (ParseFloat_opp "12.5e+03" 12500%float Hu Hp Hn)))).
Defined.

(** The NaN takes no sign. *)
Example minus_nan : ParseFloat "-nan" = Err strconv.ErrSyntax.
Proof. by vm_compute. Qed.

End MinusDemo.
