(* ===== verification/Validation.v ===== *)
(** * Validation: the validators of command-line values

    Models src/shared/utils/cli/validation.go: the nineteen validators
    and the two constants of the file.  A validator takes the name of the
    argument (used in the message only) and its text, and returns the
    parsed value or an error made by [fmt.Errorf] without a wrapped
    cause.

    What the validators call is modelled in the files this one requires:
    [strings.ToLower], [strings.TrimSpace] and [strings.Repeat]
    (Strings.v), [strconv.ParseUint] and [big.Int] (Strconv.v), the two
    regular expressions (Regexp.v).  The predicates of go-ethereum on
    addresses are in the module [common] below.  A [float64] is a
    primitive float, and the comparisons of the code are those of IEEE
    754: every comparison with a NaN is false.  [strconv.ParseFloat] and
    [bip39.IsMnemonicValid] are operations of the class [Libraries]: the
    theorems hold for every implementation of them.  Amounts.v puts the
    reader of floats of Atof.v in the class and says which texts the
    validators of amounts accept.

    The theorems give, validator by validator, the set of texts accepted
    and the value returned, in terms of the text itself. *)

From Stdlib Require Import Ascii NArith ZArith Lia PrimFloat.
From stdpp Require Import strings list pretty.
From S2P Require Import Prelude Strings Strconv Regexp Float64.

(** ** Addresses (package common of go-ethereum) *)

Module common.
Import strings.

Definition AddressLength : nat := 20.

(** An address: [AddressLength] bytes. *)
Definition Address : Type := list N.

Definition has0xPrefix (l : list ascii) : bool :=
  match l with
  | c0 :: c1 :: _ =>
      bool_decide (c0 = "0"%char) && bool_decide (c1 = "x"%char \/ c1 = "X"%char)
  | _ => false
  end.

(** The value of a hexadecimal digit. *)
Definition hexVal (c : ascii) : option N :=
  if (48 <=? code c)%N && (code c <=? 57)%N then Some (code c - 48)%N
  else if (97 <=? code c)%N && (code c <=? 102)%N then Some (code c - 87)%N
  else if (65 <=? code c)%N && (code c <=? 70)%N then Some (code c - 55)%N
  else None.

Definition isHexCharacter (c : ascii) : bool := bool_decide (is_Some (hexVal c)).

Definition isHex (l : list ascii) : bool :=
  (length l mod 2 =? 0) && forallb isHexCharacter l.

Definition IsHexAddress (s : string) : bool :=
  let l := chars s in
  let l := if has0xPrefix l then drop 2 l else l in
  (length l =? 2 * AddressLength) && isHex l.

(** [hex.DecodeString] without its error: the bytes before the first
    pair that is not hexadecimal. *)
Fixpoint decodePairs (l : list ascii) : list N :=
  match l with
  | a :: b :: l' =>
      match hexVal a, hexVal b with
      | Some x, Some y => (16 * x + y)%N :: decodePairs l'
      | _, _ => []
      end
  | _ => []
  end.

Definition FromHex (s : string) : list N :=
  let l := chars s in
  let l := if has0xPrefix l then drop 2 l else l in
  let l := if length l mod 2 =? 1 then "0"%char :: l else l in
  decodePairs l.

(** The last [AddressLength] bytes, or the bytes after zeros. *)
Definition BytesToAddress (b : list N) : Address :=
  if AddressLength <? length b then drop (length b - AddressLength) b
  else replicate (AddressLength - length b) 0%N ++ b.

Definition HexToAddress (s : string) : Address := BytesToAddress (FromHex s).

End common.

(** ** The validators *)

(** The libraries that are not modelled: [strconv.ParseFloat(s, 64)]
    ([None] when it returns an error) and [bip39.IsMnemonicValid]. *)
Class Libraries := {
  ParseFloat : string -> option float;
  IsMnemonicValid : string -> bool;
}.

(** What the validators read of a [*cli.Context]. *)
Record Context := mkContext {
  Args : list string;
  UsageText : string;
}.

(** [passwords.MinPasswordLength]. *)
Definition MinPasswordLength : nat := 12.

Definition MinDAOMemberIDLength : nat := 3.
Definition MinDAOMemberEmailLength : nat := 6.

(** [fmt.Errorf("Invalid %s '%s'" + rest, name, value)]. *)
Definition invalid (name value rest : string) : error :=
  ErrorNew ("Invalid " +:+ name +:+ " '" +:+ value +:+ "'" +:+ rest).

Section Validators.
Context `{Libraries}.

Definition ValidateArgCount (c : Context) (count : Z) : option error :=
  if decide (Z.of_nat (length (Args c)) <> count)
  then Some (ErrorNew ("Incorrect argument count; usage: " +:+ UsageText c))
  else None.

Definition ValidateBool (name value : string) : result bool :=
  let val := strings.ToLower value in
  if negb (bool_decide (val = "true" \/ val = "yes" \/ val = "false" \/ val = "no"))
  then Err (invalid name value " - valid values are 'true', 'yes', 'false' and 'no'")
  else if bool_decide (val = "true" \/ val = "yes") then Ok true
  else Ok false.

Definition ValidateUint (name value : string) : result N :=
  match strconv.ParseUint value with
  | Ok val => Ok val
  | _ => Err (invalid name value "")
  end.

Definition ValidateAddress (name value : string) : result common.Address :=
  if negb (common.IsHexAddress value) then Err (invalid name value "")
  else Ok (common.HexToAddress value).

Definition ValidateWeiAmount (name value : string) : result Z :=
  match strconv.SetString value with
  | Some val => Ok val
  | None => Err (invalid name value "")
  end.

Definition ValidateEthAmount (name value : string) : result float :=
  match ParseFloat value with
  | Some val => Ok val
  | None => Err (invalid name value "")
  end.

Definition ValidateFraction (name value : string) : result float :=
  match ParseFloat value with
  | Some val =>
      if (val <? 0)%float || (1 <? val)%float
      then Err (invalid name value " - must be a number between 0 and 1")
      else Ok val
  | None => Err (invalid name value " - must be a number between 0 and 1")
  end.

Definition ValidatePercentage (name value : string) : result float :=
  match ParseFloat value with
  | Some val =>
      if (val <? 0)%float || (100 <? val)%float
      then Err (invalid name value " - must be a number between 0 and 100")
      else Ok val
  | None => Err (invalid name value " - must be a number between 0 and 100")
  end.

Definition ValidateTokenType (name value : string) : result string :=
  let val := strings.ToLower value in
  if negb (bool_decide (val = "eth" \/ val = "rpl" \/ val = "fsrpl" \/ val = "neth"
                        \/ val = "reth"))
  then Err (invalid name value
              " - valid types are 'ETH', 'RPL', 'fsRPL', 'nETH' and 'rETH'")
  else Ok val.

Definition ValidatePositiveWeiAmount (name value : string) : result Z :=
  match ValidateWeiAmount name value with
  | Ok val =>
      if (val <=? 0)%Z then Err (invalid name value " - must be greater than 0")
      else Ok val
  | other => other
  end.

Definition ValidateDepositWeiAmount (name value : string) : result Z :=
  match ValidateWeiAmount name value with
  | Ok val =>
      let ether := strings.Repeat "0" 18 in
      if negb (bool_decide (strconv.bigString val = "0"
                            \/ strconv.bigString val = "16" +:+ ether
                            \/ strconv.bigString val = "32" +:+ ether))
      then Err (invalid name value " - valid values are 0, 16 and 32 ether")
      else Ok val
  | other => other
  end.

Definition ValidatePositiveEthAmount (name value : string) : result float :=
  match ValidateEthAmount name value with
  | Ok val =>
      if (val <=? 0)%float then Err (invalid name value " - must be greater than 0")
      else Ok val
  | other => other
  end.

Definition ValidateDepositEthAmount (name value : string) : result float :=
  match ValidateEthAmount name value with
  | Ok val =>
      if negb ((val =? 0)%float || (val =? 16)%float || (val =? 32)%float)
      then Err (invalid name value " - valid values are 0, 16 and 32 ether")
      else Ok val
  | other => other
  end.

Definition ValidateBurnableTokenType (name value : string) : result string :=
  let val := strings.ToLower value in
  if negb (bool_decide (val = "neth" \/ val = "reth"))
  then Err (invalid name value " - valid types are 'nETH' and 'rETH'")
  else Ok val.

Definition ValidateNodePassword (name value : string) : result string :=
  if String.length value <? MinPasswordLength
  then Err (invalid name value
              (" - must be at least " +:+ pretty MinPasswordLength +:+ " characters long"))
  else Ok value.

Definition ValidateWalletMnemonic (name value : string) : result string :=
  if negb (IsMnemonicValid value) then Err (invalid name value "")
  else Ok value.

Definition ValidateTimezoneLocation (name value : string) : result string :=
  if negb (regexp.MatchString regexp.timezonePattern value)
  then Err (invalid name value " - must be in the format 'Country/City'")
  else Ok value.

Definition ValidateDAOMemberID (name value : string) : result string :=
  let val := strings.TrimSpace value in
  if String.length val <? MinDAOMemberIDLength
  then Err (invalid name val
              (" - must be at least " +:+ pretty MinDAOMemberIDLength +:+ " characters long"))
  else Ok val.

Definition ValidateDAOMemberEmail (name value : string) : result string :=
  if String.length value <? MinDAOMemberEmailLength
  then Err (invalid name value
              (" - must be at least " +:+ pretty MinDAOMemberEmailLength
               +:+ " characters long"))
  else if negb (regexp.MatchString regexp.emailPattern value)
  then Err (invalid name value " - must be a valid email address")
  else Ok value.

End Validators.

(** ** What the validators accept *)

(** Decides the tests of a validator on the lower-case form of its
    text. *)
Ltac validator value :=
  rewrite ?elem_of_cons, ?elem_of_nil;
  generalize (strings.ToLower value); intros ?;
  repeat case_bool_decide; simpl; naive_solver.

Section Words.
Context `{Libraries}.
Implicit Types (name value val : string).

(** [ValidateBool] accepts the four words whatever the case of
    their letters, and nothing else: it returns [true] exactly when the
    lower-case form of the text is "true" or "yes", [false] exactly when
    it is "false" or "no". *)
Theorem ValidateBool_spec name value b :
  ValidateBool name value = Ok b <->
  (b = true /\ strings.ToLower value ∈ ["true"; "yes"]) \/
  (b = false /\ strings.ToLower value ∈ ["false"; "no"]).
Proof.
  unfold ValidateBool. destruct b; validator value.
Qed.

(** The five token types, in the form the validators return. *)
Definition tokenTypes : list string := ["eth"; "rpl"; "fsrpl"; "neth"; "reth"].

Lemma ValidateTokenType_Ok name value val :
  ValidateTokenType name value = Ok val <->
  val = strings.ToLower value /\ val ∈ tokenTypes.
Proof.
  unfold ValidateTokenType, tokenTypes. validator value.
Qed.

Lemma ValidateBurnableTokenType_Ok name value val :
  ValidateBurnableTokenType name value = Ok val <->
  val = strings.ToLower value /\ val ∈ ["neth"; "reth"].
Proof.
  unfold ValidateBurnableTokenType. validator value.
Qed.

(** The value [ValidateTokenType] returns is one of the five token
    types in lower case, it is the lower-case form of the text, and it
    is accepted as it is: validating twice changes nothing. *)
Theorem ValidateTokenType_canonical name value val :
  ValidateTokenType name value = Ok val ->
  val ∈ tokenTypes /\ val = strings.ToLower value /\
  ValidateTokenType name val = Ok val.
Proof.
  intros [-> Hin]%ValidateTokenType_Ok. split_and!; [done..|].
  apply ValidateTokenType_Ok. by rewrite strings.ToLower_idemp.
Qed.

(** A burnable token type is a token type: what
    [ValidateBurnableTokenType] accepts [ValidateTokenType] accepts, with
    the same value. *)
Theorem ValidateBurnableTokenType_refines name value val :
  ValidateBurnableTokenType name value = Ok val ->
  ValidateTokenType name value = Ok val.
Proof.
  intros [-> Hin]%ValidateBurnableTokenType_Ok. apply ValidateTokenType_Ok.
  split; [done|]. unfold tokenTypes. revert Hin.
  rewrite !elem_of_cons, !elem_of_nil. tauto.
Qed.

End Words.

Section Numbers.
Context `{Libraries}.
Implicit Types (name value : string).

(** C28: [ValidateUint] accepts exactly the non-empty strings of decimal
    digits whose value fits 64 bits, and returns that value: the loop of
    [ParseUint], with its cut-off before the multiplication and its
    wrap-around test after the addition, misses no overflow and rejects
    no number in range. *)
Theorem ValidateUint_spec name value v :
  ValidateUint name value = Ok v <->
  value <> "" /\
  exists ds, strconv.digits (chars value) = Some ds /\
    strconv.value ds = v /\ (v < 2 ^ 64)%N.
Proof.
  unfold ValidateUint.
  assert ((v < 2 ^ 64)%N <-> (v <= strconv.maxUint64)%N) as Hlt
    by (unfold strconv.maxUint64; lia).
  setoid_rewrite Hlt. rewrite <-strconv.ParseUint_spec.
  destruct (strconv.ParseUint value); naive_solver.
Qed.

(** The decimal form of a number below 2^64 is accepted by
    [ValidateUint] and read back as the number. *)
Theorem ValidateUint_pretty name (n : N) :
  (n < 2 ^ 64)%N -> ValidateUint name (pretty n) = Ok n.
Proof.
  intros Hn. unfold ValidateUint. rewrite strconv.ParseUint_pretty; [done|].
  unfold strconv.maxUint64. lia.
Qed.

Lemma ValidateWeiAmount_Ok name value v :
  ValidateWeiAmount name value = Ok v <-> strconv.SetString value = Some v.
Proof. unfold ValidateWeiAmount. destruct (strconv.SetString value); naive_solver. Qed.

(** [ValidatePositiveWeiAmount] accepts the texts [SetString] reads
    as an integer greater than zero, and returns that integer. *)
Theorem ValidatePositiveWeiAmount_spec name value v :
  ValidatePositiveWeiAmount name value = Ok v <->
  strconv.SetString value = Some v /\ (0 < v)%Z.
Proof.
  unfold ValidatePositiveWeiAmount, ValidateWeiAmount.
  destruct (strconv.SetString value) as [x|]; [|naive_solver].
  destruct (Z.leb_spec x 0); [|naive_solver]. split; [done|]. intros [[= ->] ?]. lia.
Qed.

Lemma bigString_eq (x y : Z) s : strconv.bigString y = s -> strconv.bigString x = s <-> x = y.
Proof. intros <-. split; [apply strconv.bigString_inj|by intros ->]. Qed.

(** C32: [ValidateDepositWeiAmount] compares the decimal form of the
    integer with three strings; it accepts exactly the texts that
    [SetString] reads as 0, 16 or 32 ether in wei, however they are
    written (a sign, leading zeros). *)
Theorem ValidateDepositWeiAmount_spec name value v :
  ValidateDepositWeiAmount name value = Ok v <->
  strconv.SetString value = Some v /\
  (v = 0 \/ v = 16 * 10 ^ 18 \/ v = 32 * 10 ^ 18)%Z.
Proof.
  unfold ValidateDepositWeiAmount, ValidateWeiAmount.
  destruct (strconv.SetString value) as [x|]; [|naive_solver].
  case_bool_decide as Hd; simpl;
    rewrite (bigString_eq x 0 "0"), (bigString_eq x (16 * 10 ^ 18) ("16" +:+ _)),
      (bigString_eq x (32 * 10 ^ 18) ("32" +:+ _)) in Hd by (by vm_compute);
    naive_solver.
Qed.

(** A text that [ParseFloat] reads as a NaN passes the range checks of
    [ValidateFraction], [ValidatePercentage] and
    [ValidatePositiveEthAmount], since no comparison with a NaN holds; it
    does not pass [ValidateDepositEthAmount], which tests equalities.
    Amounts.v says which texts these are. *)
Theorem ValidateFraction_accepts_NaN name value :
  ParseFloat value = Some nan ->
  ValidateFraction name value = Ok nan /\
  ValidatePercentage name value = Ok nan /\
  ValidatePositiveEthAmount name value = Ok nan /\
  is_Ok (ValidateDepositEthAmount name value) = false.
Proof.
  intros Hp.
  unfold ValidateFraction, ValidatePercentage, ValidatePositiveEthAmount,
    ValidateDepositEthAmount, ValidateEthAmount.
  by rewrite Hp.
Qed.

Lemma ValidateFraction_Ok name value val :
  ValidateFraction name value = Ok val ->
  ParseFloat value = Some val /\ float64.passes 0 1 val = true.
Proof.
  unfold ValidateFraction, float64.passes. destruct (ParseFloat value) as [x|]; [|done].
  destruct (_ || _) eqn:E; intros [= <-]. by rewrite E.
Qed.

Lemma ValidatePercentage_Ok name value val :
  ValidatePercentage name value = Ok val ->
  ParseFloat value = Some val /\ float64.passes 0 100 val = true.
Proof.
  unfold ValidatePercentage, float64.passes. destruct (ParseFloat value) as [x|]; [|done].
  destruct (_ || _) eqn:E; intros [= <-]. by rewrite E.
Qed.

(** C29: what the checks on floats let through.  A fraction is a NaN or
    a number from 0 to 1, a percentage a NaN or a number from 0 to 100, a
    positive amount a NaN or a number above 0 (an infinity included); a
    deposit amount is one of 0, -0, 16 and 32, and never a NaN. *)
Theorem float_validators_bounds name value val :
  (ValidateFraction name value = Ok val -> float64.within 0 1 val) /\
  (ValidatePercentage name value = Ok val -> float64.within 0 100 val) /\
  (ValidatePositiveEthAmount name value = Ok val ->
     is_nan val = true \/ (0 <? val)%float = true) /\
  (ValidateDepositEthAmount name value = Ok val ->
     val = 0%float \/ val = (-0)%float \/ val = 16%float \/ val = 32%float).
Proof.
  split_and!.
  - by intros [_ Hp%float64.passes_sound]%ValidateFraction_Ok.
  - by intros [_ Hp%float64.passes_sound]%ValidatePercentage_Ok.
  - unfold ValidatePositiveEthAmount, ValidateEthAmount.
    destruct (ParseFloat value) as [x|]; [|done].
    destruct (x <=? 0)%float eqn:E; intros [= <-].
    destruct (is_nan x) eqn:Hx; [by left|right]. by apply float64.leb_false_ltb.
  - unfold ValidateDepositEthAmount, ValidateEthAmount.
    destruct (ParseFloat value) as [x|]; [|done].
    destruct (x =? 0)%float eqn:E0; simpl;
      [intros [= <-]; apply float64.eqb_zero in E0; tauto|].
    destruct (x =? 16)%float eqn:E16; simpl;
      [intros [= <-]; apply float64.eqb_finite in E16; auto|].
    destruct (x =? 32)%float eqn:E32; simpl; [|done].
    intros [= <-]; apply float64.eqb_finite in E32; auto.
Qed.

End Numbers.

Section Texts.
Context `{Libraries}.
Implicit Types (name value : string).

(** C34: [ValidateTimezoneLocation] accepts exactly the texts made of
    two words around one slash, each of two or more letters, digits or
    underscores, and returns the text.  A location of three parts, or
    with a hyphen or a plus sign, is not accepted. *)
Theorem ValidateTimezoneLocation_spec name value v :
  ValidateTimezoneLocation name value = Ok v <->
  v = value /\
  exists a b, chars value = a ++ "/"%char :: b /\
    2 <= length a /\ regexp.all regexp.wordChar a /\
    2 <= length b /\ regexp.all regexp.wordChar b.
Proof.
  unfold ValidateTimezoneLocation. rewrite <-regexp.timezone_matches.
  destruct (regexp.MatchString _ value); naive_solver.
Qed.

(** C35: [ValidateDAOMemberEmail] accepts exactly the texts of six bytes
    or more without white space that have an at sign after a first byte
    and, further on, a dot between two bytes; nothing else is asked of an
    address. *)
Theorem ValidateDAOMemberEmail_spec name value v :
  ValidateDAOMemberEmail name value = Ok v <->
  v = value /\ 6 <= String.length value /\
  exists x y z, chars value = x ++ "@"%char :: y ++ "."%char :: z /\
    x <> [] /\ y <> [] /\ z <> [] /\
    regexp.all regexp.nonSpace x /\ regexp.all regexp.nonSpace y /\
    regexp.all regexp.nonSpace z.
Proof.
  unfold ValidateDAOMemberEmail, MinDAOMemberEmailLength.
  rewrite <-regexp.email_matches.
  destruct (Nat.ltb_spec (String.length value) 6); [split; [done|lia]|].
  destruct (regexp.MatchString _ value); naive_solver.
Qed.

(** The identifier [ValidateDAOMemberID] returns is the text
    without the white space around it; it has three bytes or more and no
    white space at either end, and it is accepted as it is. *)
Theorem ValidateDAOMemberID_trimmed name value v :
  ValidateDAOMemberID name value = Ok v ->
  v = strings.TrimSpace value /\ 3 <= String.length v /\
  strings.clean strings.spaces (chars v) /\
  strings.clean (map reverse strings.spaces) (reverse (chars v)) /\
  ValidateDAOMemberID name v = Ok v.
Proof.
  unfold ValidateDAOMemberID, MinDAOMemberIDLength.
  destruct (Nat.ltb_spec (String.length (strings.TrimSpace value)) 3) as [|Hlen];
    [done|]. intros [= <-].
  destruct (strings.TrimSpace_trimmed value) as [Hl Hr].
  split_and!; [done..|]. rewrite strings.TrimSpace_idemp.
  by rewrite (proj2 (Nat.ltb_ge _ _)).
Qed.

Lemma ValidateNodePassword_Ok name value v :
  ValidateNodePassword name value = Ok v <-> v = value /\ 12 <= String.length value.
Proof.
  unfold ValidateNodePassword, MinPasswordLength.
  destruct (Nat.ltb_spec (String.length value) 12); [split; [done|lia]|naive_solver].
Qed.

Lemma ValidateWalletMnemonic_Ok name value v :
  ValidateWalletMnemonic name value = Ok v <-> v = value /\ IsMnemonicValid value = true.
Proof. unfold ValidateWalletMnemonic. destruct (IsMnemonicValid value); naive_solver. Qed.

Lemma ValidateArgCount_None c count :
  ValidateArgCount c count = None <-> Z.of_nat (length (Args c)) = count.
Proof. unfold ValidateArgCount. case_decide; naive_solver. Qed.

End Texts.

(** ** Addresses *)

Section Addresses.
Import common.

Lemma hexVal_lt c x : hexVal c = Some x -> (x < 16)%N.
Proof.
  unfold hexVal.
  do 3 (destruct (_ && _) eqn:E;
        [intros [= <-]; apply andb_true_iff in E as [?%N.leb_le ?%N.leb_le]; lia|clear E]).
  done.
Qed.

(** An even number of hexadecimal digits is decoded whole, to half as
    many bytes. *)
Lemma decodePairs_hex n l :
  length l = 2 * n -> forallb isHexCharacter l = true ->
  length (decodePairs l) = n /\ Forall (fun b => (b < 256)%N) (decodePairs l).
Proof.
  revert l. induction n as [|n IH]; intros l Hlen Hhex.
  { by destruct l. }
  destruct l as [|a [|b l]]; simpl in Hlen; try lia. simpl in Hhex.
  apply andb_true_iff in Hhex as [Ha [Hb Hl]%andb_true_iff].
  unfold isHexCharacter in Ha, Hb.
  apply bool_decide_eq_true in Ha as [x Hx], Hb as [y Hy]. simpl. rewrite Hx, Hy.
  destruct (IH l) as [IH1 IH2]; [lia|done|].
  apply hexVal_lt in Hx, Hy. split; [simpl; lia|]. constructor; [lia|done].
Qed.

Lemma BytesToAddress_length b : length (BytesToAddress b) = AddressLength.
Proof.
  unfold BytesToAddress, AddressLength. destruct (Nat.ltb_spec 20 (length b)).
  - rewrite length_drop. lia.
  - rewrite length_app, length_replicate. lia.
Qed.

Lemma BytesToAddress_id b : length b = AddressLength -> BytesToAddress b = b.
Proof. unfold BytesToAddress. intros ->. by rewrite Nat.ltb_irrefl, Nat.sub_diag. Qed.

Lemma has0xPrefix_true l :
  has0xPrefix l = true ->
  exists c ds, l = "0"%char :: c :: ds /\ (c = "x"%char \/ c = "X"%char).
Proof.
  destruct l as [|c0 [|c1 ds]]; try done. simpl.
  intros [->%bool_decide_eq_true ?%bool_decide_eq_true]%andb_true_iff. eauto.
Qed.

(** C36: the address [ValidateAddress] returns is the twenty bytes
    spelled by the forty hexadecimal digits of the text, which may
    follow 0x or 0X; the case of the digits is free and is not checked
    against a checksum. *)
Theorem ValidateAddress_spec `{Libraries} name value a :
  ValidateAddress name value = Ok a ->
  exists ds,
    (chars value = ds \/ chars value = "0"%char :: "x"%char :: ds
     \/ chars value = "0"%char :: "X"%char :: ds) /\
    length ds = 40 /\ forallb isHexCharacter ds = true /\
    a = decodePairs ds /\ length a = 20 /\ Forall (fun b => (b < 256)%N) a.
Proof.
  unfold ValidateAddress, IsHexAddress, HexToAddress, FromHex, isHex.
  set (ds := if has0xPrefix (chars value) then drop 2 (chars value) else chars value).
  destruct (_ && _) eqn:E; [|done]. intros [= <-].
  apply andb_true_iff in E as [Hlen%Nat.eqb_eq [_ Hhex]%andb_true_iff].
  change (2 * AddressLength) with 40 in Hlen. rewrite Hlen. simpl.
  destruct (decodePairs_hex 20 ds) as [Hn Hb]; [done..|].
  rewrite BytesToAddress_id by done. exists ds. split_and!; [|done..].
  subst ds. destruct (has0xPrefix (chars value)) eqn:Hp; [|by left].
  apply has0xPrefix_true in Hp as (c & ds & -> & [->| ->]); auto.
Qed.

End Addresses.

(** ** The validators at work *)

Module ValidationDemo.

(** A reader of floats that knows five texts, and no mnemonic. *)
#[local] Instance libraries : Libraries := {|
  ParseFloat s :=
    if decide (s = "NaN") then Some nan
    else if decide (s = "0.5") then Some 0.5%float
    else if decide (s = "16") then Some 16%float
    else if decide (s = "-0") then Some (-0)%float
    else if decide (s = "+Inf") then Some infinity
    else None;
  IsMnemonicValid _ := false;
|}.

(** Two spaces, the second one U+00A0, around an identifier and before a
    tab and a line feed. *)
Definition padded : string :=
  " " +:+ of_chars [ascii_of_N 194; ascii_of_N 160] +:+ "odao 7"
  +:+ of_chars [ascii_of_N 9; ascii_of_N 10].

Definition mixedCase : string := "0XdeadBEEF00112233445566778899aAbBcCdDeEfF".

Definition addressDemo : common.Address :=
  [222; 173; 190; 239; 0; 17; 34; 51; 68; 85; 102; 119; 136; 153;
   170; 187; 204; 221; 238; 255]%N.

Lemma ValidateUint_pretty_witness :
  ValidateUint "index" (pretty 18446744073709551615%N) = Ok 18446744073709551615%N.
Proof. apply (ValidateUint_pretty "index" 18446744073709551615). by vm_compute. Defined.

(** The bounds of [ValidateUint]: the largest number of 64 bits is
    accepted, the next one is not, and neither are a sign, an
    underscore, a space or the empty text; zeros in front are. *)
Example ValidateUint_bounds :
  ValidateUint "n" "18446744073709551615" = Ok 18446744073709551615%N /\
  is_Ok (ValidateUint "n" "18446744073709551616") = false /\
  is_Ok (ValidateUint "n" "99999999999999999999999999") = false /\
  is_Ok (ValidateUint "n" "+1") = false /\
  is_Ok (ValidateUint "n" "1_000") = false /\
  is_Ok (ValidateUint "n" " 1") = false /\
  is_Ok (ValidateUint "n" "") = false /\
  ValidateUint "n" "007" = Ok 7%N.
Proof. by vm_compute. Qed.

Lemma ValidateTokenType_canonical_witness :
  "reth" ∈ tokenTypes /\ "reth" = strings.ToLower "rETH" /\
  ValidateTokenType "token" "reth" = Ok "reth".
Proof. apply (ValidateTokenType_canonical "token" "rETH" "reth"). by vm_compute. Defined.

Lemma ValidateBurnableTokenType_refines_witness :
  ValidateTokenType "token" "nETH" = Ok "neth".
Proof. apply (ValidateBurnableTokenType_refines "token" "nETH" "neth"). by vm_compute. Defined.

Lemma ValidateFraction_accepts_NaN_witness :
  ValidateFraction "fee" "NaN" = Ok nan /\
  ValidatePercentage "fee" "NaN" = Ok nan /\
  ValidatePositiveEthAmount "fee" "NaN" = Ok nan /\
  is_Ok (ValidateDepositEthAmount "fee" "NaN") = false.
Proof. apply (ValidateFraction_accepts_NaN "fee" "NaN"). reflexivity. Defined.

Lemma float_validators_bounds_witness :
  float64.within 0 1 0.5 /\
  (16 = 0 \/ 16 = -0 \/ 16 = 16 \/ 16 = 32)%float.
Proof.
  split.
  - exact (proj1 (float_validators_bounds "fee" "0.5" 0.5%float) eq_refl).
  - exact (proj2 (proj2 (proj2 (float_validators_bounds "amount" "16" 16%float))) eq_refl).
Defined.

(** An infinite amount is a positive amount, and the negative zero is a
    deposit amount. *)
Example float_validators_accept_infinity :
  ValidatePositiveEthAmount "amount" "+Inf" = Ok infinity /\
  ValidateEthAmount "amount" "+Inf" = Ok infinity /\
  ValidateDepositEthAmount "amount" "-0" = Ok (-0)%float /\
  is_Ok (ValidateFraction "fee" "+Inf") = false.
Proof. by vm_compute. Qed.

Lemma ValidateDAOMemberID_trimmed_witness :
  "odao 7" = strings.TrimSpace padded /\ 3 <= String.length "odao 7" /\
  strings.clean strings.spaces (chars "odao 7") /\
  strings.clean (map reverse strings.spaces) (reverse (chars "odao 7")) /\
  ValidateDAOMemberID "id" "odao 7" = Ok "odao 7".
Proof. apply (ValidateDAOMemberID_trimmed "id" padded "odao 7"). by vm_compute. Defined.

Lemma ValidateAddress_spec_witness :
  exists ds,
    (chars mixedCase = ds \/ chars mixedCase = "0"%char :: "x"%char :: ds
     \/ chars mixedCase = "0"%char :: "X"%char :: ds) /\
    length ds = 40 /\ forallb common.isHexCharacter ds = true /\
    addressDemo = common.decodePairs ds /\ length addressDemo = 20 /\
    Forall (fun b => (b < 256)%N) addressDemo.
Proof. apply (ValidateAddress_spec "address" mixedCase addressDemo). by vm_compute. Defined.

(** [ValidateTimezoneLocation] accepts Europe/Berlin and rejects
    locations of the time zone database that have three parts, a hyphen
    or a plus sign, or one part. *)
Example ValidateTimezoneLocation_rejects_locations :
  ValidateTimezoneLocation "timezone" "Europe/Berlin" = Ok "Europe/Berlin" /\
  is_Ok (ValidateTimezoneLocation "timezone" "America/Argentina/Buenos_Aires") = false /\
  is_Ok (ValidateTimezoneLocation "timezone" "America/Port-au-Prince") = false /\
  is_Ok (ValidateTimezoneLocation "timezone" "Etc/GMT+5") = false /\
  is_Ok (ValidateTimezoneLocation "timezone" "UTC") = false.
Proof. by vm_compute. Qed.

(** What passes for an address of electronic mail, and what does not. *)
Example ValidateDAOMemberEmail_examples :
  ValidateDAOMemberEmail "email" "odao@rocketpool.net" = Ok "odao@rocketpool.net" /\
  ValidateDAOMemberEmail "email" "@@@.@@" = Ok "@@@.@@" /\
  ValidateDAOMemberEmail "email" "a@b..c" = Ok "a@b..c" /\
  is_Ok (ValidateDAOMemberEmail "email" "a@b.c") = false /\
  is_Ok (ValidateDAOMemberEmail "email" "odao@rocketpool") = false /\
  is_Ok (ValidateDAOMemberEmail "email" "o dao@rocketpool.net") = false.
Proof. by vm_compute. Qed.

(** Amounts in wei: signs and zeros in front are read, and a deposit of
    minus zero is a deposit of zero. *)
Example ValidateWeiAmount_examples :
  ValidateWeiAmount "amount" "-0012" = Ok (-12)%Z /\
  ValidateWeiAmount "amount" "+7" = Ok 7%Z /\
  is_Ok (ValidateWeiAmount "amount" "-") = false /\
  is_Ok (ValidateWeiAmount "amount" "1e18") = false /\
  ValidateDepositWeiAmount "amount" "-0" = Ok 0%Z /\
  ValidateDepositWeiAmount "amount" "016000000000000000000" = Ok 16000000000000000000%Z /\
  is_Ok (ValidateDepositWeiAmount "amount" "8000000000000000000") = false /\
  is_Ok (ValidatePositiveWeiAmount "amount" "0") = false.
Proof. by vm_compute. Qed.

End ValidationDemo.
