(* ===== verification/Amounts.v ===== *)
(** * Amounts: the validators of amounts on the floats Go reads

    The validators of amounts of src/shared/utils/cli/validation.go
    ([ValidateEthAmount], [ValidateFraction], [ValidatePercentage],
    [ValidatePositiveEthAmount], [ValidateDepositEthAmount]) call
    [strconv.ParseFloat].  Validation.v proves what their range checks
    let through for every reader of floats; this file puts the reader of
    Atof.v in its place and says which texts the validators accept.

    The theorems: the text [nan], in any case, and no other text, passes
    the range checks as a NaN ([NaN_passes_the_range_checks]); the
    infinities without a minus sign are positive amounts
    ([infinity_is_a_positive_amount]); what else a validator accepts is a
    finite number in the range of the validator ([amounts_in_range]); a
    text with a minus sign is no positive amount, and a fraction only as
    the zero with that sign ([amounts_with_a_minus_sign]); a
    decimal text is accepted as the number it spells, rounded
    ([ValidateEthAmount_decimal]).  Of the texts without an underscore
    and a base prefix, [ValidateEthAmount] accepts the seven words and
    the decimal texts within the range of the format and nothing else
    ([ValidateEthAmount_spec]), and [ValidateDepositEthAmount] the
    decimal texts that round to 0, 16 or 32
    ([ValidateDepositEthAmount_spec]). *)

From Stdlib Require Import Ascii NArith ZArith Lia PrimFloat FloatOps FloatAxioms SpecFloat.
From stdpp Require Import strings list.
From S2P Require Import Prelude Strings Strconv Float64 Atof Decimal Validation.

(** ** Definitions *)

(** The libraries of the validators with the reader of Atof.v; the check
    of mnemonics stays a parameter. *)
Definition goLibraries (IsMnemonicValid : string -> bool) : Libraries := {|
  ParseFloat s := match atof.ParseFloat s with Ok f => Some f | _ => None end;
  IsMnemonicValid := IsMnemonicValid;
|}.

(** The infinities without a minus sign, in lower case. *)
Definition positiveInfinities : list string := ["inf"; "+inf"; "infinity"; "+infinity"].

(** The validators that check a range, or none. *)
Definition rangeValidators `{Libraries} : list (string -> string -> result float) :=
  [ValidateEthAmount; ValidateFraction; ValidatePercentage; ValidatePositiveEthAmount].

(** ** The validators and what [ParseFloat] returned *)

Section Readers.
Context `{Libraries}.
Implicit Types (name value : string) (f : float).

Lemma ValidateEthAmount_Ok name value f :
  ValidateEthAmount name value = Ok f <-> ParseFloat value = Some f.
Proof.
  unfold ValidateEthAmount. destruct (ParseFloat value); [|done].
  split; by intros [= <-].
Qed.

Lemma ValidatePositiveEthAmount_Ok name value f :
  ValidatePositiveEthAmount name value = Ok f <->
  ParseFloat value = Some f /\ (f <=? 0)%float = false.
Proof.
  unfold ValidatePositiveEthAmount, ValidateEthAmount.
  destruct (ParseFloat value) as [x|]; [|by split; [|intros []]].
  destruct (x <=? 0)%float eqn:E; (split; [by intros [= <-]|intros [[= <-] ?]]);
    congruence.
Qed.

Lemma ValidateDepositEthAmount_Ok name value f :
  ValidateDepositEthAmount name value = Ok f <->
  ParseFloat value = Some f /\ ((f =? 0) || (f =? 16) || (f =? 32))%float = true.
Proof.
  unfold ValidateDepositEthAmount, ValidateEthAmount.
  destruct (ParseFloat value) as [x|]; [|by split; [|intros []]].
  destruct ((x =? 0) || (x =? 16) || (x =? 32))%float eqn:E;
    simpl; (split; [by intros [= <-]|intros [[= <-] ?]]); congruence.
Qed.

(** A validator that accepts a text returns what [ParseFloat] read. *)
Lemma rangeValidators_Ok V name value f :
  V ∈ rangeValidators -> V name value = Ok f -> ParseFloat value = Some f.
Proof.
  unfold rangeValidators. rewrite !elem_of_cons, elem_of_nil.
  intros [->|[->|[->|[->|[]]]]].
  - by intros ?%ValidateEthAmount_Ok.
  - by intros [? _]%ValidateFraction_Ok.
  - by intros [? _]%ValidatePercentage_Ok.
  - by intros [? _]%ValidatePositiveEthAmount_Ok.
Qed.

(** No comparison with a NaN holds: the range checks pass. *)
Lemma rangeValidators_nan V name value :
  V ∈ rangeValidators -> ParseFloat value = Some nan -> V name value = Ok nan.
Proof.
  unfold rangeValidators. rewrite !elem_of_cons, elem_of_nil.
  intros [->|[->|[->|[->|[]]]]] Hp;
    unfold ValidateFraction, ValidatePercentage, ValidatePositiveEthAmount,
      ValidateEthAmount; by rewrite Hp.
Qed.

End Readers.

(** ** The validators on the seven words *)

Section Amounts.
Context (mnemonic : string -> bool).
#[local] Instance go : Libraries := goLibraries mnemonic.
Implicit Types (name value : string) (f : float).

Lemma ParseFloat_go value f :
  ParseFloat value = Some f <-> atof.ParseFloat value = Ok f.
Proof. cbn. destruct (atof.ParseFloat value); naive_solver. Qed.

(** A float that is a NaN is the NaN. *)
Lemma is_nan_eq f : is_nan f = true -> f = nan.
Proof.
  rewrite float64.is_nan_spec. intros Hf. apply Prim2SF_inj.
  by destruct (Prim2SF f).
Qed.

(** The words of [atof.specials] by their values. *)
Lemma specialValue_nan w : w ∈ atof.specials -> atof.specialValue w = nan -> w = "nan".
Proof.
  unfold atof.specials. rewrite !elem_of_cons, elem_of_nil.
  intros [->|[->|[->|[->|[->|[->|[->|[]]]]]]]]; by vm_compute.
Qed.

Lemma specialValue_infinity w :
  w ∈ atof.specials -> atof.specialValue w = infinity <-> w ∈ positiveInfinities.
Proof.
  unfold atof.specials, positiveInfinities. rewrite !elem_of_cons, !elem_of_nil.
  intros [->|[->|[->|[->|[->|[->|[->|[]]]]]]]]; vm_compute;
    (split; [intros ?|intros ?]); try done; intuition congruence.
Qed.

Lemma positiveInfinities_specials w : w ∈ positiveInfinities -> w ∈ atof.specials.
Proof.
  unfold atof.specials, positiveInfinities. rewrite !elem_of_cons, !elem_of_nil.
  intuition auto.
Qed.

(** A text is read as the NaN or as the infinity when it is one of
    their words. *)
Lemma ParseFloat_nan value : ParseFloat value = Some nan <-> strings.ToLower value = "nan".
Proof.
  rewrite ParseFloat_go. split.
  - intros [(w & Hw & <- & Hv)|Hf]%atof.ParseFloat_finite; [|done].
    by apply specialValue_nan.
  - apply (atof.ParseFloat_special value "nan"), list_elem_of_here.
Qed.

Lemma ParseFloat_infinity value :
  ParseFloat value = Some infinity <-> strings.ToLower value ∈ positiveInfinities.
Proof.
  rewrite ParseFloat_go. split.
  - intros [(w & Hw & <- & Hv)|Hf]%atof.ParseFloat_finite; [|done].
    by apply specialValue_infinity.
  - intros Hw. pose proof (positiveInfinities_specials _ Hw) as Hs.
    rewrite <-(proj2 (specialValue_infinity _ Hs) Hw).
    by apply atof.ParseFloat_special.
Qed.

(** C33: the range checks on a NaN.  Each of [ValidateEthAmount],
    [ValidateFraction], [ValidatePercentage] and
    [ValidatePositiveEthAmount] returns the NaN exactly on the text
    [nan], in any case of its letters: [strconv.ParseFloat] reads that
    word as the NaN, and no comparison of a range check holds of a NaN.
    [ValidateDepositEthAmount], which tests equalities, never returns a
    NaN. *)
Theorem NaN_passes_the_range_checks V name value :
  V ∈ rangeValidators ->
  (V name value = Ok nan <-> strings.ToLower value = "nan") /\
  ValidateDepositEthAmount name value <> Ok nan.
Proof.
  intros HV. split; [rewrite <-ParseFloat_nan; split|].
  - by apply rangeValidators_Ok.
  - by apply rangeValidators_nan.
  - by intros [_ ?]%ValidateDepositEthAmount_Ok.
Qed.

(** An infinite amount.  [ValidateEthAmount] and
    [ValidatePositiveEthAmount] return the infinity exactly on the words
    [inf] and [infinity], with a plus sign or without, in any case; the
    validators with a range return no infinity. *)
Theorem infinity_is_a_positive_amount name value :
  (ValidatePositiveEthAmount name value = Ok infinity
     <-> strings.ToLower value ∈ positiveInfinities) /\
  (ValidateEthAmount name value = Ok infinity
     <-> strings.ToLower value ∈ positiveInfinities) /\
  ValidateFraction name value <> Ok infinity /\
  ValidatePercentage name value <> Ok infinity /\
  ValidateDepositEthAmount name value <> Ok infinity.
Proof.
  rewrite <-ParseFloat_infinity, ValidatePositiveEthAmount_Ok, ValidateEthAmount_Ok.
  split_and!; [split; [by intros [? _]|done]|done|..].
  - by intros [_ ?]%ValidateFraction_Ok.
  - by intros [_ ?]%ValidatePercentage_Ok.
  - by intros [_ ?]%ValidateDepositEthAmount_Ok.
Qed.

(** What [ParseFloat] reads is the NaN, an infinity or a finite
    number. *)
Lemma ParseFloat_cases value f :
  ParseFloat value = Some f ->
  f = nan \/ f = infinity \/ f = neg_infinity \/ is_finite f = true.
Proof.
  intros [(w & Hw & _ & ->)|Hf]%ParseFloat_go%atof.ParseFloat_finite; [|auto].
  unfold atof.specials in Hw. rewrite !elem_of_cons, elem_of_nil in Hw.
  destruct Hw as [->|[->|[->|[->|[->|[->|[->|[]]]]]]]]; vm_compute; auto.
Qed.

Lemma is_finite_not_nan f : is_finite f = true -> is_nan f = false.
Proof. unfold is_finite. by intros [? _]%negb_true_iff%orb_false_iff. Qed.

(** What passes a range check, the NaN apart, is a finite number of the
    range, the ends included. *)
Lemma passes_finite (lo hi : float) value f :
  is_nan lo = false -> is_nan hi = false ->
  float64.passes lo hi infinity = false -> float64.passes lo hi neg_infinity = false ->
  ParseFloat value = Some f -> float64.passes lo hi f = true ->
  f = nan \/ (is_finite f = true /\ (lo <=? f)%float = true /\ (f <=? hi)%float = true).
Proof.
  intros Hlo Hhi Hinf Hneg [->|[->|[->|Hf]]]%ParseFloat_cases Hp; [by left|congruence..|].
  right. split; [done|].
  destruct (float64.passes_sound lo hi f Hlo Hhi Hp) as [Hn|Hr]; [|done].
  by rewrite (is_finite_not_nan f Hf) in Hn.
Qed.

(** The test of a deposit amount holds of four floats. *)
Lemma deposit_values f :
  ((f =? 0) || (f =? 16) || (f =? 32))%float = true <->
  f = 0%float \/ f = (-0)%float \/ f = 16%float \/ f = 32%float.
Proof.
  split.
  - intros [[H0|H16]%orb_true_iff|H32]%orb_true_iff.
    + apply float64.eqb_zero in H0. tauto.
    + apply float64.eqb_finite in H16; auto.
    + apply float64.eqb_finite in H32; auto.
  - by intros [->|[->|[->| ->]]].
Qed.

(** The amounts a validator returns.  A fraction is the NaN or a finite
    number from 0 to 1, a percentage the NaN or a finite number from 0
    to 100, a positive amount the NaN, the infinity or a finite number
    above 0, a deposit amount one of 0, -0, 16 and 32. *)
Theorem amounts_in_range name value f :
  (ValidateFraction name value = Ok f ->
     f = nan \/ (is_finite f = true /\ (0 <=? f)%float = true /\ (f <=? 1)%float = true)) /\
  (ValidatePercentage name value = Ok f ->
     f = nan \/ (is_finite f = true /\ (0 <=? f)%float = true /\ (f <=? 100)%float = true)) /\
  (ValidatePositiveEthAmount name value = Ok f ->
     f = nan \/ f = infinity \/ (is_finite f = true /\ (0 <? f)%float = true)) /\
  (ValidateDepositEthAmount name value = Ok f ->
     f = 0%float \/ f = (-0)%float \/ f = 16%float \/ f = 32%float).
Proof.
  split_and!.
  - intros [Hp Hr]%ValidateFraction_Ok. by apply (passes_finite 0 1 value).
  - intros [Hp Hr]%ValidatePercentage_Ok. by apply (passes_finite 0 100 value).
  - intros [[->|[->|[->|Hf]]]%ParseFloat_cases Hr]%ValidatePositiveEthAmount_Ok; auto.
    right; right. split; [done|].
    by apply float64.leb_false_ltb; [|apply is_finite_not_nan|].
  - by intros [_ Hr%deposit_values]%ValidateDepositEthAmount_Ok.
Qed.

(** A decimal text is an amount: the number it spells, rounded to the
    nearest float; a number too large for a float is refused. *)
Theorem ValidateEthAmount_decimal name t :
  atof.wellFormed t = true ->
  ValidateEthAmount name (of_chars (atof.render t))
  = (if is_infinity (atof.valueOf (atof.meaning t))
     then Err (invalid name (of_chars (atof.render t)) "")
     else Ok (atof.valueOf (atof.meaning t))).
Proof.
  intros Ht. unfold ValidateEthAmount. cbn [ParseFloat go goLibraries].
  rewrite atof.ParseFloat_decimal by done.
  by destruct (is_infinity _).
Qed.

(** ** Amounts with a minus sign *)

(** What [ParseFloat] reads from a text that begins with the minus sign
    has that sign. *)
Lemma ParseFloat_minus value f :
  head (chars value) = Some "-"%char -> ParseFloat value = Some f ->
  float64.signOf (Prim2SF f) = Some true.
Proof.
  intros Hm Hp. pose proof Hp as [->|Hs]%ParseFloat_go%atof.ParseFloat_sign.
  - apply ParseFloat_nan, atof.head_ToLower_minus in Hp.
    by rewrite (bool_decide_eq_true_2 _ Hm) in Hp.
  - by rewrite (bool_decide_eq_true_2 _ Hm) in Hs.
Qed.

Lemma passes_zero hi f : float64.passes 0 hi f = true -> (f <? 0)%float = false.
Proof. unfold float64.passes. by intros [? _]%negb_true_iff%orb_false_iff. Qed.

(** A text that begins with the minus sign is no positive amount, and
    it is a fraction or a percentage only as the zero with the sign
    minus, which the test [val < 0] lets through. *)
Theorem amounts_with_a_minus_sign name value f :
  head (chars value) = Some "-"%char ->
  ValidatePositiveEthAmount name value <> Ok f /\
  (ValidateFraction name value = Ok f -> f = (-0)%float) /\
  (ValidatePercentage name value = Ok f -> f = (-0)%float).
Proof.
  intros Hm. split_and!.
  - intros [Hp Hr]%ValidatePositiveEthAmount_Ok.
    by rewrite (float64.leb_zero_sign f (ParseFloat_minus value f Hm Hp)) in Hr.
  - intros [Hp Hr%passes_zero]%ValidateFraction_Ok.
    by apply float64.ltb_zero_sign; [eapply ParseFloat_minus|].
  - intros [Hp Hr%passes_zero]%ValidatePercentage_Ok.
    by apply float64.ltb_zero_sign; [eapply ParseFloat_minus|].
Qed.

(** ** The texts accepted *)

(** The amounts of ether.  Of the texts without an underscore and a
    base prefix, [ValidateEthAmount] accepts the seven words, as the NaN
    and the infinities, and the decimal texts whose number is within the
    range of the format, as that number, rounded; it accepts no other
    text. *)
Theorem ValidateEthAmount_spec name value f :
  Forall (fun c => decimal.usual c = true) (chars value) ->
  ValidateEthAmount name value = Ok f <->
    (strings.ToLower value ∈ atof.specials /\
     f = atof.specialValue (strings.ToLower value)) \/
    (exists t, atof.wellFormed t = true /\ chars value = atof.render t /\
       f = atof.valueOf (atof.meaning t) /\ is_infinity f = false).
Proof.
  intros Hu. rewrite ValidateEthAmount_Ok, ParseFloat_go.
  by apply decimal.ParseFloat_usual.
Qed.

(** C15: the deposit amounts.  With the reader of Go ([goLibraries]) and
    of the texts with no underscore and no letter x,
    [ValidateDepositEthAmount] accepts exactly the decimal texts whose
    number rounds to 0, 16 or 32, and returns the float: the comparison
    is made after the rounding, so a number next to 16 that rounds to it
    is a deposit amount, a zero keeps its sign, and the NaN and the
    infinities the other amounts admit are refused. *)
Theorem ValidateDepositEthAmount_spec name value f :
  Forall (fun c => decimal.usual c = true) (chars value) ->
  @ValidateDepositEthAmount (goLibraries mnemonic) name value = Ok f <->
    (f = 0%float \/ f = (-0)%float \/ f = 16%float \/ f = 32%float) /\
    exists t, atof.wellFormed t = true /\ chars value = atof.render t /\
      f = atof.valueOf (atof.meaning t).
Proof.
  intros Hu. change (goLibraries mnemonic) with go.
  rewrite ValidateDepositEthAmount_Ok, ParseFloat_go, (decimal.ParseFloat_usual _ _ Hu),
    deposit_values.
  split.
  - intros [[[Hw ->]|(t & Ht & Hc & Hf & _)] Hv]; [exfalso|by eauto].
    revert Hw Hv. generalize (strings.ToLower value). intros w. unfold atof.specials.
    rewrite !elem_of_cons, elem_of_nil.
    by intros [->|[->|[->|[->|[->|[->|[->|[]]]]]]]] [Hv|[Hv|[Hv|Hv]]].
  - intros [Hv (t & Ht & Hc & Hf)]. split; [right|done]. exists t. split_and!; [done..|].
    by destruct Hv as [->|[->|[->| ->]]].
Qed.

End Amounts.

(** ** The validators on concrete texts *)

Module AmountsDemo.
#[local] Open Scope float_scope.

(** No text is a mnemonic here: the amounts do not ask. *)
Definition noMnemonic (s : string) : bool := false.
#[local] Instance go : Libraries := goLibraries noMnemonic.

Lemma NaN_passes_the_range_checks_witness :
  ValidatePercentage ∈ rangeValidators /\
  (ValidatePercentage "fee" "NaN" = Ok nan <-> strings.ToLower "NaN" = "nan"%string) /\
  ValidateDepositEthAmount "fee" "NaN" <> Ok nan.
Proof.
  assert (ValidatePercentage ∈ rangeValidators) as Hv
    by (unfold rangeValidators; rewrite !elem_of_cons; auto).
  exact (conj Hv (NaN_passes_the_range_checks noMnemonic ValidatePercentage "fee" "NaN" Hv)).
Defined.

Lemma ValidateEthAmount_decimal_witness :
  let t := atof.mkDecimal atof.MinusSign [1; 2]%N (Some [5]%N) (Some ("e"%char, atof.PlusSign, [0; 3]%N)) in
  atof.wellFormed t = true /\
  of_chars (atof.render t) = "-12.5e+03"%string /\
  ValidateEthAmount "amount" "-12.5e+03" = Ok (-12500).
Proof.
  intros t. assert (atof.wellFormed t = true) as Ht by done.
  split_and!; [done..|].
  exact (ValidateEthAmount_decimal noMnemonic "amount" t Ht).
Defined.

Lemma amounts_with_a_minus_sign_witness :
  head (chars "-1e-400") = Some "-"%char /\
  ValidatePositiveEthAmount "amount" "-1e-400" <> Ok (-0) /\
  (ValidateFraction "fraction" "-1e-400" = Ok (-0) -> (-0) = (-0)) /\
  (ValidatePercentage "fraction" "-1e-400" = Ok (-0) -> (-0) = (-0)).
Proof.
  split; [done|].
  destruct (amounts_with_a_minus_sign noMnemonic "amount" "-1e-400" (-0) eq_refl)
    as (Hp & _).
  destruct (amounts_with_a_minus_sign noMnemonic "fraction" "-1e-400" (-0) eq_refl)
    as (_ & Hf & Hc).
  exact (conj Hp (conj Hf Hc)).
Defined.

Lemma sixteen_usual :Forall (fun c => decimal.usual c = true) (chars "1.6e1").
Proof. repeat constructor. Qed.

Lemma ValidateEthAmount_spec_witness :
  Forall (fun c => decimal.usual c = true) (chars "1.6e1") /\
  (ValidateEthAmount "amount" "1.6e1" = Ok 16 <->
   (strings.ToLower "1.6e1" ∈ atof.specials /\
    16 = atof.specialValue (strings.ToLower "1.6e1")) \/
   (exists t, atof.wellFormed t = true /\ chars "1.6e1" = atof.render t /\
      16 = atof.valueOf (atof.meaning t) /\ is_infinity 16 = false)).
Proof.
  exact (conj sixteen_usual
           (ValidateEthAmount_spec noMnemonic "amount" "1.6e1" 16 sixteen_usual)).
Defined.

Lemma ValidateDepositEthAmount_spec_witness :
  Forall (fun c => decimal.usual c = true) (chars "1.6e1") /\
  (ValidateDepositEthAmount "amount" "1.6e1" = Ok 16 <->
   (16 = 0 \/ 16 = (-0) \/ 16 = 16 \/ 16 = 32) /\
   exists t, atof.wellFormed t = true /\ chars "1.6e1" = atof.render t /\
     16 = atof.valueOf (atof.meaning t)).
Proof.
  exact (conj sixteen_usual
           (ValidateDepositEthAmount_spec noMnemonic "amount" "1.6e1" 16 sixteen_usual)).
Defined.

(** The NaN is a fraction, a percentage and a positive amount, in any
    case of its letters; with a sign it is no number. *)
Example NaN_is_accepted :
  ValidateFraction "fraction" "NaN" = Ok nan
  /\ ValidatePercentage "fee" "nan" = Ok nan
  /\ ValidatePositiveEthAmount "amount" "nAn" = Ok nan
  /\ ValidateFraction "fraction" "+NaN" = Err (invalid "fraction" "+NaN" " - must be a number between 0 and 1")
  /\ is_Ok (ValidateDepositEthAmount "amount" "NaN") = false.
Proof. by vm_compute. Qed.

(** An infinity is a positive amount of ether; it is no fraction. *)
Example infinity_is_accepted :
  Forall (fun s => ValidatePositiveEthAmount "amount" s = Ok infinity)
    ["Inf"; "+Inf"; "inf"; "Infinity"; "+INFINITY"]%string
  /\ is_Ok (ValidatePositiveEthAmount "amount" "-Inf") = false
  /\ ValidateEthAmount "amount" "-Inf" = Ok neg_infinity
  /\ is_Ok (ValidateFraction "fraction" "Inf") = false
  /\ is_Ok (ValidatePositiveEthAmount "amount" "1e309") = false.
Proof. split_and!; [repeat constructor|by vm_compute..]. Qed.

(** A deposit amount is compared after rounding: every spelling of 16,
    and every text within half a unit in the last place of 16, is a
    deposit amount. *)
Example deposit_amounts :
  Forall (fun s => ValidateDepositEthAmount "amount" s = Ok 16)
    ["16"; "16.0"; "1.6e1"; "0x10p0"; "1_6"; "16.000000000000001"; "15.9999999999999995"]%string
  /\ ValidateDepositEthAmount "amount" "-0" = Ok (-0)
  /\ ValidateDepositEthAmount "amount" "1e-400" = Ok 0
  /\ is_Ok (ValidateDepositEthAmount "amount" "16.00000000000001") = false.
Proof. split_and!; [repeat constructor|by vm_compute..]. Qed.

(** The ends of a range are compared after rounding too: a text above 1
    by less than half a unit in the last place is the fraction 1, a text
    below 0 that rounds to zero is the fraction -0. *)
Example range_ends :
  ValidateFraction "fraction" "1.00000000000000001" = Ok 1
  /\ ValidateFraction "fraction" "-1e-400" = Ok (-0)
  /\ ValidatePercentage "fee" "100.000000000000001" = Ok 100
  /\ is_Ok (ValidateFraction "fraction" "1.0000000000000003") = false
  /\ is_Ok (ValidatePercentage "fee" "-0.1") = false.
Proof. by vm_compute. Qed.

End AmountsDemo.
