(* ===== verification/EnsName.v ===== *)
(** * EnsName: the two commands that set the ENS name and avatar

    Models src/rocketpool-cli/wallet/ens-name.go.  [setEnsName] and
    [setEnsAvatar] open a client of the daemon, print what they are about
    to do, ask the daemon for a gas estimate, let the user settle the
    fees, ask for a confirmation, send one transaction and wait for it.

    A command is a program on the trace of what it did: every call of
    the client, every prompt and every print is an [event], in order.
    What the daemon and the user answer is a record [answers]; a command
    is a function of its arguments and of the answers.  The statement
    [defer rp.Close()] is [defer]: the event [EClose] comes last on every
    path that opened the client.

    The theorems: the client is closed exactly when it was opened; a
    transaction is sent at most once, and only after the estimate, the
    fees and a confirmation answered yes; an answer no sends nothing and
    is not an error; the flag --yes reaches the fees and leaves the
    confirmation in place; the events of a successful run in order.

    What the commands have to follow is stated apart from them, as the
    protocol of a transaction: a labelled step relation [protocol]
    between the phases of a command, its traces [accepts], and the
    function [delta] that computes it where hashes can be compared.  The
    protocol promises that what is sent is what the estimate was asked
    for ([protocol_safe], by induction on the traces); every run of the
    two commands is a trace of it ([command_follows_protocol]), so the
    commands keep that promise ([transaction_is_the_one_estimated]).
    Module [EnsNameDemo] runs the commands on a concrete daemon. *)

From Stdlib Require Import Ascii ZArith.
From stdpp Require Import strings list.
From S2P Require Import Prelude Strconv Validation.

Module wallet.

(** ** Definitions *)

Definition nl : string := String (ascii_of_nat 10) "".
Definition esc : string := String (ascii_of_nat 27) "".

(** The two colours of the package, declared in another file of it: the
    ANSI sequences that reset the colour and select yellow.  No theorem
    depends on their value. *)
Definition colorReset : string := esc +:+ "[0m".
Definition colorYellow : string := esc +:+ "[33m".

Section Commands.
Context {GasInfo TxHash : Type}.

(** What a command does, as seen from outside. *)
Inductive event : Type :=
  | ENewClient
  | EClose
  | EPrint (text : string)
  | EEstimateGasSetEnsName (name : string)
  | EEstimateGasSetEnsAvatar (ercType : string) (contractAddress : common.Address)
      (tokenId : Z)
  | EAssignMaxFeeAndLimit (gasInfo : GasInfo) (yes : bool)
  | EConfirm (prompt : string)
  | ESetEnsName (name : string)
  | ESetEnsAvatar (ercType : string) (contractAddress : common.Address) (tokenId : Z)
  | EPrintTransactionHash (hash : TxHash)
  | EWaitForTransaction (hash : TxHash).

(** What the context, the daemon and the user answer. *)
Record answers : Type := mkAnswers {
  yes : bool;
  NewClientFromCtx : option error;
  EstimateGasSetEnsName : string -> result GasInfo;
  EstimateGasSetEnsAvatar : string -> common.Address -> Z -> result GasInfo;
  AssignMaxFeeAndLimit : GasInfo -> bool -> option error;
  Confirm : string -> bool;
  SetEnsName : string -> result TxHash;
  SetEnsAvatar : string -> common.Address -> Z -> result TxHash;
  WaitForTransaction : TxHash -> option error;
  Hex : common.Address -> string;
}.

Definition trace : Type := list event.

Definition emit (e : event) : prog trace unit := modify (fun t => t ++ [e]).

(** A call that returns a value and an error. *)
Definition call {A} (e : event) (r : result A) : prog trace A := emit e ;; lift r.

(** A call that returns an error or nil. *)
Definition callErr (e : event) (r : option error) : prog trace unit :=
  emit e ;;
  match r with
  | Some err => throw err
  | None => ret tt
  end.

(** [defer d] before [body]: [d] runs when [body] is left, whatever its
    outcome. *)
Definition defer {A} (d : prog trace unit) (body : prog trace A) : prog trace A :=
  fun t => let r := body t in (r.1, (d r.2).2).

Definition confirmNamePrompt : string :=
  "Are you sure you want to confirm your node's ENS name?".

Definition confirmAvatarPrompt : string :=
  "Are you sure you want to confirm your node's ENS avatar?".

Definition setEnsName (a : answers) (name : string) : prog trace unit :=
  callErr ENewClient (NewClientFromCtx a) ;;
  defer (emit EClose)
    (emit (EPrint ("This will confirm the node's ENS name as '" +:+ name +:+ "'." +:+ nl
                   +:+ nl +:+ colorYellow
                   +:+ "NOTE: to confirm your name, you must first register it with the ENS application at https://app.ens.domains."
                   +:+ nl
                   +:+ "We recommend using a hardware wallet as the base domain, and registering your node as a subdomain of it."
                   +:+ colorReset +:+ nl +:+ nl)) ;;
     estimateGasSetName <- call (EEstimateGasSetEnsName name)
                             (EstimateGasSetEnsName a name) ;;
     callErr (EAssignMaxFeeAndLimit estimateGasSetName (yes a))
       (AssignMaxFeeAndLimit a estimateGasSetName (yes a)) ;;
     emit (EConfirm confirmNamePrompt) ;;
     if negb (Confirm a confirmNamePrompt) then
       emit (EPrint ("Cancelled." +:+ nl))
     else
       response <- call (ESetEnsName name) (SetEnsName a name) ;;
       emit (EPrint ("Setting ENS name..." +:+ nl)) ;;
       emit (EPrintTransactionHash response) ;;
       callErr (EWaitForTransaction response) (WaitForTransaction a response) ;;
       emit (EPrint ("The ENS name associated with your node account is now '"
                     +:+ name +:+ "'." +:+ nl +:+ nl))).

(** ['%s:%s:%s'] of the type, the address and the token.  The first
    print formats [contractAddress.Hex()] and [tokenId.String()], the
    last one the address and the token themselves; with the verb [%s]
    both types format as those two methods do, so the two texts are one
    definition. *)
Definition avatar (a : answers) (ercType : string) (contractAddress : common.Address)
    (tokenId : Z) : string :=
  ercType +:+ ":" +:+ Hex a contractAddress +:+ ":" +:+ strconv.bigString tokenId.

Definition setEnsAvatar (a : answers) (ercType : string)
    (contractAddress : common.Address) (tokenId : Z) : prog trace unit :=
  callErr ENewClient (NewClientFromCtx a) ;;
  defer (emit EClose)
    (emit (EPrint ("This will confirm the node's ENS avatar as '"
                   +:+ avatar a ercType contractAddress tokenId +:+ "'." +:+ nl +:+ nl
                   +:+ colorReset +:+ nl +:+ nl)) ;;
     estimateGasSetName <- call (EEstimateGasSetEnsAvatar ercType contractAddress tokenId)
                             (EstimateGasSetEnsAvatar a ercType contractAddress tokenId) ;;
     callErr (EAssignMaxFeeAndLimit estimateGasSetName (yes a))
       (AssignMaxFeeAndLimit a estimateGasSetName (yes a)) ;;
     emit (EConfirm confirmAvatarPrompt) ;;
     if negb (Confirm a confirmAvatarPrompt) then
       emit (EPrint ("Cancelled." +:+ nl))
     else
       response <- call (ESetEnsAvatar ercType contractAddress tokenId)
                     (SetEnsAvatar a ercType contractAddress tokenId) ;;
       emit (EPrint ("Setting ENS avatar..." +:+ nl)) ;;
       emit (EPrintTransactionHash response) ;;
       callErr (EWaitForTransaction response) (WaitForTransaction a response) ;;
       emit (EPrint ("The ENS avatar associated with your node account is now '"
                     +:+ avatar a ercType contractAddress tokenId +:+ "'." +:+ nl +:+ nl))).

(** ** The shape the two commands share *)

(** A command of this file, given its two calls and its four texts. *)
Definition command (a : answers) (intro : string)
    (estimateE : event) (estimateR : result GasInfo) (prompt : string)
    (sendE : event) (sendR : result TxHash) (progress finished : string) :
    prog trace unit :=
  callErr ENewClient (NewClientFromCtx a) ;;
  defer (emit EClose)
    (emit (EPrint intro) ;;
     g <- call estimateE estimateR ;;
     callErr (EAssignMaxFeeAndLimit g (yes a)) (AssignMaxFeeAndLimit a g (yes a)) ;;
     emit (EConfirm prompt) ;;
     if negb (Confirm a prompt) then emit (EPrint ("Cancelled." +:+ nl))
     else
       h <- call sendE sendR ;;
       emit (EPrint progress) ;;
       emit (EPrintTransactionHash h) ;;
       callErr (EWaitForTransaction h) (WaitForTransaction a h) ;;
       emit (EPrint finished)).

(** The events that send a transaction. *)
Definition sends (e : event) : bool :=
  match e with
  | ESetEnsName _ | ESetEnsAvatar _ _ _ => true
  | _ => false
  end.

(** The events of a run, from the empty trace. *)
Definition run {A} (c : prog trace A) : result A * trace := c [].

(** ** The protocol of a transaction

    What the two commands have to follow, stated without them: the
    daemon is asked an estimate for what will be sent, the fees are
    settled, the user is asked with the prompt of what will be sent, and
    then that is sent or the command is cancelled; the hash waited for is
    the hash that was printed; the client is closed last. *)

(** What a command sets. *)
Inductive subject : Type :=
  | Name (name : string)
  | Avatar (ercType : string) (contractAddress : common.Address) (tokenId : Z).

Definition promptOf (s : subject) : string :=
  match s with
  | Name _ => confirmNamePrompt
  | Avatar _ _ _ => confirmAvatarPrompt
  end.

Definition estimateOf (s : subject) : event :=
  match s with
  | Name name => EEstimateGasSetEnsName name
  | Avatar ercType contractAddress tokenId =>
      EEstimateGasSetEnsAvatar ercType contractAddress tokenId
  end.

Definition sendOf (s : subject) : event :=
  match s with
  | Name name => ESetEnsName name
  | Avatar ercType contractAddress tokenId => ESetEnsAvatar ercType contractAddress tokenId
  end.

(** How far a command is. *)
Inductive phase : Type :=
  | Start
  | Opened
  | Announced
  | Estimated (s : subject)
  | Priced (s : subject)
  | Asked (s : subject)
  | Cancelled
  | Sent
  | Reported
  | Hashed (hash : TxHash)
  | Waited
  | Finished
  | Closed (from : phase).

(** The client is open. *)
Definition isOpen (ph : phase) : bool :=
  match ph with
  | Start | Closed _ => false
  | _ => true
  end.

(** One event of the protocol. *)
Inductive protocol : phase -> event -> phase -> Prop :=
  | protocol_open : protocol Start ENewClient Opened
  | protocol_announce text : protocol Opened (EPrint text) Announced
  | protocol_estimate s : protocol Announced (estimateOf s) (Estimated s)
  | protocol_price s gasInfo flag :
      protocol (Estimated s) (EAssignMaxFeeAndLimit gasInfo flag) (Priced s)
  | protocol_ask s : protocol (Priced s) (EConfirm (promptOf s)) (Asked s)
  | protocol_cancel s text : protocol (Asked s) (EPrint text) Cancelled
  | protocol_send s : protocol (Asked s) (sendOf s) Sent
  | protocol_report text : protocol Sent (EPrint text) Reported
  | protocol_hash hash : protocol Reported (EPrintTransactionHash hash) (Hashed hash)
  | protocol_wait hash : protocol (Hashed hash) (EWaitForTransaction hash) Waited
  | protocol_finish text : protocol Waited (EPrint text) Finished
  | protocol_close ph : isOpen ph = true -> protocol ph EClose (Closed ph).

(** A trace of the protocol, from a phase to a phase. *)
Inductive accepts : phase -> trace -> phase -> Prop :=
  | accepts_nil ph : accepts ph [] ph
  | accepts_cons ph e ph' t ph'' :
      protocol ph e ph' -> accepts ph' t ph'' -> accepts ph (e :: t) ph''.

(** The place of a phase in the protocol: every event moves to a phase
    of higher rank. *)
Definition rank (ph : phase) : nat :=
  match ph with
  | Start => 0
  | Opened => 1
  | Announced => 2
  | Estimated _ => 3
  | Priced _ => 4
  | Asked _ => 5
  | Cancelled | Sent => 6
  | Reported => 7
  | Hashed _ => 8
  | Waited => 9
  | Finished => 10
  | Closed _ => 11
  end.

(** The command is over and did what it was asked, or was cancelled by
    the user. *)
Definition completed (ph : phase) : bool :=
  match ph with
  | Closed Cancelled | Closed Finished => true
  | _ => false
  end.

End Commands.

Arguments event : clear implicits.
Arguments answers : clear implicits.
Arguments trace : clear implicits.
Arguments phase : clear implicits.

(** The protocol as a function, where hashes can be compared. *)
Section Delta.
Context {GasInfo TxHash : Type} `{EqDecision TxHash}.

Definition delta (ph : phase TxHash) (e : event GasInfo TxHash) : option (phase TxHash) :=
  match ph, e with
  | Start, ENewClient => Some Opened
  | Opened, EPrint _ => Some Announced
  | Announced, EEstimateGasSetEnsName name => Some (Estimated (Name name))
  | Announced, EEstimateGasSetEnsAvatar ercType contractAddress tokenId =>
      Some (Estimated (Avatar ercType contractAddress tokenId))
  | Estimated s, EAssignMaxFeeAndLimit _ _ => Some (Priced s)
  | Priced s, EConfirm prompt => if decide (prompt = promptOf s) then Some (Asked s) else None
  | Asked _, EPrint _ => Some Cancelled
  | Asked (Name name), ESetEnsName name' => if decide (name' = name) then Some Sent else None
  | Asked (Avatar ercType contractAddress tokenId), ESetEnsAvatar ercType' address' tokenId' =>
      if decide (ercType' = ercType /\ address' = contractAddress /\ tokenId' = tokenId)
      then Some Sent else None
  | Sent, EPrint _ => Some Reported
  | Reported, EPrintTransactionHash hash => Some (Hashed hash)
  | Hashed hash, EWaitForTransaction hash' => if decide (hash' = hash) then Some Waited else None
  | Waited, EPrint _ => Some Finished
  | ph, EClose => if isOpen ph then Some (Closed ph) else None
  | _, _ => None
  end.

(** The phase after a trace, when the protocol accepts it. *)
Fixpoint deltas (ph : phase TxHash) (t : trace GasInfo TxHash) : option (phase TxHash) :=
  match t with
  | [] => Some ph
  | e :: t' => match delta ph e with
               | Some ph' => deltas ph' t'
               | None => None
               end
  end.

End Delta.

(** ** The runs of the two commands *)

(** Runs a command on every combination of answers. *)
Ltac crunch :=
  unfold run, setEnsName, setEnsAvatar, command, defer, call, callErr, emit, bind,
    modify, lift, throw, ret;
  simpl;
  repeat (match goal with
          | |- context [NewClientFromCtx ?a] => destruct (NewClientFromCtx a) eqn:?
          | |- context [EstimateGasSetEnsName ?a ?n] =>
              destruct (EstimateGasSetEnsName a n) eqn:?
          | |- context [EstimateGasSetEnsAvatar ?a ?x ?y ?z] =>
              destruct (EstimateGasSetEnsAvatar a x y z) eqn:?
          | |- context [AssignMaxFeeAndLimit ?a ?g ?y] =>
              destruct (AssignMaxFeeAndLimit a g y) eqn:?
          | |- context [Confirm ?a ?p] => destruct (Confirm a p) eqn:?
          | |- context [SetEnsName ?a ?n] => destruct (SetEnsName a n) eqn:?
          | |- context [SetEnsAvatar ?a ?x ?y ?z] => destruct (SetEnsAvatar a x y z) eqn:?
          | |- context [WaitForTransaction ?a ?h] =>
              destruct (WaitForTransaction a h) eqn:?
          end; simpl).

Section Properties.
Context {GasInfo TxHash : Type}.
Implicit Types (a : answers GasInfo TxHash) (c : prog (trace GasInfo TxHash) unit).
Implicit Types (e : event GasInfo TxHash) (t : trace GasInfo TxHash).

(** The commands of the file, for the answers [a]: the call it asks the
    estimate with, its prompt, and the program. *)
Inductive isCommand a : result GasInfo -> string -> prog (trace GasInfo TxHash) unit -> Prop :=
  | is_setEnsName name :
      isCommand a (EstimateGasSetEnsName a name) confirmNamePrompt (setEnsName a name)
  | is_setEnsAvatar ercType contractAddress tokenId :
      isCommand a (EstimateGasSetEnsAvatar a ercType contractAddress tokenId)
        confirmAvatarPrompt (setEnsAvatar a ercType contractAddress tokenId).

Definition isClose e : bool := match e with EClose => true | _ => false end.

Definition isConfirm e : bool := match e with EConfirm _ => true | _ => false end.

Definition isAssign e : bool :=
  match e with EAssignMaxFeeAndLimit _ _ => true | _ => false end.

(** The event without the flag it may carry. *)
Definition withoutFlag e : event GasInfo TxHash :=
  match e with
  | EAssignMaxFeeAndLimit g _ => EAssignMaxFeeAndLimit g false
  | _ => e
  end.

(** The answers [a] with the flag --yes given or not. *)
Definition withYes (flag : bool) a : answers GasInfo TxHash :=
  {| yes := flag;
     NewClientFromCtx := NewClientFromCtx a;
     EstimateGasSetEnsName := EstimateGasSetEnsName a;
     EstimateGasSetEnsAvatar := EstimateGasSetEnsAvatar a;
     AssignMaxFeeAndLimit := AssignMaxFeeAndLimit a;
     Confirm := Confirm a;
     SetEnsName := SetEnsName a;
     SetEnsAvatar := SetEnsAvatar a;
     WaitForTransaction := WaitForTransaction a;
     Hex := Hex a |}.

(** The two commands are the same sequence, with their own calls and
    texts. *)
Lemma setEnsName_command a name :
  setEnsName a name =
  command a
    ("This will confirm the node's ENS name as '" +:+ name +:+ "'." +:+ nl +:+ nl
     +:+ colorYellow
     +:+ "NOTE: to confirm your name, you must first register it with the ENS application at https://app.ens.domains."
     +:+ nl
     +:+ "We recommend using a hardware wallet as the base domain, and registering your node as a subdomain of it."
     +:+ colorReset +:+ nl +:+ nl)
    (EEstimateGasSetEnsName name) (EstimateGasSetEnsName a name) confirmNamePrompt
    (ESetEnsName name) (SetEnsName a name) ("Setting ENS name..." +:+ nl)
    ("The ENS name associated with your node account is now '" +:+ name +:+ "'."
     +:+ nl +:+ nl).
Proof. reflexivity. Qed.

Lemma setEnsAvatar_command a ercType contractAddress tokenId :
  setEnsAvatar a ercType contractAddress tokenId =
  command a
    ("This will confirm the node's ENS avatar as '"
     +:+ avatar a ercType contractAddress tokenId +:+ "'." +:+ nl +:+ nl
     +:+ colorReset +:+ nl +:+ nl)
    (EEstimateGasSetEnsAvatar ercType contractAddress tokenId)
    (EstimateGasSetEnsAvatar a ercType contractAddress tokenId) confirmAvatarPrompt
    (ESetEnsAvatar ercType contractAddress tokenId)
    (SetEnsAvatar a ercType contractAddress tokenId) ("Setting ENS avatar..." +:+ nl)
    ("The ENS avatar associated with your node account is now '"
     +:+ avatar a ercType contractAddress tokenId +:+ "'." +:+ nl +:+ nl).
Proof. reflexivity. Qed.

(** C37: a command closes the client exactly when it opened it.  When
    the client cannot be opened the command returns that error and does
    nothing else; otherwise the run starts by opening the client and ends
    by closing it, once, whatever happens in between. *)
Theorem client_closed_when_opened a est prompt c :
  isCommand a est prompt c ->
  match NewClientFromCtx a with
  | Some err => run c = (Err err, [ENewClient])
  | None =>
      exists body, (run c).2 = ENewClient :: body ++ [EClose] /\
        forallb (fun e => negb (isClose e)) body = true
  end.
Proof.
  intros [name|ercType addr tokenId]; crunch;
    lazymatch goal with
    | |- exists body, _ :: ?t = _ /\ _ => by exists (removelast t)
    | _ => done
    end.
Qed.

(** C38: a transaction is sent at most once, and only after the estimate
    was given, the fees were settled without error and the user answered
    yes to the prompt of the command; the confirmation is the last event
    before the transaction. *)
Theorem transaction_needs_confirmation a est prompt c :
  isCommand a est prompt c ->
  existsb sends (run c).2 = true ->
  Confirm a prompt = true /\
  (exists g, est = Ok g /\ AssignMaxFeeAndLimit a g (yes a) = None) /\
  length (filter (fun e => sends e = true) (run c).2) = 1 /\
  last (take_while (fun e => negb (sends e)) (run c).2) = Some (EConfirm prompt).
Proof. intros [name|ercType addr tokenId]; crunch; try done; eauto 10. Qed.

(** When the user answers no, the command sends nothing, prints
    that it is cancelled, closes the client and returns no error,
    whether the flag --yes was given or not. *)
Theorem cancel_is_not_an_error a est prompt c g :
  isCommand a est prompt c ->
  NewClientFromCtx a = None -> est = Ok g ->
  AssignMaxFeeAndLimit a g (yes a) = None -> Confirm a prompt = false ->
  (run c).1 = Ok tt /\
  existsb sends (run c).2 = false /\
  exists t, (run c).2 = t ++ [EConfirm prompt; EPrint ("Cancelled." +:+ nl); EClose].
Proof.
  intros [name|ercType addr tokenId] Hn He Ha Hc; crunch; simplify_eq;
    (split_and!; [done..|by eexists [_; _; _; _]]).
Qed.

(** C39: the flag --yes reaches [AssignMaxFeeAndLimit] and nothing
    else.  When the fees are settled alike with and without the flag,
    the two runs return the same outcome and differ only by the flag in
    that call: the confirmation is asked in both. *)
Theorem yes_flag_reaches_fees_only a est prompt c flag :
  isCommand a est prompt c ->
  (forall g, AssignMaxFeeAndLimit a g flag = AssignMaxFeeAndLimit a g (yes a)) ->
  exists c', isCommand (withYes flag a) est prompt c' /\
    (run c').1 = (run c).1 /\
    withoutFlag <$> (run c').2 = withoutFlag <$> (run c).2.
Proof.
  intros [name|ercType addr tokenId] Hf;
    [exists (setEnsName (withYes flag a) name);
     split; [exact (is_setEnsName (withYes flag a) name)|]
    |exists (setEnsAvatar (withYes flag a) ercType addr tokenId);
     split; [exact (is_setEnsAvatar (withYes flag a) ercType addr tokenId)|]];
    crunch; simpl in *; rewrite ?Hf in *; by simplify_eq.
Qed.

(** When every call succeeds and the user answers yes,
    [setEnsName] returns no error and does exactly this, in this order:
    open the client, print the notice, ask the estimate, settle the fees
    with the flag, ask the confirmation, send the transaction, print its
    hash, wait for it, print the result, close the client. *)
Theorem setEnsName_success a name g h :
  NewClientFromCtx a = None -> EstimateGasSetEnsName a name = Ok g ->
  AssignMaxFeeAndLimit a g (yes a) = None -> Confirm a confirmNamePrompt = true ->
  SetEnsName a name = Ok h -> WaitForTransaction a h = None ->
  exists intro,
    run (setEnsName a name) =
      (Ok tt,
       [ENewClient; EPrint intro; EEstimateGasSetEnsName name;
        EAssignMaxFeeAndLimit g (yes a); EConfirm confirmNamePrompt; ESetEnsName name;
        EPrint ("Setting ENS name..." +:+ nl); EPrintTransactionHash h;
        EWaitForTransaction h;
        EPrint ("The ENS name associated with your node account is now '" +:+ name
                +:+ "'." +:+ nl +:+ nl);
        EClose]).
Proof.
  intros Hn He Ha Hc Hs Hw; eexists.
  unfold run, setEnsName, defer, call, callErr, emit, bind, modify, lift, throw, ret.
  by rewrite Hn; simpl; rewrite He; simpl; rewrite Ha; simpl; rewrite Hc; simpl;
    rewrite Hs; simpl; rewrite Hw.
Qed.

(** The same of [setEnsAvatar]: the avatar is printed before and after
    as type, address and token. *)
Lemma setEnsAvatar_success a ercType contractAddress tokenId g h :
  NewClientFromCtx a = None ->
  EstimateGasSetEnsAvatar a ercType contractAddress tokenId = Ok g ->
  AssignMaxFeeAndLimit a g (yes a) = None -> Confirm a confirmAvatarPrompt = true ->
  SetEnsAvatar a ercType contractAddress tokenId = Ok h -> WaitForTransaction a h = None ->
  exists intro,
    run (setEnsAvatar a ercType contractAddress tokenId) =
      (Ok tt,
       [ENewClient; EPrint intro; EEstimateGasSetEnsAvatar ercType contractAddress tokenId;
        EAssignMaxFeeAndLimit g (yes a); EConfirm confirmAvatarPrompt;
        ESetEnsAvatar ercType contractAddress tokenId;
        EPrint ("Setting ENS avatar..." +:+ nl); EPrintTransactionHash h;
        EWaitForTransaction h;
        EPrint ("The ENS avatar associated with your node account is now '"
                +:+ avatar a ercType contractAddress tokenId +:+ "'." +:+ nl +:+ nl);
        EClose]).
Proof.
  intros Hn He Ha Hc Hs Hw; eexists.
  unfold run, setEnsAvatar, defer, call, callErr, emit, bind, modify, lift, throw, ret.
  by rewrite Hn; simpl; rewrite He; simpl; rewrite Ha; simpl; rewrite Hc; simpl;
    rewrite Hs; simpl; rewrite Hw.
Qed.

End Properties.

(** ** The protocol, and the commands against it *)

Section Protocol.
Context {GasInfo TxHash : Type}.
Implicit Types (a : answers GasInfo TxHash) (c : prog (trace GasInfo TxHash) unit).
Implicit Types (e : event GasInfo TxHash) (t : trace GasInfo TxHash).
Implicit Types (ph : phase TxHash) (s : subject).

(** The rules whose event is a function of the subject, at each of the
    two subjects. *)
Lemma protocol_estimate_name name :
  protocol (GasInfo := GasInfo) (TxHash := TxHash) Announced (EEstimateGasSetEnsName name)
    (Estimated (Name name)).
Proof. exact (protocol_estimate (Name name)). Qed.

Lemma protocol_estimate_avatar ercType contractAddress tokenId :
  protocol (GasInfo := GasInfo) (TxHash := TxHash) Announced
    (EEstimateGasSetEnsAvatar ercType contractAddress tokenId)
    (Estimated (Avatar ercType contractAddress tokenId)).
Proof. exact (protocol_estimate (Avatar ercType contractAddress tokenId)). Qed.

Lemma protocol_ask_name name :
  protocol (GasInfo := GasInfo) (TxHash := TxHash) (Priced (Name name))
    (EConfirm confirmNamePrompt) (Asked (Name name)).
Proof. exact (protocol_ask (Name name)). Qed.

Lemma protocol_ask_avatar ercType contractAddress tokenId :
  protocol (GasInfo := GasInfo) (TxHash := TxHash)
    (Priced (Avatar ercType contractAddress tokenId))
    (EConfirm confirmAvatarPrompt) (Asked (Avatar ercType contractAddress tokenId)).
Proof. exact (protocol_ask (Avatar ercType contractAddress tokenId)). Qed.

Lemma protocol_send_name name :
  protocol (GasInfo := GasInfo) (TxHash := TxHash) (Asked (Name name)) (ESetEnsName name) Sent.
Proof. exact (protocol_send (Name name)). Qed.

Lemma protocol_send_avatar ercType contractAddress tokenId :
  protocol (GasInfo := GasInfo) (TxHash := TxHash)
    (Asked (Avatar ercType contractAddress tokenId))
    (ESetEnsAvatar ercType contractAddress tokenId) Sent.
Proof. exact (protocol_send (Avatar ercType contractAddress tokenId)). Qed.

Lemma protocol_rank ph e ph' : protocol ph e ph' -> rank ph < rank ph'.
Proof. destruct 1; simpl; try lia. destruct ph; simpl in *; (done || lia). Qed.

Lemma protocol_sends ph e ph' :
  protocol ph e ph' -> sends e = true -> exists s, ph = Asked s /\ e = sendOf s /\ ph' = Sent.
Proof. destruct 1 as [| |[]| | | |s| | | | |]; try done; intros _; by exists s. Qed.

Lemma accepts_app ph t1 t2 ph'' :
  accepts ph (t1 ++ t2) ph'' <-> exists ph', accepts ph t1 ph' /\ accepts ph' t2 ph''.
Proof.
  split.
  - induction t1 as [|e t1 IH] in ph |- *; simpl; [intros; eexists; split; [constructor|done]|].
    inversion 1 as [|? ? ph1 ? ? Hp Ha]; subst.
    destruct (IH _ Ha) as (ph' & H1 & H2). exists ph'. split; [by econstructor|done].
  - intros (ph' & H1 & H2). induction H1; simpl; [done|]. econstructor; eauto.
Qed.

Lemma accepts_snoc ph t e ph'' :
  accepts ph (t ++ [e]) ph'' <-> exists ph', accepts ph t ph' /\ protocol ph' e ph''.
Proof.
  rewrite accepts_app. split; intros (ph' & H1 & H2); exists ph'; (split; [done|]).
  - inversion H2 as [|? ? ? ? ? Hp Ha]; subst. by inversion Ha; subst.
  - econstructor; [done|constructor].
Qed.

(** A trace of the protocol is as long as the ranks of its ends allow:
    eleven events at most from the start. *)
Lemma accepts_rank ph t ph' : accepts ph t ph' -> rank ph + length t <= rank ph'.
Proof.
  induction 1 as [|ph e ph1 t ph2 Hp%protocol_rank _ IH]; simpl; lia.
Qed.

(** What came last when the protocol is at a phase that knows its
    subject. *)
Lemma accepts_history t ph :
  accepts Start t ph ->
  match ph with
  | Estimated s => exists t0, t = t0 ++ [estimateOf s]
  | Priced s => exists t0 gasInfo flag,
      t = t0 ++ [estimateOf s; EAssignMaxFeeAndLimit gasInfo flag]
  | Asked s => exists t0 gasInfo flag,
      t = t0 ++ [estimateOf s; EAssignMaxFeeAndLimit gasInfo flag; EConfirm (promptOf s)]
  | _ => True
  end.
Proof.
  induction t as [|e t IH] using rev_ind in ph |- *; [by inversion 1|].
  intros (ph' & Ha & Hp)%accepts_snoc. specialize (IH _ Ha).
  destruct Hp; try done; [by eexists|..];
    destruct IH as (t0 & IH); [|destruct IH as (gasInfo' & flag' & IH)]; subst t;
    rewrite <-(assoc_L (++)); simpl; eauto.
Qed.

(** Nothing is sent on the way to the prompt, and nothing after a
    transaction. *)
Lemma accepts_sends_before ph t ph' :
  accepts ph t ph' -> rank ph' <= 5 -> existsb sends t = false.
Proof.
  induction 1 as [|ph e ph1 t ph2 Hp Ha IH]; simpl; [done|]. intros Hr.
  rewrite IH by done. destruct (sends e) eqn:E; [|done].
  apply protocol_sends in Hp as (s & _ & _ & ->); [|done].
  apply accepts_rank in Ha. simpl in Ha. lia.
Qed.

Lemma accepts_sends_after ph t ph' :
  accepts ph t ph' -> 5 < rank ph -> existsb sends t = false.
Proof.
  induction 1 as [|ph e ph1 t ph2 Hp Ha IH]; simpl; [done|]. intros Hr.
  rewrite IH by (apply protocol_rank in Hp; lia). destruct (sends e) eqn:E; [|done].
  apply protocol_sends in Hp as (s & -> & _); [|done]. simpl in Hr. lia.
Qed.

(** What the protocol promises of a transaction: it is sent for what the
    estimate was asked for, right after the estimate, the fees and the
    prompt of that subject, and nothing is sent before or after it. *)
Lemma protocol_safe t1 e t2 ph :
  accepts Start (t1 ++ e :: t2) ph -> sends e = true ->
  exists s t0 gasInfo flag,
    e = sendOf s /\
    t1 = t0 ++ [estimateOf s; EAssignMaxFeeAndLimit gasInfo flag; EConfirm (promptOf s)] /\
    existsb sends t1 = false /\ existsb sends t2 = false.
Proof.
  intros (ph1 & H1 & H2)%accepts_app Hs.
  inversion H2 as [|? ? ph2 ? ? Hp Ha]; subst.
  apply protocol_sends in Hp as (s & -> & -> & ->); [|done].
  destruct (accepts_history _ _ H1) as (t0 & gasInfo & flag & ->).
  exists s, t0, gasInfo, flag. split_and!; [done..| |].
  - by apply (accepts_sends_before _ _ _ H1).
  - apply (accepts_sends_after _ _ _ Ha). simpl. lia.
Qed.

(** The run of a command is a trace of the protocol. *)
Ltac accepted :=
  repeat (eapply accepts_cons;
          [first [ apply protocol_estimate_name | apply protocol_estimate_avatar
                 | apply protocol_ask_name | apply protocol_ask_avatar
                 | apply protocol_send_name | apply protocol_send_avatar
                 | by constructor ]|]);
  apply accepts_nil.

Lemma command_accepted a est prompt c :
  isCommand a est prompt c ->
  exists ph, accepts Start (run c).2 ph /\
    match NewClientFromCtx a with
    | Some err => ph = Opened
    | None => exists from, ph = Closed from /\ ((run c).1 = Ok tt <-> completed ph = true)
    end.
Proof.
  intros [name|ercType addr tokenId]; crunch;
    (eexists; split; [accepted|]); try done; by eexists.
Qed.

(** C40: the two commands follow the protocol of a transaction.  For
    every daemon and every user the events of a run are a trace of the
    protocol from its start; when the client could not be opened the
    trace stops there, and otherwise it ends with the client closed; the
    command returns no error exactly when the protocol was followed to
    its end or cancelled by the user at the prompt. *)
Theorem command_follows_protocol a est prompt c :
  isCommand a est prompt c ->
  exists ph, accepts Start (run c).2 ph /\
    match NewClientFromCtx a with
    | Some err => ph = Opened
    | None => exists from, ph = Closed from /\ ((run c).1 = Ok tt <-> completed ph = true)
    end.
Proof. apply command_accepted. Qed.

(** What the commands owe to the protocol.  A transaction a command
    sends is the one the estimate was asked for: the call that sends
    comes right after the estimate for the same name or avatar, the fees
    and the prompt of that subject, and no other transaction is sent in
    the run. *)
Theorem transaction_is_the_one_estimated a est prompt c t1 e t2 :
  isCommand a est prompt c -> (run c).2 = t1 ++ e :: t2 -> sends e = true ->
  exists s t0 gasInfo flag,
    e = sendOf s /\
    t1 = t0 ++ [estimateOf s; EAssignMaxFeeAndLimit gasInfo flag; EConfirm (promptOf s)] /\
    existsb sends t1 = false /\ existsb sends t2 = false.
Proof.
  intros (ph & Ha & _)%command_accepted Ht. rewrite Ht in Ha. by eapply protocol_safe.
Qed.

(** A run of a command is eleven events long at most. *)
Corollary command_length a est prompt c :
  isCommand a est prompt c -> length (run c).2 <= 11.
Proof.
  intros (ph & Ha%accepts_rank & _)%command_accepted.
  assert (rank ph <= 11) by (destruct ph; simpl; lia). simpl in Ha. lia.
Qed.

End Protocol.

(** The function [delta] computes the protocol. *)
Section Decide.
Context {GasInfo TxHash : Type} `{EqDecision TxHash}.
Implicit Types (e : event GasInfo TxHash) (t : trace GasInfo TxHash) (ph : phase TxHash).

Lemma protocol_delta ph e ph' : protocol ph e ph' -> delta ph e = Some ph'.
Proof.
  destruct 1 as [| |[]| |[]|[]|[]| | | | |ph Ho]; simpl; rewrite ?decide_True; try done.
  destruct ph as [| | |s|s|s| | | | | | |]; simpl in *; try done; by destruct s.
Qed.

Lemma delta_protocol ph e ph' : delta ph e = Some ph' -> protocol ph e ph'.
Proof.
  destruct ph as [| | |s|s|asked| | | | | | |]; try destruct asked; destruct e; simpl;
    try done; repeat case_decide; intros ?; simplify_eq; destruct_and?; subst;
    first [ apply protocol_estimate_name | apply protocol_estimate_avatar
          | apply protocol_ask | apply protocol_send_name | apply protocol_send_avatar
          | by constructor ].
Qed.

Lemma deltas_accepts ph t ph' : deltas ph t = Some ph' <-> accepts ph t ph'.
Proof.
  split.
  - induction t as [|e t IH] in ph |- *; simpl; [intros [= <-]; constructor|].
    destruct (delta ph e) as [ph1|] eqn:E; [|done].
    intros Hd. econstructor; [by apply delta_protocol|by apply IH].
  - induction 1 as [|ph e ph1 t ph2 Hp%protocol_delta _ IH]; simpl; [done|].
    by rewrite Hp.
Qed.

End Decide.

End wallet.

(** ** The commands on concrete answers *)

Module EnsNameDemo.
Import wallet.

(** A daemon that accepts everything and a user who answers [confirm];
    the gas is a number and the hash a text. *)
Definition daemon (flag confirm : bool) : answers N string :=
  {| yes := flag;
     NewClientFromCtx := None;
     EstimateGasSetEnsName _ := Ok 21000%N;
     EstimateGasSetEnsAvatar _ _ _ := Ok 42000%N;
     AssignMaxFeeAndLimit _ _ := None;
     Confirm _ := confirm;
     SetEnsName _ := Ok "0xfeed";
     SetEnsAvatar _ _ _ := Ok "0xbeef";
     WaitForTransaction _ := None;
     Hex _ := "0x00";
  |}.

Lemma client_closed_when_opened_witness :
  exists body,
    (run (setEnsName (daemon false true) "node.eth")).2 = ENewClient :: body ++ [EClose] /\
    forallb (fun e => negb (isClose e)) body = true.
Proof.
  exact (client_closed_when_opened _ _ _ _ (is_setEnsName (daemon false true) "node.eth")).
Defined.

Lemma transaction_needs_confirmation_witness :
  Confirm (daemon true true) confirmAvatarPrompt = true /\
  (exists g, EstimateGasSetEnsAvatar (daemon true true) "erc721" [] 7 = Ok g /\
     AssignMaxFeeAndLimit (daemon true true) g true = None) /\
  length (filter (fun e => sends e = true)
            (run (setEnsAvatar (daemon true true) "erc721" [] 7)).2) = 1 /\
  last (take_while (fun e => negb (sends e))
          (run (setEnsAvatar (daemon true true) "erc721" [] 7)).2) =
    Some (EConfirm confirmAvatarPrompt).
Proof.
  apply (transaction_needs_confirmation _ _ _ _
           (is_setEnsAvatar (daemon true true) "erc721" [] 7)).
  vm_compute; reflexivity.
Defined.

Lemma cancel_is_not_an_error_witness :
  (run (setEnsName (daemon true false) "node.eth")).1 = Ok tt /\
  existsb sends (run (setEnsName (daemon true false) "node.eth")).2 = false /\
  exists t, (run (setEnsName (daemon true false) "node.eth")).2 =
    t ++ [EConfirm confirmNamePrompt; EPrint ("Cancelled." +:+ nl); EClose].
Proof.
  apply (cancel_is_not_an_error _ _ _ _ 21000%N
           (is_setEnsName (daemon true false) "node.eth")); reflexivity.
Defined.

Lemma yes_flag_reaches_fees_only_witness :
  exists c', isCommand (withYes true (daemon false true))
               (EstimateGasSetEnsName (daemon false true) "node.eth")
               confirmNamePrompt c' /\
    (run c').1 = (run (setEnsName (daemon false true) "node.eth")).1 /\
    withoutFlag <$> (run c').2 =
      withoutFlag <$> (run (setEnsName (daemon false true) "node.eth")).2.
Proof.
  apply (yes_flag_reaches_fees_only _ _ _ _ true
           (is_setEnsName (daemon false true) "node.eth")).
  reflexivity.
Defined.

Lemma setEnsName_success_witness :
  exists intro,
    run (setEnsName (daemon true true) "node.eth") =
      (Ok tt,
       [ENewClient; EPrint intro; EEstimateGasSetEnsName "node.eth";
        EAssignMaxFeeAndLimit 21000%N true; EConfirm confirmNamePrompt;
        ESetEnsName "node.eth"; EPrint ("Setting ENS name..." +:+ nl);
        EPrintTransactionHash "0xfeed"; EWaitForTransaction "0xfeed";
        EPrint ("The ENS name associated with your node account is now '" +:+ "node.eth"
                +:+ "'." +:+ nl +:+ nl);
        EClose]).
Proof.
  apply (setEnsName_success (daemon true true) "node.eth" 21000%N "0xfeed"); reflexivity.
Defined.

Lemma command_follows_protocol_witness :
  exists ph, accepts Start (run (setEnsName (daemon true true) "node.eth")).2 ph /\
    exists from, ph = Closed from /\
      ((run (setEnsName (daemon true true) "node.eth")).1 = Ok tt <-> completed ph = true).
Proof.
  exact (command_follows_protocol _ _ _ _ (is_setEnsName (daemon true true) "node.eth")).
Defined.

(** The protocol on the runs of the demonstration: followed to its end
    when the user answers yes, cancelled at the prompt otherwise.  It
    refuses a trace that sends without asking, and a trace that sends
    another name than the one the estimate was asked for. *)
Example protocol_on_runs :
  deltas Start (run (setEnsName (daemon true true) "node.eth")).2 = Some (Closed Finished) /\
  deltas Start (run (setEnsAvatar (daemon false false) "erc721" [] 7)).2
    = Some (Closed Cancelled) /\
  deltas (GasInfo := N) (TxHash := string) Start
    [ENewClient; EPrint ""; EEstimateGasSetEnsName "node.eth";
     EAssignMaxFeeAndLimit 21000%N true; ESetEnsName "node.eth"] = None /\
  deltas (GasInfo := N) (TxHash := string) Start
    [ENewClient; EPrint ""; EEstimateGasSetEnsName "node.eth";
     EAssignMaxFeeAndLimit 21000%N true; EConfirm confirmNamePrompt;
     ESetEnsName "other.eth"] = None.
Proof. split_and!; vm_compute; reflexivity. Qed.

(** With the flag --yes the user is still asked. *)
Example yes_flag_still_asks :
  existsb isConfirm (run (setEnsName (daemon true true) "node.eth")).2 = true /\
  existsb isConfirm (run (setEnsAvatar (daemon true true) "erc721" [] 7)).2 = true.
Proof. split; vm_compute; reflexivity. Qed.

(** The avatar is printed as type, address and token, separated by
    colons. *)
Example avatar_text : avatar (daemon false true) "erc721" [] 7 = "erc721:0x00:7".
Proof. vm_compute; reflexivity. Qed.

End EnsNameDemo.
